(* ===== verification/_CoqProject ===== *)
-Q . S2P
Prelude.v
PyDict.v
Shuffle.v
RoomRegistry.v
Cards.v
Ledger.v
Database.v
PokerBattle.v
ModeConfig.v
Hub.v
Fanout.v
StateFanout.v
LobbyWS.v
GameWS.v
Api.v
App.v
Interleave.v
