(* ===== verification/Prelude.v ===== *)
(** * A verification development for the CardGame backend

    The program (under [src/backend/app/]) is a FastAPI server in which a
    few participants meet in a room, mark themselves ready, and then play a
    one-card round of "poker battle": each participant draws one card from
    a shared shuffled deck, plays it, and the heaviest card wins.  Scores
    are written to an SQLite ledger.  Its parts, and how they interact:

    - the room registry ([room_manager.py]): a module-level dict [rooms]
      from room id to [{"room_id", "users": {username: ready}}], mutated
      by [create_room], [join_room], [set_ready], [leave_room] and read by
      [all_ready] and [get_room_info];
    - the game engine ([game_modes/poker_battle.py]): a module-level dict
      [game_states] from room id to the round state (deck, hands, table,
      per-player action flags, start time, finished flag), mutated by
      [initialize_game], [draw_card], [play_card] and [finish_game];
      [finish_game] computes the ranking with [card_weight] and a stable
      descending sort, then writes the ledger;
    - the ledger ([models.py], [database.py], [user_manager.py]): the
      tables [users], [game_sessions] (with a UNIQUE [room_id]) and
      [game_records], written by [register_user] and [finish_game];
    - the connection hubs ([room_ws.py]'s [room_connections] and
      [poker_battle.py]'s [ws_connections]): per-room lists of websockets,
      appended on connect, [remove]d on disconnect, iterated to broadcast;
    - the coordinators: the websocket handlers [room_websocket] (lobby:
      "ready") and [game_websocket] (game: "draw_card", "play_card",
      "restart_game", "finish_game"), which call the registry and the
      engine and fan results out through the hubs; and the HTTP endpoints
      of [main.py];
    - [game_manager.py]: loading mode configurations from JSON and
      importing a game mode by name.

    ** Files, in dependency order

    - [Prelude] (this file): the [py_scope] notations, the model of a
      Python call that returns, raises a handled exception or crashes with
      an unhandled one ([outcome]), the state-and-exception monad [PyM]
      in which a mutation made before a [raise] survives it, with [try_]
      for [except HTTPException], [zoom] to run a function on one part of
      the server's state and the frame predicate [preserves], the
      [cardgame] hint database and the tactics shared by the components,
      and generic list lemmas ([remove_first], permutations).
    - [PyDict]: Python's insertion-ordered [dict] as an association list
      ([get], [setitem], [delitem], [keys], [values]) and the [list]
      methods the code calls ([pop(0)], [remove], [append]); the
      well-formedness invariant (keys without duplicates) and the
      lookup/order lemmas every component uses.
    - [Shuffle]: [random.shuffle] as CPython writes it (Fisher-Yates over
      the indices from the top down, one [randbelow] draw per index), with
      the draws an input; it returns exactly the permutations of its
      input, each for some draws.
    - [RoomRegistry]: [room_manager.py], one definition per function, the
      random room id of [generate_random_room_id] from its draws, the
      retry loop of [create_room] with fuel, an abstract
      specification of rooms as partial functions with a refinement
      theorem, and the readiness properties.
    - [Cards]: the card, the 52-card deck of [initialize_game]'s list
      comprehension, the configuration record read from
      [poker_battle.json], [card_weight], and Python's stable
      [list.sort(key=..., reverse=True)] as an insertion sort, with the
      theorem that any stable descending sort gives the same list.
    - [Ledger]: the three tables of [models.py] as row lists with SQLite
      rowid assignment, [register_user] and [login_user] of
      [user_manager.py], and the database block of [finish_game]
      ([record_round]: one session row, then points and a record per
      player), with the UNIQUE constraint on [game_sessions.room_id];
      the invariant [ledger_ok] of the tables and the records of an
      account ([records_of]).
    - [Database]: the two URLs of [database.py], with Python's
      [str.replace].
    - [PokerBattle]: the game engine: [GameState], [initialize_game],
      [draw_card], [play_card] and [finish_game] in the [PyM] monad over
      [game_states] (and the ledger for [finish_game]), one [store] per
      in-place mutation in source order; [start_game]; the round
      invariant ([engine_inv]), the engine as a transition system
      ([engine_step]) and one round as [round_step].
    - [ModeConfig]: the configuration files: JSON values ([Json]) and
      what reading a file gives ([JFile]); the Python operations
      [card_weight] and [finish_game] apply to a configuration
      ([dict.get], subscripts, [*] and [+], with their exceptions) as
      [card_weight_py] and [score_results_py]; a schema language ([JTy],
      [has_type], the checker [typecheck]) with the configuration's
      schema [config_ty] and the abstraction [decode_config] to the
      [Config] record the engine uses; the loaders [load_config]
      ([CONFIG] of [poker_battle.py]), [load_modes_config]
      ([GameManager._load_modes_config]), [GameManager_init] and
      [startup], the order in which importing [main.py] runs them.
    - [Hub]: the connection hubs [room_connections] and [ws_connections]
      ([attach] on accept, [detach] = [list.remove] on disconnect), [send]
      and [broadcast] (a send to a closed connection raises and stops the
      loop), the decoded websocket message ([Inbound], with usernames as
      [JKey]: string, other hashable value, unhashable value), and
      [server_step], the life of handlers sharing a hub, generic in the
      handler, with its invariant and the stale-connection lemmas.
    - [Fanout]: a broadcast loop [for conn in hub.get(room_id, [])] as a
      Python list iterator over the room's shared list ([fan_step]),
      interleaved at each [await conn.send_text] with the other
      handlers' connects and disconnects on the same hub; run with no
      other handler in between it is the atomic [broadcast] the handler
      models use ([fan_alone_broadcast]).
    - [StateFanout]: the broadcast of a draw, whose response holds the
      room's state dict itself, serialized at each send while the other
      handlers draw, play and restart ([df_step]); the dict's value is
      tracked while it is the room's entry ([track], [df_inv]).
    - [LobbyWS]: [room_websocket] of [room_ws.py]: [lobby_handle] is one
      iteration of its loop over the registry, the hub and the messages
      sent; [lobby_step] is [server_step] over it.
    - [GameWS]: [game_websocket] of [poker_battle.py] (lines 187-259):
      [game_handle] runs the engine on the message's username and card
      ([draw_by], [play_by]), routes replies and broadcasts, and finishes
      the round after the last play ([auto_finish]); [game_step] is
      [server_step] over it, the environment ([GameEnv]) choosing closed
      clients, shuffle draws and time at each message.
    - [Api]: the endpoints of [main.py] ([register], [login],
      [room_create], [room_join], [room_leave], [room_info], [game_start],
      [get_user_records]) with their field checks and status codes, and
      [GameManager.start_game] ([gm_start_game]).
    - [Interleave]: [finish_game] as a coroutine: the call cut at its four
      [await]s (session insert, user lookup, points update, record insert)
      into segments ([step_task] on a program point [FPC]), the event
      loop resuming any suspended call ([sched_step], or a given order
      [run_schedule]), and one call awaited with nothing else running
      ([run_alone]).
    - [App]: the server process and the database file: the
      module-level state of a process ([Proc]: [rooms], [game_states],
      both hubs, the game manager and [CONFIG]), the file [test.db]
      ([Server.sv_file]), which outlives the process, and [app_step], the
      life of the server: a launch (the imports, through
      [ModeConfig.startup]), the [startup] hook of [main.py] (connect,
      [metadata.create_all], which keeps existing tables), every endpoint
      and websocket message as a request on the shared state
      ([run_request], composing [Api], [RoomRegistry], [PokerBattle] and
      [Ledger]), websocket connects and disconnects, and the process's
      exit.

    ** What the theorems show (claims C1-C39)

    - Engine (C1-C8, C10, C12, [PokerBattle]): in every reachable
      [game_states] each of the 52 cards is in exactly one of deck, a
      hand or the table and every player is waiting, holds the one card
      drawn, or has played it (C1, by induction on [rtc engine_step],
      with [initialize_game] establishing it, C7); but a [draw_card] by a
      user who is not a player pops the front card and then crashes with
      a [KeyError], losing it (C2); [draw_card], [play_card] and
      [finish_game] on every branch, errors in the code's order and
      leaving the state unchanged (C3-C5); a room is scored once in its
      lifetime, because a second session insert for it violates the
      UNIQUE constraint (C6); over any reachable order of plays, the
      two-player result gives a tie to the first member of the room, not
      to the first to play (C8), and the three-player result ranks the
      cards by decreasing weight, ties in join order, with win, draw and
      lose in that order (C12); a finished round refuses every further
      action (C10).
    - Dealing (C11, [Shuffle]): [random.shuffle] deals exactly the
      permutations of the deck: each result is one, and each is reached
      by some draws.  That the model of [list.sort] is the unique stable
      descending sort is a lemma of [Cards].
    - Configuration (C9, C15, C16, [ModeConfig]): a configuration of type
      [config_ty] makes the code's reads of it succeed with exactly what
      the engine model computes from [decode_config], so the [Config]
      record is a faithful abstraction of a well-typed file (C9, a type
      soundness theorem); the directory loader on every branch (C15);
      the loaders accept any JSON, so a file without [scoring] or with
      weight tables of other types passes the startup and makes the
      game handler crash in [finish_game] (C16).
    - Registry (C13-C14, C19-C21, C36, [RoomRegistry]): the association
      lists refine a [gmap] specification (C13); an empty room is "all
      ready" (C14); [leave_room] on every branch (C19); [create_room]
      returns a fresh 8-character id as soon as one draw within the fuel
      is fresh (C20); the ids are exactly the strings of 8 characters
      among ['A']-['Z'] and ['0']-['9'] (C21); joining again keeps every
      ready flag and the members' order (C36).  The well-formedness
      invariant of reachable registries, that no operation but leaving
      resets a ready flag, and [set_ready] on every branch are lemmas.
    - Broadcasts (C17-C18, [Fanout]): with no disconnect in the room, a
      broadcast reaches every websocket the room had when it began, once
      and in order, and then some of those that joined (C17, by an
      invariant over the interleaved steps); a disconnect of a websocket
      the loop has passed makes it skip a live one (C18).
    - Ledger (C22, C37, [Ledger]): register then login round trip;
      recording a round adds each player's score to their points exactly
      once.  The ledger invariant ([ledger_ok]: unique names and ids, one
      session per room, records owned by accounts, points equal to the
      sum of the recorded score changes) is preserved by [register_user]
      and [record_round].
    - Lobby (C23-C26, [LobbyWS]): a ["ready"] message on every branch
      (C23); [game_start] is re-broadcast on every ["ready"] of an all-ready
      room (C24); a broadcast stops at the first closed connection (C25);
      a live handler's disconnect always finds its websocket (C26, by
      induction on the server relation).  That an uncaught exception
      leaves a websocket in the hub forever is a lemma.
    - Game websocket (C28-C30, C33, [GameWS]): where errors go
      (C28); the last play finishes the round and broadcasts the result
      (C29); in a room already scored the last play crashes the handler
      (C30); an unknown room makes restart and finish crash (C33).  That
      a draw by a non-player leaves a stale websocket and that a play in
      a finished round broadcasts two errors are lemmas.
    - Server lifecycle (C27, C32, [App]): along any run of the server,
      restarts included, a consistent database file stays consistent
      ([ledger_ok]) and only grows by appended rows (C32, by induction on
      [rtc app_step] over one lemma classifying the writes of a request);
      but a restarted process starts with no rooms, so [create_room] can
      hand out the id of a room scored by an earlier process, and in
      every later state finishing a round in that room crashes with
      [IntegrityError] (C27).
    - Broadcast state (C31, [StateFanout]): the connections of one draw
      broadcast can receive different round states, because the response
      holds the live dict and another player can draw between two sends.
    - HTTP (C34-C35, [Api]): [/game/start] on every branch, an explicit
      [null] mode included (C34); after a successful [finish_game],
      [/user/records] of each player shows the new points and exactly one
      new record of the round, in any order the database may return
      (C35).  [/room/info], [/user/records] on every branch and the field
      checks, which come first (room creation never reports failure),
      are lemmas.
    - Interleaving (C38-C39, [Interleave]): in every interleaving, at most
      one call per room gets past the session insert, and none on a room
      already scored (C38, by an invariant over [rtc sched_step]); but
      whenever two calls are about to fetch the same player's row, the
      interleaved schedule loses the score change of the call that
      writes first, where the sequential one keeps both (C39).  That a
      call run alone computes what the atomic [finish_game] computes, and
      a concrete pair of rooms reaching such a state, are lemmas.

    ** Randomness, time and fuel

    [random.shuffle], [random.choices] and [datetime.utcnow] are inputs
    of the model: the shuffle takes the [randbelow] results, the room id
    takes the character draws of each attempt, [initialize_game] takes the
    timestamp.  The [while room_id in rooms] loop of [create_room] runs
    on fuel, one unit per attempt; C20 shows that fuel [n + 1] is enough
    when attempt [n] draws a fresh id, so the fuel bounds the number of
    colliding draws the code would retry and nothing else.  [run_alone]
    runs on fuel, one unit per segment; [run_alone_finish_game] shows
    that [3 * n + 5]
    segments (the check, the insert, three per player, the end of the
    loop, the finish and the return) are enough for a round of [n]
    players.  [str_replace] runs on fuel, the length of the string: each
    step consumes a character, and more fuel changes nothing.

    ** Not modelled (yet)

    Interleavings other than those of [Interleave] and [Fanout]: each
    handler iteration otherwise runs atomically in the server relations,
    so the round state a broadcast serializes per connection while
    another handler mutates it is not stated; in [Interleave] only
    [finish_game] calls are scheduled, with [draw_card], [play_card] and
    [initialize_game] (no [await]) left out.  Reading files and
    [json.load] (a file is its parsed value or an exception), floats in
    configurations, the text [str(e)] of exception details; the SQL
    engine and the connection pool behind [database.connect()] (the
    database is the value [sv_file], connected or not as a flag); the
    CORS middleware of [main.py]; a crash of the process between two
    requests other than its exit (a request runs atomically in
    [app_step], the interleavings of its awaits are those of
    [Interleave]); JSON encoding ([json.dumps]): a sent message carries the
    values it would serialize; payload fields of non-string JSON types in
    [main.py]; a process whose [CONFIG] does not have the type
    [config_ty]: [App] launches only processes with a well-typed
    configuration, for which [decode_config] is faithful (C9), and the
    crashes of the others are C16; the order SQLite gives rows of equal
    [ORDER BY] keys, which is an input ([order_by_desc]). *)

From stdpp Require Export base list strings relations.
From Stdlib Require Export ZArith Lia.

Declare Scope py_scope.
Delimit Scope py_scope with py.
Open Scope py_scope.

(** ** Exceptions

    A Python call either returns, raises an [HTTPException] that the
    caller catches (a domain error [E]), or raises another exception that
    nobody in the code catches ([KeyError], [TypeError], ...), which ends
    the websocket handler's task. *)

Inductive crash :=
  | KeyError
  | TypeError
  | ValueError
  | IntegrityError
  | AttributeError
  | SendError.

#[export] Instance crash_eq_dec : EqDecision crash.
Proof. solve_decision. Defined.

Inductive outcome (E A : Type) :=
  | Ok (a : A)
  | Raise (e : E)
  | Crash (c : crash).
Arguments Ok {E A} a.
Arguments Raise {E A} e.
Arguments Crash {E A} c.

(** ** The state-and-exception monad

    Python mutates shared dicts in place, and a later [raise] does not
    undo an earlier mutation: [PyM S E A] keeps the state reached at the
    point of the exception. *)

Definition PyM (S E A : Type) := S -> S * outcome E A.

Definition ret {S E A} (a : A) : PyM S E A := fun s => (s, Ok a).
Definition raise {S E A} (e : E) : PyM S E A := fun s => (s, Raise e).
Definition crash_with {S E A} (c : crash) : PyM S E A := fun s => (s, Crash c).
Definition get_st {S E} : PyM S E S := fun s => (s, Ok s).
Definition put_st {S E} (s' : S) : PyM S E unit := fun _ => (s', Ok tt).

Definition bind {S E A B} (m : PyM S E A) (k : A -> PyM S E B) : PyM S E B :=
  fun s =>
    match m s with
    | (s', Ok a) => k a s'
    | (s', Raise e) => (s', Raise e)
    | (s', Crash c) => (s', Crash c)
    end.

Notation "x <- m ;; k" := (bind m (fun x => k))
  (at level 100, m at next level, right associativity) : py_scope.
Notation "m ;; k" := (bind m (fun _ => k))
  (at level 100, right associativity) : py_scope.

(** A computation on values alone, with no state: the same sequencing on
    an [outcome]. *)
Definition obind {E A B} (o : outcome E A) (k : A -> outcome E B) : outcome E B :=
  match o with
  | Ok a => k a
  | Raise e => Raise e
  | Crash c => Crash c
  end.

Notation "x <-? o ;; k" := (obind o (fun x => k))
  (at level 100, o at next level, right associativity) : py_scope.

(** A Python function that mutates its state and returns a value, with no
    exception. *)
Definition lift_st {S E A} (f : S -> S * A) : PyM S E A :=
  fun s => let '(s', a) := f s in (s', Ok a).

(** Run a computation for its final state or its outcome. *)
Definition exec {S E A} (m : PyM S E A) (s : S) : S := fst (m s).
Definition result {S E A} (m : PyM S E A) (s : S) : outcome E A := snd (m s).

(** [try: m except HTTPException as e: ...]: the handled exception
    becomes a value, an unhandled one still propagates. *)
Definition try_ {S E E' A} (m : PyM S E A) : PyM S E' (E + A) :=
  fun s => match m s with
           | (s', Ok a) => (s', Ok (inr a))
           | (s', Raise e) => (s', Ok (inl e))
           | (s', Crash c) => (s', Crash c)
           end.

(** Run a computation on one part [S] of a larger state [W], the other
    parts unchanged: the module-level dict a function mutates, inside
    the state of the whole server. *)
Definition zoom {W S E A} (view : W -> S) (update : S -> W -> W) (m : PyM S E A)
    : PyM W E A :=
  fun w => let '(s', o) := m (view w) in (update s' w, o).

(** ** Automation *)

Create HintDb cardgame.
Create Rewrite HintDb cardgame_rw.

Lemma bind_ret {S E A B} (a : A) (k : A -> PyM S E B) s :
  bind (ret a) k s = k a s.
Proof. reflexivity. Qed.

Lemma bind_raise {S E A B} (e : E) (k : A -> PyM S E B) s :
  bind (raise e) k s = (s, Raise e).
Proof. reflexivity. Qed.

Lemma bind_crash {S E A B} (c : crash) (k : A -> PyM S E B) s :
  bind (crash_with c) k s = (s, Crash c).
Proof. reflexivity. Qed.

Lemma bind_get_st {S E B} (k : S -> PyM S E B) s : bind get_st k s = k s s.
Proof. reflexivity. Qed.

Lemma bind_ok {S E A B} (m : PyM S E A) (k : A -> PyM S E B) s s' a :
  m s = (s', Ok a) -> bind m k s = k a s'.
Proof. intros H. unfold bind. by rewrite H. Qed.

Lemma bind_not_ok {S E A B} (m : PyM S E A) (k : A -> PyM S E B) s s' e :
  m s = (s', Raise e) -> bind m k s = (s', Raise e).
Proof. intros H. unfold bind. by rewrite H. Qed.

Lemma bind_crashes {S E A B} (m : PyM S E A) (k : A -> PyM S E B) s s' c :
  m s = (s', Crash c) -> bind m k s = (s', Crash c).
Proof. intros H. unfold bind. by rewrite H. Qed.

Lemma try_ok {S E E' A} (m : PyM S E A) s s' a :
  m s = (s', Ok a) -> try_ (E' := E') m s = (s', Ok (inr a)).
Proof. intros H. unfold try_. by rewrite H. Qed.

Lemma try_raise {S E E' A} (m : PyM S E A) s s' e :
  m s = (s', Raise e) -> try_ (E' := E') m s = (s', Ok (inl e)).
Proof. intros H. unfold try_. by rewrite H. Qed.

Lemma try_crash {S E E' A} (m : PyM S E A) s s' c :
  m s = (s', Crash c) -> try_ (E' := E') m s = (s', Crash c).
Proof. intros H. unfold try_. by rewrite H. Qed.

Lemma zoom_run {W S E A} (view : W -> S) (update : S -> W -> W) (m : PyM S E A) w s' o :
  m (view w) = (s', o) -> zoom view update m w = (update s' w, o).
Proof. intros H. unfold zoom. by rewrite H. Qed.

#[export] Hint Rewrite @bind_ret @bind_raise @bind_crash : cardgame_rw.

(** ** Frame properties: a computation that leaves a part of the state alone *)

Definition preserves {W X E A} (f : W -> X) (m : PyM W E A) : Prop :=
  forall w w' o, m w = (w', o) -> f w' = f w.

Lemma preserves_ret {W X E A} (f : W -> X) (a : A) : preserves (E := E) f (ret a).
Proof. by intros w w' o [= <- _]. Qed.

Lemma preserves_raise {W X E A} (f : W -> X) (e : E) : preserves (A := A) f (raise e).
Proof. by intros w w' o [= <- _]. Qed.

Lemma preserves_crash_with {W X E A} (f : W -> X) c : preserves (E := E) (A := A) f (crash_with c).
Proof. by intros w w' o [= <- _]. Qed.

Lemma preserves_get_st {W X E} (f : W -> X) : preserves (E := E) f get_st.
Proof. by intros w w' o [= <- _]. Qed.

Lemma preserves_bind {W X E A B} (f : W -> X) (m : PyM W E A) (k : A -> PyM W E B) :
  preserves f m -> (forall a, preserves f (k a)) -> preserves f (bind m k).
Proof.
  intros Hm Hk w w' o. unfold bind. destruct (m w) as [w1 [a|e|c]] eqn:E1.
  - intros H. rewrite (Hk a _ _ _ H). by eapply Hm.
  - intros [= <- _]. by eapply Hm.
  - intros [= <- _]. by eapply Hm.
Qed.

Lemma preserves_try {W X E E' A} (f : W -> X) (m : PyM W E A) :
  preserves f m -> preserves f (try_ (E' := E') m).
Proof.
  intros Hm w w' o. unfold try_. destruct (m w) as [w1 [a|e|c]] eqn:E1; intros [= <- _]; by eapply Hm.
Qed.

Lemma preserves_zoom {W S X E A} (f : W -> X) (view : W -> S) (update : S -> W -> W) (m : PyM S E A) :
  (forall s w, f (update s w) = f w) -> preserves f (zoom view update m).
Proof. intros Hu w w' o. unfold zoom. destruct (m (view w)). intros [= <- _]. apply Hu. Qed.

#[export] Hint Resolve preserves_ret preserves_raise preserves_crash_with preserves_get_st
  preserves_try preserves_zoom : cardgame.

(** Show that a computation built with [bind], [zoom] and case analysis
    leaves a part of the state alone. *)
Ltac solve_preserves :=
  repeat first
    [ apply preserves_bind; [|intros ?]
    | solve [eauto with cardgame]
    | case_match ].

(** Split the boolean and option tests of a definition being unfolded. *)
Ltac case_guards :=
  repeat match goal with
  | |- context [match ?x with _ => _ end] =>
      lazymatch x with
      | context [match _ with _ => _ end] => fail
      | _ => let E := fresh "E" in destruct x eqn:E
      end
  end.

(** Close a decidable proposition about concrete data by evaluation. *)
Ltac decide_by_eval := apply (bool_decide_unpack _); vm_compute; exact I.

(** ** Generic list lemmas *)

Section Lists.
Context {A : Type} `{EqDecision A}.

(** Python's [list.remove(x)]: delete the first element equal to [x]. *)
Fixpoint remove_first (x : A) (l : list A) : list A :=
  match l with
  | [] => []
  | y :: l' => if decide (x = y) then l' else y :: remove_first x l'
  end.

Lemma remove_first_perm x l : x ∈ l -> x :: remove_first x l ≡ₚ l.
Proof.
  induction l as [|y l IH]; simpl; intros Hin; [by apply elem_of_nil in Hin|].
  case_decide; [by subst|].
  apply elem_of_cons in Hin as [->|Hin]; [done|].
  rewrite perm_swap. by constructor; apply IH.
Qed.

Lemma remove_first_notin x l : x ∉ l -> remove_first x l = l.
Proof.
  induction l as [|y l IH]; simpl; intros Hin; [done|].
  case_decide; [subst; destruct Hin; left|]. f_equal. apply IH. intros ?; apply Hin; by right.
Qed.

Lemma length_remove_first x l :
  x ∈ l -> length (remove_first x l) = pred (length l).
Proof. intros Hin. apply remove_first_perm, Permutation_length in Hin. simpl in *. lia. Qed.

Lemma remove_first_sublist x l : remove_first x l `sublist_of` l.
Proof.
  induction l as [|y l IH]; simpl; [done|].
  case_decide; [by apply sublist_cons|]. by apply sublist_skip.
Qed.

Lemma map_remove_first_sublist {B} (f : A -> B) x l :
  map f (remove_first x l) `sublist_of` map f l.
Proof.
  induction l as [|y l IH]; simpl; [done|].
  case_decide; simpl; [by apply sublist_cons|by apply sublist_skip].
Qed.

Lemma elem_of_remove_first x y l : y <> x -> y ∈ l -> y ∈ remove_first x l.
Proof.
  induction l as [|z l IH]; simpl; intros Hne Hin; [done|].
  apply elem_of_cons in Hin as [->|Hin]; case_decide; subst; try done.
  - left.
  - right. by apply IH.
Qed.

Lemma elem_of_remove_first_inv x y l : y ∈ remove_first x l -> y ∈ l.
Proof. intros Hin. by eapply elem_of_sublist, remove_first_sublist. Qed.

Lemma filter_none (P : A -> Prop) `{forall x, Decision (P x)} (l : list A) :
  (forall x, x ∈ l -> ~ P x) -> filter P l = [].
Proof.
  induction l as [|y l IH]; intros Hl; [done|]. rewrite filter_cons.
  rewrite decide_False by (apply Hl; left). apply IH. intros x Hx. apply Hl. by right.
Qed.

Lemma filter_eq_notin (x : A) (l : list A) :
  x ∉ l -> filter (fun y => y = x) l = [].
Proof. intros Hin. apply filter_none. intros y Hy ->. contradiction. Qed.

(** A duplicate-free list holds a member exactly once. *)
Lemma NoDup_filter_eq_length (x : A) (l : list A) :
  NoDup l -> x ∈ l -> length (filter (fun y => y = x) l) = 1.
Proof.
  induction l as [|y l IH]; intros Hnd Hin; [by apply elem_of_nil in Hin|].
  apply NoDup_cons in Hnd as [Hy Hnd]. rewrite filter_cons.
  apply elem_of_cons in Hin as [->|Hin].
  - rewrite decide_True by done. simpl. by rewrite filter_eq_notin.
  - rewrite decide_False by (intros ->; done). by apply IH.
Qed.

(** Deciding two equivalent propositions gives the same count. *)
Lemma decide_count_iff (P Q : Prop) `{Decision P} `{Decision Q} :
  (P <-> Q) -> (if decide P then 1 else 0) = (if decide Q then 1 else 0).
Proof. intros HPQ. repeat case_decide; tauto. Qed.

(** Replacing the [i]th member of a list changes a filtered count by
    the members' contributions. *)
Lemma length_filter_insert (P : A -> Prop) `{forall x, Decision (P x)} (l : list A) i x y :
  l !! i = Some y ->
  length (filter P (<[i := x]> l)) + (if decide (P y) then 1 else 0) =
  length (filter P l) + (if decide (P x) then 1 else 0).
Proof.
  revert i. induction l as [|z l IH]; intros [|i] Hi; simplify_eq/=.
  - rewrite !filter_cons. repeat case_decide; simpl; lia.
  - rewrite !filter_cons. specialize (IH i Hi). repeat case_decide; simpl; lia.
Qed.

End Lists.

#[export] Hint Resolve remove_first_perm remove_first_sublist : cardgame.
