(* ===== verification/PyDict.v ===== *)
(** * Python's insertion-ordered [dict] and the [list] methods the code uses

    A Python 3.7+ dict remembers the order in which keys were first
    inserted: assigning to an existing key keeps its position, assigning
    to a new key appends it, [del] removes it.  The card game depends on
    this order: [initialize_game] takes the players in the order of the
    room's [users] dict, and [finish_game]'s tie-break follows the order of
    the [table] dict.  So a dict is modelled as an association list, not as
    a finite map, and its well-formedness is that no key occurs twice. *)

From S2P Require Import Prelude.
From stdpp Require Import gmap.

Abbreviation dict K V := (list (K * V)).

Section Dict.
Context {K V : Type} `{EqDecision K}.

(** [d.get(k)]: the value of [k], [None] when absent. *)
Fixpoint get (d : dict K V) (k : K) : option V :=
  match d with
  | [] => None
  | (k', v) :: d' => if decide (k = k') then Some v else get d' k
  end.

(** [k in d] *)
Definition mem (d : dict K V) (k : K) : bool :=
  match get d k with Some _ => true | None => false end.

(** [d.get(k, default)] *)
Definition get_default (d : dict K V) (k : K) (default : V) : V :=
  match get d k with Some v => v | None => default end.

(** [d[k] = v]: update in place, or append a new key at the end. *)
Fixpoint setitem (d : dict K V) (k : K) (v : V) : dict K V :=
  match d with
  | [] => [(k, v)]
  | (k', v') :: d' =>
      if decide (k = k') then (k, v) :: d' else (k', v') :: setitem d' k v
  end.

(** [del d[k]] on a present key. *)
Fixpoint delitem (d : dict K V) (k : K) : dict K V :=
  match d with
  | [] => []
  | (k', v') :: d' => if decide (k = k') then d' else (k', v') :: delitem d' k
  end.

Definition keys (d : dict K V) : list K := map fst d.
Definition values (d : dict K V) : list V := map snd d.

(** [{k: f(k) for k in ks}] over duplicate-free [ks]. *)
Definition from_keys (ks : list K) (f : K -> V) : dict K V :=
  map (fun k => (k, f k)) ks.

Definition dict_wf (d : dict K V) : Prop := NoDup (keys d).

(** ** Lookup lemmas *)

Lemma get_setitem_eq d k v : get (setitem d k v) k = Some v.
Proof.
  induction d as [|[k' v'] d IH]; simpl; [by rewrite decide_True|].
  case_decide; simpl; [by rewrite decide_True|]. by rewrite decide_False.
Qed.

Lemma get_setitem_ne d k k' v : k <> k' -> get (setitem d k v) k' = get d k'.
Proof.
  intros Hne. induction d as [|[k0 v0] d IH]; simpl; [by rewrite decide_False|].
  case_decide; simpl.
  - subst. rewrite !decide_False; auto.
  - case_decide; auto.
Qed.

Lemma get_Some_keys d k v : get d k = Some v -> k ∈ keys d.
Proof.
  induction d as [|[k' v'] d IH]; simpl; [done|].
  case_decide; intros Hg; [subst; left|right; auto].
Qed.

Lemma get_None_keys d k : get d k = None <-> k ∉ keys d.
Proof.
  induction d as [|[k' v'] d IH]; simpl; [split; [intros _ Hin; by apply elem_of_nil in Hin|done]|].
  rewrite elem_of_cons. case_decide; [subst; naive_solver|]. rewrite IH. naive_solver.
Qed.

Lemma get_in_keys d k : k ∈ keys d -> exists v, get d k = Some v.
Proof.
  intros Hin. destruct (get d k) eqn:E; [eauto|]. by apply get_None_keys in E.
Qed.

Lemma get_elem_of d k v : get d k = Some v -> (k, v) ∈ d.
Proof.
  induction d as [|[k' v'] d IH]; simpl; [done|].
  case_decide; intros Hg; [simplify_eq; left|right; auto].
Qed.

Lemma elem_of_get d k v : dict_wf d -> (k, v) ∈ d -> get d k = Some v.
Proof.
  unfold dict_wf, keys. induction d as [|[k' v'] d IH]; simpl;
    intros Hnd Hin; [by apply elem_of_nil in Hin|].
  apply NoDup_cons in Hnd as [Hk' Hnd].
  apply elem_of_cons in Hin as [Heq|Hin].
  - simplify_eq. by rewrite decide_True.
  - rewrite decide_False; [auto|]. intros ->. apply Hk'.
    apply list_elem_of_fmap. exists (k', v). auto.
Qed.

Lemma mem_spec d k : mem d k = true <-> k ∈ keys d.
Proof.
  unfold mem. destruct (get d k) eqn:E.
  - split; [intros _; by eapply get_Some_keys|done].
  - apply get_None_keys in E. split; [done|contradiction].
Qed.

Lemma mem_false d k : k ∉ keys d -> mem d k = false.
Proof. intros Hk. unfold mem. by rewrite (proj2 (get_None_keys d k) Hk). Qed.

Lemma mem_true d k v : get d k = Some v -> mem d k = true.
Proof. intros Hg. unfold mem. by rewrite Hg. Qed.

Lemma mem_false_get d k : mem d k = false -> get d k = None.
Proof. unfold mem. by destruct (get d k). Qed.

Lemma setitem_absent d k v : k ∉ keys d -> setitem d k v = d ++ [(k, v)].
Proof.
  unfold keys. induction d as [|[k' v'] d IH]; simpl; intros Hin; [done|].
  rewrite decide_False; [|intros ->; apply Hin; left]. f_equal.
  apply IH. intros ?; apply Hin; by right.
Qed.

Lemma setitem_setitem d k v v' : setitem (setitem d k v) k v' = setitem d k v'.
Proof.
  induction d as [|[k0 v0] d IH]; simpl; [by rewrite decide_True|].
  case_decide; simpl; [by rewrite decide_True|]. rewrite decide_False by done. by f_equal.
Qed.

(** Storing the value a key already has changes nothing. *)
Lemma setitem_get_same d k v : get d k = Some v -> setitem d k v = d.
Proof.
  induction d as [|[k0 v0] d IH]; simpl; [done|].
  case_decide; [intros [= ->]; by subst|]. intros Hg. by rewrite IH.
Qed.

(** ** Key order *)

Lemma keys_setitem_present d k v : k ∈ keys d -> keys (setitem d k v) = keys d.
Proof.
  unfold keys. induction d as [|[k' v'] d IH]; simpl; intros Hin;
    [by apply elem_of_nil in Hin|].
  case_decide; simpl; [by subst|]. f_equal. apply IH.
  apply elem_of_cons in Hin as [->|]; [done|auto].
Qed.

Lemma keys_setitem_absent d k v : k ∉ keys d -> keys (setitem d k v) = keys d ++ [k].
Proof.
  unfold keys. induction d as [|[k' v'] d IH]; simpl; intros Hin; [done|].
  rewrite decide_False; [|intros ->; apply Hin; left]. simpl. f_equal.
  apply IH. intros ?; apply Hin; by right.
Qed.

Lemma keys_setitem d k v :
  keys (setitem d k v) = if mem d k then keys d else keys d ++ [k].
Proof.
  destruct (mem d k) eqn:E.
  - apply mem_spec in E. by apply keys_setitem_present.
  - apply keys_setitem_absent. intros Hin. apply mem_spec in Hin. congruence.
Qed.

Lemma keys_delitem d k : keys (delitem d k) = remove_first k (keys d).
Proof.
  unfold keys. induction d as [|[k' v'] d IH]; simpl; [done|].
  case_decide; simpl; [done|]. by f_equal.
Qed.

Lemma keys_from_keys ks f : keys (from_keys ks f) = ks.
Proof. unfold keys, from_keys. rewrite map_map. apply map_id. Qed.

Lemma get_from_keys ks f k : k ∈ ks -> get (from_keys ks f) k = Some (f k).
Proof.
  induction ks as [|k' ks IH]; simpl; intros Hin; [by apply elem_of_nil in Hin|].
  case_decide; [by subst|]. apply IH. apply elem_of_cons in Hin as [->|]; [done|auto].
Qed.

(** ** Well-formedness *)

Lemma dict_wf_setitem d k v : dict_wf d -> dict_wf (setitem d k v).
Proof.
  unfold dict_wf. intros Hnd. rewrite keys_setitem. destruct (mem d k) eqn:E; [done|].
  apply NoDup_app. split; [done|]. split; [|apply NoDup_singleton].
  intros x Hx ->%list_elem_of_singleton. apply mem_spec in Hx. congruence.
Qed.

Lemma dict_wf_delitem d k : dict_wf d -> dict_wf (delitem d k).
Proof.
  unfold dict_wf. rewrite keys_delitem. intros Hnd.
  eapply sublist_NoDup; [done|apply remove_first_sublist].
Qed.

Lemma get_delitem_eq d k : dict_wf d -> get (delitem d k) k = None.
Proof.
  intros Hwf. apply get_None_keys. rewrite keys_delitem.
  revert Hwf. unfold dict_wf. generalize (keys d) as l.
  induction l as [|k' l IH]; simpl; intros Hnd; [apply not_elem_of_nil|].
  apply NoDup_cons in Hnd as [Hk' Hnd].
  case_decide; [by subst|]. rewrite elem_of_cons. intros [->|?]; [done|]. by apply IH.
Qed.

Lemma get_delitem_ne d k k' : k <> k' -> get (delitem d k) k' = get d k'.
Proof.
  intros Hne. induction d as [|[k0 v0] d IH]; simpl; [done|].
  case_decide; simpl.
  - subst. by rewrite decide_False.
  - case_decide; auto.
Qed.

Lemma dict_wf_from_keys ks f : NoDup ks -> dict_wf (from_keys ks f).
Proof. unfold dict_wf. by rewrite keys_from_keys. Qed.

(** ** Values *)

Lemma values_setitem_present d k v old :
  get d k = Some old ->
  values (setitem d k v) ++ [old] ≡ₚ values d ++ [v].
Proof.
  unfold values. induction d as [|[k' v'] d IH]; simpl; [done|].
  case_decide; intros Hg.
  - simplify_eq. simpl. rewrite !(Permutation_app_comm _ [_]). simpl. apply perm_swap.
  - simpl. constructor. by apply IH.
Qed.

Lemma values_setitem_absent d k v :
  get d k = None -> values (setitem d k v) = values d ++ [v].
Proof.
  unfold values. induction d as [|[k' v'] d IH]; simpl; [done|].
  case_decide; [done|]. intros Hg. simpl. f_equal. by apply IH.
Qed.

Lemma flat_map_values_setitem {W} (g : V -> list W) d k v old :
  get d k = Some old ->
  flat_map g (values (setitem d k v)) ++ g old ≡ₚ flat_map g (values d) ++ g v.
Proof.
  unfold values. induction d as [|[k' v'] d IH]; simpl; [done|].
  case_decide; intros Hg.
  - simplify_eq. simpl. solve_Permutation.
  - simpl. rewrite <- !app_assoc. apply Permutation_app_head. by apply IH.
Qed.

Lemma values_from_keys ks (f : K -> V) : values (from_keys ks f) = map f ks.
Proof. unfold values, from_keys. by rewrite map_map. Qed.

Lemma length_setitem_present d k v :
  k ∈ keys d -> length (setitem d k v) = length d.
Proof.
  intros Hin. rewrite <- (length_map fst d), <- (length_map fst (setitem d k v)).
  fold (keys d) (keys (setitem d k v)). by rewrite keys_setitem_present.
Qed.

End Dict.

Lemma get_same_keys {K V W} `{EqDecision K} (d1 : dict K V) (d2 : dict K W) k :
  keys d1 = keys d2 -> is_Some (get d1 k) -> is_Some (get d2 k).
Proof.
  intros Hk [v Hv]. apply get_Some_keys in Hv. rewrite Hk in Hv.
  destruct (get_in_keys _ _ Hv) as [w Hw]. by exists w.
Qed.

#[export] Hint Resolve dict_wf_setitem dict_wf_delitem dict_wf_from_keys : cardgame.
#[export] Hint Rewrite @get_setitem_eq @keys_from_keys : cardgame_rw.

(** ** Forgetting the order

    The abstract specifications of the components use stdpp's [gmap],
    which has extensional equality.  [dict_to_map] forgets the order;
    the first binding of a key wins, as in [get]. *)

Section DictMap.
Context {K V W : Type} `{Countable K}.

Definition dict_to_map (d : dict K V) : gmap K V := list_to_map d.

(** [{k: f(v) for k, v in d.items()}] *)
Definition dict_fmap (f : V -> W) (d : dict K V) : dict K W :=
  map (fun kv => (kv.1, f kv.2)) d.

Lemma lookup_dict_to_map d k : dict_to_map d !! k = get d k.
Proof.
  unfold dict_to_map. induction d as [|[k' v] d IH]; simpl; [apply lookup_empty|].
  case_decide as Hk; [subst; apply lookup_insert_eq|].
  rewrite lookup_insert_ne; [done|congruence].
Qed.

Lemma get_dict_fmap (f : V -> W) d k : get (dict_fmap f d) k = f <$> get d k.
Proof.
  induction d as [|[k' v] d IH]; simpl; [done|]. by case_decide.
Qed.

Lemma dict_fmap_setitem (f : V -> W) d k v :
  dict_fmap f (setitem d k v) = setitem (dict_fmap f d) k (f v).
Proof.
  induction d as [|[k' v'] d IH]; simpl; [done|]. case_decide; simpl; [done|]. by f_equal.
Qed.

Lemma dict_to_map_setitem (d : dict K V) k v :
  dict_to_map (setitem d k v) = <[k:=v]> (dict_to_map d).
Proof.
  apply map_eq. intros k'. rewrite lookup_dict_to_map.
  destruct (decide (k = k')) as [<-|Hne].
  - by rewrite get_setitem_eq, lookup_insert_eq.
  - by rewrite get_setitem_ne, lookup_insert_ne, lookup_dict_to_map.
Qed.

Lemma dict_to_map_delitem (d : dict K V) k :
  dict_wf d -> dict_to_map (delitem d k) = delete k (dict_to_map d).
Proof.
  intros Hwf. apply map_eq. intros k'. rewrite lookup_dict_to_map.
  destruct (decide (k = k')) as [<-|Hne].
  - by rewrite get_delitem_eq, lookup_delete_eq.
  - by rewrite get_delitem_ne, lookup_delete_ne, lookup_dict_to_map.
Qed.

End DictMap.

(** ** Python list methods *)

Section PyList.
Context {A : Type} `{EqDecision A}.

(** [l.pop(0)]: [IndexError] on an empty list, which the code guards. *)
Definition pop0 (l : list A) : option (A * list A) :=
  match l with
  | [] => None
  | x :: l' => Some (x, l')
  end.

(** [l.remove(x)]: [ValueError] when [x] is absent. *)
Definition list_remove (x : A) (l : list A) : option (list A) :=
  if decide (x ∈ l) then Some (remove_first x l) else None.

Lemma list_remove_perm x l l' : list_remove x l = Some l' -> x :: l' ≡ₚ l.
Proof.
  unfold list_remove. case_decide; intros Heq; simplify_eq. by apply remove_first_perm.
Qed.

End PyList.
