(* ===== verification/Shuffle.v ===== *)
(** * [random.shuffle] as CPython implements it

    [initialize_game] calls [random.shuffle(deck)].  CPython's
    [Random.shuffle] is Fisher-Yates from the top index down:

      for i in reversed(range(1, len(x))):
          j = randbelow(i + 1)
          x[i], x[j] = x[j], x[i]

    The random source is an input: [randbelow i] is the raw draw made
    when the loop is at index [i], reduced into [0 .. i] as [randbelow]
    guarantees.  The tuple assignment evaluates [x[j], x[i]] first and
    then stores into [x[i]] and [x[j]] in that order.

    The theorem: the shuffle returns exactly the permutations of its
    input; the converse direction builds the draws index by index, from
    the top, bringing the wanted element to position [i] and recursing on
    the prefix, which the rest of the loop only touches. *)

From S2P Require Import Prelude.

Section Shuffle.
Context {A : Type}.

(** [x[i], x[j] = x[j], x[i]] on in-range indices. *)
Definition swap (i j : nat) (x : list A) : list A :=
  match x !! i, x !! j with
  | Some a, Some b => <[j := a]> (<[i := b]> x)
  | _, _ => x
  end.

(** The loop body for [i], [i - 1], ..., [1]. *)
Fixpoint shuffle_loop (randbelow : nat -> nat) (i : nat) (x : list A) : list A :=
  match i with
  | 0 => x
  | S i' => shuffle_loop randbelow i' (swap i (randbelow i mod (i + 1)) x)
  end.

Definition shuffle (randbelow : nat -> nat) (x : list A) : list A :=
  shuffle_loop randbelow (length x - 1) x.

Lemma swap_perm i j (x : list A) : swap i j x ≡ₚ x.
Proof.
  unfold swap. destruct (x !! i) as [a|] eqn:Ha; [|done].
  destruct (x !! j) as [b|] eqn:Hb; [|done]. by apply Permutation_insert_swap.
Qed.

Lemma length_swap i j (x : list A) : length (swap i j x) = length x.
Proof. apply Permutation_length, swap_perm. Qed.

Lemma shuffle_loop_perm r i (x : list A) : shuffle_loop r i x ≡ₚ x.
Proof.
  revert x. induction i as [|i IH]; intros x; simpl; [done|].
  by rewrite IH, swap_perm.
Qed.

Lemma shuffle_perm r (x : list A) : shuffle r x ≡ₚ x.
Proof. apply shuffle_loop_perm. Qed.

Lemma swap_app i j (l t : list A) :
  i < length l -> j < length l -> swap i j (l ++ t) = swap i j l ++ t.
Proof.
  intros Hi Hj. unfold swap. rewrite !lookup_app_l by done.
  destruct (l !! i) as [a|] eqn:Ha; [|done]. destruct (l !! j) as [b|] eqn:Hb; [|done].
  rewrite !insert_app_l; [done| |done]. by rewrite length_insert.
Qed.

(** The loop at [i] only touches the indices up to [i]. *)
Lemma shuffle_loop_app r i (l t : list A) :
  i < length l -> shuffle_loop r i (l ++ t) = shuffle_loop r i l ++ t.
Proof.
  revert l. induction i as [|i IH]; intros l Hi; simpl; [done|].
  assert (Hj : r (S i) mod (S i + 1) < length l) by (pose proof (Nat.mod_upper_bound (r (S i)) (S i + 1)); lia).
  rewrite swap_app by done. apply IH. rewrite length_swap. lia.
Qed.

(** The loop at [i] reads the draws at [i], ..., [1] only. *)
Lemma shuffle_loop_ext r r' i (x : list A) :
  (forall k, 0 < k <= i -> r k = r' k) -> shuffle_loop r i x = shuffle_loop r' i x.
Proof.
  revert x. induction i as [|i IH]; intros x Hr; simpl; [done|].
  rewrite (Hr (S i)) by lia. apply IH. intros k Hk. apply Hr. lia.
Qed.

Lemma shuffle_loop_onto n (x y : list A) :
  length x = S n -> y ≡ₚ x -> exists r, shuffle_loop r n x = y.
Proof.
  revert x y. induction n as [|n IH]; intros x y Hl Hp.
  - exists (fun _ => 0). destruct x as [|a [|]]; try discriminate. simpl.
    symmetry. by apply Permutation_singleton_r.
  - destruct y as [|b y'] using rev_ind; [apply Permutation_length in Hp; simpl in Hp; lia|]. clear IHy'.
    assert (Hb : b ∈ x) by (rewrite <- Hp; set_solver).
    apply list_elem_of_lookup in Hb as [j Hj].
    assert (Hjl : j < S (S n)) by (rewrite <- Hl; by eapply lookup_lt_Some).
    set (x1 := swap (S n) j x).
    assert (Hx1 : x1 !! S n = Some b).
    { unfold x1, swap. destruct (lookup_lt_is_Some_2 x (S n) ltac:(lia)) as [a Ha]. rewrite Ha, Hj.
      destruct (decide (j = S n)) as [->|Hne].
      - rewrite list_lookup_insert, decide_True; [congruence|]. rewrite length_insert. lia.
      - rewrite list_lookup_insert_ne by done. rewrite list_lookup_insert, decide_True; [done|]. lia. }
    assert (Hlen1 : length x1 = S (S n)) by (unfold x1; by rewrite length_swap).
    assert (Hsplit : x1 = take (S n) x1 ++ [b]).
    { rewrite <- (take_S_r _ _ _ Hx1). rewrite take_ge; [done|lia]. }
    assert (Hp' : y' ≡ₚ take (S n) x1).
    { apply (Permutation_app_inv_r [b]). rewrite <- Hsplit. unfold x1. by rewrite swap_perm. }
    destruct (IH (take (S n) x1) y' ltac:(rewrite length_take; lia) Hp') as [r0 Hr0].
    exists (fun k => if decide (k = S n) then j else r0 k). cbn [shuffle_loop].
    rewrite decide_True by done. rewrite Nat.mod_small by lia. fold x1. rewrite Hsplit.
    rewrite shuffle_loop_app by (rewrite length_take; lia). f_equal.
    rewrite <- Hr0. apply shuffle_loop_ext. intros k Hk. rewrite decide_False by lia. done.
Qed.

End Shuffle.

#[export] Hint Resolve swap_perm shuffle_loop_perm shuffle_perm : cardgame.

