(* ===== verification/RoomRegistry.v ===== *)
(** * The room registry: [src/backend/app/room_manager.py]

    [rooms] is a module-level dict from room id to a room dict
    [{"room_id": id, "users": {username: ready}}].  Every function of the
    module is a definition of [Module Registry], taking the [rooms] dict
    and returning the new one with the function's Python return value.
    [Module Spec] states what a registry promises, over partial functions,
    and the refinement theorem shows the code implements it. *)

From S2P Require Import Prelude PyDict.
From stdpp Require Import gmap.
From Stdlib Require Import Ascii.

Module Registry.

(** [{"room_id": room_id, "users": {...}}] *)
Record Room := mkRoom {
  room_id : string;
  users : dict string bool
}.

#[export] Instance Room_eq_dec : EqDecision Room.
Proof. solve_decision. Defined.

(** The messages of the [(success, message)] pairs the functions return. *)
Inductive RoomMsg :=
  | RoomNotFound   (* "房间不存在" *)
  | UserNotInRoom  (* "用户未在房间内" *)
  | JoinOk         (* "加入房间成功" *)
  | ReadyOk        (* "已准备就绪" *)
  | LeaveOk.       (* "退出房间成功" *)

#[export] Instance RoomMsg_eq_dec : EqDecision RoomMsg.
Proof. solve_decision. Defined.

(** [string.ascii_uppercase + string.digits] *)
Definition room_id_alphabet : string := "ABCDEFGHIJKLMNOPQRSTUVWXYZ0123456789".

(** [''.join(random.choices(alphabet, k=length))]: [random.choices]
    picks index [floor(random() * 36)] for each of the [length] positions;
    [draw i] is the raw draw of position [i], reduced into range. *)
Fixpoint generate_random_room_id (length : nat) (draw : nat -> nat) : string :=
  match length with
  | 0 => EmptyString
  | S n =>
      String (default "A"%char (String.get (draw 0 mod 36) room_id_alphabet))
             (generate_random_room_id n (fun i => draw (S i)))
  end.

(** [join_room(room_id, username)] *)
Definition join_room (rooms : dict string Room) (rid : string) (username : string)
    : dict string Room * (bool * RoomMsg) :=
  match get rooms rid with
  | None => (rooms, (false, RoomNotFound))
  | Some r =>
      if mem (users r) username then (rooms, (true, JoinOk))
      else (setitem rooms rid (mkRoom (room_id r) (setitem (users r) username false)),
            (true, JoinOk))
  end.

(** The [while room_id in rooms] loop of [create_room], over the ids the
    generator produces at attempts [attempt], [attempt + 1], ...; [None]
    when [fuel] attempts all hit an existing room. *)
Fixpoint fresh_room_id (rooms : dict string Room) (draws : nat -> nat -> nat)
    (fuel attempt : nat) : option string :=
  match fuel with
  | 0 => None
  | S fuel' =>
      let rid := generate_random_room_id 8 (draws attempt) in
      if mem rooms rid then fresh_room_id rooms draws fuel' (S attempt) else Some rid
  end.

(** [create_room(username)]: a fresh id, an empty room, then [join_room]. *)
Definition create_room (rooms : dict string Room) (draws : nat -> nat -> nat)
    (fuel : nat) (username : string) : option (dict string Room * (bool * string)) :=
  match fresh_room_id rooms draws fuel 0 with
  | None => None
  | Some rid =>
      let rooms1 := setitem rooms rid (mkRoom rid []) in
      Some ((join_room rooms1 rid username).1, (true, rid))
  end.

(** [set_ready(room_id, username)] *)
Definition set_ready (rooms : dict string Room) (rid : string) (username : string)
    : dict string Room * (bool * RoomMsg) :=
  match get rooms rid with
  | None => (rooms, (false, RoomNotFound))
  | Some r =>
      if mem (users r) username
      then (setitem rooms rid (mkRoom (room_id r) (setitem (users r) username true)),
            (true, ReadyOk))
      else (rooms, (false, UserNotInRoom))
  end.

(** [all_ready(room_id)]: [all(rooms[room_id]["users"].values())] *)
Definition all_ready (rooms : dict string Room) (rid : string) : bool :=
  match get rooms rid with
  | None => false
  | Some r => forallb (fun b => b) (values (users r))
  end.

(** [get_room_info(room_id)]: [rooms.get(room_id)] *)
Definition get_room_info (rooms : dict string Room) (rid : string) : option Room :=
  get rooms rid.

(** [leave_room(room_id, username)] *)
Definition leave_room (rooms : dict string Room) (rid : string) (username : string)
    : dict string Room * (bool * RoomMsg) :=
  match get rooms rid with
  | None => (rooms, (false, RoomNotFound))
  | Some r =>
      if mem (users r) username
      then (setitem rooms rid (mkRoom (room_id r) (delitem (users r) username)),
            (true, LeaveOk))
      else (rooms, (true, LeaveOk))
  end.

(** ** Well-formedness

    Room ids are unique, each room is stored under its own id, and each
    membership dict has no duplicate user. *)

Definition rooms_wf (rooms : dict string Room) : Prop :=
  dict_wf rooms /\
  forall rid r, get rooms rid = Some r -> room_id r = rid /\ dict_wf (users r).

Lemma rooms_wf_users rooms rid r :
  rooms_wf rooms -> get rooms rid = Some r -> dict_wf (users r).
Proof. intros [_ H] Hg. by apply H in Hg as []. Qed.

Lemma rooms_wf_update rooms rid r us :
  rooms_wf rooms -> get rooms rid = Some r -> dict_wf us ->
  rooms_wf (setitem rooms rid (mkRoom (room_id r) us)).
Proof.
  intros [Hwf Hr] Hg Hus. split; [by apply dict_wf_setitem|].
  intros rid' r'. destruct (decide (rid = rid')) as [<-|Hne].
  - rewrite get_setitem_eq. intros [= <-]. simpl. split; [by apply Hr in Hg as []|done].
  - rewrite get_setitem_ne by done. apply Hr.
Qed.

Lemma rooms_wf_new rooms rid :
  rooms_wf rooms -> rooms_wf (setitem rooms rid (mkRoom rid [])).
Proof.
  intros [Hwf Hr]. split; [by apply dict_wf_setitem|].
  intros rid' r'. destruct (decide (rid = rid')) as [<-|Hne].
  - rewrite get_setitem_eq. intros [= <-]. split; [done|apply NoDup_nil_2].
  - rewrite get_setitem_ne by done. apply Hr.
Qed.

#[local] Hint Resolve rooms_wf_users rooms_wf_update rooms_wf_new : cardgame.

(** Unfold a registry operation and split on the room and member tests. *)
Ltac registry_cases Hg Hm :=
  repeat match goal with
  | |- context [get ?rooms ?rid] =>
      let r := fresh "r" in destruct (get rooms rid) as [r|] eqn:Hg
  | |- context [mem (users ?r) ?u] => destruct (mem (users r) u) eqn:Hm
  end; simpl.

Lemma join_room_wf rooms rid u : rooms_wf rooms -> rooms_wf (join_room rooms rid u).1.
Proof.
  intros Hwf. unfold join_room. registry_cases Hg Hm; eauto 6 with cardgame.
Qed.

Lemma set_ready_wf rooms rid u : rooms_wf rooms -> rooms_wf (set_ready rooms rid u).1.
Proof.
  intros Hwf. unfold set_ready. registry_cases Hg Hm; eauto 6 with cardgame.
Qed.

Lemma leave_room_wf rooms rid u : rooms_wf rooms -> rooms_wf (leave_room rooms rid u).1.
Proof.
  intros Hwf. unfold leave_room. registry_cases Hg Hm; eauto 6 with cardgame.
Qed.

Lemma fresh_room_id_spec rooms draws fuel attempt rid :
  fresh_room_id rooms draws fuel attempt = Some rid ->
  (rid ∉ keys rooms) /\ exists n, attempt <= n < attempt + fuel /\
                                rid = generate_random_room_id 8 (draws n).
Proof.
  revert attempt. induction fuel as [|fuel IH]; intros attempt; simpl; [done|].
  destruct (mem rooms _) eqn:Hm.
  - intros H. apply IH in H as [? (n & ? & ?)]. split; [done|]. exists n. split; [lia|done].
  - intros [= <-]. split.
    + intros Hin. apply mem_spec in Hin. congruence.
    + exists attempt. split; [lia|done].
Qed.

Lemma create_room_wf rooms draws fuel u rooms' res :
  rooms_wf rooms -> create_room rooms draws fuel u = Some (rooms', res) -> rooms_wf rooms'.
Proof.
  intros Hwf. unfold create_room. destruct fresh_room_id as [rid|]; [|done].
  intros [= <- _]. apply join_room_wf. by apply rooms_wf_new.
Qed.

(** The registry as a transition system: one step per function of
    [room_manager.py] that changes [rooms]. *)
Inductive registry_step : dict string Room -> dict string Room -> Prop :=
  | step_create rooms draws fuel u rooms' res :
      create_room rooms draws fuel u = Some (rooms', res) -> registry_step rooms rooms'
  | step_join rooms rid u : registry_step rooms (join_room rooms rid u).1
  | step_ready rooms rid u : registry_step rooms (set_ready rooms rid u).1
  | step_leave rooms rid u : registry_step rooms (leave_room rooms rid u).1.

(** Well-formedness of a concrete one-room registry, by evaluation. *)
Ltac rooms_wf_by_eval :=
  split; [decide_by_eval|];
  intros ?rid ?r; simpl; case_decide; [|discriminate]; intros [= <-]; subst;
  split; [reflexivity|decide_by_eval].

(** ** Theorems *)

(** Every sequence of registry operations from the empty [rooms] dict
    keeps the registry well formed: unique room ids, each room under its
    own id, and no user twice in a room's membership dict. *)
Theorem registry_reachable_wf rooms :
  rtc registry_step [] rooms -> rooms_wf rooms.
Proof.
  assert (Hinv : forall x y, rtc registry_step x y -> rooms_wf x -> rooms_wf y).
  { induction 1 as [|x y z Hs _ IH]; [done|]. intros Hx. apply IH.
    destruct Hs; eauto using join_room_wf, set_ready_wf, leave_room_wf, create_room_wf. }
  intros Hr. apply (Hinv _ _ Hr). split; [apply NoDup_nil_2|done].
Qed.

Lemma registry_reachable_wf_witness :
  rtc registry_step []
    (join_room [("ABCDEFGH", mkRoom "ABCDEFGH" [("alice", false)])] "ABCDEFGH" "bob").1 /\
  rooms_wf (join_room [("ABCDEFGH", mkRoom "ABCDEFGH" [("alice", false)])] "ABCDEFGH" "bob").1.
Proof.
  assert (Hr : rtc registry_step []
    (join_room [("ABCDEFGH", mkRoom "ABCDEFGH" [("alice", false)])] "ABCDEFGH" "bob").1).
  { apply rtc_l with [("ABCDEFGH", mkRoom "ABCDEFGH" [("alice", false)])].
    - apply (step_create [] (fun a i => a + i) 1 "alice" _ (true, "ABCDEFGH")). reflexivity.
    - apply rtc_l with (join_room [("ABCDEFGH", mkRoom "ABCDEFGH" [("alice", false)])]
                          "ABCDEFGH" "bob").1; [apply step_join|apply rtc_refl]. }
  split; [exact Hr|]. exact (registry_reachable_wf _ Hr).
Defined.

Lemma join_room_idem rooms rid u :
  join_room (join_room rooms rid u).1 rid u
  = ((join_room rooms rid u).1, (join_room rooms rid u).2).
Proof.
  unfold join_room at 2 3 4. registry_cases Hg Hm; unfold join_room;
    rewrite ?Hg, ?Hm; try done.
  rewrite get_setitem_eq. simpl. unfold mem at 1. by rewrite get_setitem_eq.
Qed.

(** C36. [join_room] in an existing room: [n + 1] calls with the same
    room and user leave the registry as one call does; every member keeps
    its ready flag (a member who joins again is not reset to unready);
    the user is a member, unready if new, and appears exactly once; and
    the members keep their order, a new member coming last. *)
Theorem join_room_repeat rooms rid u r n :
  rooms_wf rooms -> get rooms rid = Some r ->
  let rooms' := Nat.iter (S n) (fun s => (join_room s rid u).1) rooms in
  rooms' = (join_room rooms rid u).1 /\
  exists r', get rooms' rid = Some r' /\
    (forall v b, get (users r) v = Some b -> get (users r') v = Some b) /\
    get (users r') u = Some (default false (get (users r) u)) /\
    keys (users r') = keys (users r) ++ (if mem (users r) u then [] else [u]) /\
    length (filter (fun k => k = u) (keys (users r'))) = 1.
Proof.
  intros Hwf Hg rooms'.
  assert (Hit : rooms' = (join_room rooms rid u).1).
  { subst rooms'. induction n as [|n IH]; [done|].
    rewrite Nat.iter_succ, IH. by rewrite join_room_idem. }
  split; [done|]. rewrite Hit. clear Hit rooms'.
  pose proof (rooms_wf_users _ _ _ Hwf Hg) as Hus.
  unfold join_room. rewrite Hg. destruct (mem (users r) u) eqn:Hm; simpl.
  - exists r. split; [done|]. split; [done|]. split.
    + unfold mem in Hm. by destruct (get (users r) u).
    + split; [by rewrite app_nil_r|]. apply NoDup_filter_eq_length; [done|by apply mem_spec].
  - pose proof (mem_false_get _ _ Hm) as Hu.
    assert (Hk : u ∉ keys (users r)) by (intros Hin%mem_spec; congruence).
    rewrite get_setitem_eq. eexists; split; [done|]. simpl. split; [|split; [|split]].
    + intros v b Hv. rewrite get_setitem_ne; [done|]. intros ->. congruence.
    + by rewrite get_setitem_eq, Hu.
    + by apply keys_setitem_absent.
    + apply NoDup_filter_eq_length.
      * by apply dict_wf_setitem.
      * apply get_Some_keys with false. apply get_setitem_eq.
Qed.

(** [all_ready] is exactly "the room exists and every flag of its
    membership dict is true": the code does not require a member. *)
Lemma all_ready_true_iff rooms rid :
  all_ready rooms rid = true <->
  exists r, get rooms rid = Some r /\ forall u b, (u, b) ∈ users r -> b = true.
Proof.
  unfold all_ready, values. destruct (get rooms rid) as [r|];
    [|split; [done|by intros (? & ? & _)]].
  rewrite forallb_forall. split.
  - intros H. exists r. split; [done|]. intros u b Hin. apply H, in_map_iff.
    exists (u, b). split; [done|]. by apply list_elem_of_In.
  - intros (r' & [= <-] & H) b Hin. apply in_map_iff in Hin as ([u b'] & <- & Hin).
    apply (H u). by apply list_elem_of_In.
Qed.

Lemma join_room_repeat_witness :
  rooms_wf [("R1", mkRoom "R1" [("alice", true)])] /\
  let rooms' := Nat.iter 3 (fun s => (join_room s "R1" "alice").1) [("R1", mkRoom "R1" [("alice", true)])] in
  rooms' = (join_room [("R1", mkRoom "R1" [("alice", true)])] "R1" "alice").1 /\
  exists r', get rooms' "R1" = Some r' /\
    (forall v b, get (users (mkRoom "R1" [("alice", true)])) v = Some b -> get (users r') v = Some b) /\
    get (users r') "alice" = Some (default false (get (users (mkRoom "R1" [("alice", true)])) "alice")) /\
    keys (users r') = keys (users (mkRoom "R1" [("alice", true)])) ++ (if mem (users (mkRoom "R1" [("alice", true)])) "alice" then [] else ["alice"]) /\
    length (filter (fun k => k = "alice") (keys (users r'))) = 1.
Proof.
  assert (Hwf : rooms_wf [("R1", mkRoom "R1" [("alice", true)])]) by rooms_wf_by_eval.
  split; [exact Hwf|].
  exact (join_room_repeat _ "R1" "alice" (mkRoom "R1" [("alice", true)]) 2 Hwf eq_refl).
Defined.

(** C14. The creator of a room who leaves it leaves an empty room that
    [all_ready] reports as ready, so [room_websocket] would announce
    [game_start] for a room with no player. *)
Theorem all_ready_after_creator_leaves rooms draws fuel u rooms1 rid :
  create_room rooms draws fuel u = Some (rooms1, (true, rid)) ->
  all_ready (leave_room rooms1 rid u).1 rid = true.
Proof.
  unfold create_room. destruct (fresh_room_id rooms draws fuel 0) as [rid'|]; [|done].
  intros [= <- <-]. unfold join_room. rewrite get_setitem_eq. simpl.
  unfold leave_room. rewrite setitem_setitem, get_setitem_eq. simpl.
  unfold mem. simpl. rewrite !decide_True by done. simpl.
  unfold all_ready. by rewrite setitem_setitem, get_setitem_eq.
Qed.

Lemma all_ready_after_creator_leaves_witness :
  create_room [] (fun a i => a + i) 1 "alice" = Some
    ([("ABCDEFGH", mkRoom "ABCDEFGH" [("alice", false)])], (true, "ABCDEFGH")) /\
  all_ready (leave_room [("ABCDEFGH", mkRoom "ABCDEFGH" [("alice", false)])]
               "ABCDEFGH" "alice").1 "ABCDEFGH" = true.
Proof.
  split; [reflexivity|]. apply (all_ready_after_creator_leaves [] (fun a i => a + i) 1).
  reflexivity.
Defined.

(** A user joining a room as a new member is unready, so the room is
    no longer all ready; a user already in the room who joins again
    changes nothing (in particular, their readiness is not reset). *)
Theorem join_room_readiness rooms rid r u :
  get rooms rid = Some r ->
  (u ∉ keys (users r) -> all_ready (join_room rooms rid u).1 rid = false) /\
  (forall b, get (users r) u = Some b -> join_room rooms rid u = (rooms, (true, JoinOk))).
Proof.
  intros Hg. split.
  - intros Hu. unfold join_room. rewrite Hg, mem_false by done. simpl.
    unfold all_ready. rewrite get_setitem_eq. simpl.
    rewrite values_setitem_absent by (by apply get_None_keys).
    rewrite forallb_app. simpl. by rewrite andb_false_r.
  - intros b Hb. unfold join_room. by rewrite Hg, (mem_true _ _ _ Hb).
Qed.

Lemma join_room_readiness_witness :
  all_ready (join_room [("R1", mkRoom "R1" [("alice", true)])] "R1" "bob").1 "R1" = false /\
  join_room [("R1", mkRoom "R1" [("alice", true)])] "R1" "alice"
  = ([("R1", mkRoom "R1" [("alice", true)])], (true, JoinOk)).
Proof.
  split.
  - apply (proj1 (join_room_readiness [("R1", mkRoom "R1" [("alice", true)])] "R1" (mkRoom "R1" [("alice", true)]) "bob" eq_refl)).
    apply (bool_decide_unpack _). vm_compute. exact I.
  - apply (proj2 (join_room_readiness [("R1", mkRoom "R1" [("alice", true)])] "R1" (mkRoom "R1" [("alice", true)]) "alice" eq_refl)
             true). reflexivity.
Defined.

(** [set_ready] on every branch: a missing room and a user who is
    not a member are reported and change nothing; otherwise the user's
    flag becomes true, every other flag and the order of the members are
    unchanged. *)
Theorem set_ready_spec rooms rid u :
  let '(rooms', (ok, msg)) := set_ready rooms rid u in
  match get rooms rid with
  | None => rooms' = rooms /\ ok = false /\ msg = RoomNotFound
  | Some r =>
      if mem (users r) u then
        ok = true /\ msg = ReadyOk /\ keys rooms' = keys rooms /\
        exists r', get rooms' rid = Some r' /\ get (users r') u = Some true /\
                   keys (users r') = keys (users r) /\
                   forall u', u' <> u -> get (users r') u' = get (users r) u'
      else rooms' = rooms /\ ok = false /\ msg = UserNotInRoom
  end.
Proof.
  unfold set_ready. destruct (get rooms rid) as [r|] eqn:Hg; [|done].
  destruct (mem (users r) u) eqn:Hm; [|done].
  apply mem_spec in Hm.
  split; [done|]. split; [done|]. split.
  { apply keys_setitem_present. by eapply get_Some_keys. }
  rewrite get_setitem_eq. eexists; split; [done|]. simpl.
  split; [apply get_setitem_eq|]. split; [by apply keys_setitem_present|].
  intros u' Hne. by apply get_setitem_ne.
Qed.

(** No registry operation turns a ready member unready: a ready flag
    stays true until the member leaves. *)
Theorem ready_flag_monotone rooms rooms' rid r u :
  rooms_wf rooms -> registry_step rooms rooms' -> get rooms rid = Some r ->
  get (users r) u = Some true ->
  exists r', get rooms' rid = Some r' /\
             (get (users r') u = Some true \/ get (users r') u = None).
Proof.
  intros Hwf Hs Hg Hu. destruct Hs as [rooms draws fuel u0 rooms' res Hc|rooms rid0 u0|rooms rid0 u0|rooms rid0 u0].
  - revert Hc. unfold create_room. destruct fresh_room_id as [rid0|] eqn:Hf; [|done].
    intros [= <- _]. apply fresh_room_id_spec in Hf as [Hf _].
    assert (rid0 <> rid) by (intros ->; apply Hf; by eapply get_Some_keys).
    unfold join_room. rewrite get_setitem_eq. simpl.
    rewrite !get_setitem_ne by done. eauto.
  - unfold join_room. destruct (get rooms rid0) as [r0|] eqn:Hg0; [|eauto]; simpl.
    destruct (mem (users r0) u0) eqn:Hm; [eauto|]. simpl.
    destruct (decide (rid0 = rid)) as [<-|Hne].
    + rewrite get_setitem_eq. eexists; split; [done|]. left. simpl.
      rewrite Hg in Hg0. simplify_eq.
      rewrite get_setitem_ne; [done|]. intros <-. by rewrite (mem_true _ _ _ Hu) in Hm.
    + rewrite get_setitem_ne by done. eauto.
  - unfold set_ready. destruct (get rooms rid0) as [r0|] eqn:Hg0; [|eauto]; simpl.
    destruct (mem (users r0) u0) eqn:Hm; [|eauto]. simpl.
    destruct (decide (rid0 = rid)) as [<-|Hne].
    + rewrite get_setitem_eq. eexists; split; [done|]. left. simpl.
      rewrite Hg in Hg0. simplify_eq.
      destruct (decide (u0 = u)) as [<-|]; [apply get_setitem_eq|by rewrite get_setitem_ne].
    + rewrite get_setitem_ne by done. eauto.
  - unfold leave_room. destruct (get rooms rid0) as [r0|] eqn:Hg0; [|eauto]; simpl.
    destruct (mem (users r0) u0) eqn:Hm; [|eauto]. simpl.
    destruct (decide (rid0 = rid)) as [<-|Hne].
    + rewrite get_setitem_eq. eexists; split; [done|]. simpl.
      rewrite Hg in Hg0. simplify_eq.
      destruct (decide (u0 = u)) as [<-|]; [right|left; by rewrite get_delitem_ne].
      apply get_delitem_eq. by eapply rooms_wf_users.
    + rewrite get_setitem_ne by done. eauto.
Qed.

Lemma ready_flag_monotone_witness :
  let rooms := [("R1", mkRoom "R1" [("alice", true); ("bob", false)])] in
  rooms_wf rooms /\
  exists r', get (set_ready rooms "R1" "bob").1 "R1" = Some r' /\
    (get (users r') "alice" = Some true \/ get (users r') "alice" = None).
Proof.
  intros rooms. assert (Hwf : rooms_wf rooms) by rooms_wf_by_eval.
  split; [exact Hwf|].
  apply (ready_flag_monotone rooms _ "R1" (mkRoom "R1" [("alice", true); ("bob", false)]) "alice" Hwf);
    [apply step_ready|reflexivity|reflexivity].
Defined.

(** C19. [leave_room] on every branch: a missing room is reported and
    nothing changes; otherwise the user is no longer a member, the other
    members keep their flags and their order, and leaving again is a
    no-op that still succeeds. *)
Theorem leave_room_spec rooms rid u :
  rooms_wf rooms ->
  match get rooms rid with
  | None => leave_room rooms rid u = (rooms, (false, RoomNotFound))
  | Some r =>
      let rooms' := (leave_room rooms rid u).1 in
      (leave_room rooms rid u).2 = (true, LeaveOk) /\
      leave_room rooms' rid u = (rooms', (true, LeaveOk)) /\
      exists r', get rooms' rid = Some r' /\ get (users r') u = None /\
        keys (users r') = remove_first u (keys (users r)) /\
        forall u', u' <> u -> get (users r') u' = get (users r) u'
  end.
Proof.
  intros Hwf. destruct (get rooms rid) as [r|] eqn:Hg; [|unfold leave_room; by rewrite Hg].
  pose proof (rooms_wf_users _ _ _ Hwf Hg) as Hus.
  unfold leave_room. rewrite Hg. destruct (mem (users r) u) eqn:Hm; simpl.
  - assert (Hdel : get (delitem (users r) u) u = None) by by apply get_delitem_eq.
    split; [done|]. rewrite get_setitem_eq. simpl. unfold mem at 1. rewrite Hdel.
    split; [done|]. eexists; split; [done|]. simpl.
    split; [done|]. split; [apply keys_delitem|]. intros u' Hne. by apply get_delitem_ne.
  - rewrite Hg, Hm. split; [done|]. split; [done|]. exists r. split; [done|].
    split; [by apply mem_false_get|]. split; [|done].
    symmetry. apply remove_first_notin. apply get_None_keys. by apply mem_false_get.
Qed.

Lemma leave_room_spec_witness :
  let rooms := [("R1", mkRoom "R1" [("alice", true); ("bob", false)])] in
  rooms_wf rooms /\
  let rooms' := (leave_room rooms "R1" "alice").1 in
  (leave_room rooms "R1" "alice").2 = (true, LeaveOk) /\
  leave_room rooms' "R1" "alice" = (rooms', (true, LeaveOk)) /\
  exists r', get rooms' "R1" = Some r' /\ get (users r') "alice" = None /\
    keys (users r') = remove_first "alice" ["alice"; "bob"] /\
    forall u', u' <> "alice" -> get (users r') u' = get [("alice", true); ("bob", false)] u'.
Proof.
  intros rooms. assert (Hwf : rooms_wf rooms) by rooms_wf_by_eval.
  split; [exact Hwf|]. exact (leave_room_spec rooms "R1" "alice" Hwf).
Defined.

Lemma string_get_lt s k :
  k < String.length s -> exists c, String.get k s = Some c /\ c ∈ String.list_ascii_of_string s.
Proof.
  revert k. induction s as [|c s IH]; simpl; intros k Hk; [lia|].
  destruct k as [|k]; [exists c; split; [done|left]|].
  destruct (IH k) as (c' & ? & ?); [lia|]. exists c'. split; [done|by right].
Qed.

Lemma length_generate_random_room_id n draw :
  String.length (generate_random_room_id n draw) = n.
Proof.
  revert draw. induction n as [|n IH]; intros draw; [done|]. simpl. by rewrite IH.
Qed.

(** [generate_random_room_id(length)] returns [length] characters of
    its alphabet, whatever the draws. *)
Theorem generate_random_room_id_bounds n draw :
  String.length (generate_random_room_id n draw) = n /\
  forall i c, String.get i (generate_random_room_id n draw) = Some c ->
              c ∈ String.list_ascii_of_string room_id_alphabet.
Proof.
  revert draw. induction n as [|n IH]; intros draw.
  - split; [done|]. intros [|i] c H; discriminate.
  - destruct (IH (fun i => draw (S i))) as [Hl Hc].
    destruct (string_get_lt room_id_alphabet (draw 0 mod 36)) as (c' & Hc' & Hin).
    { change (String.length room_id_alphabet) with 36. apply Nat.mod_upper_bound. lia. }
    change (generate_random_room_id (S n) draw) with
      (String (default "A"%char (String.get (draw 0 mod 36) room_id_alphabet))
              (generate_random_room_id n (fun i => draw (S i)))).
    rewrite Hc'. split; [cbn [String.length]; by rewrite Hl|].
    intros [|i] c; [by intros [= <-]|exact (Hc i c)].
Qed.

(** The characters of [string.ascii_uppercase + string.digits], by their
    codes: ['A'] to ['Z'] and ['0'] to ['9']. *)
Definition id_char (c : ascii) : bool :=
  let n := Ascii.nat_of_ascii c in (Nat.leb 65 n && Nat.leb n 90) || (Nat.leb 48 n && Nat.leb n 57).

(** The first position of [c] in [s]. *)
Fixpoint str_index (c : ascii) (s : string) : option nat :=
  match s with
  | EmptyString => None
  | String c' s' => if Ascii.ascii_dec c c' then Some 0 else S <$> str_index c s'
  end.

Lemma str_index_get c s k : str_index c s = Some k -> String.get k s = Some c /\ k < String.length s.
Proof.
  revert k. induction s as [|c' s IH]; simpl; intros k H; [done|].
  destruct (Ascii.ascii_dec c c') as [->|]; [injection H as <-; split; [done|lia]|].
  destruct (str_index c s) as [k'|] eqn:E; simpl in H; [|done]. injection H as <-.
  destruct (IH k' eq_refl). simpl. split; [done|lia].
Qed.

Lemma alphabet_id_char c : c ∈ String.list_ascii_of_string room_id_alphabet -> id_char c = true.
Proof. intros Hc. repeat (apply elem_of_cons in Hc as [->|Hc]; [reflexivity|]). by apply elem_of_nil in Hc. Qed.

Lemma id_char_alphabet c : id_char c = true -> exists k, k < 36 /\ String.get k room_id_alphabet = Some c.
Proof.
  intros Hc. cut (is_Some (str_index c room_id_alphabet)).
  { intros [k Hk]. apply str_index_get in Hk as [Hk Hl]. exists k. split; [exact Hl|exact Hk]. }
  destruct c as [[] [] [] [] [] [] [] []]; vm_compute in Hc |- *; first [discriminate | eexists; reflexivity].
Qed.

(** C21. [generate_random_room_id(length)] returns exactly the strings of
    [length] characters among ['A']-['Z'] and ['0']-['9']: whatever the
    draws, the id has [length] characters, each an uppercase ASCII letter
    or a digit; and every such string is the id of some draws, so each of
    the 36 characters is reachable at each position. *)
Theorem generate_random_room_id_range n :
  (forall draw, String.length (generate_random_room_id n draw) = n /\
     forall i c, String.get i (generate_random_room_id n draw) = Some c -> id_char c = true) /\
  (forall s, String.length s = n -> (forall i c, String.get i s = Some c -> id_char c = true) ->
     exists draw, generate_random_room_id n draw = s).
Proof.
  split.
  - intros draw. destruct (generate_random_room_id_bounds n draw) as [Hl Hc].
    split; [done|]. intros i c Hi. by apply alphabet_id_char, (Hc i).
  - induction n as [|n IH]; intros s Hl Hs; destruct s as [|c s]; try discriminate.
    + by exists (fun _ => 0).
    + destruct (id_char_alphabet c (Hs 0 c eq_refl)) as (k & Hk & Hkc).
      destruct (IH s ltac:(simpl in Hl; lia) (fun i => Hs (S i))) as [draw Hd].
      exists (fun i => match i with 0 => k | S i' => draw i' end).
      change (generate_random_room_id (S n) (fun i => match i with 0 => k | S i' => draw i' end)) with
        (String (default "A"%char (String.get (k mod 36) room_id_alphabet))
                (generate_random_room_id n draw)).
      by rewrite Nat.mod_small, Hkc, Hd by done.
Qed.

Lemma fresh_room_id_some rooms draws fuel attempt n :
  attempt <= n < attempt + fuel ->
  generate_random_room_id 8 (draws n) ∉ keys rooms ->
  exists rid, fresh_room_id rooms draws fuel attempt = Some rid.
Proof.
  revert attempt. induction fuel as [|fuel IH]; intros attempt Hn Hfresh; simpl; [lia|].
  destruct (mem rooms _) eqn:Hm; [|eauto].
  destruct (decide (n = attempt)) as [->|Hne].
  - apply mem_spec in Hm. contradiction.
  - apply IH; [lia|done].
Qed.

(** C20. [create_room] terminates as soon as the generator produces one
    id that is not a room yet: it then appends a new room under a fresh
    8-character id whose only member is the creator, unready. *)
Theorem create_room_returns rooms draws fuel u n :
  n < fuel -> generate_random_room_id 8 (draws n) ∉ keys rooms ->
  exists rid,
    create_room rooms draws fuel u =
      Some (rooms ++ [(rid, mkRoom rid [(u, false)])], (true, rid)) /\
    (rid ∉ keys rooms) /\ String.length rid = 8.
Proof.
  intros Hn Hfresh.
  destruct (fresh_room_id_some rooms draws fuel 0 n) as [rid Hf]; [lia|done|].
  destruct (fresh_room_id_spec _ _ _ _ _ Hf) as [Hrid (m & _ & ->)].
  eexists; split; [|split; [done|apply length_generate_random_room_id]].
  unfold create_room. rewrite Hf. unfold join_room. rewrite get_setitem_eq. simpl.
  by rewrite setitem_setitem, setitem_absent.
Qed.

Lemma create_room_returns_witness :
  1 < 2 /\ (generate_random_room_id 8 ((fun a i => i + 8 * a) 1) ∉ keys [("ABCDEFGH", mkRoom "ABCDEFGH" [])]) /\
  exists rid,
    create_room [("ABCDEFGH", mkRoom "ABCDEFGH" [])] (fun a i => i + 8 * a) 2 "bob" =
      Some ([("ABCDEFGH", mkRoom "ABCDEFGH" [])] ++ [(rid, mkRoom rid [("bob", false)])], (true, rid)) /\
    (rid ∉ keys [("ABCDEFGH", mkRoom "ABCDEFGH" [])]) /\ String.length rid = 8.
Proof.
  assert (H : generate_random_room_id 8 ((fun a i => i + 8 * a) 1)
              ∉ keys [("ABCDEFGH", mkRoom "ABCDEFGH" [])]).
  { apply (bool_decide_unpack _). vm_compute. exact I. }
  split; [lia|]. split; [exact H|].
  apply (create_room_returns _ _ 2 "bob" 1); [lia|exact H].
Defined.

End Registry.

(** * What a room registry promises

    The abstract state forgets the order of rooms and of members: a finite
    map from room id to a finite map from member to readiness.  Each
    operation is specified on it as §4.1 of the design describes it. *)

Module Spec.
Import Registry.

Abbreviation AbsRooms := (gmap string (gmap string bool)).

Definition spec_join (A : AbsRooms) (rid u : string) : AbsRooms :=
  match A !! rid with
  | Some m => match m !! u with Some _ => A | None => <[rid := <[u := false]> m]> A end
  | None => A
  end.

Definition spec_ready (A : AbsRooms) (rid u : string) : AbsRooms :=
  match A !! rid with
  | Some m => match m !! u with Some _ => <[rid := <[u := true]> m]> A | None => A end
  | None => A
  end.

Definition spec_leave (A : AbsRooms) (rid u : string) : AbsRooms :=
  match A !! rid with
  | Some m => <[rid := delete u m]> A
  | None => A
  end.

Definition spec_create (A : AbsRooms) (rid u : string) : AbsRooms :=
  <[rid := {[u := false]}]> A.

Definition spec_all_ready (A : AbsRooms) (rid : string) : Prop :=
  exists m, A !! rid = Some m /\ map_Forall (fun _ b => b = true) m.

(** The abstraction function. *)
Definition abs (rooms : dict string Room) : AbsRooms :=
  dict_to_map (dict_fmap (fun r => dict_to_map (users r)) rooms).

Lemma lookup_abs rooms rid :
  abs rooms !! rid = (fun r => dict_to_map (users r)) <$> get rooms rid.
Proof. unfold abs. by rewrite lookup_dict_to_map, get_dict_fmap. Qed.

Lemma abs_setitem rooms rid r :
  abs (setitem rooms rid r) = <[rid := dict_to_map (users r)]> (abs rooms).
Proof. unfold abs. by rewrite dict_fmap_setitem, dict_to_map_setitem. Qed.

Lemma lookup_users_abs (r : Room) u : dict_to_map (users r) !! u = get (users r) u.
Proof. apply lookup_dict_to_map. Qed.

#[local] Hint Rewrite lookup_abs abs_setitem lookup_users_abs : cardgame_rw.

Lemma join_refines rooms rid u : abs (join_room rooms rid u).1 = spec_join (abs rooms) rid u.
Proof.
  unfold join_room, spec_join. rewrite lookup_abs.
  destruct (get rooms rid) as [r|] eqn:Hg; [simpl|done].
  rewrite lookup_users_abs. unfold mem. destruct (get (users r) u); simpl; [done|].
  rewrite abs_setitem. cbn [users]. by rewrite dict_to_map_setitem.
Qed.

Lemma ready_refines rooms rid u : abs (set_ready rooms rid u).1 = spec_ready (abs rooms) rid u.
Proof.
  unfold set_ready, spec_ready. rewrite lookup_abs.
  destruct (get rooms rid) as [r|] eqn:Hg; [simpl|done].
  rewrite lookup_users_abs. unfold mem. destruct (get (users r) u); simpl; [|done].
  rewrite abs_setitem. cbn [users]. by rewrite dict_to_map_setitem.
Qed.

Lemma leave_refines rooms rid u :
  rooms_wf rooms -> abs (leave_room rooms rid u).1 = spec_leave (abs rooms) rid u.
Proof.
  intros Hwf. unfold leave_room, spec_leave. rewrite lookup_abs.
  destruct (get rooms rid) as [r|] eqn:Hg; [simpl|done].
  unfold mem. destruct (get (users r) u) eqn:Hu; simpl.
  - rewrite abs_setitem. cbn [users]. by rewrite dict_to_map_delitem by (by eapply rooms_wf_users).
  - rewrite delete_id by (by rewrite lookup_users_abs).
    apply map_eq. intros rid'. destruct (decide (rid = rid')) as [<-|Hne].
    + by rewrite lookup_insert_eq, lookup_abs, Hg.
    + by rewrite lookup_insert_ne.
Qed.

Lemma create_refines rooms draws fuel u rooms' rid :
  create_room rooms draws fuel u = Some (rooms', (true, rid)) ->
  abs rooms !! rid = None /\ abs rooms' = spec_create (abs rooms) rid u.
Proof.
  unfold create_room. destruct (fresh_room_id rooms draws fuel 0) as [rid0|] eqn:Hf; [|done].
  intros [= <- <-]. apply fresh_room_id_spec in Hf as [Hf _].
  split; [by rewrite lookup_abs, (proj2 (get_None_keys _ _) Hf)|].
  unfold join_room. rewrite get_setitem_eq. simpl.
  rewrite setitem_setitem, abs_setitem. unfold spec_create. f_equal.
Qed.

Lemma all_ready_refines rooms rid :
  rooms_wf rooms ->
  (all_ready rooms rid = true <-> spec_all_ready (abs rooms) rid).
Proof.
  intros Hwf. rewrite all_ready_true_iff. unfold spec_all_ready. rewrite lookup_abs.
  split.
  - intros (r & Hg & H). rewrite Hg. eexists; split; [done|].
    intros u b. rewrite lookup_users_abs. intros Hu%get_elem_of. by apply (H u).
  - intros (m & Hm & H). destruct (get rooms rid) as [r|] eqn:Hg; [|done].
    simpl in Hm. simplify_eq. exists r. split; [done|].
    intros u b Hin. apply (H u). rewrite lookup_users_abs.
    apply elem_of_get; [by eapply rooms_wf_users|done].
Qed.

(** C13. The registry of [room_manager.py] refines its abstract
    specification: on a well-formed registry, each operation maps, under
    the abstraction that forgets order, to the specified operation on
    finite maps, and [create_room] picks an id that is not a room yet. *)
Theorem registry_refines_spec rooms :
  rooms_wf rooms ->
  (forall rid u, abs (join_room rooms rid u).1 = spec_join (abs rooms) rid u) /\
  (forall rid u, abs (set_ready rooms rid u).1 = spec_ready (abs rooms) rid u) /\
  (forall rid u, abs (leave_room rooms rid u).1 = spec_leave (abs rooms) rid u) /\
  (forall rid, all_ready rooms rid = true <-> spec_all_ready (abs rooms) rid) /\
  (forall draws fuel u rooms' rid,
     create_room rooms draws fuel u = Some (rooms', (true, rid)) ->
     abs rooms !! rid = None /\ abs rooms' = spec_create (abs rooms) rid u).
Proof.
  intros Hwf. split; [apply join_refines|]. split; [apply ready_refines|].
  split; [intros; by apply leave_refines|]. split; [intros; by apply all_ready_refines|].
  intros. by eapply create_refines.
Qed.

Lemma registry_refines_spec_witness :
  rooms_wf [("R1", mkRoom "R1" [("alice", false)])] /\
  abs (join_room [("R1", mkRoom "R1" [("alice", false)])] "R1" "bob").1
  = spec_join (abs [("R1", mkRoom "R1" [("alice", false)])]) "R1" "bob".
Proof.
  assert (Hwf : rooms_wf [("R1", mkRoom "R1" [("alice", false)])]) by rooms_wf_by_eval.
  split; [exact Hwf|]. apply (proj1 (registry_refines_spec _ Hwf)).
Defined.

End Spec.
