(* ===== verification/Cards.v ===== *)
(** * Cards, the deck, the scoring configuration and the ranking sort

    From [src/backend/app/game_modes/poker_battle.py]: a card is the dict
    [{"suit": suit, "rank": rank}] with string fields; the deck is the
    list comprehension of [initialize_game]; [card_weight] reads the
    [card_value_order] and [suit_order] tables of the configuration; and
    [finish_game] ranks the table with
    [played.sort(key=lambda x: card_weight(x[1], config), reverse=True)].

    Python's [list.sort] is stable, and [reverse=True] keeps equal
    elements in their original order.  [sort_desc] models it as an
    insertion sort; [sort_desc_spec] shows that any list that is sorted
    by descending key and keeps each key's elements in their original
    order is [sort_desc]'s result, so the model does not depend on the
    algorithm CPython uses. *)

From S2P Require Import Prelude PyDict.
From Stdlib Require Import Ascii Sorted.

(** [{"suit": suit, "rank": rank}] *)
Record Card := mkCard {
  suit : string;
  rank : string
}.

#[export] Instance Card_eq_dec : EqDecision Card.
Proof. solve_decision. Defined.

Definition suits : list string := ["clubs"; "diamonds"; "hearts"; "spades"].
Definition ranks : list string :=
  ["A"; "2"; "3"; "4"; "5"; "6"; "7"; "8"; "9"; "10"; "J"; "Q"; "K"].

(** [[{"suit": suit, "rank": rank} for suit in suits for rank in ranks]] *)
Definition full_deck : list Card :=
  flat_map (fun s => map (fun r => mkCard s r) ranks) suits.

(** The configuration file [config/poker_battle.json]: the rank and suit
    weight tables and the [scoring] table.  The fields of [scoring] are
    read with [CONFIG["scoring"]["2_players"]["win"]] and so on. *)
Record Config := mkConfig {
  card_value_order : dict string Z;
  suit_order : dict string Z;
  score2_win : Z;
  score2_lose : Z;
  score3_win : Z;
  score3_draw : Z;
  score3_lose : Z
}.

(** [str.lower()] on ASCII text. *)
Definition ascii_lower (c : ascii) : ascii :=
  let n := nat_of_ascii c in
  if (65 <=? n) && (n <=? 90) then ascii_of_nat (n + 32) else c.

Fixpoint str_lower (s : string) : string :=
  match s with
  | EmptyString => EmptyString
  | String c s' => String (ascii_lower c) (str_lower s')
  end.

(** [card_weight(card, config)]: [rank_weight * 10 + suit_weight], with
    [0] for a rank or suit missing from the tables. *)
Definition card_weight (card : Card) (config : Config) : Z :=
  let rank_weight := get_default (card_value_order config) (rank card) 0%Z in
  let suit_weight := get_default (suit_order config) (str_lower (suit card)) 0%Z in
  (rank_weight * 10 + suit_weight)%Z.

(** ** [list.sort(key=w, reverse=True)] *)

Section Sort.
Context {A : Type} (w : A -> Z).

(** Insert [x], which came before every element of [l] in the input,
    in front of the first element that is not heavier than it. *)
Fixpoint insert_desc (x : A) (l : list A) : list A :=
  match l with
  | [] => [x]
  | y :: l' => if decide (w y <= w x)%Z then x :: y :: l' else y :: insert_desc x l'
  end.

Definition sort_desc (l : list A) : list A := fold_right insert_desc [] l.

Definition sorted_desc : list A -> Prop := Sorted (fun a b => w b <= w a)%Z.

(** Each weight class keeps the input order. *)
Definition stable_wrt (l l' : list A) : Prop :=
  forall k, filter (fun x => w x = k) l' = filter (fun x => w x = k) l.

Lemma insert_desc_perm x l : insert_desc x l ≡ₚ x :: l.
Proof.
  induction l as [|y l IH]; simpl; [done|].
  case_decide; [done|]. rewrite IH. apply perm_swap.
Qed.

Lemma sort_desc_perm l : sort_desc l ≡ₚ l.
Proof.
  induction l as [|x l IH]; simpl; [done|]. by rewrite insert_desc_perm, IH.
Qed.

Lemma insert_desc_sorted x l : sorted_desc l -> sorted_desc (insert_desc x l).
Proof.
  induction 1 as [|y l Hl IH Hhd]; simpl; [by repeat constructor|].
  case_decide as Hxy; [by repeat constructor|].
  constructor; [done|]. destruct l as [|z l]; simpl; [constructor; lia|].
  inversion Hhd; subst. case_decide; constructor; lia.
Qed.

Lemma sort_desc_sorted l : sorted_desc (sort_desc l).
Proof. induction l as [|x l IH]; simpl; [constructor|]. by apply insert_desc_sorted. Qed.

Lemma insert_desc_stable x l k :
  filter (fun y => w y = k) (insert_desc x l) = filter (fun y => w y = k) (x :: l).
Proof.
  induction l as [|y l IH]; simpl; [done|].
  case_decide as Hxy; [done|]. rewrite !filter_cons, IH, filter_cons.
  destruct (decide (w y = k)), (decide (w x = k)); try done; lia.
Qed.

Lemma sort_desc_stable l : stable_wrt l (sort_desc l).
Proof.
  intros k. induction l as [|x l IH]; simpl; [done|].
  by rewrite insert_desc_stable, !filter_cons, IH.
Qed.

Lemma sorted_desc_head x l y : sorted_desc (x :: l) -> y ∈ l -> (w y <= w x)%Z.
Proof.
  intros Hs. apply Sorted_StronglySorted in Hs; [|intros a b c; lia].
  inversion Hs as [|? ? _ Hall]; subst. rewrite Forall_forall in Hall.
  intros Hy. by apply Hall.
Qed.

Lemma stable_wrt_elem_of l l' x : stable_wrt l l' -> x ∈ l -> x ∈ l'.
Proof.
  intros Hst Hx. specialize (Hst (w x)).
  assert (Hin : x ∈ filter (fun y => w y = w x) l) by (by apply list_elem_of_filter).
  rewrite <- Hst in Hin. by apply list_elem_of_filter in Hin as [_ ?].
Qed.

(** Two lists sorted by descending weight whose weight classes are the
    same lists are equal. *)
Lemma sorted_desc_stable_eq l1 l2 :
  sorted_desc l1 -> sorted_desc l2 -> stable_wrt l1 l2 -> l1 = l2.
Proof.
  revert l2. induction l1 as [|x l1 IH]; intros l2 Hs1 Hs2 Hst.
  - destruct l2 as [|y l2]; [done|]. exfalso.
    eapply not_elem_of_nil, stable_wrt_elem_of; [|left].
    intros k. symmetry. apply Hst.
  - destruct l2 as [|y l2].
    { exfalso. eapply not_elem_of_nil, stable_wrt_elem_of; [exact Hst|left]. }
    assert (Hxy : w x = w y).
    { assert (x ∈ y :: l2) as [->|Hx]%elem_of_cons by (eapply stable_wrt_elem_of; [exact Hst|left]);
        [done|].
      assert (y ∈ x :: l1) as [->|Hy]%elem_of_cons
        by (eapply stable_wrt_elem_of; [intros k; symmetry; apply Hst|left]); [done|].
      pose proof (sorted_desc_head _ _ _ Hs2 Hx).
      pose proof (sorted_desc_head _ _ _ Hs1 Hy). lia. }
    pose proof (Hst (w x)) as Hk. rewrite !filter_cons in Hk.
    rewrite !decide_True in Hk by done. injection Hk as <- Htl.
    f_equal. apply IH.
    + by apply Sorted_inv in Hs1 as [].
    + by apply Sorted_inv in Hs2 as [].
    + intros k. pose proof (Hst k) as Hk. rewrite !filter_cons in Hk.
      case_decide; [|done]. by injection Hk.
Qed.

Lemma perm_short_eq (l1 l2 : list A) : l1 ≡ₚ l2 -> length l1 <= 1 -> l1 = l2.
Proof.
  destruct l1 as [|x [|y l1]]; simpl; intros Hp Hl; [|by apply Permutation_length_1_inv in Hp|lia].
  by apply Permutation_nil in Hp.
Qed.

Lemma filter_weight_short (l : list A) k :
  NoDup (map w l) -> length (filter (fun x => w x = k) l) <= 1.
Proof.
  induction l as [|x l IH]; simpl; intros Hnd; [lia|].
  apply NoDup_cons in Hnd as [Hx Hnd]. rewrite filter_cons. case_decide as Hk; [|by apply IH].
  simpl. assert (filter (fun x => w x = k) l = []) as ->; [|simpl; lia].
  apply filter_none. intros y Hy Hyk. apply Hx. subst k. rewrite <- Hyk.
  apply list_elem_of_fmap. eauto.
Qed.

(** The ranking of a list whose weights are pairwise distinct is the
    list's order by decreasing weight. *)
Lemma sort_desc_distinct (l l' : list A) :
  l ≡ₚ l' -> sorted_desc l' -> NoDup (map w l') -> sort_desc l = l'.
Proof.
  intros Hp Hs Hnd. symmetry. apply sorted_desc_stable_eq; [done|apply sort_desc_sorted|].
  intros k. rewrite sort_desc_stable. symmetry. apply perm_short_eq.
  - by rewrite Hp.
  - by apply filter_weight_short.
Qed.

(** The model of [list.sort(key=w, reverse=True)] is the one list
    that is ordered by decreasing key and keeps the elements of each key
    in their input order: any stable descending sort, CPython's included,
    returns [sort_desc]'s result. *)
Theorem sort_desc_spec (l l' : list A) :
  l' = sort_desc l <-> sorted_desc l' /\ stable_wrt l l'.
Proof.
  split; [intros ->; split; [apply sort_desc_sorted|apply sort_desc_stable]|].
  intros [Hs Hst]. apply sorted_desc_stable_eq; [done|apply sort_desc_sorted|].
  intros k. by rewrite sort_desc_stable, Hst.
Qed.

End Sort.

#[export] Hint Resolve sort_desc_perm sort_desc_sorted sort_desc_stable : cardgame.
