(* ===== verification/Ledger.v ===== *)
(** * The ledger: [models.py], [user_manager.py] and the database block of
    [finish_game]

    The SQLite database holds three tables ([models.py]): [users] (id,
    unique username, password, points defaulting to 0), [game_sessions]
    (id, a UNIQUE [room_id], game time, comma-joined players) and
    [game_records] (one row per player per session).  Rows are lists in
    insertion order; an integer primary key is one more than the largest
    id in the table, as SQLite assigns rowids.  [register_user] and
    [login_user] are [user_manager.py]; [record_round] is lines 131-168 of
    [finish_game], which insert the session, then for each player found in
    [users] add the score change to their points and insert a record.
    Inserting a second session for the same room violates the UNIQUE
    constraint: [record_round] then fails, as the [IntegrityError] the
    insert raises.

    [ledger_ok] is what the tables guarantee together (unique names and
    ids, one session per room, records owned by accounts, each account's
    points the sum of its recorded score changes); [register_user] and
    [record_round] preserve it, and [record_round] appends exactly one
    record of the round to each player's account. *)

From S2P Require Import Prelude PyDict.

Module Ledger.

Record UserRow := mkUser {
  user_id : Z;
  username : string;
  password : string;
  points : Z
}.

Record SessionRow := mkSession {
  session_id : Z;
  session_room_id : string;
  session_game_time : Z;
  session_players : string
}.

Record GameRecord := mkRecord {
  record_id : Z;
  record_user_id : Z;
  record_session_id : Z;
  record_game_time : Z;
  record_room_id : string;
  record_opponents : string;
  record_result : string;
  record_score_change : Z
}.

Record DB := mkDB {
  users_table : list UserRow;
  sessions_table : list SessionRow;
  records_table : list GameRecord
}.

(** The next value of an INTEGER PRIMARY KEY. *)
Definition next_id (ids : list Z) : Z := (fold_right Z.max 0 ids + 1)%Z.

(** [",".join(names)] *)
Fixpoint join_comma (names : list string) : string :=
  match names with
  | [] => ""
  | [x] => x
  | x :: names' => String.append x (String.append "," (join_comma names'))
  end.

(** [select(users).where(users.c.username == name)] *)
Definition find_user (db : DB) (name : string) : option UserRow :=
  List.find (fun u => bool_decide (username u = name)) (users_table db).

Inductive UserMsg :=
  | UserExists     (* "用户已存在" *)
  | RegisterOk     (* "注册成功" *)
  | UserNotFound   (* "用户不存在" *)
  | WrongPassword  (* "密码错误" *)
  | LoginOk.       (* "登录成功" *)

(** [register_user(username, password)] *)
Definition register_user (db : DB) (name pw : string) : DB * (bool * UserMsg) :=
  match find_user db name with
  | Some _ => (db, (false, UserExists))
  | None =>
      let row := mkUser (next_id (map user_id (users_table db))) name pw 0 in
      (mkDB (users_table db ++ [row]) (sessions_table db) (records_table db),
       (true, RegisterOk))
  end.

(** [login_user(username, password)] *)
Definition login_user (db : DB) (name pw : string) : bool * UserMsg :=
  match find_user db name with
  | None => (false, UserNotFound)
  | Some u => if decide (password u = pw) then (true, LoginOk) else (false, WrongPassword)
  end.

(** The label of a score change: [win] if positive, [loss] if negative,
    [draw] otherwise. *)
Definition result_label (score_change : Z) : string :=
  if decide (0 < score_change)%Z then "win"
  else if decide (score_change < 0)%Z then "loss" else "draw".

(** [update(users).where(users.c.id == id).values(points=new_points)] *)
Definition set_points (uid new_points : Z) (rows : list UserRow) : list UserRow :=
  map (fun u => if decide (user_id u = uid) then mkUser (user_id u) (username u) (password u) new_points
                else u) rows.

(** One iteration of [for player in players:] with the session id. *)
Definition record_player (room_id : string) (game_time session : Z)
    (players : list string) (results : dict string Z) (db : DB) (player : string) : DB :=
  match find_user db player with
  | None => db
  | Some u =>
      let score_change := get_default results player 0%Z in
      let users' := set_points (user_id u) (points u + score_change)%Z (users_table db) in
      let opponents := filter (fun p => p <> player) players in
      let row := mkRecord (next_id (map record_id (records_table db))) (user_id u) session
                   game_time room_id (join_comma opponents) (result_label score_change)
                   score_change in
      mkDB users' (sessions_table db) (records_table db ++ [row])
  end.

(** Lines 131-168 of [finish_game]: [None] is the [IntegrityError] of the
    session insert when the room already has a session. *)
Definition record_round (db : DB) (room_id : string) (game_time : Z)
    (players : list string) (results : dict string Z) : option DB :=
  if decide (room_id ∈ map session_room_id (sessions_table db)) then None
  else
    let session := next_id (map session_id (sessions_table db)) in
    let db1 := mkDB (users_table db)
                 (sessions_table db ++ [mkSession session room_id game_time (join_comma players)])
                 (records_table db) in
    Some (fold_left (record_player room_id game_time session players results) players db1).

(** ** Theorems *)

Lemma find_user_app db rows name :
  List.find (fun u => bool_decide (username u = name)) (users_table db ++ rows) =
  match find_user db name with
  | Some u => Some u
  | None => List.find (fun u => bool_decide (username u = name)) rows
  end.
Proof.
  unfold find_user. induction (users_table db) as [|u us IH]; simpl; [done|].
  by destruct (bool_decide (username u = name)).
Qed.

(** C22. Registering a new user stores the password as given, so logging
    in with it succeeds, logging in with any other password is refused,
    and registering the name again is refused. *)
Theorem register_then_login db name pw pw' :
  find_user db name = None ->
  let db' := (register_user db name pw).1 in
  (register_user db name pw).2 = (true, RegisterOk) /\
  login_user db' name pw = (true, LoginOk) /\
  (pw' <> pw -> login_user db' name pw' = (false, WrongPassword)) /\
  (register_user db' name pw').2 = (false, UserExists).
Proof.
  intros Hf db'. subst db'. unfold register_user. rewrite Hf. simpl.
  unfold login_user, find_user at 1 2 3. simpl. rewrite !find_user_app, Hf. simpl.
  rewrite bool_decide_eq_true_2 by done. simpl.
  split; [done|]. split; [by rewrite decide_True|]. split; [|done].
  intros Hne. by rewrite decide_False by congruence.
Qed.

Lemma register_then_login_witness :
  find_user (mkDB [] [] []) "alice" = None /\
  (register_user (mkDB [] [] []) "alice" "pw").2 = (true, RegisterOk) /\
  login_user (register_user (mkDB [] [] []) "alice" "pw").1 "alice" "pw" = (true, LoginOk) /\
  ("guess" <> "pw" -> login_user (register_user (mkDB [] [] []) "alice" "pw").1 "alice" "guess"
                     = (false, WrongPassword)) /\
  (register_user (register_user (mkDB [] [] []) "alice" "pw").1 "alice" "guess").2
  = (false, UserExists).
Proof. split; [reflexivity|]. apply (register_then_login (mkDB [] [] []) "alice" "pw" "guess"). reflexivity. Defined.

Lemma record_player_sessions room_id game_time session players results db p :
  sessions_table (record_player room_id game_time session players results db p) = sessions_table db.
Proof. unfold record_player. by destruct (find_user db p). Qed.

(** A recorded round leaves a session row for its room. *)
Lemma record_round_session db rid t players results db' :
  record_round db rid t players results = Some db' ->
  rid ∈ map session_room_id (sessions_table db').
Proof.
  unfold record_round. case_decide; [done|]. intros [= <-].
  assert (Hfold : forall ps d, sessions_table (fold_left (record_player rid t
            (next_id (map session_id (sessions_table db))) players results) ps d) = sessions_table d).
  { induction ps as [|p ps IH]; intros d; simpl; [done|]. by rewrite IH, record_player_sessions. }
  rewrite Hfold. simpl. rewrite map_app. apply elem_of_app. right. left.
Qed.

Lemma record_round_again db rid t players results db' t' players' results' :
  record_round db rid t players results = Some db' ->
  record_round db' rid t' players' results' = None.
Proof.
  intros H. apply record_round_session in H. unfold record_round. by rewrite decide_True.
Qed.

(** A user row with [k] more points. *)
Definition add_points (k : Z) (u : UserRow) : UserRow :=
  mkUser (user_id u) (username u) (password u) (points u + k).

Lemma find_map_username (f : UserRow -> UserRow) rows name :
  (forall u, username (f u) = username u) ->
  List.find (fun u => bool_decide (username u = name)) (map f rows) =
  f <$> List.find (fun u => bool_decide (username u = name)) rows.
Proof.
  intros Hf. induction rows as [|u rows IH]; simpl; [done|]. rewrite Hf.
  by destruct (bool_decide (username u = name)).
Qed.

Lemma find_user_elem_of db name u : find_user db name = Some u -> u ∈ users_table db /\ username u = name.
Proof.
  unfold find_user. intros Hf. apply find_some in Hf as [Hin Hb].
  split; [by apply list_elem_of_In|by apply bool_decide_eq_true_1 in Hb].
Qed.

Lemma NoDup_map_inj {A B} (f : A -> B) (l : list A) x y :
  NoDup (map f l) -> x ∈ l -> y ∈ l -> f x = f y -> x = y.
Proof.
  induction l as [|z l IH]; simpl; intros Hnd Hx Hy Hxy; [by apply elem_of_nil in Hx|].
  apply NoDup_cons in Hnd as [Hz Hnd].
  apply elem_of_cons in Hx as [->|Hx]; apply elem_of_cons in Hy as [->|Hy]; [done| | |by apply IH].
  - destruct Hz. rewrite Hxy. apply list_elem_of_fmap. eauto.
  - destruct Hz. rewrite <- Hxy. apply list_elem_of_fmap. eauto.
Qed.

Lemma record_player_users room_id game_time session players results db p :
  NoDup (map user_id (users_table db)) ->
  NoDup (map user_id (users_table (record_player room_id game_time session players results db p))) /\
  forall name,
    find_user (record_player room_id game_time session players results db p) name =
    add_points (if decide (name = p) then get_default results p 0%Z else 0%Z) <$> find_user db name.
Proof.
  intros Hnd. unfold record_player. destruct (find_user db p) as [u|] eqn:Hu.
  2:{ split; [done|]. intros name. destruct (find_user db name) as [v|] eqn:Hv; simpl; [|done].
      case_decide; [subst; congruence|]. unfold add_points. rewrite Z.add_0_r. by destruct v. }
  simpl. unfold set_points. split.
  { rewrite map_map. erewrite map_ext; [exact Hnd|]. intros v. simpl. by case_decide. }
  intros name. unfold find_user at 1. simpl.
  rewrite find_map_username by (intros v; simpl; by case_decide). fold (find_user db name).
  destruct (find_user db name) as [v|] eqn:Hv; simpl; [|done]. f_equal.
  destruct (decide (name = p)) as [Hn|Hn].
  - subst name. rewrite Hu in Hv. injection Hv as <-. rewrite decide_True by done.
    by unfold add_points.
  - apply find_user_elem_of in Hu as [Hu Hpu]. apply find_user_elem_of in Hv as [Hv Hnv].
    destruct (decide (user_id v = user_id u)) as [Hid|Hid].
    + exfalso. apply Hn. rewrite <- Hnv, <- Hpu. f_equal.
      by apply (NoDup_map_inj user_id (users_table db)).
    + unfold add_points. rewrite Z.add_0_r. by destruct v.
Qed.

Lemma record_player_fold room_id game_time session players results ps db :
  NoDup ps -> NoDup (map user_id (users_table db)) ->
  forall name,
    find_user (fold_left (record_player room_id game_time session players results) ps db) name =
    add_points (if decide (name ∈ ps) then get_default results name 0%Z else 0%Z) <$> find_user db name.
Proof.
  revert db. induction ps as [|p ps IH]; intros db Hps Hnd name; simpl.
  - destruct (find_user db name) as [v|]; simpl; [|done]. unfold add_points. rewrite Z.add_0_r.
    by destruct v.
  - apply NoDup_cons in Hps as [Hp Hps].
    destruct (record_player_users room_id game_time session players results db p Hnd) as [Hnd' Hf].
    rewrite (IH _ Hps Hnd' name), Hf.
    destruct (find_user db name) as [v|]; simpl; [|done]. f_equal. unfold add_points. simpl.
    f_equal. repeat case_decide; subst; try lia; set_solver.
Qed.

(** C37. Recording a round adds to each player's points exactly the
    player's score change, once ([results.get(player, 0)]), and leaves
    every other user's points alone; a player without an account gets
    nothing, and no account is created or removed. *)
Theorem record_round_points db rid t players results db' :
  NoDup (map user_id (users_table db)) -> NoDup players ->
  record_round db rid t players results = Some db' ->
  forall name,
    find_user db' name =
    add_points (if decide (name ∈ players) then get_default results name 0%Z else 0%Z) <$> find_user db name.
Proof.
  intros Hnd Hps Hr name. unfold record_round in Hr. case_decide; [done|]. injection Hr as <-.
  rewrite record_player_fold by done. done.
Qed.

Lemma record_round_points_witness :
  let db := mkDB [mkUser 1 "alice" "pw" 5; mkUser 2 "bob" "pw" 0; mkUser 3 "eve" "pw" 7] [] [] in
  exists db',
    record_round db "R1" 0 ["alice"; "bob"; "carol"] [("alice", 10%Z); ("bob", (-10)%Z); ("carol", 0%Z)]
      = Some db' /\
    forall name,
      find_user db' name =
      add_points (if decide (name ∈ ["alice"; "bob"; "carol"])
                  then get_default [("alice", 10%Z); ("bob", (-10)%Z); ("carol", 0%Z)] name 0%Z
                  else 0%Z) <$> find_user db name.
Proof.
  intros db. eexists. split; [reflexivity|].
  apply (record_round_points db "R1" 0 ["alice"; "bob"; "carol"]); [decide_by_eval|decide_by_eval|reflexivity].
Defined.

(** ** The ledger invariant

    What the tables guarantee together: names are unique ([register_user]
    checks first), ids are unique (rowids grow), a room has at most one
    session (the UNIQUE constraint), every record belongs to an account,
    and every account's points are the sum of the score changes recorded
    for it. *)

Definition sum_score (rs : list GameRecord) : Z :=
  fold_right (fun r acc => record_score_change r + acc)%Z 0%Z rs.

(** The sum of the score changes recorded for the account [uid]. *)
Definition recorded_total (db : DB) (uid : Z) : Z :=
  sum_score (filter (fun r => record_user_id r = uid) (records_table db)).

Definition ledger_ok (db : DB) : Prop :=
  NoDup (map username (users_table db)) /\
  NoDup (map user_id (users_table db)) /\
  NoDup (map session_room_id (sessions_table db)) /\
  Forall (fun r => record_user_id r ∈ map user_id (users_table db)) (records_table db) /\
  Forall (fun u => points u = recorded_total db (user_id u)) (users_table db).

Lemma next_id_gt ids x : x ∈ ids -> (x < next_id ids)%Z.
Proof.
  unfold next_id. induction ids as [|y ids IH]; intros Hx; [by apply elem_of_nil in Hx|].
  simpl. apply elem_of_cons in Hx as [->|Hx]; [lia|]. specialize (IH Hx). lia.
Qed.

Lemma find_user_None db name : find_user db name = None -> name ∉ map username (users_table db).
Proof.
  unfold find_user. intros Hf (u & -> & Hu)%list_elem_of_fmap.
  apply list_elem_of_In in Hu. apply (find_none _ _ Hf) in Hu. by rewrite bool_decide_eq_false in Hu.
Qed.

Lemma set_points_usernames uid np rows : map username (set_points uid np rows) = map username rows.
Proof. unfold set_points. rewrite map_map. apply map_ext. intros u. by case_decide. Qed.

Lemma set_points_ids uid np rows : map user_id (set_points uid np rows) = map user_id rows.
Proof. unfold set_points. rewrite map_map. apply map_ext. intros u. by case_decide. Qed.

Lemma sum_score_app rs rs' : sum_score (rs ++ rs') = (sum_score rs + sum_score rs')%Z.
Proof. induction rs as [|r rs IH]; simpl; lia. Qed.

Lemma register_user_ok db name pw : ledger_ok db -> ledger_ok (register_user db name pw).1.
Proof.
  intros (Hn & Hi & Hs & Hr & Hp). unfold register_user.
  destruct (find_user db name) eqn:Hf; [done|]. apply find_user_None in Hf.
  set (nid := next_id (map user_id (users_table db))).
  assert (Hnid : nid ∉ map user_id (users_table db)) by (intros Hin; apply next_id_gt in Hin; lia).
  unfold ledger_ok; cbn [users_table sessions_table records_table fst]. rewrite !map_app.
  split; [apply NoDup_app; repeat split; [done|set_solver|apply NoDup_singleton]|].
  split; [apply NoDup_app; repeat split; [done|set_solver|apply NoDup_singleton]|].
  split; [done|]. split.
  - eapply Forall_impl; [exact Hr|]. intros r Hin. set_solver.
  - apply Forall_app. split; [done|]. apply Forall_singleton. simpl. unfold recorded_total. simpl.
    rewrite filter_none; [done|]. intros r Hin Heq. apply Hnid. rewrite <- Heq.
    by apply (proj1 (Forall_forall _ _) Hr).
Qed.

Lemma record_player_ok room_id game_time session players results db p :
  ledger_ok db -> ledger_ok (record_player room_id game_time session players results db p).
Proof.
  intros Hok. unfold record_player. destruct (find_user db p) as [u|] eqn:Hu; [|done].
  destruct Hok as (Hn & Hi & Hs & Hr & Hp). apply find_user_elem_of in Hu as [Hu _].
  unfold ledger_ok; cbn [users_table sessions_table records_table].
  rewrite set_points_usernames, set_points_ids.
  do 3 (split; [done|]). split.
  - apply Forall_app. split; [done|]. apply Forall_singleton. simpl. by apply list_elem_of_fmap_2.
  - unfold set_points. apply Forall_map, Forall_forall. intros v Hv.
    rewrite Forall_forall in Hp. pose proof (Hp u Hu) as Hpu. pose proof (Hp v Hv) as Hpv.
    unfold recorded_total in *; cbn [records_table].
    rewrite filter_app, sum_score_app, filter_cons, filter_nil.
    case_decide as Heq; cbn [user_id points]; case_decide; cbn in *; try congruence.
    + rewrite <- Heq in Hpu. lia.
    + lia.
Qed.

Lemma session_insert_ok db rid t players session :
  ledger_ok db -> rid ∉ map session_room_id (sessions_table db) ->
  ledger_ok (mkDB (users_table db) (sessions_table db ++ [mkSession session rid t players]) (records_table db)).
Proof.
  intros (Hn & Hi & Hs & Hr & Hp) Hin. unfold ledger_ok; cbn [users_table sessions_table records_table].
  rewrite map_app. do 2 (split; [done|]).
  split; [apply NoDup_app; repeat split; [done|set_solver|apply NoDup_singleton]|done].
Qed.

Lemma fold_record_player_ok room_id t session players results ps db :
  ledger_ok db -> ledger_ok (fold_left (record_player room_id t session players results) ps db).
Proof.
  revert db. induction ps as [|x ps IH]; intros d Hd; simpl; [done|]. apply IH. by apply record_player_ok.
Qed.

Lemma record_round_ok db rid t players results db' :
  ledger_ok db -> record_round db rid t players results = Some db' -> ledger_ok db'.
Proof.
  intros Hok. unfold record_round. case_decide as Hin; [done|]. intros [= <-].
  by apply fold_record_player_ok, session_insert_ok.
Qed.

(** The records of the account [uid]. *)
Definition records_of (db : DB) (uid : Z) : list GameRecord :=
  filter (fun r => record_user_id r = uid) (records_table db).

(** A record [finish_game] writes for [player] in a round. *)
Definition round_record (rid : string) (game_time session : Z) (results : dict string Z)
    (uid : Z) (player : string) (r : GameRecord) : Prop :=
  record_user_id r = uid /\ record_session_id r = session /\ record_game_time r = game_time /\
  record_room_id r = rid /\ record_score_change r = get_default results player 0%Z /\
  record_result r = result_label (get_default results player 0%Z).

Lemma find_user_other db p q u v :
  ledger_ok db -> find_user db p = Some u -> find_user db q = Some v -> q <> p -> user_id v <> user_id u.
Proof.
  intros (_ & Hi & _) Hu Hv Hne Hid.
  apply find_user_elem_of in Hu as [Hu Hpu]. apply find_user_elem_of in Hv as [Hv Hqv].
  apply Hne. rewrite <- Hqv, <- Hpu. f_equal. by apply (NoDup_map_inj user_id (users_table db)).
Qed.

Lemma record_player_records room_id t session players results db q p u :
  ledger_ok db -> find_user db p = Some u ->
  exists rows, records_of (record_player room_id t session players results db q) (user_id u) =
               records_of db (user_id u) ++ rows /\
    Forall (round_record room_id t session results (user_id u) p) rows /\
    length rows = (if decide (q = p) then 1 else 0).
Proof.
  intros Hok Hu. unfold record_player, records_of.
  destruct (find_user db q) as [v|] eqn:Hv.
  - cbn [records_table]. rewrite filter_app, filter_cons, filter_nil. cbn [record_user_id].
    destruct (decide (q = p)) as [->|Hne].
    + rewrite Hu in Hv. injection Hv as <-. rewrite decide_True by done.
      eexists. split; [done|]. split; [|done]. apply Forall_singleton. by repeat split.
    + rewrite decide_False by (eapply find_user_other; eauto).
      exists []. by rewrite app_nil_r.
  - exists []. rewrite app_nil_r. split; [done|]. split; [done|].
    case_decide; [subst; congruence|done].
Qed.

Lemma fold_record_player_records room_id t session players results p uid ps db :
  ledger_ok db -> NoDup ps -> (exists u, find_user db p = Some u /\ user_id u = uid) ->
  exists rows, records_of (fold_left (record_player room_id t session players results) ps db) uid =
               records_of db uid ++ rows /\
    Forall (round_record room_id t session results uid p) rows /\
    length rows = (if decide (p ∈ ps) then 1 else 0).
Proof.
  revert db. induction ps as [|q ps IH]; intros d Hok Hnd (u & Hu & <-); simpl.
  - exists []. rewrite app_nil_r. split; [done|]. split; [done|]. done.
  - apply NoDup_cons in Hnd as [Hq Hnd].
    destruct (record_player_records room_id t session players results d q p u Hok Hu) as (rows1 & E1 & F1 & L1).
    assert (Hu1 : exists u', find_user (record_player room_id t session players results d q) p = Some u' /\
                             user_id u' = user_id u).
    { destruct Hok as (_ & Hi & _).
      destruct (record_player_users room_id t session players results d q Hi) as [_ Hf].
      rewrite Hf, Hu. by eexists. }
    destruct (IH _ (record_player_ok _ _ _ _ _ _ _ Hok) Hnd Hu1) as (rows2 & E2 & F2 & L2).
    exists (rows1 ++ rows2). rewrite E2, E1, app_assoc. split; [done|]. split; [by apply Forall_app|].
    rewrite length_app, L1, L2. repeat case_decide; set_solver.
Qed.

(** Recording a round appends to the records of each player's account
    exactly one record, of that round. *)
Lemma record_round_records db rid t players results db' p u :
  ledger_ok db -> NoDup players -> p ∈ players -> find_user db p = Some u ->
  record_round db rid t players results = Some db' ->
  exists row, records_of db' (user_id u) = records_of db (user_id u) ++ [row] /\
    round_record rid t (next_id (map session_id (sessions_table db))) results (user_id u) p row.
Proof.
  intros Hok Hnd Hp Hu. unfold record_round. case_decide as Hin; [done|]. intros [= <-].
  destruct (fold_record_player_records rid t (next_id (map session_id (sessions_table db))) players results
              p (user_id u) players _ (session_insert_ok db rid t (join_comma players) (next_id (map session_id (sessions_table db))) Hok Hin) Hnd (ex_intro _ u (conj Hu eq_refl)))
    as (rows & E & F & L).
  rewrite decide_True in L by done. destruct rows as [|row [|]]; try discriminate.
  exists row. split; [exact E|]. rewrite Forall_singleton in F. exact F.
Qed.

End Ledger.
