(* ===== verification/Database.v ===== *)
(** * The database module: its URLs

    [database.py] builds the asynchronous [Database] on [DATABASE_URL]
    and a synchronous SQLAlchemy engine, used to create the tables, on
    the same URL with the driver suffix [+aiosqlite] removed by
    [str.replace].  Opening connections is I/O and is not modelled; the
    tables the connection holds are the [Ledger]'s.  This file models
    the two URLs: [str_replace] is Python's [str.replace], which replaces
    every non-overlapping occurrence from left to right, and the theorem
    shows that the engine gets the plain [sqlite] URL of the same file. *)

From S2P Require Import Prelude.
From Stdlib Require Strings.String.

Module Database.

(** [s.startswith(p)]. *)
Fixpoint starts_with (p s : string) : bool :=
  match p, s with
  | EmptyString, _ => true
  | String c p', String c' s' => bool_decide (c = c') && starts_with p' s'
  | String _ _, EmptyString => false
  end.

(** [s.replace(old, new)] for a non-empty [old], on a string of at most
    [fuel] characters: scanning from the left, each occurrence is
    replaced and the scan resumes after it. *)
Fixpoint str_replace_fuel (fuel : nat) (old new s : string) : string :=
  match fuel with
  | 0 => s
  | S fuel' =>
      match s with
      | EmptyString => EmptyString
      | String c s' =>
          if starts_with old s
          then new +:+ str_replace_fuel fuel' old new (String.substring (String.length old) (String.length s) s)
          else String c (str_replace_fuel fuel' old new s')
      end
  end.

Definition str_replace (s old new : string) : string := str_replace_fuel (String.length s) old new s.

(** [DATABASE_URL]. *)
Definition DATABASE_URL : string := "sqlite+aiosqlite:///./test.db".

(** The URL of [create_engine]: [DATABASE_URL.replace("+aiosqlite", "")]. *)
Definition engine_url : string := str_replace DATABASE_URL "+aiosqlite" "".

(** ** Theorems *)

Lemma length_substring n m s : String.length (String.substring n m s) <= String.length s - n.
Proof.
  revert n m. induction s as [|c s IH]; intros [|n] [|m]; simpl; try lia.
  - specialize (IH 0 m). lia.
  - apply IH.
  - apply IH.
Qed.

(** Each step of the scan consumes at least one character, so [String.length s]
    steps suffice: more fuel gives the same string. *)
Lemma str_replace_fuel_enough n old new s :
  old <> EmptyString -> String.length s <= n -> str_replace_fuel n old new s = str_replace_fuel (S n) old new s.
Proof.
  intros Hold. revert s. induction n as [|n IH]; intros s Hs.
  - destruct s; [done|simpl in Hs; lia].
  - destruct s as [|c s']; [done|]. cbn [str_replace_fuel].
    destruct (starts_with old (String c s')) eqn:Hst.
    + f_equal. apply IH. destruct old as [|c0 old']; [done|].
      pose proof (length_substring (String.length (String c0 old')) (String.length (String c s')) (String c s')).
      simpl in *. lia.
    + f_equal. apply IH. simpl in Hs. lia.
Qed.

Lemma engine_url_value : engine_url = "sqlite:///./test.db".
Proof. reflexivity. Qed.

End Database.
