(* ===== verification/PokerBattle.v ===== *)
(** * The game engine: [src/backend/app/game_modes/poker_battle.py]

    [game_states] is a module-level dict from room id to the round state.
    [draw_card] and [play_card] take the state dict by reference and
    mutate it in place; a later failing statement does not undo an
    earlier mutation.  They are written in the [PyM] monad over the
    [game_states] dict: each in-place mutation of the round state is a
    [store] of the updated record under the room id, in the order of the
    source lines, so the state reached when an exception escapes is the
    one the Python code leaves behind.  [finish_game] also writes the
    ledger, so it runs over the pair of [game_states] and the database. *)

From S2P Require Import Prelude PyDict Shuffle RoomRegistry Cards Ledger.
Import Registry.

Module PokerBattle.

(** [{"drawn": bool, "played": bool}] *)
Record Actions := mkActions {
  drawn : bool;
  played : bool
}.

(** [{"deck", "hands", "table", "playerActions", "game_time", "finished"}] *)
Record GameState := mkState {
  deck : list Card;
  hands : dict string (list Card);
  table : dict string (option Card);
  playerActions : dict string Actions;
  game_time : Z;
  finished : bool
}.

(** The [detail] of each [HTTPException] the engine raises. *)
Inductive GameError :=
  | NotInitialized          (* "游戏状态未初始化" *)
  | AlreadyDrawn            (* "已摸牌，无法重复摸牌" *)
  | DeckEmpty               (* "牌堆为空" *)
  | AlreadyPlayed           (* "已出牌，无法重复出牌" *)
  | CardNotHeld             (* "该玩家没有这张牌" *)
  | AlreadyFinished         (* "该局游戏已结束" *)
  | NotAllPlayed            (* "并非所有玩家都已出牌" *)
  | UnsupportedPlayerCount. (* "不支持该玩家数量" *)

#[export] Instance GameError_eq_dec : EqDecision GameError.
Proof. solve_decision. Defined.

Abbreviation GameStates := (dict string GameState).

Definition with_deck (d : list Card) (st : GameState) : GameState :=
  mkState d (hands st) (table st) (playerActions st) (game_time st) (finished st).
Definition with_hands (h : dict string (list Card)) (st : GameState) : GameState :=
  mkState (deck st) h (table st) (playerActions st) (game_time st) (finished st).
Definition with_table (t : dict string (option Card)) (st : GameState) : GameState :=
  mkState (deck st) (hands st) t (playerActions st) (game_time st) (finished st).
Definition with_actions (a : dict string Actions) (st : GameState) : GameState :=
  mkState (deck st) (hands st) (table st) a (game_time st) (finished st).
Definition with_finished (b : bool) (st : GameState) : GameState :=
  mkState (deck st) (hands st) (table st) (playerActions st) (game_time st) b.

(** [game_states[room_id]], raising when the room has no game. *)
Definition lookup_state (rid : string) : PyM GameStates GameError GameState :=
  fun gs => match get gs rid with
            | None => (gs, Raise NotInitialized)
            | Some st => (gs, Ok st)
            end.

(** The in-place mutation of [game_states[room_id]]. *)
Definition store (rid : string) (st : GameState) : PyM GameStates GameError unit :=
  fun gs => (setitem gs rid st, Ok tt).

(** [initialize_game(room, config)] ([config] is not read): a shuffled
    52-card deck and, for each member of the room in the order of its
    [users] dict, an empty hand, an empty table slot and cleared flags. *)
Definition initialize_game (randbelow : nat -> nat) (now : Z) (room : Room)
    : PyM GameStates GameError GameState :=
  let players := keys (users room) in
  let st := mkState (shuffle randbelow full_deck)
                    (from_keys players (fun _ => []))
                    (from_keys players (fun _ => None))
                    (from_keys players (fun _ => mkActions false false))
                    now false in
  store (room_id room) st ;; ret st.

(** [state["playerActions"].get(username, {}).get(flag, False)] *)
Definition action_flag (flag : Actions -> bool) (st : GameState) (u : string) : bool :=
  match get (playerActions st) u with Some a => flag a | None => false end.

(** [draw_card(room_id, username)] *)
Definition draw_card (rid u : string) : PyM GameStates GameError (Card * GameState) :=
  st <- lookup_state rid ;;
  if action_flag drawn st u then raise AlreadyDrawn else
  match pop0 (deck st) with
  | None => raise DeckEmpty
  | Some (card, rest) =>
      let st1 := with_deck rest st in
      store rid st1 ;;
      match get (hands st1) u with
      | None => crash_with KeyError
      | Some h =>
          let st2 := with_hands (setitem (hands st1) u (h ++ [card])) st1 in
          store rid st2 ;;
          match get (playerActions st2) u with
          | None => crash_with KeyError
          | Some a =>
              let st3 := with_actions (setitem (playerActions st2) u
                                         (mkActions true (played a))) st2 in
              store rid st3 ;; ret (card, st3)
          end
      end
  end.

(** [play_card(room_id, username, card)] *)
Definition play_card (rid u : string) (card : Card) : PyM GameStates GameError GameState :=
  st <- lookup_state rid ;;
  if action_flag played st u then raise AlreadyPlayed else
  match get (hands st) u with
  | None => raise CardNotHeld
  | Some h =>
      match list_remove card h with
      | None => raise CardNotHeld
      | Some h' =>
          let st1 := with_hands (setitem (hands st) u h') st in
          store rid st1 ;;
          let st2 := with_table (setitem (table st1) u (Some card)) st1 in
          store rid st2 ;;
          match get (playerActions st2) u with
          | None => crash_with KeyError
          | Some a =>
              let st3 := with_actions (setitem (playerActions st2) u
                                         (mkActions (drawn a) true)) st2 in
              store rid st3 ;; ret st3
          end
      end
  end.

(** [any(card is None for card in state["table"].values())] and, when it
    is false, [list(state["table"].items())]. *)
Fixpoint played_cards (t : dict string (option Card)) : option (list (string * Card)) :=
  match t with
  | [] => Some []
  | (_, None) :: _ => None
  | (u, Some c) :: t' => cons (u, c) <$> played_cards t'
  end.

(** The [results] dict of [finish_game] from the ranked players. *)
Definition score_results (CONFIG : Config) (ranked : list (string * Card))
    : option (dict string Z) :=
  match ranked with
  | [(p0, _); (p1, _)] =>
      Some (setitem (setitem [] p0 (score2_win CONFIG)) p1 (score2_lose CONFIG))
  | [(p0, _); (p1, _); (p2, _)] =>
      Some (setitem (setitem (setitem [] p0 (score3_win CONFIG)) p1 (score3_draw CONFIG))
              p2 (score3_lose CONFIG))
  | _ => None
  end.

(** [played.sort(key=lambda x: card_weight(x[1], config), reverse=True)] *)
Definition rank_played (config : Config) (played : list (string * Card)) : list (string * Card) :=
  sort_desc (fun pc => card_weight pc.2 config) played.

(** [finish_game(room, config)]: the checks, the ranking (weights from
    the [config] argument, scores from the module's [CONFIG]), the ledger
    writes, then [state["finished"] = True]. *)
Definition finish_game (CONFIG config : Config) (room : Room)
    : PyM (GameStates * Ledger.DB) GameError (dict string Z * dict string (option Card)) :=
  fun '(gs, db) =>
  let rid := room_id room in
  match get gs rid with
  | None => ((gs, db), Raise NotInitialized)
  | Some st =>
      if finished st then ((gs, db), Raise AlreadyFinished) else
      match played_cards (table st) with
      | None => ((gs, db), Raise NotAllPlayed)
      | Some played =>
          match score_results CONFIG (rank_played config played) with
          | None => ((gs, db), Raise UnsupportedPlayerCount)
          | Some results =>
              match Ledger.record_round db rid (game_time st) (keys (table st)) results with
              | None => ((gs, db), Crash IntegrityError)
              | Some db' =>
                  let st' := with_finished true st in
                  ((setitem gs rid st', db'), Ok (results, table st'))
              end
          end
      end
  end.

(** [start_game_http(room, config)] and [start_game(room, config)], the
    entry point [game_manager.start_game] imports: initialize the round
    and return it with the mode's name. *)
Definition start_game (randbelow : nat -> nat) (now : Z) (room : Room)
    : PyM GameStates GameError (GameState * string) :=
  st <- initialize_game randbelow now room ;; ret (st, "poker_battle").

(** ** The round invariant

    Each player is in one of three phases, read off the three dicts:
    waiting (nothing drawn), holding the one card drawn, or having played
    it onto the table.  The three dicts have the same keys in the same
    order, a finished round has a card in every table slot, and the deck,
    the hands and the table together hold the 52 cards, each once. *)

Definition slot_cards (t : option Card) : list Card :=
  match t with Some c => [c] | None => [] end.

Definition cards_of (st : GameState) : list Card :=
  deck st ++ flat_map (fun h => h) (values (hands st))
          ++ flat_map slot_cards (values (table st)).

Definition player_ok (st : GameState) (u : string) : Prop :=
  match get (hands st) u, get (table st) u, get (playerActions st) u with
  | Some h, Some t, Some a =>
      (drawn a = false /\ played a = false /\ h = [] /\ t = None) \/
      (drawn a = true /\ played a = false /\ length h = 1 /\ t = None) \/
      (drawn a = true /\ played a = true /\ h = [] /\ is_Some t)
  | _, _, _ => False
  end.

Definition game_wf (st : GameState) : Prop :=
  dict_wf (hands st) /\
  keys (table st) = keys (hands st) /\
  keys (playerActions st) = keys (hands st) /\
  (forall u, u ∈ keys (hands st) -> player_ok st u) /\
  (finished st = true -> is_Some (played_cards (table st))).

Definition engine_inv (st : GameState) : Prop :=
  game_wf st /\ cards_of st ≡ₚ full_deck.

Lemma flat_map_from_keys {B} (g : B -> list Card) (ks : list string) (b : B) :
  g b = [] -> flat_map g (values (from_keys ks (fun _ => b))) = [].
Proof.
  intros Hb. rewrite values_from_keys. induction ks as [|k ks IH]; simpl; [done|].
  by rewrite Hb, IH.
Qed.

Lemma player_ok_ext st st' u :
  get (hands st') u = get (hands st) u -> get (table st') u = get (table st) u ->
  get (playerActions st') u = get (playerActions st) u ->
  player_ok st' u <-> player_ok st u.
Proof. intros H1 H2 H3. unfold player_ok. by rewrite H1, H2, H3. Qed.

(** The phase of a player of a well-formed round, from its flags. *)
Lemma player_phase st u h a :
  game_wf st -> get (hands st) u = Some h -> get (playerActions st) u = Some a ->
  exists t, get (table st) u = Some t /\
    ((drawn a = false /\ played a = false /\ h = [] /\ t = None) \/
     (drawn a = true /\ played a = false /\ length h = 1 /\ t = None) \/
     (drawn a = true /\ played a = true /\ h = [] /\ is_Some t)).
Proof.
  intros (_ & _ & _ & Hp & _) Hh Ha.
  specialize (Hp u (get_Some_keys _ _ _ Hh)). unfold player_ok in Hp.
  rewrite Hh, Ha in Hp. destruct (get (table st) u) as [t|]; [eauto|done].
Qed.

(** [initialize_game] stores a round satisfying the invariant whose
    table has the room's members as keys, in order. *)
Lemma initialize_game_run randbelow now room gs :
  dict_wf (users room) ->
  exists st,
    initialize_game randbelow now room gs = (setitem gs (room_id room) st, Ok st) /\
    engine_inv st /\ keys (table st) = keys (users room).
Proof.
  intros Hwf. eexists. split; [reflexivity|].
  unfold engine_inv, game_wf. cbn [hands table playerActions deck finished].
  assert (Hk : forall B (b : B), keys (from_keys (keys (users room)) (fun _ => b))
                                 = keys (users room)) by (intros; apply keys_from_keys).
  rewrite !Hk. split; [split|done].
  - split; [by apply dict_wf_from_keys|]. split; [done|]. split; [done|]. split; [|done].
    intros u Hu. unfold player_ok.
    cbn [hands table playerActions]. rewrite !get_from_keys by done. left. done.
  - unfold cards_of. cbn [hands table deck]. rewrite !flat_map_from_keys by done.
    rewrite !app_nil_r. apply shuffle_perm.
Qed.

(** C7. [initialize_game] stores, under the room's id, a round in which
    the deck is a permutation of the 52 cards, every member of the room
    (in the order of the room's [users] dict) is a player with an empty
    hand, an empty table slot and cleared flags, the round is not
    finished, and the round invariant holds; calling it again on a
    finished room (restart) replaces the round by such a fresh one. *)
Theorem initialize_game_inv randbelow now room gs :
  dict_wf (users room) ->
  exists st,
    initialize_game randbelow now room gs = (setitem gs (room_id room) st, Ok st) /\
    engine_inv st /\ finished st = false /\ deck st ≡ₚ full_deck /\
    keys (table st) = keys (users room) /\
    forall u, u ∈ keys (users room) ->
      get (hands st) u = Some [] /\ get (table st) u = Some None /\
      action_flag drawn st u = false /\ action_flag played st u = false.
Proof.
  intros Hwf. destruct (initialize_game_run randbelow now room gs Hwf) as (st & Heq & Hinv & Hk).
  exists st. split; [done|]. split; [done|].
  injection Heq as _ <-. cbn [finished deck]. split; [done|]. split; [apply shuffle_perm|].
  split; [done|]. intros u Hu. unfold action_flag. cbn [hands table playerActions].
  by rewrite !get_from_keys.
Qed.

Lemma initialize_game_inv_witness :
  dict_wf (users (mkRoom "R1" [("alice", false); ("bob", true)])) /\
  exists st,
    initialize_game (fun i => i) 7 (mkRoom "R1" [("alice", false); ("bob", true)]) []
      = (setitem [] "R1" st, Ok st) /\
    engine_inv st /\ finished st = false /\ deck st ≡ₚ full_deck /\
    keys (table st) = ["alice"; "bob"] /\
    forall u, u ∈ ["alice"; "bob"] ->
      get (hands st) u = Some [] /\ get (table st) u = Some None /\
      action_flag drawn st u = false /\ action_flag played st u = false.
Proof.
  assert (Hwf : dict_wf (users (mkRoom "R1" [("alice", false); ("bob", true)]))) by decide_by_eval.
  split; [exact Hwf|]. exact (initialize_game_inv (fun i => i) 7 _ [] Hwf).
Defined.

(** [draw_card] with the monad run: the state it leaves and its outcome
    on each branch of the code. *)
Lemma draw_card_eq gs rid u st :
  get gs rid = Some st ->
  draw_card rid u gs =
  if action_flag drawn st u then (gs, Raise AlreadyDrawn) else
  match deck st with
  | [] => (gs, Raise DeckEmpty)
  | c :: rest =>
      match get (hands st) u with
      | None => (setitem gs rid (with_deck rest st), Crash KeyError)
      | Some h =>
          let st2 := with_hands (setitem (hands st) u (h ++ [c])) (with_deck rest st) in
          match get (playerActions st) u with
          | None => (setitem gs rid st2, Crash KeyError)
          | Some a =>
              let st3 := with_actions (setitem (playerActions st) u (mkActions true (played a))) st2 in
              (setitem gs rid st3, Ok (c, st3))
          end
      end
  end.
Proof.
  intros Hg. unfold draw_card, bind, lookup_state, store, ret, raise, crash_with.
  rewrite Hg. destruct (action_flag drawn st u); [done|].
  destruct (deck st) as [|c rest]; [done|]. simpl.
  destruct (get (hands st) u) as [h|]; [|done].
  rewrite setitem_setitem. destruct (get (playerActions st) u) as [a|]; [|done].
  by rewrite setitem_setitem.
Qed.

Lemma draw_preserves st u c rest h a :
  engine_inv st -> deck st = c :: rest -> get (hands st) u = Some h ->
  get (playerActions st) u = Some a -> drawn a = false ->
  engine_inv (with_actions (setitem (playerActions st) u (mkActions true (played a)))
               (with_hands (setitem (hands st) u (h ++ [c])) (with_deck rest st))).
Proof.
  intros [Hwf Hc] Hd Hh Ha Hdr.
  destruct (player_phase _ _ _ _ Hwf Hh Ha) as (t & Ht & [(_ & Hpl & -> & ->)|[(? & _)|(? & _)]]);
    [|congruence|congruence].
  destruct Hwf as (Hnd & Hkt & Hka & Hp & Hf).
  assert (Hu : u ∈ keys (hands st)) by (by eapply get_Some_keys).
  assert (Hua : u ∈ keys (playerActions st)) by (by eapply get_Some_keys).
  split; [split; [by apply dict_wf_setitem|]|]; simpl.
  - rewrite keys_setitem_present by done. split; [done|].
    rewrite keys_setitem_present by done. split; [done|]. split; [|done].
    intros u' Hu'.
    destruct (decide (u = u')) as [<-|Hne].
    + unfold player_ok. simpl. rewrite !get_setitem_eq, Ht. right; left. done.
    + rewrite player_ok_ext; [by apply Hp| |done|]; simpl; by rewrite get_setitem_ne.
  - unfold cards_of in *. simpl. rewrite Hd in Hc. rewrite <- Hc.
    pose proof (flat_map_values_setitem (fun h => h) (hands st) u [c] [] Hh) as Hv.
    rewrite app_nil_r in Hv. rewrite Hv. solve_Permutation.
Qed.

Lemma play_card_eq gs rid u card st :
  get gs rid = Some st ->
  play_card rid u card gs =
  if action_flag played st u then (gs, Raise AlreadyPlayed) else
  match get (hands st) u with
  | None => (gs, Raise CardNotHeld)
  | Some h =>
      if decide (card ∈ h) then
        let st2 := with_table (setitem (table st) u (Some card))
                     (with_hands (setitem (hands st) u (remove_first card h)) st) in
        match get (playerActions st) u with
        | None => (setitem gs rid st2, Crash KeyError)
        | Some a =>
            let st3 := with_actions (setitem (playerActions st) u (mkActions (drawn a) true)) st2 in
            (setitem gs rid st3, Ok st3)
        end
      else (gs, Raise CardNotHeld)
  end.
Proof.
  intros Hg. unfold play_card, bind, lookup_state, store, ret, raise, crash_with, list_remove.
  rewrite Hg. destruct (action_flag played st u); [done|].
  destruct (get (hands st) u) as [h|]; [|done]. case_decide; [|done]. simpl.
  rewrite setitem_setitem. destruct (get (playerActions st) u) as [a|]; [|done].
  by rewrite setitem_setitem.
Qed.

Lemma played_cards_no_empty_slot t u l :
  played_cards t = Some l -> get t u <> Some None.
Proof.
  revert l. induction t as [|[k [c|]] t IH]; intros l; simpl; [done| |done].
  destruct (played_cards t) eqn:E; [|done]. intros _. case_decide; [done|]. by eapply IH.
Qed.

Lemma singleton_of_length_1 (card : Card) h : length h = 1 -> card ∈ h -> h = [card].
Proof.
  destruct h as [|c [|? ?]]; simpl; intros Hl Hin; [lia| |lia].
  by apply list_elem_of_singleton in Hin as ->.
Qed.

Lemma play_preserves st u card h a :
  engine_inv st -> get (hands st) u = Some h -> card ∈ h ->
  get (playerActions st) u = Some a -> played a = false ->
  engine_inv (with_actions (setitem (playerActions st) u (mkActions (drawn a) true))
               (with_table (setitem (table st) u (Some card))
                 (with_hands (setitem (hands st) u (remove_first card h)) st))).
Proof.
  intros [Hwf Hc] Hh Hin Ha Hpl.
  destruct (player_phase _ _ _ _ Hwf Hh Ha) as
    (t & Ht & [(_ & _ & -> & _)|[(Hdr & _ & Hl & ->)|(_ & ? & _)]]);
    [by apply elem_of_nil in Hin| |congruence].
  apply (singleton_of_length_1 card) in Hl as ->; [|done].
  simpl. rewrite decide_True by done.
  destruct Hwf as (Hnd & Hkt & Hka & Hp & Hf).
  assert (Hu : u ∈ keys (hands st)) by (by eapply get_Some_keys).
  assert (Hut : u ∈ keys (table st)) by (by eapply get_Some_keys).
  assert (Hua : u ∈ keys (playerActions st)) by (by eapply get_Some_keys).
  split; [split; [by apply dict_wf_setitem|]|]; simpl.
  - rewrite !keys_setitem_present by done. split; [done|]. split; [done|]. split.
    + intros u' Hu'. destruct (decide (u = u')) as [<-|Hne].
      * unfold player_ok. simpl. rewrite !get_setitem_eq. right; right. done.
      * rewrite player_ok_ext; [by apply Hp| | |]; simpl; by rewrite get_setitem_ne.
    + intros Hfin. destruct (Hf Hfin) as [l Hl]. by apply played_cards_no_empty_slot with (u := u) in Hl.
  - unfold cards_of in *. simpl. rewrite <- Hc.
    pose proof (flat_map_values_setitem (fun h => h) (hands st) u [] [card] Hh) as Hv.
    pose proof (flat_map_values_setitem slot_cards (table st) u (Some card) None Ht) as Hw.
    simpl in Hv, Hw. rewrite app_nil_r in Hv, Hw.
    rewrite <- Hv, Hw. solve_Permutation.
Qed.

(** A round whose every slot is filled: marking it finished keeps the
    invariant. *)
Lemma finish_preserves st l :
  engine_inv st -> played_cards (table st) = Some l -> engine_inv (with_finished true st).
Proof.
  intros [(Hnd & Hkt & Hka & Hp & _) Hc] Hl. split; [|done].
  split; [done|]. split; [done|]. split; [done|]. split; [|by exists l].
  intros u Hu. rewrite player_ok_ext; [by apply Hp|done..].
Qed.

Definition no_crash {E A} (o : outcome E A) : Prop := forall c, o <> Crash c.

(** The engine as a transition system over [game_states]: any call of an
    engine function on any room that does not end in an unhandled
    exception. *)
Inductive engine_step : GameStates -> GameStates -> Prop :=
  | es_init randbelow now room gs o gs' :
      dict_wf (users room) ->
      initialize_game randbelow now room gs = (gs', o) -> engine_step gs gs'
  | es_draw rid u gs gs' o :
      draw_card rid u gs = (gs', o) -> no_crash o -> engine_step gs gs'
  | es_play rid u card gs gs' o :
      play_card rid u card gs = (gs', o) -> no_crash o -> engine_step gs gs'
  | es_finish CONFIG config room db gs db' gs' o :
      finish_game CONFIG config room (gs, db) = ((gs', db'), o) -> no_crash o ->
      engine_step gs gs'.

Definition states_inv (gs : GameStates) : Prop :=
  forall rid st, get gs rid = Some st -> engine_inv st.

Lemma states_inv_setitem gs rid st :
  states_inv gs -> engine_inv st -> states_inv (setitem gs rid st).
Proof.
  intros Hgs Hst rid' st'. destruct (decide (rid = rid')) as [<-|Hne].
  - rewrite get_setitem_eq. by intros [= <-].
  - rewrite get_setitem_ne by done. apply Hgs.
Qed.

Lemma draw_card_no_game gs rid u :
  get gs rid = None -> draw_card rid u gs = (gs, Raise NotInitialized).
Proof. intros Hg. unfold draw_card, bind, lookup_state. by rewrite Hg. Qed.

Lemma play_card_no_game gs rid u card :
  get gs rid = None -> play_card rid u card gs = (gs, Raise NotInitialized).
Proof. intros Hg. unfold play_card, bind, lookup_state. by rewrite Hg. Qed.

(** A [draw_card] that does not crash leaves [game_states] alone or
    stores a round that keeps the invariant, the table and the flag. *)
Lemma draw_card_handled gs rid u st gs' o :
  get gs rid = Some st -> engine_inv st -> draw_card rid u gs = (gs', o) -> no_crash o ->
  gs' = gs \/ exists st', gs' = setitem gs rid st' /\ engine_inv st' /\
                          table st' = table st /\ finished st' = finished st.
Proof.
  intros Hg Hinv Hd Hnc. rewrite (draw_card_eq _ _ _ _ Hg) in Hd.
  destruct (action_flag drawn st u) eqn:Hdr; [injection Hd as <- _; by left|].
  destruct (deck st) as [|c rest] eqn:Hdk; [injection Hd as <- _; by left|].
  destruct (get (hands st) u) as [h|] eqn:Hh; [|injection Hd as _ <-; by destruct (Hnc KeyError)].
  destruct (get (playerActions st) u) as [a|] eqn:Ha; [|injection Hd as _ <-; by destruct (Hnc KeyError)].
  injection Hd as <- _. right. eexists; split; [done|]. split; [|done].
  apply draw_preserves; [done..|]. unfold action_flag in Hdr. by rewrite Ha in Hdr.
Qed.

(** A [play_card] that does not crash leaves [game_states] alone or
    stores a round that keeps the invariant, the table's keys and the
    flag. *)
Lemma play_card_handled gs rid u card st gs' o :
  get gs rid = Some st -> engine_inv st -> play_card rid u card gs = (gs', o) -> no_crash o ->
  gs' = gs \/ exists st', gs' = setitem gs rid st' /\ engine_inv st' /\
                          keys (table st') = keys (table st) /\ finished st' = finished st.
Proof.
  intros Hg Hinv Hp Hnc. rewrite (play_card_eq _ _ _ _ _ Hg) in Hp.
  destruct (action_flag played st u) eqn:Hpl; [injection Hp as <- _; by left|].
  destruct (get (hands st) u) as [h|] eqn:Hh; [|injection Hp as <- _; by left].
  case_decide as Hin; [|injection Hp as <- _; by left].
  destruct (get (playerActions st) u) as [a|] eqn:Ha; [|injection Hp as _ <-; by destruct (Hnc KeyError)].
  injection Hp as <- _. right. eexists; split; [done|]. split.
  { apply play_preserves; [done..|]. unfold action_flag in Hpl. by rewrite Ha in Hpl. }
  split; [|done]. simpl. apply keys_setitem_present.
  destruct Hinv as [(_ & Hkt & _) _]. rewrite Hkt. by eapply get_Some_keys.
Qed.

Lemma engine_step_inv gs gs' : states_inv gs -> engine_step gs gs' -> states_inv gs'.
Proof.
  intros Hgs Hs. destruct Hs as [randbelow now room gs o gs' Hwf Hi|rid u gs gs' o Hd Hnc
                                |rid u card gs gs' o Hp Hnc|CONFIG config room db gs db' gs' o Hf Hnc].
  - destruct (initialize_game_run randbelow now room gs Hwf) as (st & Heq & Hinv & _).
    rewrite Heq in Hi. injection Hi as <- _. by apply states_inv_setitem.
  - destruct (get gs rid) as [st|] eqn:Hg; [|rewrite draw_card_no_game in Hd by done; by injection Hd as <- _].
    destruct (draw_card_handled _ _ _ _ _ _ Hg (Hgs _ _ Hg) Hd Hnc) as [->|(st' & -> & Hinv & _)];
      [done|by apply states_inv_setitem].
  - destruct (get gs rid) as [st|] eqn:Hg; [|rewrite play_card_no_game in Hp by done; by injection Hp as <- _].
    destruct (play_card_handled _ _ _ _ _ _ _ Hg (Hgs _ _ Hg) Hp Hnc) as [->|(st' & -> & Hinv & _)];
      [done|by apply states_inv_setitem].
  - revert Hf. unfold finish_game.
    destruct (get gs (room_id room)) as [st|] eqn:Hg; [|by intros [= <- _ _]].
    destruct (finished st); [by intros [= <- _ _]|].
    destruct (played_cards (table st)) as [l|] eqn:Hl; [|by intros [= <- _ _]].
    destruct (score_results _ _); [|by intros [= <- _ _]].
    destruct (Ledger.record_round _ _ _ _ _); [|intros [= _ _ <-]; by destruct (Hnc IntegrityError)].
    intros [= <- _ _]. apply states_inv_setitem; [done|].
    eapply finish_preserves; [by apply (Hgs (room_id room))|done].
Qed.

Lemma reachable_states_inv gs : rtc engine_step [] gs -> states_inv gs.
Proof.
  intros Hr. assert (Hinv : forall x y, rtc engine_step x y -> states_inv x -> states_inv y).
  { induction 1; eauto using engine_step_inv. }
  by apply (Hinv [] gs Hr).
Qed.

(** One engine call on concrete data, as a step of a transition system
    ([es_draw], [es_play], [rs_draw], [rs_play]). *)
Ltac step_by_eval c := eapply c; [apply surjective_pairing|intros ?; vm_compute; discriminate].
Ltac init_step_by_eval := eapply es_init; [|apply surjective_pairing]; decide_by_eval.

(** ** Theorems *)

(** C1. In every [game_states] dict reachable from the empty one by
    engine calls that do not crash, every room's round satisfies the
    invariant: each of the 52 cards is in exactly one of the deck, a
    player's hand or the table, and each player is waiting, holds the
    one card drawn, or has played it. *)
Theorem engine_reachable_inv gs rid st :
  rtc engine_step [] gs -> get gs rid = Some st -> engine_inv st.
Proof. intros Hr. by apply reachable_states_inv. Qed.

Lemma engine_reachable_inv_witness :
  let room := mkRoom "R1" [("alice", true); ("bob", true)] in
  let gs1 := exec (initialize_game (fun _ => 0) 0 room) [] in
  let gs2 := exec (draw_card "R1" "alice") gs1 in
  let gs3 := exec (play_card "R1" "alice" (mkCard "clubs" "2")) gs2 in
  rtc engine_step [] gs3 /\
  exists st, get gs3 "R1" = Some st /\ engine_inv st.
Proof.
  intros room gs1 gs2 gs3.
  assert (Hr : rtc engine_step [] gs3).
  { apply rtc_l with gs1; [init_step_by_eval|].
    apply rtc_l with gs2; [step_by_eval es_draw|].
    apply rtc_l with gs3; [step_by_eval es_play|apply rtc_refl]. }
  split; [exact Hr|].
  pose (st := match get gs3 "R1" with Some st => st | None => mkState [] [] [] [] 0 false end).
  assert (Hg : get gs3 "R1" = Some st) by (vm_compute; reflexivity).
  exists st. split; [exact Hg|]. exact (engine_reachable_inv gs3 "R1" st Hr Hg).
Defined.

(** The guards of a player of a well-formed round. *)
Lemma player_entries st u :
  game_wf st -> u ∈ keys (hands st) ->
  exists h a, get (hands st) u = Some h /\ get (playerActions st) u = Some a /\
              action_flag drawn st u = drawn a /\ action_flag played st u = played a.
Proof.
  intros (_ & _ & Hka & _) Hu. destruct (get_in_keys _ _ Hu) as [h Hh].
  destruct (get_same_keys (hands st) (playerActions st) u) as [a Ha]; [done|by exists h|].
  exists h, a. unfold action_flag. by rewrite Ha.
Qed.

(** C3. [draw_card] on every branch, for a player of the round: no game
    raises [NotInitialized], a second draw raises [AlreadyDrawn], an empty
    deck raises [DeckEmpty], all three without changing anything;
    otherwise the front card of the deck moves into the player's empty
    hand, the deck shrinks by exactly that card, the table is untouched,
    the invariant still holds, and drawing again raises [AlreadyDrawn]. *)
Theorem draw_card_outcomes gs rid u :
  match get gs rid with
  | None => draw_card rid u gs = (gs, Raise NotInitialized)
  | Some st =>
      engine_inv st -> u ∈ keys (hands st) ->
      (action_flag drawn st u = true -> draw_card rid u gs = (gs, Raise AlreadyDrawn)) /\
      (action_flag drawn st u = false -> deck st = [] ->
         draw_card rid u gs = (gs, Raise DeckEmpty)) /\
      (forall c rest, action_flag drawn st u = false -> deck st = c :: rest ->
         exists st', draw_card rid u gs = (setitem gs rid st', Ok (c, st')) /\
           deck st' = rest /\ get (hands st') u = Some [c] /\ table st' = table st /\
           action_flag drawn st' u = true /\ engine_inv st' /\
           draw_card rid u (setitem gs rid st') = (setitem gs rid st', Raise AlreadyDrawn))
  end.
Proof.
  destruct (get gs rid) as [st|] eqn:Hg;
    [|by apply draw_card_no_game].
  intros Hinv Hu. rewrite (draw_card_eq _ _ _ _ Hg).
  destruct (player_entries st u) as (h & a & Hh & Ha & Hfd & Hfp); [apply Hinv|done|].
  split; [by intros ->|]. split; [by intros -> ->|].
  intros c rest Hdr Hd. rewrite Hdr, Hd, Hh, Ha.
  rewrite Hfd in Hdr.
  destruct (player_phase _ _ _ _ (proj1 Hinv) Hh Ha) as (t & _ & [(_ & _ & -> & _)|[(? & _)|(? & _)]]);
    [|congruence|congruence].
  eexists; split; [done|]. simpl. split; [done|]. split; [apply get_setitem_eq|].
  split; [done|]. split; [unfold action_flag; simpl; by rewrite get_setitem_eq|].
  split; [exact (draw_preserves st u c rest [] a Hinv Hd Hh Ha Hdr)|].
  rewrite (draw_card_eq _ _ _ _ (get_setitem_eq _ _ _)).
  unfold action_flag. simpl. by rewrite get_setitem_eq.
Qed.

(** C2. A [draw_card] by a user who is not a player of the round (not a
    member when the game was initialized) passes the [drawn] guard, pops
    the front card of the deck, and only then fails on [hands[username]]
    with a [KeyError] that the handler does not catch: the popped card
    is in no hand and not on the table, so the round has lost it. *)
Theorem draw_card_nonplayer_loses_card gs rid st u c rest :
  get gs rid = Some st -> u ∉ keys (hands st) -> u ∉ keys (playerActions st) ->
  deck st = c :: rest -> NoDup (cards_of st) ->
  exists st', draw_card rid u gs = (setitem gs rid st', Crash KeyError) /\
    deck st' = rest /\ hands st' = hands st /\ table st' = table st /\
    c :: cards_of st' = cards_of st /\ c ∉ cards_of st'.
Proof.
  intros Hg Hu Hua Hd Hnd. rewrite (draw_card_eq _ _ _ _ Hg).
  unfold action_flag. rewrite (proj2 (get_None_keys _ _) Hua), Hd.
  rewrite (proj2 (get_None_keys _ _) Hu).
  eexists; split; [done|]. simpl. split; [done|]. split; [done|]. split; [done|].
  assert (Hc : c :: cards_of (with_deck rest st) = cards_of st) by (unfold cards_of; by rewrite Hd).
  split; [done|]. rewrite <- Hc in Hnd. by apply NoDup_cons in Hnd as [? _].
Qed.

Lemma draw_card_nonplayer_loses_card_witness :
  let st := mkState full_deck [("alice", [])] [("alice", None)]
                    [("alice", mkActions false false)] 0 false in
  exists st', draw_card "R1" "carol" [("R1", st)] = (setitem [("R1", st)] "R1" st', Crash KeyError) /\
    deck st' = tail full_deck /\ hands st' = hands st /\ table st' = table st /\
    mkCard "clubs" "A" :: cards_of st' = cards_of st /\ mkCard "clubs" "A" ∉ cards_of st'.
Proof.
  intros st. apply (draw_card_nonplayer_loses_card [("R1", st)] "R1" st "carol").
  - reflexivity.
  - decide_by_eval.
  - decide_by_eval.
  - reflexivity.
  - decide_by_eval.
Defined.

(** C4. [play_card] on every branch, for a player of the round: no game
    raises [NotInitialized], a second play raises [AlreadyPlayed], a card
    the player does not hold raises [CardNotHeld], all without changing
    anything; otherwise the card leaves the hand for the player's table
    slot, the deck is untouched, the invariant still holds, and playing
    again raises [AlreadyPlayed]. *)
Theorem play_card_outcomes gs rid u card :
  match get gs rid with
  | None => play_card rid u card gs = (gs, Raise NotInitialized)
  | Some st =>
      engine_inv st -> u ∈ keys (hands st) ->
      (action_flag played st u = true -> play_card rid u card gs = (gs, Raise AlreadyPlayed)) /\
      (action_flag played st u = false -> (forall h, get (hands st) u = Some h -> card ∉ h) ->
         play_card rid u card gs = (gs, Raise CardNotHeld)) /\
      (forall h, action_flag played st u = false -> get (hands st) u = Some h -> card ∈ h ->
         exists st', play_card rid u card gs = (setitem gs rid st', Ok st') /\
           get (hands st') u = Some [] /\ get (table st') u = Some (Some card) /\
           deck st' = deck st /\ action_flag played st' u = true /\ engine_inv st' /\
           forall card', play_card rid u card' (setitem gs rid st') =
                         (setitem gs rid st', Raise AlreadyPlayed))
  end.
Proof.
  destruct (get gs rid) as [st|] eqn:Hg;
    [|by apply play_card_no_game].
  intros Hinv Hu. rewrite (play_card_eq _ _ _ _ _ Hg).
  destruct (player_entries st u) as (h & a & Hh & Ha & Hfd & Hfp); [apply Hinv|done|].
  split; [by intros ->|]. split.
  { intros Hpl Hn. rewrite Hpl, Hh. by rewrite decide_False by (by apply Hn). }
  intros h' Hpl Hh' Hin. rewrite Hh in Hh'. injection Hh' as <-.
  rewrite Hpl, Hh, decide_True, Ha by done. rewrite Hfp in Hpl.
  destruct (player_phase _ _ _ _ (proj1 Hinv) Hh Ha) as
    (t & _ & [(_ & _ & -> & _)|[(_ & _ & Hl & _)|(_ & ? & _)]]);
    [by apply elem_of_nil in Hin| |congruence].
  pose proof (play_preserves st u card h a Hinv Hh Hin Ha Hpl) as Hinv'.
  apply (singleton_of_length_1 card) in Hl as ->; [|done].
  eexists; split; [done|]. simpl. rewrite decide_True by done.
  split; [apply get_setitem_eq|]. split; [apply get_setitem_eq|]. split; [done|].
  split; [unfold action_flag; simpl; by rewrite get_setitem_eq|].
  split; [simpl in Hinv'; by rewrite decide_True in Hinv' by done|].
  intros card'. rewrite (play_card_eq _ _ _ _ _ (get_setitem_eq _ _ _)).
  unfold action_flag. simpl. by rewrite get_setitem_eq.
Qed.

Lemma play_card_outcomes_witness :
  let st := mkState (tail full_deck) [("alice", [mkCard "clubs" "A"])] [("alice", None)]
                    [("alice", mkActions true false)] 0 false in
  engine_inv st /\
  exists st', play_card "R1" "alice" (mkCard "clubs" "A") [("R1", st)]
                = (setitem [("R1", st)] "R1" st', Ok st') /\
    get (hands st') "alice" = Some [] /\ get (table st') "alice" = Some (Some (mkCard "clubs" "A")) /\
    deck st' = deck st /\ action_flag played st' "alice" = true /\ engine_inv st' /\
    forall card', play_card "R1" "alice" card' (setitem [("R1", st)] "R1" st') =
                  (setitem [("R1", st)] "R1" st', Raise AlreadyPlayed).
Proof.
  intros st.
  assert (Hinv : engine_inv st).
  { split; [split; [decide_by_eval|]; split; [reflexivity|]; split; [reflexivity|]; split|].
    - intros u Hu. apply list_elem_of_singleton in Hu as ->. unfold player_ok. simpl.
      right; left. done.
    - done.
    - decide_by_eval. }
  split; [exact Hinv|].
  apply (proj2 (proj2 (play_card_outcomes [("R1", st)] "R1" "alice" (mkCard "clubs" "A") Hinv
                         ltac:(left))) [mkCard "clubs" "A"]); [reflexivity|reflexivity|left].
Defined.

Lemma score_results_None CONFIG l :
  score_results CONFIG l = None <-> length l <> 2 /\ length l <> 3.
Proof.
  destruct l as [|[? ?] [|[? ?] [|[? ?] [|[? ?] ?]]]]; simpl; split; intros; try done; lia.
Qed.

Lemma length_rank_played config l : length (rank_played config l) = length l.
Proof. apply Permutation_length, sort_desc_perm. Qed.

(** C5. [finish_game] checks, in the code's order: a game exists, it
    is not finished, every table slot is filled, there are two or three
    players; each failed check changes nothing.  When the ledger accepts
    the round, the room's round is marked finished with the computed
    results, and a second [finish_game] raises [AlreadyFinished]: a round
    is scored at most once.  When the ledger rejects it (the room already
    has a session row), the insert's [IntegrityError] escapes and the
    round stays unfinished. *)
Theorem finish_game_outcomes CONFIG config room gs db :
  let rid := room_id room in
  match get gs rid with
  | None => finish_game CONFIG config room (gs, db) = ((gs, db), Raise NotInitialized)
  | Some st =>
      (finished st = true ->
         finish_game CONFIG config room (gs, db) = ((gs, db), Raise AlreadyFinished)) /\
      (finished st = false -> played_cards (table st) = None ->
         finish_game CONFIG config room (gs, db) = ((gs, db), Raise NotAllPlayed)) /\
      (forall l, finished st = false -> played_cards (table st) = Some l ->
         length l <> 2 -> length l <> 3 ->
         finish_game CONFIG config room (gs, db) = ((gs, db), Raise UnsupportedPlayerCount)) /\
      (forall l results, finished st = false -> played_cards (table st) = Some l ->
         score_results CONFIG (rank_played config l) = Some results ->
         match Ledger.record_round db rid (game_time st) (keys (table st)) results with
         | None => finish_game CONFIG config room (gs, db) = ((gs, db), Crash IntegrityError)
         | Some db' =>
             let gs' := setitem gs rid (with_finished true st) in
             finish_game CONFIG config room (gs, db) = ((gs', db'), Ok (results, table st)) /\
             forall db'', (finish_game CONFIG config room (gs', db'')).2 = Raise AlreadyFinished
         end)
  end.
Proof.
  simpl. unfold finish_game. destruct (get gs (room_id room)) as [st|] eqn:Hg; [|done].
  split; [by intros ->|]. split; [by intros -> ->|]. split.
  { intros l Hf Hl H2 H3. rewrite Hf, Hl.
    by rewrite (proj2 (score_results_None _ _)) by (by rewrite length_rank_played). }
  intros l results Hf Hl Hr. rewrite Hf, Hl, Hr.
  destruct (Ledger.record_round _ _ _ _ _) as [db'|]; [|done].
  split; [done|]. intros db''. by rewrite get_setitem_eq.
Qed.

(** C10. A finished round is closed: every player of it has drawn and
    played, so [draw_card] raises [AlreadyDrawn] and [play_card] raises
    [AlreadyPlayed] for them, [play_card] raises [CardNotHeld] for anyone
    else, and [finish_game] raises [AlreadyFinished]; none of these
    changes anything.  Only [initialize_game] starts a new round. *)
Theorem finished_round_closed gs rid st :
  get gs rid = Some st -> engine_inv st -> finished st = true ->
  (forall u card, u ∈ keys (hands st) ->
     draw_card rid u gs = (gs, Raise AlreadyDrawn) /\
     play_card rid u card gs = (gs, Raise AlreadyPlayed)) /\
  (forall u card, u ∉ keys (hands st) -> play_card rid u card gs = (gs, Raise CardNotHeld)) /\
  (forall CONFIG config room db, room_id room = rid ->
     finish_game CONFIG config room (gs, db) = ((gs, db), Raise AlreadyFinished)).
Proof.
  intros Hg Hinv Hfin. split; [|split].
  - intros u card Hu.
    destruct (player_entries st u) as (h & a & Hh & Ha & Hfd & Hfp); [apply Hinv|done|].
    destruct (player_phase _ _ _ _ (proj1 Hinv) Hh Ha) as
      (t & Ht & [(_ & _ & _ & ->)|[(_ & _ & _ & ->)|(Hd & Hp & _)]]).
    1,2: destruct Hinv as [(_ & _ & _ & _ & Hf) _]; destruct (Hf Hfin) as [l Hl];
         by apply played_cards_no_empty_slot with (u := u) in Hl.
    rewrite (draw_card_eq _ _ _ _ Hg), (play_card_eq _ _ _ _ _ Hg), Hfd, Hfp, Hd, Hp. done.
  - intros u card Hu. rewrite (play_card_eq _ _ _ _ _ Hg).
    destruct Hinv as [(_ & _ & Hka & _) _].
    unfold action_flag. rewrite (proj2 (get_None_keys (playerActions st) u)) by (by rewrite Hka).
    by rewrite (proj2 (get_None_keys (hands st) u)).
  - intros CONFIG config room db <-. unfold finish_game. by rewrite Hg, Hfin.
Qed.

(** The play of one round: draws and plays on one room that do not
    crash, in any order and by anyone. *)
Inductive round_step (rid : string) : GameStates -> GameStates -> Prop :=
  | rs_draw u gs gs' o :
      draw_card rid u gs = (gs', o) -> no_crash o -> round_step rid gs gs'
  | rs_play u card gs gs' o :
      play_card rid u card gs = (gs', o) -> no_crash o -> round_step rid gs gs'.

(** Draws and plays never reorder the table: its keys stay the room's
    members in the order they had when the game was initialized. *)
Lemma round_reachable_table_keys randbelow now room gs0 gs :
  dict_wf (users room) ->
  rtc (round_step (room_id room)) (exec (initialize_game randbelow now room) gs0) gs ->
  exists st, get gs (room_id room) = Some st /\ engine_inv st /\
             keys (table st) = keys (users room).
Proof.
  intros Hwf Hr. destruct (initialize_game_run randbelow now room gs0 Hwf) as (st0 & Heq & Hinv & Hk).
  unfold exec in Hr. rewrite Heq in Hr. simpl in Hr.
  remember (setitem gs0 (room_id room) st0) as gs1 eqn:Hgs1.
  assert (H1 : exists st, get gs1 (room_id room) = Some st /\ engine_inv st /\
                          keys (table st) = keys (users room))
    by (exists st0; subst; by rewrite get_setitem_eq).
  clear Hgs1 Heq Hinv Hk. induction Hr as [gs|gs gs' gs'' Hs _ IH]; [done|]. apply IH.
  destruct H1 as (st & Hg & Hinv & Hk).
  destruct Hs as [u gs gs' o Hd Hnc|u card gs gs' o Hp Hnc].
  - destruct (draw_card_handled _ _ _ _ _ _ Hg Hinv Hd Hnc) as [->|(st' & -> & Hinv' & Ht & _)];
      [eauto|]. exists st'. rewrite get_setitem_eq, Ht. done.
  - destruct (play_card_handled _ _ _ _ _ _ _ Hg Hinv Hp Hnc) as [->|(st' & -> & Hinv' & Ht & _)];
      [eauto|]. exists st'. rewrite get_setitem_eq, Ht. done.
Qed.

Lemma dict_two {V} (t : dict string V) a b x y :
  keys t = [a; b] -> a <> b -> get t a = Some x -> get t b = Some y -> t = [(a, x); (b, y)].
Proof.
  destruct t as [|[k1 v1] [|[k2 v2] [|? ?]]]; try discriminate. simpl.
  intros [= -> ->] Hab. rewrite decide_True by done. intros [= ->].
  by rewrite decide_False, decide_True by done; intros [= ->].
Qed.

(** C8. In a two-player room, whatever the order in which the players
    drew and played, a successful [finish_game] gives the win to the
    heavier card, and on equal weights to the player who joined the room
    first ([a], first in the room's [users] dict, hence first in the
    table), not to the player who played first. *)
Theorem two_player_result randbelow now room gs0 gs st a b ca cb CONFIG config db res :
  keys (users room) = [a; b] -> a <> b ->
  rtc (round_step (room_id room)) (exec (initialize_game randbelow now room) gs0) gs ->
  get gs (room_id room) = Some st ->
  get (table st) a = Some (Some ca) -> get (table st) b = Some (Some cb) ->
  (finish_game CONFIG config room (gs, db)).2 = Ok res ->
  res.1 = if decide (card_weight cb config <= card_weight ca config)%Z
          then [(a, score2_win CONFIG); (b, score2_lose CONFIG)]
          else [(b, score2_win CONFIG); (a, score2_lose CONFIG)].
Proof.
  intros Hk Hab Hr Hg Ha Hb.
  assert (Hwf : dict_wf (users room)).
  { unfold dict_wf. rewrite Hk. constructor; [|constructor; [apply not_elem_of_nil|constructor]].
    intros ->%list_elem_of_singleton. done. }
  destruct (round_reachable_table_keys _ _ _ _ _ Hwf Hr) as (st' & Hg' & _ & Hkt).
  rewrite Hg in Hg'. injection Hg' as <-. rewrite Hk in Hkt.
  pose proof (dict_two _ _ _ _ _ Hkt Hab Ha Hb) as Ht.
  unfold finish_game. rewrite Hg. destruct (finished st); [done|]. rewrite Ht. simpl.
  unfold rank_played, sort_desc. simpl.
  destruct (decide (card_weight cb config <= card_weight ca config)%Z); simpl;
    rewrite decide_False by congruence;
    destruct (Ledger.record_round _ _ _ _ _); simpl; by intros [= <-].
Qed.

Lemma two_player_result_witness :
  let room := mkRoom "R1" [("alice", true); ("bob", true)] in
  let cfg := mkConfig [] [] 10 (-10) 10 0 (-10) in
  let gs1 := exec (initialize_game (fun _ => 0) 0 room) [] in
  let gs2 := exec (draw_card "R1" "alice") gs1 in
  let gs3 := exec (draw_card "R1" "bob") gs2 in
  let gs4 := exec (play_card "R1" "bob" (mkCard "clubs" "3")) gs3 in
  let gs5 := exec (play_card "R1" "alice" (mkCard "clubs" "2")) gs4 in
  let res := ([("alice", 10%Z); ("bob", (-10)%Z)],
              [("alice", Some (mkCard "clubs" "2")); ("bob", Some (mkCard "clubs" "3"))]) in
  (finish_game cfg cfg room (gs5, Ledger.mkDB [] [] [])).2 = Ok res /\
  res.1 = [("alice", score2_win cfg); ("bob", score2_lose cfg)].
Proof.
  intros room cfg gs1 gs2 gs3 gs4 gs5 res.
  split; [vm_compute; reflexivity|].
  pose (st := match get gs5 "R1" with Some st => st | None => mkState [] [] [] [] 0 false end).
  assert (Hg : get gs5 "R1" = Some st) by (vm_compute; reflexivity).
  rewrite (two_player_result (fun _ => 0) 0 room [] gs5 st "alice" "bob"
             (mkCard "clubs" "2") (mkCard "clubs" "3") cfg cfg (Ledger.mkDB [] [] []) res).
  - reflexivity.
  - reflexivity.
  - discriminate.
  - apply rtc_l with gs2; [step_by_eval rs_draw|].
    apply rtc_l with gs3; [step_by_eval rs_draw|].
    apply rtc_l with gs4; [step_by_eval rs_play|].
    apply rtc_l with gs5; [step_by_eval rs_play|]. apply rtc_refl.
  - exact Hg.
  - vm_compute. reflexivity.
  - vm_compute. reflexivity.
  - vm_compute. reflexivity.
Defined.

Lemma played_cards_keys t l : played_cards t = Some l -> map fst l = keys t.
Proof.
  revert l. induction t as [|[k [c|]] t IH]; intros l; simpl; [by intros [= <-]| |done].
  destruct (played_cards t) eqn:E; [|done]. intros [= <-]. simpl. f_equal. by apply IH.
Qed.

(** C12. In a three-player room, whatever the order in which the players
    drew and played, a successful [finish_game] ranks the played cards by
    decreasing weight, cards of equal weight in the order the players
    joined the room (the table's order, by the stability of
    [list.sort]), and gives the configured win, draw and lose scores to
    the first, second and third of that ranking. *)
Theorem three_player_result randbelow now room gs0 gs st CONFIG config db res :
  length (keys (users room)) = 3 -> dict_wf (users room) ->
  rtc (round_step (room_id room)) (exec (initialize_game randbelow now room) gs0) gs ->
  get gs (room_id room) = Some st ->
  (finish_game CONFIG config room (gs, db)).2 = Ok res ->
  exists played ranked,
    played_cards (table st) = Some played /\ map fst played = keys (users room) /\
    ranked ≡ₚ played /\ sorted_desc (fun pc => card_weight pc.2 config) ranked /\
    stable_wrt (fun pc => card_weight pc.2 config) played ranked /\
    match ranked with
    | [(p0, _); (p1, _); (p2, _)] =>
        res.1 = [(p0, score3_win CONFIG); (p1, score3_draw CONFIG); (p2, score3_lose CONFIG)]
    | _ => False
    end.
Proof.
  intros Hlen Hwf Hr Hg Hfin.
  destruct (round_reachable_table_keys _ _ _ _ _ Hwf Hr) as (st' & Hg' & _ & Hkt).
  rewrite Hg in Hg'. injection Hg' as <-.
  unfold finish_game in Hfin. rewrite Hg in Hfin. destruct (finished st); [done|].
  destruct (played_cards (table st)) as [played|] eqn:Hpl; [|done].
  pose proof (played_cards_keys _ _ Hpl) as Hk. rewrite Hkt in Hk.
  assert (Hnd : NoDup (map fst (rank_played config played))).
  { unfold rank_played. rewrite sort_desc_perm, Hk. exact Hwf. }
  assert (Hl : length (rank_played config played) = 3).
  { unfold rank_played. rewrite sort_desc_perm, <- (length_map fst), Hk. exact Hlen. }
  exists played, (rank_played config played).
  split; [done|]. split; [done|]. split; [apply sort_desc_perm|].
  split; [apply sort_desc_sorted|]. split; [apply sort_desc_stable|].
  destruct (rank_played config played) as [|[p0 c0] [|[p1 c1] [|[p2 c2] [|]]]]; try discriminate.
  cbn [map fst] in Hnd. rewrite !NoDup_cons, !elem_of_cons, elem_of_nil in Hnd.
  destruct Hnd as (H0 & H1 & _). cbn in Hfin.
  destruct (Ledger.record_round _ _ _ _ _); [|done]. injection Hfin as <-. cbn.
  repeat (cbn; case_decide; [naive_solver|]). done.
Qed.

(** C6. A room is scored at most once in its lifetime: after one
    successful [finish_game], the room has a row in [game_sessions],
    whose [room_id] is UNIQUE, so finishing any later round of that room
    (after [restart_game] re-initializes it) fails with an
    [IntegrityError] that no handler catches, and that round is never
    marked finished. *)
Theorem finish_once_per_room CONFIG config room gs db gs' db' res gs2 st2 l :
  finish_game CONFIG config room (gs, db) = ((gs', db'), Ok res) ->
  get gs2 (room_id room) = Some st2 -> finished st2 = false ->
  played_cards (table st2) = Some l -> (length l = 2 \/ length l = 3) ->
  finish_game CONFIG config room (gs2, db') = ((gs2, db'), Crash IntegrityError).
Proof.
  intros Hf Hg2 Hfin Hl Hlen. revert Hf. unfold finish_game at 1.
  destruct (get gs (room_id room)) as [st|]; [|done]. destruct (finished st); [done|].
  destruct (played_cards (table st)); [|done]. destruct (score_results _ _); [|done].
  destruct (Ledger.record_round db _ _ _ _) as [db1|] eqn:Hrec; [|done].
  intros [= _ <- _]. unfold finish_game. rewrite Hg2, Hfin, Hl.
  destruct (score_results CONFIG (rank_played config l)) eqn:Hs.
  - by rewrite (Ledger.record_round_again _ _ _ _ _ _ _ _ _ Hrec).
  - apply score_results_None in Hs. rewrite length_rank_played in Hs. lia.
Qed.

Lemma finished_round_closed_witness :
  let room := mkRoom "R1" [("alice", true); ("bob", true)] in
  let cfg := mkConfig [] [] 10 (-10) 10 0 (-10) in
  let gs1 := exec (initialize_game (fun _ => 0) 0 room) [] in
  let gs2 := exec (draw_card "R1" "alice") gs1 in
  let gs3 := exec (draw_card "R1" "bob") gs2 in
  let gs4 := exec (play_card "R1" "bob" (mkCard "clubs" "3")) gs3 in
  let gs5 := exec (play_card "R1" "alice" (mkCard "clubs" "2")) gs4 in
  let gs6 := fst (fst (finish_game cfg cfg room (gs5, Ledger.mkDB [] [] []))) in
  exists st, get gs6 "R1" = Some st /\ engine_inv st /\ finished st = true /\
  (forall u card, u ∈ keys (hands st) ->
     draw_card "R1" u gs6 = (gs6, Raise AlreadyDrawn) /\
     play_card "R1" u card gs6 = (gs6, Raise AlreadyPlayed)) /\
  (forall u card, u ∉ keys (hands st) -> play_card "R1" u card gs6 = (gs6, Raise CardNotHeld)) /\
  (forall CONFIG config room' db, room_id room' = "R1" ->
     finish_game CONFIG config room' (gs6, db) = ((gs6, db), Raise AlreadyFinished)).
Proof.
  intros room cfg gs1 gs2 gs3 gs4 gs5 gs6.
  assert (Hr : rtc engine_step [] gs6).
  { apply rtc_l with gs1; [init_step_by_eval|].
    apply rtc_l with gs2; [step_by_eval es_draw|].
    apply rtc_l with gs3; [step_by_eval es_draw|].
    apply rtc_l with gs4; [step_by_eval es_play|].
    apply rtc_l with gs5; [step_by_eval es_play|].
    apply rtc_l with gs6; [|apply rtc_refl].
    eapply (es_finish cfg cfg room (Ledger.mkDB [] [] []) gs5
              (snd (fst (finish_game cfg cfg room (gs5, Ledger.mkDB [] [] []))))
              gs6 (snd (finish_game cfg cfg room (gs5, Ledger.mkDB [] [] []))));
      [vm_compute; reflexivity|intros ?; vm_compute; discriminate]. }
  pose (st := match get gs6 "R1" with Some st => st | None => mkState [] [] [] [] 0 false end).
  assert (Hg : get gs6 "R1" = Some st) by (vm_compute; reflexivity).
  assert (Hinv : engine_inv st) by exact (reachable_states_inv gs6 Hr "R1" st Hg).
  assert (Hfin : finished st = true) by (vm_compute; reflexivity).
  exists st. split; [exact Hg|]. split; [exact Hinv|]. split; [exact Hfin|].
  exact (finished_round_closed gs6 "R1" st Hg Hinv Hfin).
Defined.

(** Three players whose cards all weigh the same under a configuration
    without weight tables: the ranking is the join order, whatever the
    order of the draws and plays. *)
Lemma three_player_result_witness :
  let room := mkRoom "R1" [("alice", true); ("bob", true); ("carol", true)] in
  let cfg := mkConfig [] [] 10 (-10) 10 0 (-10) in
  let hand gs u := match get gs "R1" with
                   | Some st => match get (hands st) u with Some (c :: _) => c | _ => mkCard "" "" end
                   | None => mkCard "" "" end in
  let gs1 := exec (initialize_game (fun _ => 0) 0 room) [] in
  let gs2 := exec (draw_card "R1" "carol") gs1 in
  let gs3 := exec (draw_card "R1" "alice") gs2 in
  let gs4 := exec (draw_card "R1" "bob") gs3 in
  let gs5 := exec (play_card "R1" "carol" (hand gs4 "carol")) gs4 in
  let gs6 := exec (play_card "R1" "bob" (hand gs5 "bob")) gs5 in
  let gs7 := exec (play_card "R1" "alice" (hand gs6 "alice")) gs6 in
  let st := default (mkState [] [] [] [] 0 false) (get gs7 "R1") in
  let res := match (finish_game cfg cfg room (gs7, Ledger.mkDB [] [] [])).2 with
             | Ok r => r | _ => ([], []) end in
  (length (keys (users room)) = 3 /\ dict_wf (users room) /\
   rtc (round_step (room_id room)) (exec (initialize_game (fun _ => 0) 0 room) []) gs7 /\
   get gs7 (room_id room) = Some st /\
   (finish_game cfg cfg room (gs7, Ledger.mkDB [] [] [])).2 = Ok res) /\
  exists played ranked,
    played_cards (table st) = Some played /\ map fst played = keys (users room) /\
    ranked ≡ₚ played /\ sorted_desc (fun pc => card_weight pc.2 cfg) ranked /\
    stable_wrt (fun pc => card_weight pc.2 cfg) played ranked /\
    match ranked with
    | [(p0, _); (p1, _); (p2, _)] =>
        res.1 = [(p0, score3_win cfg); (p1, score3_draw cfg); (p2, score3_lose cfg)]
    | _ => False
    end.
Proof.
  intros room cfg hand gs1 gs2 gs3 gs4 gs5 gs6 gs7 st res.
  assert (Hl : length (keys (users room)) = 3) by reflexivity.
  assert (Hwf : dict_wf (users room)) by decide_by_eval.
  assert (Hr : rtc (round_step (room_id room)) (exec (initialize_game (fun _ => 0) 0 room) []) gs7).
  { apply rtc_l with gs2; [step_by_eval rs_draw|].
    apply rtc_l with gs3; [step_by_eval rs_draw|].
    apply rtc_l with gs4; [step_by_eval rs_draw|].
    apply rtc_l with gs5; [step_by_eval rs_play|].
    apply rtc_l with gs6; [step_by_eval rs_play|].
    apply rtc_l with gs7; [step_by_eval rs_play|]. apply rtc_refl. }
  assert (Hg : get gs7 (room_id room) = Some st) by (vm_compute; reflexivity).
  assert (Hf : (finish_game cfg cfg room (gs7, Ledger.mkDB [] [] [])).2 = Ok res) by (vm_compute; reflexivity).
  split; [exact (conj Hl (conj Hwf (conj Hr (conj Hg Hf))))|].
  exact (three_player_result (fun _ => 0) 0 room [] gs7 st cfg cfg (Ledger.mkDB [] [] []) res Hl Hwf Hr Hg Hf).
Defined.

Lemma finish_once_per_room_witness :
  let cfg := mkConfig [] [] 10 (-10) 10 0 (-10) in
  let st := mkState [] [] [("alice", Some (mkCard "clubs" "2")); ("bob", Some (mkCard "clubs" "3"))]
                    [] 0 false in
  let db1 := Ledger.mkDB [] [Ledger.mkSession 1 "R1" 0 "alice,bob"] [] in
  finish_game cfg cfg (mkRoom "R1" []) ([("R1", st)], Ledger.mkDB [] [] [])
    = (([("R1", with_finished true st)], db1),
       Ok ([("alice", 10%Z); ("bob", (-10)%Z)], table st)) /\
  finish_game cfg cfg (mkRoom "R1" []) ([("R1", st)], db1)
    = (([("R1", st)], db1), Crash IntegrityError).
Proof.
  intros cfg st db1.
  assert (H1 : finish_game cfg cfg (mkRoom "R1" []) ([("R1", st)], Ledger.mkDB [] [] [])
    = (([("R1", with_finished true st)], db1),
       Ok ([("alice", 10%Z); ("bob", (-10)%Z)], table st))) by (vm_compute; reflexivity).
  split; [exact H1|].
  apply (finish_once_per_room cfg cfg (mkRoom "R1" []) _ _ _ _ _ [("R1", st)] st
           [("alice", mkCard "clubs" "2"); ("bob", mkCard "clubs" "3")] H1).
  - reflexivity.
  - reflexivity.
  - reflexivity.
  - left. reflexivity.
Defined.

End PokerBattle.
