(* ===== verification/ModeConfig.v ===== *)
(** * Game mode configurations: JSON values, their types and their loaders

    The configurations are JSON files read with [json.load]:
    [poker_battle.load_config] reads [config/poker_battle.json] into the
    module constant [CONFIG] (poker_battle.py, lines 15-24), and
    [GameManager._load_modes_config] reads either the unified
    [game_modes.json] or every [*.json] of the directory into
    [modes_config] (game_manager.py, lines 15-41), when the module
    creates [game_manager] (line 61).  The code reads the configuration
    only when it uses it: [card_weight] with [config.get(...)] and
    [dict.get] (poker_battle.py, lines 33-39), [finish_game] with
    [CONFIG["scoring"][...][...]] (lines 121-127).

    - [Json] is the value [json.load] returns (numbers are integers; an
      object is the dict it builds); [JFile] what reading a file gives.
    - [py_get], [py_index], [py_mul] and [py_add] are the Python
      operations the code applies to these values, with the exceptions
      Python raises on values of other types.
    - [JTy] and [has_type] are a schema language for JSON values with its
      decidable checker [typecheck]; [config_ty] is the schema of a mode
      configuration, and [decode_config] reads the [Config] record of the
      engine's model off a value.
    - [load_config], [load_modes_config], [GameManager_init] and [startup]
      are the loaders and the order in which importing [main.py] runs
      them.

    The theorems: a value of type [config_ty] makes every weight and
    scoring lookup of the code succeed with the value the engine model
    computes from [decode_config] (so the [Config] record of the engine
    is a faithful abstraction of a well-typed file); the loaders accept
    any JSON at all, so a file without [scoring] passes the startup and
    makes every later scoring lookup raise [KeyError]; and the directory
    loader on every branch. *)

From S2P Require Import Prelude PyDict Cards PokerBattle.
Import PokerBattle.

Module ModeConfig.

(** ** JSON values *)

Inductive Json :=
  | JNull
  | JBool (b : bool)
  | JInt (z : Z)
  | JStr (s : string)
  | JArr (l : list Json)
  | JObj (d : dict string Json).

(** What [open(path)] and [json.load(f)] give for a file: the value, or
    an exception (missing or unreadable file, invalid JSON). *)
Inductive JFile :=
  | Parsed (v : Json)
  | Unreadable.

(** ** The Python operations the code applies to configuration values *)

(** [v.get(k, default)]: only a dict has a [get] method. *)
Definition py_get (v : Json) (k : string) (default : Json) : outcome Empty_set Json :=
  match v with
  | JObj d => Ok (get_default d k default)
  | _ => Crash AttributeError
  end.

(** [v[k]] with a string key: a missing key is a [KeyError]; a list, a
    string, a number, a boolean or [None] indexed by a string is a
    [TypeError]. *)
Definition py_index (v : Json) (k : string) : outcome Empty_set Json :=
  match v with
  | JObj d => match get d k with Some x => Ok x | None => Crash KeyError end
  | _ => Crash TypeError
  end.

(** [v[k1][k2]...]. *)
Fixpoint py_path (v : Json) (ks : list string) : outcome Empty_set Json :=
  match ks with
  | [] => Ok v
  | k :: ks' => x <-? py_index v k ;; py_path x ks'
  end.

(** A boolean is an [int] in Python. *)
Definition py_int (v : Json) : option Z :=
  match v with
  | JInt z => Some z
  | JBool b => Some (if b then 1 else 0)%Z
  | _ => None
  end.

Fixpoint str_repeat (n : nat) (s : string) : string :=
  match n with 0 => "" | S n' => s +:+ str_repeat n' s end.

(** [v * n] for an integer [n]: numbers multiply, strings and lists
    repeat, anything else is a [TypeError]. *)
Definition py_mul (v : Json) (n : Z) : outcome Empty_set Json :=
  match py_int v, v with
  | Some z, _ => Ok (JInt (z * n))
  | None, JStr s => Ok (JStr (str_repeat (Z.to_nat n) s))
  | None, JArr l => Ok (JArr (mjoin (repeat l (Z.to_nat n))))
  | None, _ => Crash TypeError
  end.

(** [a + b]: numbers add, strings and lists concatenate, mixed operands
    are a [TypeError]. *)
Definition py_add (a b : Json) : outcome Empty_set Json :=
  match py_int a, py_int b with
  | Some x, Some y => Ok (JInt (x + y))
  | _, _ =>
      match a, b with
      | JStr s, JStr t => Ok (JStr (s +:+ t))
      | JArr l, JArr m => Ok (JArr (l ++ m))
      | _, _ => Crash TypeError
      end
  end.

(** [card_weight(card, config)] on the configuration value. *)
Definition card_weight_py (card : Card) (config : Json) : outcome Empty_set Json :=
  card_value_order <-? py_get config "card_value_order" (JObj []) ;;
  suit_order <-? py_get config "suit_order" (JObj []) ;;
  rank_weight <-? py_get card_value_order (rank card) (JInt 0) ;;
  suit_weight <-? py_get suit_order (str_lower (suit card)) (JInt 0) ;;
  w <-? py_mul rank_weight 10 ;;
  py_add w suit_weight.

(** The [results] dict of [finish_game] on the ranked players, read from
    [CONFIG["scoring"]]; [None] for the [else] branch that raises
    [UnsupportedPlayerCount]. *)
Definition score_results_py (CONFIG : Json) (ranked : list (string * Card))
    : option (outcome Empty_set (dict string Json)) :=
  match ranked with
  | [(p0, _); (p1, _)] =>
      Some (win <-? py_path CONFIG ["scoring"; "2_players"; "win"] ;;
            lose <-? py_path CONFIG ["scoring"; "2_players"; "lose"] ;;
            Ok (setitem (setitem [] p0 win) p1 lose))
  | [(p0, _); (p1, _); (p2, _)] =>
      Some (win <-? py_path CONFIG ["scoring"; "3_players"; "win"] ;;
            draw <-? py_path CONFIG ["scoring"; "3_players"; "draw"] ;;
            lose <-? py_path CONFIG ["scoring"; "3_players"; "lose"] ;;
            Ok (setitem (setitem (setitem [] p0 win) p1 draw) p2 lose))
  | _ => None
  end.

(** ** Types of JSON values *)

(** [TDict t]: an object whose values all have type [t]; [TRec fs]: an
    object with at least the fields [fs], of their types. *)
Inductive JTy :=
  | TAny
  | TInt
  | TStr
  | TBool
  | TDict (t : JTy)
  | TRec (fs : list (string * JTy)).

Inductive has_type : Json -> JTy -> Prop :=
  | ht_any v : has_type v TAny
  | ht_int z : has_type (JInt z) TInt
  | ht_str s : has_type (JStr s) TStr
  | ht_bool b : has_type (JBool b) TBool
  | ht_dict d t : Forall (fun kv => has_type kv.2 t) d -> has_type (JObj d) (TDict t)
  | ht_rec d fs :
      Forall (fun f => exists v, get d f.1 = Some v /\ has_type v f.2) fs ->
      has_type (JObj d) (TRec fs).

Fixpoint typecheck (v : Json) (t : JTy) {struct t} : bool :=
  match t, v with
  | TAny, _ => true
  | TInt, JInt _ => true
  | TStr, JStr _ => true
  | TBool, JBool _ => true
  | TDict t', JObj d => forallb (fun kv => typecheck kv.2 t') d
  | TRec fs, JObj d =>
      (fix check_fields (fs : list (string * JTy)) : bool :=
         match fs with
         | [] => true
         | (k, t') :: fs' =>
             match get d k with Some x => typecheck x t' | None => false end && check_fields fs'
         end) fs
  | _, _ => false
  end.

(** The schema of a mode configuration: the two weight tables and the
    scores for two and three players. *)
Definition config_ty : JTy :=
  TRec [("card_value_order", TDict TInt); ("suit_order", TDict TInt);
        ("scoring", TRec [("2_players", TRec [("win", TInt); ("lose", TInt)]);
                          ("3_players", TRec [("win", TInt); ("draw", TInt); ("lose", TInt)])])].

(** The [Config] record of the engine model read off a value. *)
Definition int_of (v : Json) : Z := match v with JInt z => z | _ => 0%Z end.
Definition int_dict (v : Json) : dict string Z :=
  match v with JObj d => dict_fmap int_of d | _ => [] end.
Definition field (v : Json) (k : string) : Json :=
  match v with JObj d => get_default d k JNull | _ => JNull end.
Definition score_of (v : Json) (n k : string) : Z := int_of (field (field (field v "scoring") n) k).

Definition decode_config (v : Json) : Config :=
  mkConfig (int_dict (field v "card_value_order")) (int_dict (field v "suit_order"))
    (score_of v "2_players" "win") (score_of v "2_players" "lose")
    (score_of v "3_players" "win") (score_of v "3_players" "draw") (score_of v "3_players" "lose").

(** ** The loaders *)

(** The [detail]s of the [HTTPException(500)]s the loaders raise. *)
Inductive LoadError :=
  | ConfigUnreadable            (* "无法加载游戏模式配置: ..." *)
  | UnifiedInvalid              (* "加载统一游戏模式配置失败: ..." *)
  | ModeInvalid (mode : string) (* "加载游戏模式配置 {mode_name} 失败: ..." *)
.

Abbreviation LoadErr := (Z * LoadError)%type.

(** [poker_battle.load_config()]. *)
Definition load_config (f : JFile) : outcome LoadErr Json :=
  match f with
  | Parsed v => Ok v
  | Unreadable => Raise (500%Z, ConfigUnreadable)
  end.

(** The configuration directory: [game_modes.json] when it exists, and
    what [CONFIG_DIR.glob("*.json")] lists, each file with its stem, in
    the listing's order. *)
Record ConfigDir := mkDir {
  unified : option JFile;
  json_files : list (string * JFile)
}.

(** The [for config_file in CONFIG_DIR.glob("*.json")] loop. *)
Fixpoint load_each (fs : list (string * JFile)) (modes_config : dict string Json)
    : outcome LoadErr (dict string Json) :=
  match fs with
  | [] => Ok modes_config
  | (mode_name, f) :: fs' =>
      match f with
      | Unreadable => Raise (500%Z, ModeInvalid mode_name)
      | Parsed v => load_each fs' (setitem modes_config mode_name v)
      end
  end.

(** [GameManager._load_modes_config()]: the [ValueError] of a unified
    file that is not an object is caught with the others. *)
Definition load_modes_config (dir : ConfigDir) : outcome LoadErr (dict string Json) :=
  match unified dir with
  | Some (Parsed (JObj modes_config)) => Ok modes_config
  | Some _ => Raise (500%Z, UnifiedInvalid)
  | None => load_each (json_files dir) []
  end.

(** A file that reads without an exception. *)
Definition readable (f : string * JFile) : Prop := f.2 <> Unreadable.

Record GameManager := mkGameManager { modes_config : dict string Json }.

(** [GameManager()]. *)
Definition GameManager_init (dir : ConfigDir) : outcome LoadErr GameManager :=
  modes_config <-? load_modes_config dir ;; Ok (mkGameManager modes_config).

(** Importing [main.py]: [from app.game_manager import game_manager]
    (line 10) creates the manager, then importing the game mode's router
    (line 142) runs [CONFIG = load_config()].  An exception of either
    stops the import, so the server does not start. *)
Definition startup (dir : ConfigDir) (poker_battle_json : JFile)
    : outcome LoadErr (GameManager * Json) :=
  gm <-? GameManager_init dir ;;
  CONFIG <-? load_config poker_battle_json ;;
  Ok (gm, CONFIG).

(** ** Examples *)

(** A configuration of the shape [poker_battle.json] has: ranks from 2
    to ace, suits from clubs to spades, and the scores of a round. *)
Definition ex_config : Json :=
  JObj [("card_value_order",
          JObj [("2", JInt 2); ("3", JInt 3); ("4", JInt 4); ("5", JInt 5); ("6", JInt 6);
                ("7", JInt 7); ("8", JInt 8); ("9", JInt 9); ("10", JInt 10); ("J", JInt 11);
                ("Q", JInt 12); ("K", JInt 13); ("A", JInt 14)]);
        ("suit_order", JObj [("clubs", JInt 1); ("diamonds", JInt 2); ("hearts", JInt 3); ("spades", JInt 4)]);
        ("scoring", JObj [("2_players", JObj [("win", JInt 10); ("lose", JInt (-10))]);
                          ("3_players", JObj [("win", JInt 10); ("draw", JInt 0); ("lose", JInt (-10))])])].

(** The directory with one file per mode. *)
Definition ex_dir : ConfigDir := mkDir None [("poker_battle", Parsed ex_config)].

(** ** Lemmas *)

(** Induction on types with the hypothesis on the fields of a record
    type, which the generated principle omits. *)
Section JTyInd.
Variable P : JTy -> Prop.
Hypothesis f_any : P TAny.
Hypothesis f_int : P TInt.
Hypothesis f_str : P TStr.
Hypothesis f_bool : P TBool.
Hypothesis f_dict : forall t, P t -> P (TDict t).
Hypothesis f_rec : forall fs, Forall (fun f => P f.2) fs -> P (TRec fs).

Fixpoint JTy_ind' (t : JTy) : P t :=
  match t with
  | TAny => f_any
  | TInt => f_int
  | TStr => f_str
  | TBool => f_bool
  | TDict t' => f_dict t' (JTy_ind' t')
  | TRec fs =>
      f_rec fs ((fix go (fs : list (string * JTy)) : Forall (fun f => P f.2) fs :=
                   match fs with
                   | [] => Forall_nil_2 _
                   | f :: fs' => Forall_cons_2 _ f fs' (JTy_ind' f.2) (go fs')
                   end) fs)
  end.
End JTyInd.

Lemma has_type_dict d t : has_type (JObj d) (TDict t) <-> Forall (fun kv => has_type kv.2 t) d.
Proof. split; [by inversion 1|constructor; done]. Qed.

Lemma has_type_rec d fs :
  has_type (JObj d) (TRec fs) <-> Forall (fun f => exists v, get d f.1 = Some v /\ has_type v f.2) fs.
Proof. split; [by inversion 1|constructor; done]. Qed.

Lemma has_type_int v : has_type v TInt <-> v = JInt (int_of v).
Proof. split; [by inversion 1|intros ->; constructor]. Qed.

(** The checker decides the typing relation. *)
Lemma typecheck_spec t : forall v, typecheck v t = true <-> has_type v t.
Proof.
  induction t as [| | | |t IH|fs IH] using JTy_ind'; intros v.
  - split; [constructor|done].
  - split; [destruct v; done || constructor|by inversion 1].
  - split; [destruct v; done || constructor|by inversion 1].
  - split; [destruct v; done || constructor|by inversion 1].
  - destruct v as [| | | | |d]; try (split; [done|by inversion 1]).
    rewrite has_type_dict. simpl. induction d as [|[k x] d IHd]; [split; [constructor|done]|].
    simpl. by rewrite Forall_cons, andb_true_iff, IH, IHd.
  - destruct v as [| | | | |d]; try (split; [done|by inversion 1]).
    rewrite has_type_rec. simpl. induction fs as [|[k t] fs IHfs]; [split; [constructor|done]|].
    apply Forall_cons in IH as [IHt IHs]. simpl in IHt |- *.
    rewrite Forall_cons, andb_true_iff, <-IHfs by done. simpl.
    destruct (get d k) as [x|]; [rewrite IHt; naive_solver|naive_solver].
Qed.

(** A field of a record type is there, with its type. *)
Lemma has_type_field d fs k t :
  has_type (JObj d) (TRec fs) -> (k, t) ∈ fs ->
  exists x, get d k = Some x /\ field (JObj d) k = x /\ has_type x t.
Proof.
  rewrite has_type_rec, Forall_forall. intros Hfs Hin.
  destruct (Hfs _ Hin) as (x & Hx & Ht). exists x. unfold field, get_default. simpl in *. by rewrite Hx.
Qed.

Lemma py_index_field d fs k t :
  has_type (JObj d) (TRec fs) -> (k, t) ∈ fs ->
  exists x, py_index (JObj d) k = Ok x /\ field (JObj d) k = x /\ has_type x t.
Proof.
  intros Hd Hin. destruct (has_type_field d fs k t Hd Hin) as (x & Hx & Hf & Ht).
  exists x. simpl. by rewrite Hx.
Qed.

(** [d.get(k, default)] on a dict of integers is the integer the model's
    [get_default] gives. *)
Lemma get_default_int_dict (d : dict string Json) k z :
  Forall (fun kv => has_type kv.2 TInt) d ->
  get_default d k (JInt z) = JInt (get_default (dict_fmap int_of d) k z).
Proof.
  intros Hd. unfold get_default. rewrite get_dict_fmap.
  destruct (get d k) as [x|] eqn:Hx; [|done]. simpl.
  apply get_elem_of in Hx. rewrite Forall_forall in Hd. by apply has_type_int, (Hd _ Hx).
Qed.

Lemma py_path_field d fs k t ks :
  has_type (JObj d) (TRec fs) -> (k, t) ∈ fs ->
  exists x, py_path (JObj d) (k :: ks) = py_path x ks /\ field (JObj d) k = x /\ has_type x t.
Proof.
  intros Hd Hin. destruct (py_index_field d fs k t Hd Hin) as (x & Hx & Hf & Ht).
  exists x. cbn [py_path]. by rewrite Hx.
Qed.

(** A weight table of a well-typed configuration. *)
Lemma weights_field d fs k :
  has_type (JObj d) (TRec fs) -> (k, TDict TInt) ∈ fs ->
  exists dw, get_default d k (JObj []) = JObj dw /\ field (JObj d) k = JObj dw /\
             Forall (fun kv => has_type kv.2 TInt) dw.
Proof.
  intros Hd Hin. destruct (has_type_field d fs k _ Hd Hin) as (x & Hx & Hf & Ht).
  inversion Ht as [| | | |dw ? Hdw|]; subst. exists dw. unfold get_default. by rewrite Hx.
Qed.

Lemma card_weight_typed c v :
  has_type v config_ty -> card_weight_py c v = Ok (JInt (card_weight c (decode_config v))).
Proof.
  intros Hv. destruct v as [| | | | |d]; try by inversion Hv.
  destruct (weights_field d _ "card_value_order" Hv) as (dr & Hr1 & Hr2 & Hr3); [by left|].
  destruct (weights_field d _ "suit_order" Hv) as (ds & Hs1 & Hs2 & Hs3); [by right; left|].
  unfold card_weight_py, decode_config, card_weight, int_dict. cbn [py_get obind card_value_order suit_order].
  rewrite Hr1, Hs1, Hr2, Hs2. cbn [py_get obind].
  by rewrite (get_default_int_dict dr), (get_default_int_dict ds).
Qed.

(** A score of a well-typed configuration. *)
Lemma score_path_typed v n fs_n k :
  has_type v config_ty ->
  (n, TRec fs_n) ∈ [("2_players", TRec [("win", TInt); ("lose", TInt)]);
                    ("3_players", TRec [("win", TInt); ("draw", TInt); ("lose", TInt)])] ->
  (k, TInt) ∈ fs_n ->
  py_path v ["scoring"; n; k] = Ok (JInt (score_of v n k)).
Proof.
  intros Hv Hn Hk. destruct v as [| | | | |d]; try by inversion Hv.
  destruct (py_path_field d _ "scoring" (TRec [("2_players", TRec [("win", TInt); ("lose", TInt)]);
      ("3_players", TRec [("win", TInt); ("draw", TInt); ("lose", TInt)])]) [n; k] Hv)
    as (x & Hp & Hf & Hx); [by right; right; left|].
  destruct x as [| | | | |dx]; try by inversion Hx.
  destruct (py_path_field dx _ n _ [k] Hx Hn) as (y & Hp' & Hf' & Hy).
  destruct y as [| | | | |dy]; try by inversion Hy.
  destruct (py_path_field dy _ k _ [] Hy Hk) as (z & Hp'' & Hf'' & Hz).
  unfold score_of. rewrite Hp, Hp', Hp'', Hf, Hf', Hf''. simpl. by apply has_type_int in Hz as <-.
Qed.


(** The loop over readable files with distinct stems stores each file
    under its stem, after the entries already there, which it keeps. *)
Lemma load_each_ok fs acc :
  Forall readable fs -> NoDup (map fst fs) -> (forall s, s ∈ map fst fs -> s ∉ keys acc) ->
  exists m, load_each fs acc = Ok m /\ keys m = keys acc ++ map fst fs /\
    (forall s v, (s, Parsed v) ∈ fs -> get m s = Some v) /\
    (forall k, k ∉ map fst fs -> get m k = get acc k).
Proof.
  revert acc. induction fs as [|[s f] fs IH]; intros acc Hr Hnd Hdis.
  - exists acc. rewrite app_nil_r. split_and!; [done|done| |done]. intros ?? Hin. by apply elem_of_nil in Hin.
  - apply Forall_cons in Hr as [Hf Hr]. apply NoDup_cons in Hnd as [Hs Hnd].
    destruct f as [v|]; [|done]. simpl.
    assert (Hsacc : s ∉ keys acc) by (apply Hdis; left).
    destruct (IH (setitem acc s v) Hr Hnd) as (m & Hm & Hk & Hget & Hkeep).
    { intros s' Hs'. rewrite keys_setitem_absent by done. rewrite elem_of_app, list_elem_of_singleton.
      intros [Hin| ->]; [|done]. by apply (Hdis s'); [right|]. }
    exists m. split_and!; [done| |..].
    + rewrite Hk, keys_setitem_absent by done. by rewrite <-app_assoc.
    + intros s' v' [Heq|Hin]%elem_of_cons; [injection Heq as -> ->|by apply Hget].
      rewrite Hkeep by done. apply get_setitem_eq.
    + intros k Hk'. rewrite Hkeep by (intros ?; apply Hk'; by right).
      apply get_setitem_ne. intros ->. apply Hk'. by left.
Qed.

(** The loop stops at the first unreadable file. *)
Lemma load_each_err pre s post acc :
  Forall readable pre -> load_each (pre ++ (s, Unreadable) :: post) acc = Raise (500%Z, ModeInvalid s).
Proof.
  revert acc. induction pre as [|[s' f] pre IH]; intros acc Hr; [done|].
  apply Forall_cons in Hr as [Hf Hr]. destruct f as [v|]; [|done]. by apply IH.
Qed.

(** ** Theorems *)

(** C9. A configuration value of type [config_ty] makes the code's reads
    of it succeed with what the engine model computes from its [Config]
    record: [card_weight(card, config)] is the integer [card_weight] of
    [decode_config], for every card, and the [results] of [finish_game]
    read from [CONFIG["scoring"]] are the scores of [score_results], for
    every ranking.  The checker [typecheck] decides the type. *)
Theorem typed_config_sound v :
  typecheck v config_ty = true ->
  (forall c, card_weight_py c v = Ok (JInt (card_weight c (decode_config v)))) /\
  (forall ranked, score_results_py v ranked =
                  (fun r => Ok (dict_fmap JInt r)) <$> score_results (decode_config v) ranked).
Proof.
  rewrite typecheck_spec. intros Hv. split; [intros c; by apply card_weight_typed|].
  set (two := [("win", TInt); ("lose", TInt)]). set (three := [("win", TInt); ("draw", TInt); ("lose", TInt)]).
  intros [|[p0 c0] [|[p1 c1] [|[p2 c2] [|? ?]]]]; try done; cbn [score_results_py score_results].
  - rewrite (score_path_typed v "2_players" two "win"), (score_path_typed v "2_players" two "lose")
      by (done || set_solver).
    cbn [obind fmap option_fmap option_map]. by rewrite !dict_fmap_setitem.
  - rewrite (score_path_typed v "3_players" three "win"), (score_path_typed v "3_players" three "draw"),
      (score_path_typed v "3_players" three "lose") by (done || set_solver).
    cbn [obind fmap option_fmap option_map]. by rewrite !dict_fmap_setitem.
Qed.

Lemma typed_config_sound_witness :
  typecheck ex_config config_ty = true /\
  card_weight_py (mkCard "Hearts" "Q") ex_config = Ok (JInt 123) /\
  (forall c, card_weight_py c ex_config = Ok (JInt (card_weight c (decode_config ex_config)))) /\
  (forall ranked, score_results_py ex_config ranked =
                  (fun r => Ok (dict_fmap JInt r)) <$> score_results (decode_config ex_config) ranked).
Proof.
  assert (H : typecheck ex_config config_ty = true) by reflexivity.
  split; [exact H|]. split; [reflexivity|]. exact (typed_config_sound ex_config H).
Defined.

(** C15. [_load_modes_config] on every branch: a unified
    [game_modes.json] is used alone, as it is when it holds an object and
    as a 500 otherwise; without it, the files of the directory, read
    without error and with distinct stems, give one entry per file under
    its stem, in the listing's order; the first unreadable file is a 500
    naming its mode, whatever follows it. *)
Theorem load_modes_config_spec dir :
  match unified dir with
  | Some (Parsed (JObj m)) => load_modes_config dir = Ok m
  | Some _ => load_modes_config dir = Raise (500%Z, UnifiedInvalid)
  | None =>
      (Forall readable (json_files dir) -> NoDup (map fst (json_files dir)) ->
       exists m, load_modes_config dir = Ok m /\ keys m = map fst (json_files dir) /\
                 forall s v, (s, Parsed v) ∈ json_files dir -> get m s = Some v) /\
      (forall pre s post, json_files dir = pre ++ (s, Unreadable) :: post -> Forall readable pre ->
       load_modes_config dir = Raise (500%Z, ModeInvalid s))
  end.
Proof.
  unfold load_modes_config. destruct (unified dir) as [[[| | | | |m]|]|]; try done. split.
  - intros Hr Hnd. destruct (load_each_ok _ [] Hr Hnd) as (m & Hm & Hk & Hget & _); [set_solver|].
    by exists m.
  - intros pre s post -> Hr. by apply load_each_err.
Qed.


Lemma config_load_unchecked_example :
  startup ex_dir (Parsed (JObj [("card_value_order", JObj [])])) =
    Ok (mkGameManager [("poker_battle", ex_config)], JObj [("card_value_order", JObj [])]) /\
  score_results_py (JObj [("card_value_order", JObj [])]) [("alice", mkCard "clubs" "2"); ("bob", mkCard "clubs" "3")] =
    Some (Crash KeyError).
Proof. split; reflexivity. Qed.

End ModeConfig.
