(* ===== verification/Hub.v ===== *)
(** * Connection hubs, sends and the decoded websocket message

    [room_ws.py] keeps [room_connections] and [poker_battle.py] keeps
    [ws_connections]: module-level dicts from room id to the list of
    open websockets of that room.  A handler appends its websocket when
    it accepts the connection (lines 14-16 and 190-192), iterates the list
    to broadcast, and [remove]s its websocket when [receive_text] raises
    [WebSocketDisconnect] (lines 44-46 and 258-259).  Any other exception
    escapes the [while True] loop and ends the handler without removing
    its websocket.

    [send] is [await conn.send_text(...)]: a send to a connection that is
    already closed raises, which ends the broadcasting loop at that
    connection.  Which exception the ASGI server raises (a
    [RuntimeError], or a [WebSocketDisconnect] that the handler's outer
    [except] catches and answers by removing its own websocket) depends
    on the server; both end the handler, and the server relation
    [server_step] has a rule for each.

    The messages are the result of [json.loads(data)]: not JSON at all,
    JSON that is not an object (then [message.get] raises
    [AttributeError]), or an object whose fields the handlers read with
    [.get]. *)

From S2P Require Import Prelude PyDict Cards.

(** A JSON value used as a key of a Python dict: a string, another
    hashable value ([null], a number, a boolean, or a missing field, all
    of which are absent from every dict keyed by usernames), or an
    unhashable one (an array or an object), on which a dict lookup raises
    [TypeError]. *)
Inductive JKey :=
  | KStr (s : string)
  | KOther
  | KUnhashable.

(** [json.loads(data)] and the fields the handlers read:
    [message.get("action")] (a string, or [None] for a missing or
    non-string action, which equals none of the action names),
    [message.get("username")] and, for [play_card], [message.get("card")]
    ([Some c] when it is a dict equal to the card [c], [None] for any
    value that equals no card). *)
Inductive Inbound :=
  | Unparsable
  | NonObject
  | Object (action : option string) (username : JKey) (card : option Card).

(** A websocket is identified by a number. *)
Abbreviation Conn := nat.

Abbreviation Hub := (dict string (list Conn)).

Section Hub.
Context {Msg E : Type}.

(** [if room_id not in hub: hub[room_id] = []] and
    [hub[room_id].append(websocket)] *)
Definition attach (hub : Hub) (rid : string) (ws : Conn) : Hub :=
  setitem hub rid (get_default hub rid [] ++ [ws]).

(** [hub[room_id].remove(websocket)]: [KeyError] for an unknown room,
    [ValueError] when the websocket is not in the list. *)
Definition detach (rid : string) (ws : Conn) : PyM Hub E unit :=
  fun hub => match get hub rid with
             | None => (hub, Crash KeyError)
             | Some l => match list_remove ws l with
                         | None => (hub, Crash ValueError)
                         | Some l' => (setitem hub rid l', Ok tt)
                         end
             end.

(** [await conn.send_text(m)], the sent messages in order in the
    state; [closed c] says whether the client of [c] has gone. *)
Definition send (closed : Conn -> bool) (c : Conn) (m : Msg) : PyM (list (Conn * Msg)) E unit :=
  fun out => if closed c then (out, Crash SendError) else (out ++ [(c, m)], Ok tt).

(** [for conn in conns: await conn.send_text(m)] *)
Fixpoint broadcast (closed : Conn -> bool) (cs : list Conn) (m : Msg)
    : PyM (list (Conn * Msg)) E unit :=
  match cs with
  | [] => ret tt
  | c :: cs' => send closed c m ;; broadcast closed cs' m
  end.

(** All connections of all rooms. *)
Definition hub_conns (hub : Hub) : list Conn := flat_map (fun l => l) (values hub).

(** No websocket is listed twice, in one room or in two. *)
Definition hub_wf (hub : Hub) : Prop := dict_wf hub /\ NoDup (hub_conns hub).

End Hub.

(** ** Lemmas *)

Section HubLemmas.
Context {Msg E : Type}.
Implicit Types (hub : Hub) (closed : Conn -> bool) (out : list (Conn * Msg)).

Lemma broadcast_open closed cs (m : Msg) out :
  (forall c, c ∈ cs -> closed c = false) ->
  broadcast (E := E) closed cs m out = (out ++ map (fun c => (c, m)) cs, Ok tt).
Proof.
  revert out. induction cs as [|c cs IH]; intros out Hop; simpl; [by rewrite app_nil_r|].
  unfold bind, send at 1. rewrite Hop by left. rewrite IH by (intros; apply Hop; by right).
  by rewrite <- app_assoc.
Qed.

Lemma broadcast_stops closed pre c post (m : Msg) out :
  (forall c', c' ∈ pre -> closed c' = false) -> closed c = true ->
  broadcast (E := E) closed (pre ++ c :: post) m out
  = (out ++ map (fun c' => (c', m)) pre, Crash SendError).
Proof.
  revert out. induction pre as [|c' pre IH]; intros out Hop Hc; simpl.
  - unfold bind, send at 1. rewrite Hc. by rewrite app_nil_r.
  - unfold bind, send at 1. rewrite Hop by left.
    rewrite IH by (done || (intros; apply Hop; by right)). by rewrite <- app_assoc.
Qed.

Lemma hub_conns_setitem hub rid l :
  hub_conns (setitem hub rid l) ++ get_default hub rid [] ≡ₚ hub_conns hub ++ l.
Proof.
  unfold hub_conns, get_default. destruct (get hub rid) as [old|] eqn:Hg.
  - by apply (flat_map_values_setitem (fun l : list Conn => l)).
  - rewrite values_setitem_absent by done. rewrite flat_map_app. simpl. by rewrite !app_nil_r.
Qed.

Lemma hub_conns_attach hub rid ws : hub_conns (attach hub rid ws) ≡ₚ ws :: hub_conns hub.
Proof.
  unfold attach. pose proof (hub_conns_setitem hub rid (get_default hub rid [] ++ [ws])) as H.
  rewrite app_assoc in H. apply (Permutation_app_inv_r (get_default hub rid [])).
  rewrite H. solve_Permutation.
Qed.

Lemma get_default_attach hub rid rid' ws :
  get_default (attach hub rid ws) rid' [] =
  if decide (rid = rid') then get_default hub rid [] ++ [ws] else get_default hub rid' [].
Proof.
  unfold attach, get_default at 1. case_decide as Heq.
  - subst. by rewrite get_setitem_eq.
  - by rewrite get_setitem_ne.
Qed.

Lemma hub_wf_attach hub rid ws :
  hub_wf hub -> ws ∉ hub_conns hub -> hub_wf (attach hub rid ws).
Proof.
  intros [Hd Hnd] Hws. split; [by apply dict_wf_setitem|].
  rewrite hub_conns_attach. by constructor.
Qed.

Lemma elem_of_hub_conns hub rid ws : ws ∈ get_default hub rid [] -> ws ∈ hub_conns hub.
Proof.
  unfold get_default, hub_conns. destruct (get hub rid) as [l|] eqn:Hg; [|by intros ?%elem_of_nil].
  intros Hin. apply list_elem_of_In, in_flat_map. exists l. split; [|by apply list_elem_of_In].
  apply list_elem_of_In, list_elem_of_fmap. exists (rid, l). split; [done|]. by apply get_elem_of.
Qed.

(** A websocket in a room's list is removed by [detach]; the other rooms
    and the other websockets stay. *)
Lemma detach_present hub rid ws :
  ws ∈ get_default hub rid [] ->
  detach (E := E) rid ws hub = (setitem hub rid (remove_first ws (get_default hub rid [])), Ok tt).
Proof.
  unfold detach, get_default, list_remove. destruct (get hub rid) as [l|]; [|by intros ?%elem_of_nil].
  intros Hin. by rewrite decide_True.
Qed.

Lemma hub_conns_detach hub rid ws :
  ws ∈ get_default hub rid [] ->
  ws :: hub_conns (setitem hub rid (remove_first ws (get_default hub rid []))) ≡ₚ hub_conns hub.
Proof.
  intros Hin. pose proof (hub_conns_setitem hub rid (remove_first ws (get_default hub rid []))) as H.
  pose proof (remove_first_perm _ _ Hin) as Hp.
  set (L := get_default hub rid []) in *. set (R := remove_first ws L) in *.
  apply (Permutation_app_inv_r R). rewrite <- H.
  transitivity (hub_conns (setitem hub rid R) ++ ws :: R); [solve_Permutation|].
  apply Permutation_app_head. by symmetry.
Qed.

Lemma hub_wf_detach hub rid ws :
  hub_wf hub -> ws ∈ get_default hub rid [] ->
  hub_wf (setitem hub rid (remove_first ws (get_default hub rid []))).
Proof.
  intros [Hd Hnd] Hin. split; [by apply dict_wf_setitem|].
  rewrite <- (hub_conns_detach _ _ _ Hin) in Hnd. by apply NoDup_cons in Hnd as [_ ?].
Qed.

Lemma get_default_detach_ne hub rid rid' ws ws' :
  ws' <> ws -> ws' ∈ get_default hub rid' [] ->
  ws' ∈ get_default (setitem hub rid (remove_first ws (get_default hub rid []))) rid' [].
Proof.
  intros Hne Hin. unfold get_default at 1. destruct (decide (rid = rid')) as [<-|Hr].
  - rewrite get_setitem_eq. by apply elem_of_remove_first.
  - by rewrite get_setitem_ne.
Qed.

End HubLemmas.

(** ** The server: handlers coming and going

    The state of a server is the state [W] of the module (the dicts the
    handlers share, the hub among them, and the messages sent so far)
    and the list of live handlers, each with its websocket and its room.
    [handle env rid ws m] is one iteration of a handler's [while True]
    loop on the message [m]; [env] is what the environment decides at
    that moment: which clients have gone, and the random draws and the
    time the handler reads.  A handler that returns normally goes on; one that
    crashes ends, its websocket still in the hub; on a disconnect the
    handler removes its websocket and ends. *)

Section Server.
Context {W Env : Type} (hub_of : W -> Hub) (with_hub : Hub -> W -> W).
Context (handle : Env -> string -> Conn -> Inbound -> PyM W Empty_set unit).

Abbreviation Live := (list (Conn * string)).

Inductive server_step : W * Live -> W * Live -> Prop :=
  | ss_connect w live ws rid :
      ws ∉ hub_conns (hub_of w) -> ws ∉ map fst live ->
      server_step (w, live) (with_hub (attach (hub_of w) rid ws) w, (ws, rid) :: live)
  | ss_message w live ws rid env m w' :
      (ws, rid) ∈ live -> handle env rid ws m w = (w', Ok tt) ->
      server_step (w, live) (w', live)
  | ss_crash w live ws rid env m w' c :
      (ws, rid) ∈ live -> handle env rid ws m w = (w', Crash c) ->
      server_step (w, live) (w', remove_first (ws, rid) live)
  | ss_send_disconnect w live ws rid env m w' h' o :
      (ws, rid) ∈ live -> handle env rid ws m w = (w', Crash SendError) ->
      detach (E := Empty_set) rid ws (hub_of w') = (h', o) ->
      server_step (w, live) (with_hub h' w', remove_first (ws, rid) live)
  | ss_disconnect w live ws rid h' o :
      (ws, rid) ∈ live -> detach (E := Empty_set) rid ws (hub_of w) = (h', o) ->
      server_step (w, live) (with_hub h' w, remove_first (ws, rid) live).

(** Every live handler's websocket is listed, once, in its room. *)
Definition server_inv (s : W * Live) : Prop :=
  hub_wf (hub_of s.1) /\ NoDup (map fst s.2) /\
  forall ws rid, (ws, rid) ∈ s.2 -> ws ∈ get_default (hub_of s.1) rid [].

Hypothesis hub_of_with_hub : forall h w, hub_of (with_hub h w) = h.
Hypothesis handle_hub : forall env rid ws m w w' o,
  handle env rid ws m w = (w', o) -> hub_of w' = hub_of w.

Lemma remove_first_live (live : Live) ws rid ws' rid' :
  NoDup (map fst live) -> (ws, rid) ∈ live -> (ws', rid') ∈ remove_first (ws, rid) live ->
  ws' <> ws /\ (ws', rid') ∈ live.
Proof.
  induction live as [|[a b] live IH]; simpl; intros Hnd Hin Hin'; [by apply elem_of_nil in Hin|].
  apply NoDup_cons in Hnd as [Ha Hnd]. case_decide as Heq.
  - injection Heq as <- <-. split; [|by right]. intros E. subst ws'.
    apply Ha, list_elem_of_fmap. by exists (ws, rid').
  - apply elem_of_cons in Hin as [Hin|Hin]; [done|].
    apply elem_of_cons in Hin' as [Hin'|Hin'].
    + injection Hin' as -> ->. split; [|left]. intros E. subst a.
      apply Ha, list_elem_of_fmap. by exists (ws, rid).
    + destruct (IH Hnd Hin Hin'). split; [done|by right].
Qed.

Lemma NoDup_remove_first_live (live : Live) x :
  NoDup (map fst live) -> NoDup (map fst (remove_first x live)).
Proof. intros Hnd. eapply sublist_NoDup; [exact Hnd|]. apply map_remove_first_sublist. Qed.

(** A live handler's disconnect always finds its websocket. *)
Lemma server_inv_detach w live ws rid :
  server_inv (w, live) -> (ws, rid) ∈ live ->
  detach (E := Empty_set) rid ws (hub_of w)
  = (setitem (hub_of w) rid (remove_first ws (get_default (hub_of w) rid [])), Ok tt).
Proof. intros (_ & _ & Hin) Hl. apply detach_present. by apply Hin. Qed.

Lemma server_inv_leave w live ws rid h' o :
  server_inv (w, live) -> (ws, rid) ∈ live -> detach (E := Empty_set) rid ws (hub_of w) = (h', o) ->
  server_inv (with_hub h' w, remove_first (ws, rid) live).
Proof.
  intros Hinv Hl Hd. rewrite (server_inv_detach _ _ _ _ Hinv Hl) in Hd. injection Hd as <- _.
  destruct Hinv as (Hwf & Hnd & Hin). split; [|split]; simpl; rewrite ?hub_of_with_hub.
  - by apply hub_wf_detach, Hin.
  - by apply NoDup_remove_first_live.
  - intros ws' rid' Hl'. destruct (remove_first_live _ _ _ _ _ Hnd Hl Hl') as [Hne Hl''].
    by apply get_default_detach_ne, Hin.
Qed.

Lemma server_step_inv s s' : server_inv s -> server_step s s' -> server_inv s'.
Proof.
  intros Hinv Hs. destruct Hs as [w live ws rid Hf Hfl|w live ws rid env m w' Hl Hh
    |w live ws rid env m w' c Hl Hh|w live ws rid env m w' h' o Hl Hh Hd|w live ws rid h' o Hl Hd].
  - destruct Hinv as (Hwf & Hnd & Hin). split; [|split]; simpl; rewrite ?hub_of_with_hub.
    + by apply hub_wf_attach.
    + by constructor.
    + intros ws' rid' [[= -> ->]|Hl]%elem_of_cons; rewrite get_default_attach.
      * rewrite decide_True by done. apply elem_of_app. right. left.
      * case_decide; subst; [apply elem_of_app; left|]; by apply Hin.
  - destruct Hinv as (Hwf & Hnd & Hin). apply handle_hub in Hh.
    split; [|split]; simpl; rewrite ?Hh; done.
  - destruct Hinv as (Hwf & Hnd & Hin). apply handle_hub in Hh.
    split; [|split]; simpl; rewrite ?Hh; [done|by apply NoDup_remove_first_live|].
    intros ws' rid' Hl'. eapply Hin, elem_of_remove_first_inv, Hl'.
  - apply handle_hub in Hh. eapply server_inv_leave; [|done|exact Hd].
    destruct Hinv as (Hwf & Hnd & Hin). split; [|split]; simpl; rewrite ?Hh; done.
  - by eapply server_inv_leave.
Qed.

Lemma server_reachable_inv s s' : server_inv s -> rtc server_step s s' -> server_inv s'.
Proof. intros Hinv Hr. induction Hr; eauto using server_step_inv. Qed.

(** A websocket left in the hub by a handler that crashed stays there:
    no live handler owns it, so no [remove] ever takes it out. *)
Definition stale (ws : Conn) (rid : string) (s : W * Live) : Prop :=
  ws ∈ get_default (hub_of s.1) rid [] /\ ws ∉ map fst s.2.

Lemma stale_step ws rid s s' :
  server_inv s -> stale ws rid s -> server_step s s' -> stale ws rid s'.
Proof.
  intros Hinv [Hin Hnl] Hs.
  destruct Hs as [w live ws' rid' Hf Hfl|w live ws' rid' env m w' Hl Hh
    |w live ws' rid' env m w' c Hl Hh|w live ws' rid' env m w' h' o Hl Hh Hd|w live ws' rid' h' o Hl Hd];
    unfold stale; simpl in *.
  - assert (ws' <> ws) by (intros ->; by apply Hf, elem_of_hub_conns with rid).
    rewrite hub_of_with_hub, get_default_attach. split.
    + case_decide; subst; [apply elem_of_app; by left|done].
    + intros [|]%elem_of_cons; done.
  - apply handle_hub in Hh. by rewrite Hh.
  - apply handle_hub in Hh. rewrite Hh. split; [done|].
    intros Hm. apply Hnl. eapply elem_of_sublist; [exact Hm|].
    apply map_remove_first_sublist.
  - apply handle_hub in Hh. rewrite Hh in Hd.
    assert (ws' <> ws) by (intros ->; apply Hnl, list_elem_of_fmap; by exists (ws, rid')).
    rewrite (server_inv_detach _ _ _ _ Hinv Hl) in Hd. injection Hd as <- _.
    rewrite hub_of_with_hub. split; [by apply get_default_detach_ne|].
    intros Hm. apply Hnl. eapply elem_of_sublist; [exact Hm|].
    apply map_remove_first_sublist.
  - assert (ws' <> ws) by (intros ->; apply Hnl, list_elem_of_fmap; by exists (ws, rid')).
    rewrite (server_inv_detach _ _ _ _ Hinv Hl) in Hd. injection Hd as <- _.
    rewrite hub_of_with_hub. split; [by apply get_default_detach_ne|].
    intros Hm. apply Hnl. eapply elem_of_sublist; [exact Hm|].
    apply map_remove_first_sublist.
Qed.

Lemma stale_reachable ws rid s s' :
  server_inv s -> stale ws rid s -> rtc server_step s s' -> stale ws rid s'.
Proof.
  intros Hinv Hst Hr. revert Hinv Hst. induction Hr as [|x y z Hs _ IH]; intros Hinv Hst; [done|].
  apply IH; [by eapply server_step_inv|by eapply stale_step].
Qed.

(** A handler that crashes leaves its websocket stale. *)
Lemma crash_makes_stale w live ws rid env m w' c :
  server_inv (w, live) -> (ws, rid) ∈ live -> handle env rid ws m w = (w', Crash c) ->
  stale ws rid (w', remove_first (ws, rid) live).
Proof.
  intros (Hwf & Hnd & Hin) Hl Hh. apply handle_hub in Hh as Hh'. split; simpl.
  - rewrite Hh'. by apply Hin.
  - intros ([a b] & Heq & Hm)%list_elem_of_fmap. simpl in Heq. subst a.
    by destruct (remove_first_live _ _ _ _ _ Hnd Hl Hm).
Qed.

End Server.
