(* ===== verification/Fanout.v ===== *)
(** * A broadcast loop interleaved with the other handlers

    Every broadcast of the handlers is
    [for conn in hub.get(room_id, []): await conn.send_text(data)]
    (room_ws.py, lines 35-36 and 39-40; poker_battle.py, lines 212-213,
    222-223, 230-231, 234-235, 242-243 and 252-253).  The loop does not
    copy the list: it walks the room's list object itself with a Python
    list iterator, which holds an index and, at each step, returns the
    element at the index if the list is still longer than it.  Each
    [await] lets the other handlers run, and they change that same list:
    a new connection appends its websocket (lines 14-16 and 190-192), a
    disconnect removes one with [list.remove] (lines 46 and 259).

    [fan_step] is the loop of one handler, its position [FAt i], and the
    steps of the others on the shared hub between two of its sends.  A
    room that is not in the hub when the loop starts is iterated as a
    fresh empty list: nothing is sent.  The hub's dict maps a room to the
    one list object it ever holds (the handlers only create the entry
    when it is missing), so the list the loop walks is the room's entry
    at every step.

    The theorems: with no disconnect in the room, the loop sends the
    message once to every websocket that was in the room when it began,
    in the room's order, then to the ones that joined before it ended;
    run alone it is the atomic [broadcast] of [Hub], which the handler
    models of [LobbyWS] and [GameWS] use; but a disconnect of
    a websocket that the loop has passed shifts the list under the
    iterator, and the websocket after the current one never receives
    the message although it stays in the room. *)

From S2P Require Import Prelude PyDict Cards Hub.

Module Fanout.

(** Where the loop is: about to take the element at index [i], finished
    (the iterator is exhausted), or stopped by a failed send. *)
Inductive FanPc :=
  | FAt (i : nat)
  | FDone
  | FCrashed.

Section FanoutLoop.
Context {Msg : Type}.

(** The shared hub, the messages this loop has sent, and its position. *)
Record Fan := mkFan {
  f_hub : Hub;
  f_sent : list (Conn * Msg);
  f_pc : FanPc
}.

Variable closed : Conn -> bool.
Variable rid : string.
Variable m : Msg.

(** The list the loop walks, in the current hub. *)
Definition room_list (hub : Hub) : list Conn := get_default hub rid [].

(** [for conn in hub.get(room_id, [])]. *)
Definition fan_start (hub : Hub) (sent : list (Conn * Msg)) : Fan :=
  mkFan hub sent (if mem hub rid then FAt 0 else FDone).

(** One step of the loop, or of another handler between two of its
    sends. *)
Inductive fan_step : Fan -> Fan -> Prop :=
  | fan_send hub sent i c :
      room_list hub !! i = Some c -> closed c = false ->
      fan_step (mkFan hub sent (FAt i)) (mkFan hub (sent ++ [(c, m)]) (FAt (S i)))
  | fan_fail hub sent i c :
      room_list hub !! i = Some c -> closed c = true ->
      fan_step (mkFan hub sent (FAt i)) (mkFan hub sent FCrashed)
  | fan_end hub sent i :
      length (room_list hub) <= i ->
      fan_step (mkFan hub sent (FAt i)) (mkFan hub sent FDone)
  | fan_connect hub sent pc rid' ws :
      fan_step (mkFan hub sent pc) (mkFan (attach hub rid' ws) sent pc)
  | fan_disconnect hub sent pc rid' ws hub' :
      detach (E := Empty_set) rid' ws hub = (hub', Ok tt) ->
      fan_step (mkFan hub sent pc) (mkFan hub' sent pc).

(** The steps in which no websocket leaves the room: its list only
    grows at the end. *)
Inductive fan_step_join : Fan -> Fan -> Prop :=
  | fan_join x y :
      fan_step x y -> room_list (f_hub x) `prefix_of` room_list (f_hub y) -> fan_step_join x y.

(** The invariant of a loop that started on the list [L0] with the
    messages [sent0] already sent: the room's list extends [L0]; the loop
    has sent the message to a prefix [done_] of it, as many as its
    index; once finished, to all of [L0] at least. *)
Definition fan_inv (L0 : list Conn) (sent0 : list (Conn * Msg)) (x : Fan) : Prop :=
  L0 `prefix_of` room_list (f_hub x) /\
  exists done_, done_ `prefix_of` room_list (f_hub x) /\
    f_sent x = sent0 ++ map (fun c => (c, m)) done_ /\
    match f_pc x with
    | FAt i => length done_ = i
    | FDone => L0 `prefix_of` done_
    | FCrashed => True
    end.

End FanoutLoop.

(** ** Lemmas *)

Section FanoutLemmas.
Context {Msg : Type}.
Variable closed : Conn -> bool.
Variable rid : string.
Variable m : Msg.

Lemma fan_inv_step L0 sent0 x y :
  fan_inv rid m L0 sent0 x -> fan_step_join closed rid m x y -> fan_inv rid m L0 sent0 y.
Proof.
  intros Hinv Hj. revert Hinv. destruct Hj as [x y Hst Hpre].
  inversion Hst as [hub sent i c Hc Hop|hub sent i c Hc Hcl|hub sent i Hlen|hub sent pc rid' ws|hub sent pc rid' ws hub' Hdet];
    subst; intros (HL0 & done_ & Hd & Hs & Hpc); unfold fan_inv; simpl in *.
  - split; [done|]. exists (done_ ++ [c]). split_and!.
    + rewrite <-Hpc in Hc. destruct Hd as [k Hk]. rewrite Hk in Hc |- *.
      rewrite lookup_app_r, Nat.sub_diag in Hc by lia.
      destruct k as [|c' k]; [done|]. injection Hc as ->. exists k. by rewrite <-app_assoc.
    + by rewrite Hs, map_app, app_assoc.
    + rewrite length_app. simpl. lia.
  - split; [done|]. by exists done_.
  - split; [done|]. exists done_. split_and!; [done|done|].
    rewrite (prefix_length_eq done_ (room_list rid hub)); [done|done|lia].
  - split; [by trans (room_list rid hub)|]. exists done_. split_and!; [by trans (room_list rid hub)|done|done].
  - split; [by trans (room_list rid hub)|]. exists done_. split_and!; [by trans (room_list rid hub)|done|done].
Qed.

Lemma fan_inv_reachable L0 sent0 x y :
  fan_inv rid m L0 sent0 x -> rtc (fan_step_join closed rid m) x y -> fan_inv rid m L0 sent0 y.
Proof. intros Hx Hr. induction Hr; eauto using fan_inv_step. Qed.

(** Run alone from index [i] over open websockets, the loop sends to the
    rest of the list and ends. *)
Lemma fan_run_alone hub sent i :
  (forall c, c ∈ drop i (room_list rid hub) -> closed c = false) ->
  rtc (fan_step closed rid m) (mkFan hub sent (FAt i))
      (mkFan hub (sent ++ map (fun c => (c, m)) (drop i (room_list rid hub))) FDone).
Proof.
  remember (length (room_list rid hub) - i) as n eqn:Hn. revert i sent Hn.
  induction n as [|n IH]; intros i sent Hn Hop.
  - rewrite drop_ge by lia. rewrite app_nil_r. apply rtc_once. constructor. lia.
  - destruct (room_list rid hub !! i) as [c|] eqn:Hc; [|apply lookup_ge_None in Hc; lia].
    rewrite (drop_S _ c) in Hop |- * by done.
    eapply rtc_l; [apply fan_send; [done|apply Hop; left]|].
    cbn [map]. replace (sent ++ (c, m) :: map _ (drop (S i) _))
      with ((sent ++ [(c, m)]) ++ map (fun c => (c, m)) (drop (S i) (room_list rid hub)))
      by (by rewrite <-app_assoc).
    apply IH; [lia|]. intros c' Hc'. apply Hop. by right.
Qed.

Lemma fan_inv_start hub0 sent0 :
  fan_inv rid m (room_list rid hub0) sent0 (fan_start rid hub0 sent0).
Proof.
  unfold fan_inv, fan_start. simpl. split; [done|]. exists []. split_and!; [apply prefix_nil|by rewrite app_nil_r|].
  destruct (mem hub0 rid) eqn:Hm; [done|].
  apply mem_false_get in Hm. unfold room_list, get_default. rewrite Hm. apply prefix_nil.
Qed.

(** The atomic [broadcast] of the handlers' models is the loop run with
    no other handler in between: it ends with the same messages, finished
    when every send succeeded and stopped at the first failed send
    otherwise. *)
Lemma fan_alone_broadcast hub sent i :
  let '(sent', o) := broadcast (E := Empty_set) closed (drop i (room_list rid hub)) m sent in
  rtc (fan_step closed rid m) (mkFan hub sent (FAt i))
      (mkFan hub sent' (match o with Ok _ => FDone | _ => FCrashed end)).
Proof.
  remember (length (room_list rid hub) - i) as n eqn:Hn. revert i sent Hn.
  induction n as [|n IH]; intros i sent Hn.
  - rewrite drop_ge by lia. apply rtc_once. constructor. lia.
  - destruct (room_list rid hub !! i) as [c|] eqn:Hc; [|apply lookup_ge_None in Hc; lia].
    rewrite (drop_S _ c) by done. cbn [broadcast]. unfold bind, send at 1.
    destruct (closed c) eqn:Hcl.
    + apply rtc_once. by eapply fan_fail.
    + specialize (IH (S i) (sent ++ [(c, m)]) ltac:(lia)).
      destruct (broadcast closed (drop (S i) (room_list rid hub)) m (sent ++ [(c, m)])) as [sent' o].
      eapply rtc_l; [by apply fan_send|]. exact IH.
Qed.

(** ** Theorems *)

(** C17. A broadcast loop whose room loses no websocket while it runs
    (other handlers may connect, here or anywhere, and leave other
    rooms) sends the message once to each websocket the room had when
    the loop began, in the room's order, and then to some of those that
    joined meanwhile, in order: when it ends, the websockets it sent to
    are a prefix of the room's list that contains the initial list. *)
Theorem fanout_delivers_joined hub0 sent0 fin :
  rtc (fan_step_join closed rid m) (fan_start rid hub0 sent0) fin -> f_pc fin = FDone ->
  exists done_, f_sent fin = sent0 ++ map (fun c => (c, m)) done_ /\
    room_list rid hub0 `prefix_of` done_ /\ done_ `prefix_of` room_list rid (f_hub fin).
Proof.
  intros Hr Hfin. destruct (fan_inv_reachable _ _ _ _ (fan_inv_start hub0 sent0) Hr) as (_ & done_ & Hd & Hs & Hpc).
  rewrite Hfin in Hpc. by exists done_.
Qed.

(** C18. A disconnect during a broadcast skips a live websocket: when the
    room's list is [x :: b :: post] and the handler of [x] removes it
    while the loop awaits its send to [x], the list becomes
    [b :: post] under an iterator at index 1, so the loop sends to the
    websockets of [post] and ends; [b] stays in the room and never
    receives the message. *)
Theorem fanout_disconnect_skips hub0 sent0 x b post :
  get hub0 rid = Some (x :: b :: post) -> (forall c, c ∈ x :: b :: post -> closed c = false) ->
  exists fin, rtc (fan_step closed rid m) (fan_start rid hub0 sent0) fin /\ f_pc fin = FDone /\
    room_list rid (f_hub fin) = b :: post /\
    f_sent fin = sent0 ++ (x, m) :: map (fun c => (c, m)) post.
Proof.
  intros Hg Hop. set (hub1 := setitem hub0 rid (b :: post)).
  assert (Hl1 : room_list rid hub1 = b :: post) by (unfold room_list, get_default, hub1; by rewrite get_setitem_eq).
  exists (mkFan hub1 ((sent0 ++ [(x, m)]) ++ map (fun c => (c, m)) post) FDone).
  split_and!; [|done|done|by rewrite <-app_assoc].
  unfold fan_start. rewrite (mem_true _ _ _ Hg).
  eapply rtc_l; [apply fan_send; [unfold room_list, get_default; by rewrite Hg|apply Hop; left]|].
  eapply rtc_l; [apply (fan_disconnect _ _ _ _ _ _ rid x hub1)|].
  { unfold detach, list_remove. rewrite Hg, decide_True by left. simpl. by rewrite decide_True. }
  pose proof (fan_run_alone hub1 (sent0 ++ [(x, m)]) 1) as Hrun. rewrite Hl1 in Hrun.
  apply Hrun. intros c Hc. apply Hop. by right; right.
Qed.

End FanoutLemmas.

(** ** Witnesses *)

(** Room [R1] holds the websockets 1 and 2; while the loop sends to 1,
    websocket 3 connects; the loop then sends to 2 and 3. *)
Lemma fanout_delivers_joined_witness :
  let hub0 : Hub := [("R1", [1; 2])] in
  let fin := mkFan (attach hub0 "R1" 3) [(1, "update_room"); (2, "update_room"); (3, "update_room")] FDone in
  rtc (fan_step_join (fun _ => false) "R1" "update_room") (fan_start "R1" hub0 []) fin /\ f_pc fin = FDone /\
  exists done_, f_sent fin = [] ++ map (fun c => (c, "update_room")) done_ /\
    room_list "R1" hub0 `prefix_of` done_ /\ done_ `prefix_of` room_list "R1" (f_hub fin).
Proof.
  intros hub0 fin.
  assert (Hr : rtc (fan_step_join (fun _ => false) "R1" "update_room") (fan_start "R1" hub0 []) fin).
  { unfold fan_start, fin. simpl.
    eapply rtc_l; [constructor; [by apply (fan_send _ _ _ hub0 [] 0 1)|done]|].
    eapply rtc_l; [constructor; [apply (fan_connect _ _ _ hub0 _ _ "R1" 3)|by exists [3]]|].
    eapply rtc_l; [constructor; [by apply (fan_send _ _ _ _ _ 1 2)|done]|].
    eapply rtc_l; [constructor; [by apply (fan_send _ _ _ _ _ 2 3)|done]|].
    apply rtc_once. constructor; [apply fan_end; simpl; lia|done]. }
  split; [exact Hr|]. split; [reflexivity|]. exact (fanout_delivers_joined _ _ _ _ _ _ Hr eq_refl).
Defined.

Lemma fanout_disconnect_skips_witness :
  get [("R1", [1; 2; 3])] "R1" = Some [1; 2; 3] /\
  (forall c, c ∈ [1; 2; 3] -> (fun _ : Conn => false) c = false) /\
  exists fin, rtc (fan_step (fun _ => false) "R1" "update_room") (fan_start "R1" [("R1", [1; 2; 3])] []) fin /\
    f_pc fin = FDone /\ room_list "R1" (f_hub fin) = [2; 3] /\
    f_sent fin = [] ++ (1, "update_room") :: map (fun c => (c, "update_room")) [3].
Proof.
  assert (Hop : forall c, c ∈ [1; 2; 3] -> (fun _ : Conn => false) c = false) by done.
  split; [reflexivity|]. split; [exact Hop|].
  exact (fanout_disconnect_skips (fun _ => false) "R1" "update_room" [("R1", [1; 2; 3])] [] 1 2 [3] eq_refl Hop).
Defined.

End Fanout.
