(* ===== verification/StateFanout.v ===== *)
(** * The round state a broadcast serializes, send by send

    After a successful draw, [game_websocket] builds
    [response = {"action": "draw_card", "username": username,
    "card": card, "state": state}] once and then runs
    [for conn in ws_connections.get(room_id, []):
    await conn.send_text(json.dumps(response, default=str))]
    (poker_battle.py, lines 204-212).  [state] is the dict
    [game_states[room_id]] itself, returned by [draw_card], not a copy;
    [json.dumps] reads it again at every send; and between two sends the
    other handlers of the room run.  Their [draw_card] and [play_card]
    mutate that same dict in place, so a later connection receives the
    state as it is then; their [restart_game] stores a new dict under the
    room ([initialize_game]), after which the response's dict is no
    longer changed by anyone.

    [DF] is the shared state of the loop: the hub, [game_states], the
    value of the response's dict ([df_obj]) and whether it is still the
    room's entry ([df_aliased]), the messages the loop has sent and its
    position.  [df_step] is a send of the loop or a step of another
    handler: a connect, a disconnect, a [draw_card], a [play_card] or a
    restart, on any room.  [finish_game], which also mutates the dict in
    place, needs the database and is not among the other handlers'
    steps here. *)

From S2P Require Import Prelude PyDict RoomRegistry Cards PokerBattle Hub Fanout.
Import Registry PokerBattle Fanout.

Module StateFanout.

(** The serialized [response] of a draw: the username, the card and the
    round state as [json.dumps] reads them. *)
Inductive DrawOut := mkDrawOut (username : string) (card : Card) (state : GameState).

Record DF := mkDF {
  df_hub : Hub;
  df_gs : GameStates;
  df_obj : GameState;
  df_aliased : bool;
  df_sent : list (Conn * DrawOut);
  df_pc : FanPc
}.

Section DrawBroadcast.
Variable closed : Conn -> bool.
Variable rid : string.
Variable u : string.
Variable card : Card.

(** The value of the response's dict after another handler changed
    [game_states]: the room's entry while the dict is still that entry. *)
Definition track (aliased : bool) (obj : GameState) (gs : GameStates) : GameState :=
  if aliased then default obj (get gs rid) else obj.

(** The loop starts right after [draw_card] returned [(card, state)]. *)
Definition df_start (hub : Hub) (gs : GameStates) (state : GameState) : DF :=
  mkDF hub gs state true [] (if mem hub rid then FAt 0 else FDone).

Inductive df_step : DF -> DF -> Prop :=
  | df_send hub gs obj al sent i c :
      room_list rid hub !! i = Some c -> closed c = false ->
      df_step (mkDF hub gs obj al sent (FAt i))
              (mkDF hub gs obj al (sent ++ [(c, mkDrawOut u card obj)]) (FAt (S i)))
  | df_fail hub gs obj al sent i c :
      room_list rid hub !! i = Some c -> closed c = true ->
      df_step (mkDF hub gs obj al sent (FAt i)) (mkDF hub gs obj al sent FCrashed)
  | df_end hub gs obj al sent i :
      length (room_list rid hub) <= i ->
      df_step (mkDF hub gs obj al sent (FAt i)) (mkDF hub gs obj al sent FDone)
  | df_connect hub gs obj al sent pc rid' ws :
      df_step (mkDF hub gs obj al sent pc) (mkDF (attach hub rid' ws) gs obj al sent pc)
  | df_disconnect hub gs obj al sent pc rid' ws hub' :
      detach (E := Empty_set) rid' ws hub = (hub', Ok tt) ->
      df_step (mkDF hub gs obj al sent pc) (mkDF hub' gs obj al sent pc)
  | df_draw hub gs obj al sent pc rid' u' gs' o :
      draw_card rid' u' gs = (gs', o) ->
      df_step (mkDF hub gs obj al sent pc) (mkDF hub gs' (track al obj gs') al sent pc)
  | df_play hub gs obj al sent pc rid' u' c' gs' o :
      play_card rid' u' c' gs = (gs', o) ->
      df_step (mkDF hub gs obj al sent pc) (mkDF hub gs' (track al obj gs') al sent pc)
  | df_restart hub gs obj al sent pc randbelow now room gs' o :
      initialize_game randbelow now room gs = (gs', o) ->
      df_step (mkDF hub gs obj al sent pc)
              (mkDF hub gs' obj (al && bool_decide (room_id room <> rid)) sent pc).

(** While the response's dict is the room's entry, [df_obj] is its
    value. *)
Definition df_inv (x : DF) : Prop := df_aliased x = true -> get (df_gs x) rid = Some (df_obj x).

End DrawBroadcast.

(** ** Lemmas *)

Section DrawBroadcastLemmas.
Variable closed : Conn -> bool.
Variable rid : string.
Variable u : string.
Variable card : Card.

Lemma track_aliased obj gs st : get gs rid = Some st -> track rid true obj gs = st.
Proof. intros Hg. unfold track. by rewrite Hg. Qed.

(** [initialize_game] only writes the entry of its own room. *)
Lemma initialize_game_other randbelow now room gs gs' o :
  initialize_game randbelow now room gs = (gs', o) -> room_id room <> rid -> get gs' rid = get gs rid.
Proof.
  cbv [initialize_game bind store ret]. intros Hi Hne. injection Hi as <- _.
  by apply get_setitem_ne.
Qed.

(** A call of the engine leaves [game_states] as it was or stores one
    entry of a room that had one. *)
Definition stores_existing (gs gs' : GameStates) : Prop :=
  gs' = gs \/ exists rid' st', get gs rid' <> None /\ gs' = setitem gs rid' st'.

Lemma draw_card_stores rid' u' gs gs' o : draw_card rid' u' gs = (gs', o) -> stores_existing gs gs'.
Proof.
  unfold stores_existing. intros Hd. destruct (get gs rid') as [st|] eqn:Hg; [|rewrite draw_card_no_game in Hd by done; simplify_eq; by left].
  rewrite (draw_card_eq _ _ _ _ Hg) in Hd. cbv zeta in Hd.
  repeat case_match; simplify_eq; first [by left | right; exists rid'; eexists; split; [by rewrite Hg|done]].
Qed.

Lemma play_card_stores rid' u' c' gs gs' o : play_card rid' u' c' gs = (gs', o) -> stores_existing gs gs'.
Proof.
  unfold stores_existing. intros Hp. destruct (get gs rid') as [st|] eqn:Hg; [|rewrite play_card_no_game in Hp by done; simplify_eq; by left].
  rewrite (play_card_eq _ _ _ _ _ Hg) in Hp. cbv zeta in Hp.
  repeat case_match; simplify_eq; first [by left | right; exists rid'; eexists; split; [by rewrite Hg|done]].
Qed.

Lemma stores_existing_get gs gs' k st : stores_existing gs gs' -> get gs k = Some st -> exists st', get gs' k = Some st'.
Proof.
  intros [->|(rid' & st' & Hne & ->)] Hk; [by exists st|].
  destruct (decide (rid' = k)) as [<-|Hne']; [exists st'; apply get_setitem_eq|].
  exists st. by rewrite get_setitem_ne.
Qed.

Lemma df_inv_track gs gs' obj :
  stores_existing gs gs' -> get gs rid = Some obj -> get gs' rid = Some (track rid true obj gs').
Proof.
  intros Hs Hg. destruct (stores_existing_get _ _ _ _ Hs Hg) as [st' Hst']. by rewrite (track_aliased _ _ _ Hst').
Qed.

(** The tracking of the response's dict is exact: while it is the
    room's entry, the model's [df_obj] is the entry's value. *)
Lemma df_inv_step x y : df_inv rid x -> df_step closed rid u card x y -> df_inv rid y.
Proof.
  intros Hinv Hst. revert Hinv. unfold df_inv.
  destruct Hst as [| | | | |hub gs obj al sent pc rid' u' gs' o Hd|hub gs obj al sent pc rid' u' c' gs' o Hp|
                   hub gs obj al sent pc randbelow now room gs' o Hi]; simpl; try done.
  - intros Hinv ->. unfold track. apply (df_inv_track gs); [by eapply draw_card_stores|auto].
  - intros Hinv ->. unfold track. apply (df_inv_track gs); [by eapply play_card_stores|auto].
  - intros Hinv [-> Hne]%andb_prop. apply bool_decide_eq_true in Hne.
    rewrite (initialize_game_other _ _ _ _ _ _ Hi Hne). auto.
Qed.

(** ** Theorems *)

(** C31. The connections of one draw broadcast can receive different
    round states: the response holds the room's state dict itself and
    [json.dumps] reads it at each send, so when another player draws
    while the loop awaits its send to the first connection, the second
    connection receives the state after that draw (a shorter deck, the
    other player marked as having drawn) in a message announcing only the
    first draw. *)
Theorem draw_broadcast_mixed_states hub gs st c1 c2 post u' h a c rest :
  get hub rid = Some (c1 :: c2 :: post) -> closed c1 = false -> closed c2 = false ->
  get gs rid = Some st -> action_flag drawn st u' = false -> deck st = c :: rest ->
  get (hands st) u' = Some h -> get (playerActions st) u' = Some a ->
  exists y st', rtc (df_step closed rid u card) (df_start rid hub gs st) y /\
    df_sent y = [(c1, mkDrawOut u card st); (c2, mkDrawOut u card st')] /\
    deck st' = rest /\ action_flag drawn st' u' = true.
Proof.
  intros Hhub Hc1 Hc2 Hg Hdr Hdeck Hh Ha.
  set (st' := with_actions (setitem (playerActions st) u' (mkActions true (played a)))
                (with_hands (setitem (hands st) u' (h ++ [c])) (with_deck rest st))).
  assert (Hd : draw_card rid u' gs = (setitem gs rid st', Ok (c, st'))).
  { rewrite (draw_card_eq _ _ _ _ Hg), Hdr, Hdeck, Hh, Ha. reflexivity. }
  assert (Ht : track rid true st (setitem gs rid st') = st') by (apply track_aliased, get_setitem_eq).
  assert (Hl : room_list rid hub = c1 :: c2 :: post) by (unfold room_list, get_default; by rewrite Hhub).
  exists (mkDF hub (setitem gs rid st') st' true
            ([(c1, mkDrawOut u card st)] ++ [(c2, mkDrawOut u card st')]) (FAt 2)), st'.
  split_and!; [|done|done|].
  - unfold df_start. rewrite (mem_true _ _ _ Hhub).
    eapply rtc_l; [apply (df_send _ _ _ _ _ _ _ _ _ 0 c1); [by rewrite Hl|done]|].
    eapply rtc_l; [eapply df_draw; exact Hd|]. rewrite Ht.
    apply rtc_once. apply df_send; [by rewrite Hl|done].
  - unfold action_flag. simpl. by rewrite get_setitem_eq.
Qed.

End DrawBroadcastLemmas.

(** ** Witness *)

(** Room [R1] of alice and bob, with websockets 1 and 2; alice has
    drawn, and bob draws while the broadcast of alice's draw awaits its
    send to websocket 1. *)
Definition ex_room : Room := mkRoom "R1" [("alice", true); ("bob", true)].
Definition ex_gs : GameStates :=
  exec (draw_card "R1" "alice") (exec (initialize_game (fun _ => 0) 0 ex_room) []).
Definition ex_st : GameState := default (mkState [] [] [] [] 0 false) (get ex_gs "R1").

Lemma draw_broadcast_mixed_states_witness :
  get [("R1", [1; 2])] "R1" = Some [1; 2] /\
  exists y st', rtc (df_step (fun _ => false) "R1" "alice" (mkCard "clubs" "2"))
                    (df_start "R1" [("R1", [1; 2])] ex_gs ex_st) y /\
    df_sent y = [(1, mkDrawOut "alice" (mkCard "clubs" "2") ex_st); (2, mkDrawOut "alice" (mkCard "clubs" "2") st')] /\
    deck st' = tail (deck ex_st) /\ action_flag drawn st' "bob" = true.
Proof.
  split; [reflexivity|].
  exact (draw_broadcast_mixed_states (fun _ => false) "R1" "alice" (mkCard "clubs" "2")
           [("R1", [1; 2])] ex_gs ex_st 1 2 [] "bob" [] (mkActions false false)
           (mkCard "clubs" "3") (tail (deck ex_st))
           eq_refl eq_refl eq_refl ltac:(vm_compute; reflexivity) ltac:(vm_compute; reflexivity)
           ltac:(vm_compute; reflexivity) ltac:(vm_compute; reflexivity) ltac:(vm_compute; reflexivity)).
Defined.

End StateFanout.
