(* ===== verification/LobbyWS.v ===== *)
(** * The lobby websocket: [room_websocket] of [room_ws.py]

    The handler of [/ws/room/{room_id}] shares the registry's [rooms]
    dict and the hub [room_connections] with every other lobby handler.
    One iteration of its loop reads a message and:
    - skips text that is not JSON ([continue]);
    - on JSON that is not an object, fails in [message.get] with an
      [AttributeError] that nothing catches;
    - on [{"action": "ready", "username": u}] calls [set_ready]; a failure
      is sent to this websocket only; a success is broadcast as
      [update_room] to every websocket of the room, then, when
      [all_ready] holds, [game_start] is broadcast the same way;
    - on any other object sends it back as [echo].

    [lobby_handle] is that iteration over [LobbyWorld], the registry, the
    hub and the messages sent so far; [lobby_step] is the server relation
    of [Hub] over it. *)

From S2P Require Import Prelude PyDict RoomRegistry Cards Hub.
Import Registry.

Module Lobby.

(** The messages [room_websocket] sends. *)
Inductive LobbyOut :=
  | OError (detail : RoomMsg)            (* {"action": "error", "detail": msg} *)
  | OUpdateRoom (room : option Room)     (* {"action": "update_room", "room": room} *)
  | OGameStart (rid : string)            (* {"action": "game_start", "room_id": room_id} *)
  | OEcho (data : Inbound).              (* {"action": "echo", "data": message} *)

Record LobbyWorld := mkLobby {
  lw_rooms : dict string Room;           (* room_manager.rooms *)
  lw_hub : Hub;                          (* room_ws.room_connections *)
  lw_out : list (Conn * LobbyOut)        (* the messages sent, in order *)
}.

Definition with_rooms (rooms : dict string Room) (w : LobbyWorld) : LobbyWorld :=
  mkLobby rooms (lw_hub w) (lw_out w).
Definition with_hub (hub : Hub) (w : LobbyWorld) : LobbyWorld :=
  mkLobby (lw_rooms w) hub (lw_out w).
Definition with_out (out : list (Conn * LobbyOut)) (w : LobbyWorld) : LobbyWorld :=
  mkLobby (lw_rooms w) (lw_hub w) out.

(** [set_ready(room_id, username)] with the decoded username: a string
    is looked up; another hashable value is no member; an unhashable one
    makes [username not in rooms[room_id]["users"]] raise [TypeError]
    once the room is found. *)
Definition set_ready_json (rid : string) (u : JKey)
    : PyM (dict string Room) Empty_set (bool * RoomMsg) :=
  fun rooms =>
    match u with
    | KStr s => let '(rooms', res) := set_ready rooms rid s in (rooms', Ok res)
    | KOther => (rooms, Ok (false, if mem rooms rid then UserNotInRoom else RoomNotFound))
    | KUnhashable => if mem rooms rid then (rooms, Crash TypeError) else (rooms, Ok (false, RoomNotFound))
    end.

Definition lsend (closed : Conn -> bool) (ws : Conn) (m : LobbyOut) : PyM LobbyWorld Empty_set unit :=
  zoom lw_out with_out (send closed ws m).

(** [for conn in room_connections.get(room_id, []): await conn.send_text(m)] *)
Definition lbroadcast (closed : Conn -> bool) (rid : string) (m : LobbyOut)
    : PyM LobbyWorld Empty_set unit :=
  w <- get_st ;; zoom lw_out with_out (broadcast closed (get_default (lw_hub w) rid []) m).

(** One iteration of the [while True] loop of [room_websocket]. *)
Definition lobby_handle (closed : Conn -> bool) (rid : string) (ws : Conn) (m : Inbound)
    : PyM LobbyWorld Empty_set unit :=
  match m with
  | Unparsable => ret tt
  | NonObject => crash_with AttributeError
  | Object action u _ =>
      if decide (action = Some "ready") then
        res <- zoom lw_rooms with_rooms (set_ready_json rid u) ;;
        if negb res.1 then lsend closed ws (OError res.2) else
        w <- get_st ;;
        lbroadcast closed rid (OUpdateRoom (get_room_info (lw_rooms w) rid)) ;;
        w <- get_st ;;
        if all_ready (lw_rooms w) rid then lbroadcast closed rid (OGameStart rid) else ret tt
      else lsend closed ws (OEcho m)
  end.

(** The lobby server: handlers of [room_websocket] connecting,
    handling messages and disconnecting. *)
Definition lobby_step := server_step lw_hub with_hub lobby_handle.

(** ** Lemmas *)

Lemma lobby_handle_hub closed rid ws m : preserves lw_hub (lobby_handle closed rid ws m).
Proof. unfold lobby_handle, lsend, lbroadcast. solve_preserves. Qed.

Lemma lobby_handle_hub_eq closed rid ws m w w' o :
  lobby_handle closed rid ws m w = (w', o) -> lw_hub w' = lw_hub w.
Proof. apply lobby_handle_hub. Qed.

Lemma lw_hub_with_hub h w : lw_hub (with_hub h w) = h.
Proof. done. Qed.

(** The broadcast of [m] to a room all of whose websockets are open. *)
Lemma lbroadcast_open closed rid m w :
  (forall c, c ∈ get_default (lw_hub w) rid [] -> closed c = false) ->
  lbroadcast closed rid m w =
  (with_out (lw_out w ++ map (fun c => (c, m)) (get_default (lw_hub w) rid [])) w, Ok tt).
Proof.
  intros Hop. unfold lbroadcast, bind, get_st. by rewrite (zoom_run _ _ _ _ _ _ (broadcast_open _ _ _ _ Hop)).
Qed.

Lemma lobby_server_init w0 : hub_wf (lw_hub w0) -> server_inv lw_hub (w0, []).
Proof. intros Hwf. split; [done|]. split; [constructor|]. by intros ? ? ?%elem_of_nil. Qed.

Lemma lobby_reachable_inv w0 s :
  hub_wf (lw_hub w0) -> rtc lobby_step (w0, []) s -> server_inv lw_hub s.
Proof.
  intros Hwf Hr. eapply server_reachable_inv; [exact lw_hub_with_hub|exact lobby_handle_hub_eq| |exact Hr].
  by apply lobby_server_init.
Qed.

Lemma lbroadcast_stops closed rid m w pre c post :
  get_default (lw_hub w) rid [] = pre ++ c :: post ->
  (forall c', c' ∈ pre -> closed c' = false) -> closed c = true ->
  lbroadcast closed rid m w =
  (with_out (lw_out w ++ map (fun c' => (c', m)) pre) w, Crash SendError).
Proof.
  intros Hc Hop Hcl. unfold lbroadcast. rewrite bind_get_st, Hc.
  by rewrite (zoom_run _ _ _ _ _ _ (broadcast_stops _ _ _ _ _ _ Hop Hcl)).
Qed.

(** One handler connecting to room [rid] with websocket [ws]. *)
Ltac lobby_connect_by_eval :=
  eapply (ss_connect lw_hub with_hub lobby_handle); decide_by_eval.

(** The run of a ["ready"] message with a string username. *)
Lemma lobby_ready_run closed rid ws u card w :
  (forall c, c ∈ ws :: get_default (lw_hub w) rid [] -> closed c = false) ->
  lobby_handle closed rid ws (Object (Some "ready") (KStr u) card) w =
  let '(rooms', (ok, msg)) := set_ready (lw_rooms w) rid u in
  let conns := get_default (lw_hub w) rid [] in
  if ok then
    (mkLobby rooms' (lw_hub w)
       (lw_out w ++ map (fun c => (c, OUpdateRoom (get_room_info rooms' rid))) conns
                 ++ (if all_ready rooms' rid then map (fun c => (c, OGameStart rid)) conns else [])),
     Ok tt)
  else (mkLobby rooms' (lw_hub w) (lw_out w ++ [(ws, OError msg)]), Ok tt).
Proof.
  intros Hop. unfold lobby_handle. rewrite decide_True by done.
  unfold bind at 1, zoom at 1, set_ready_json.
  destruct (set_ready (lw_rooms w) rid u) as [rooms' [[|] msg]]; simpl.
  - rewrite bind_get_st.
    erewrite bind_ok by (apply lbroadcast_open; intros; apply Hop; by right).
    rewrite bind_get_st. cbn [lw_rooms lw_hub lw_out with_out with_rooms].
    destruct (all_ready rooms' rid).
    + rewrite lbroadcast_open by (intros; apply Hop; by right). cbn. by rewrite app_assoc.
    + cbn. by rewrite app_nil_r.
  - unfold lsend, zoom, send. simpl. by rewrite (Hop ws) by left.
Qed.

(** ** Theorems *)

(** C23. A ["ready"] message with a string username, all websockets of
    the room and the sender's open: [set_ready] runs; on failure its
    message goes to the sender only and nothing else changes; on success
    [update_room] with the updated room goes to every websocket of the
    room in the order they connected, then, if [all_ready] holds,
    [game_start] goes to each of them in the same order. *)
Theorem lobby_ready_outcomes closed rid ws u card w :
  (forall c, c ∈ ws :: get_default (lw_hub w) rid [] -> closed c = false) ->
  lobby_handle closed rid ws (Object (Some "ready") (KStr u) card) w =
  let '(rooms', (ok, msg)) := set_ready (lw_rooms w) rid u in
  let conns := get_default (lw_hub w) rid [] in
  if ok then
    (mkLobby rooms' (lw_hub w)
       (lw_out w ++ map (fun c => (c, OUpdateRoom (get_room_info rooms' rid))) conns
                 ++ (if all_ready rooms' rid then map (fun c => (c, OGameStart rid)) conns else [])),
     Ok tt)
  else (mkLobby rooms' (lw_hub w) (lw_out w ++ [(ws, OError msg)]), Ok tt).
Proof. apply lobby_ready_run. Qed.

Lemma lobby_ready_outcomes_witness :
  let w := mkLobby [("R1", mkRoom "R1" [("alice", false)])] [("R1", [1; 2])] [] in
  lobby_handle (fun _ => false) "R1" 2 (Object (Some "ready") (KStr "bob") None) w =
  let '(rooms', (ok, msg)) := set_ready (lw_rooms w) "R1" "bob" in
  let conns := get_default (lw_hub w) "R1" [] in
  if ok then
    (mkLobby rooms' (lw_hub w)
       (lw_out w ++ map (fun c => (c, OUpdateRoom (get_room_info rooms' "R1"))) conns
                 ++ (if all_ready rooms' "R1" then map (fun c => (c, OGameStart "R1")) conns else [])),
     Ok tt)
  else (mkLobby rooms' (lw_hub w) (lw_out w ++ [(2, OError msg)]), Ok tt).
Proof.
  intros w. exact (lobby_ready_outcomes (fun _ => false) "R1" 2 "bob" None w (fun _ _ => eq_refl)).
Defined.

(** C24. Once a room is all ready, every further ["ready"] message from
    a member, already ready, changes nothing in the registry and again
    broadcasts [update_room] and [game_start] to every websocket of the
    room: the clients are told that the game starts once per such message,
    where the protocol announces [game_start] once, when the room becomes
    all ready. *)
Theorem game_start_on_every_ready closed rid ws u card w r :
  get (lw_rooms w) rid = Some r -> get (users r) u = Some true ->
  all_ready (lw_rooms w) rid = true ->
  (forall c, c ∈ ws :: get_default (lw_hub w) rid [] -> closed c = false) ->
  lobby_handle closed rid ws (Object (Some "ready") (KStr u) card) w =
  (with_out (lw_out w ++ map (fun c => (c, OUpdateRoom (Some r))) (get_default (lw_hub w) rid [])
                      ++ map (fun c => (c, OGameStart rid)) (get_default (lw_hub w) rid [])) w,
   Ok tt).
Proof.
  intros Hg Hu Hall Hop. rewrite lobby_ready_run by done.
  unfold set_ready. rewrite Hg, (mem_true _ _ _ Hu), (setitem_get_same _ _ _ Hu).
  destruct r as [rid' us]. simpl. rewrite (setitem_get_same _ _ _ Hg), Hall.
  unfold get_room_info, with_out. by rewrite Hg.
Qed.

Lemma game_start_on_every_ready_witness :
  let w := mkLobby [("R1", mkRoom "R1" [("alice", true); ("bob", true)])] [("R1", [1; 2])] [] in
  lobby_handle (fun _ => false) "R1" 1 (Object (Some "ready") (KStr "alice") None) w =
  (with_out [(1, OUpdateRoom (Some (mkRoom "R1" [("alice", true); ("bob", true)])));
             (2, OUpdateRoom (Some (mkRoom "R1" [("alice", true); ("bob", true)])));
             (1, OGameStart "R1"); (2, OGameStart "R1")] w, Ok tt).
Proof.
  intros w. apply (game_start_on_every_ready (fun _ => false) "R1" 1 "alice" None w
                     (mkRoom "R1" [("alice", true); ("bob", true)])).
  - reflexivity.
  - reflexivity.
  - reflexivity.
  - intros; reflexivity.
Defined.

(** C25. A broadcast is not best-effort: when a websocket of the room has
    closed, the ["ready"] that succeeded is announced as [update_room] to
    the websockets before it only; the send to the closed one raises,
    which ends the handler, so the websockets after it get nothing and
    [game_start] is sent to no one, even when the room is all ready. *)
Theorem lobby_update_broadcast_stops closed rid ws u card w pre c post :
  get_default (lw_hub w) rid [] = pre ++ c :: post ->
  (forall c', c' ∈ pre -> closed c' = false) -> closed c = true ->
  (set_ready (lw_rooms w) rid u).2.1 = true ->
  lobby_handle closed rid ws (Object (Some "ready") (KStr u) card) w =
  (mkLobby (set_ready (lw_rooms w) rid u).1 (lw_hub w)
     (lw_out w ++ map (fun c' => (c', OUpdateRoom (get_room_info (set_ready (lw_rooms w) rid u).1 rid))) pre),
   Crash SendError).
Proof.
  intros Hc Hop Hcl. unfold lobby_handle. rewrite decide_True by done.
  unfold bind at 1, zoom at 1, set_ready_json.
  destruct (set_ready (lw_rooms w) rid u) as [rooms' [ok msg]]; simpl. intros ->. simpl.
  rewrite bind_get_st.
  by erewrite bind_crashes by (eapply lbroadcast_stops; [exact Hc|exact Hop|exact Hcl]).
Qed.

Lemma lobby_update_broadcast_stops_witness :
  let w := mkLobby [("R1", mkRoom "R1" [("alice", false); ("bob", true)])] [("R1", [1; 2; 3])] [] in
  lobby_handle (fun c => bool_decide (c = 2)) "R1" 1 (Object (Some "ready") (KStr "alice") None) w =
  (mkLobby [("R1", mkRoom "R1" [("alice", true); ("bob", true)])] [("R1", [1; 2; 3])]
     [(1, OUpdateRoom (Some (mkRoom "R1" [("alice", true); ("bob", true)])))],
   Crash SendError).
Proof.
  intros w. apply (lobby_update_broadcast_stops (fun c => bool_decide (c = 2)) "R1" 1 "alice" None w [1] 2 [3]).
  - reflexivity.
  - intros c' ->%list_elem_of_singleton. reflexivity.
  - reflexivity.
  - reflexivity.
Defined.

(** C26. In every state of the lobby server reachable from a
    well-formed hub, no websocket is listed twice in [room_connections],
    and the [room_connections[room_id].remove(websocket)] of a live
    handler's disconnect finds its websocket: it raises neither
    [KeyError] nor [ValueError]. *)
Theorem lobby_disconnect_safe w0 w live ws rid :
  hub_wf (lw_hub w0) -> rtc lobby_step (w0, []) (w, live) -> (ws, rid) ∈ live ->
  hub_wf (lw_hub w) /\ (detach (E := Empty_set) rid ws (lw_hub w)).2 = Ok tt.
Proof.
  intros Hwf Hr Hl. pose proof (lobby_reachable_inv _ _ Hwf Hr) as Hinv.
  split; [apply Hinv|]. by rewrite (server_inv_detach lw_hub _ _ _ _ Hinv Hl).
Qed.

Lemma lobby_disconnect_safe_witness :
  let w0 := mkLobby [] [] [] in
  hub_wf (lw_hub w0) /\ rtc lobby_step (w0, []) (with_hub (attach [] "R1" 1) w0, [(1, "R1")]) /\
  hub_wf (attach [] "R1" 1) /\ (detach (E := Empty_set) "R1" 1 (attach [] "R1" 1)).2 = Ok tt.
Proof.
  intros w0. assert (Hwf : hub_wf (lw_hub w0)) by (split; constructor).
  assert (Hr : rtc lobby_step (w0, []) (with_hub (attach [] "R1" 1) w0, [(1, "R1")])).
  { apply rtc_once. lobby_connect_by_eval. }
  split; [exact Hwf|]. split; [exact Hr|].
  exact (lobby_disconnect_safe w0 _ _ 1 "R1" Hwf Hr ltac:(left)).
Defined.

(** A lobby message that is JSON but not an object makes
    [message.get] raise [AttributeError], which nothing catches: the
    handler ends without removing its websocket, and in every later state
    of the server that websocket is still in [room_connections] though no
    handler owns it, so every later broadcast of the room still sends to
    it. *)
Theorem lobby_nonobject_stale w0 w live ws rid closed :
  hub_wf (lw_hub w0) -> rtc lobby_step (w0, []) (w, live) -> (ws, rid) ∈ live ->
  lobby_handle closed rid ws NonObject w = (w, Crash AttributeError) /\
  lobby_step (w, live) (w, remove_first (ws, rid) live) /\
  forall s', rtc lobby_step (w, remove_first (ws, rid) live) s' ->
    ws ∈ get_default (lw_hub s'.1) rid [] /\ ws ∉ map fst s'.2.
Proof.
  intros Hwf Hr Hl. pose proof (lobby_reachable_inv _ _ Hwf Hr) as Hinv.
  assert (Hh : lobby_handle closed rid ws NonObject w = (w, Crash AttributeError)) by done.
  assert (Hs : lobby_step (w, live) (w, remove_first (ws, rid) live)) by (eapply ss_crash; [exact Hl|exact Hh]).
  split; [done|]. split; [done|]. intros s' Hr'.
  apply (stale_reachable lw_hub with_hub lobby_handle lw_hub_with_hub lobby_handle_hub_eq ws rid
           (w, remove_first (ws, rid) live));
    [|exact (crash_makes_stale lw_hub lobby_handle lobby_handle_hub_eq _ _ _ _ _ _ _ _ Hinv Hl Hh)|done].
  by eapply server_step_inv; [exact lw_hub_with_hub|exact lobby_handle_hub_eq|exact Hinv|].
Qed.

Lemma lobby_nonobject_stale_witness :
  let w0 := mkLobby [] [] [] in
  let w := with_hub (attach [] "R1" 1) w0 in
  hub_wf (lw_hub w0) /\ rtc lobby_step (w0, []) (w, [(1, "R1")]) /\
  lobby_handle (fun _ => false) "R1" 1 NonObject w = (w, Crash AttributeError) /\
  lobby_step (w, [(1, "R1")]) (w, remove_first (1, "R1") [(1, "R1")]) /\
  forall s', rtc lobby_step (w, remove_first (1, "R1") [(1, "R1")]) s' ->
    1 ∈ get_default (lw_hub s'.1) "R1" [] /\ 1 ∉ map fst s'.2.
Proof.
  intros w0 w. assert (Hwf : hub_wf (lw_hub w0)) by (split; constructor).
  assert (Hr : rtc lobby_step (w0, []) (w, [(1, "R1")])).
  { apply rtc_once. lobby_connect_by_eval. }
  split; [exact Hwf|]. split; [exact Hr|].
  exact (lobby_nonobject_stale w0 w _ 1 "R1" (fun _ => false) Hwf Hr ltac:(left)).
Defined.

End Lobby.
