(* ===== verification/GameWS.v ===== *)
(** * The game websocket: [game_websocket] of [poker_battle.py]

    The handler of [/ws/game/{room_id}] (lines 187-259) shares the
    registry's [rooms], the engine's [game_states], the database and the
    hub [ws_connections] with every other game handler.  One iteration of
    its loop reads a message and, by its ["action"]:
    - ["draw_card"]: calls [draw_card]; its [HTTPException] goes to this
      websocket only, a success is broadcast;
    - ["play_card"]: calls [play_card]; the success or the error is
      broadcast; then, if every table slot of the room is filled, calls
      [finish_game(room, CONFIG)] and broadcasts its result or its error;
    - ["restart_game"]: calls [initialize_game] on [get_room_info(room_id)]
      and broadcasts the new state;
    - ["finish_game"]: calls [finish_game] on [get_room_info(room_id)];
      the result is broadcast, the error goes to this websocket only;
    - anything else: ["Unknown action"] to this websocket.

    The engine functions take the username as the message has it:
    [draw_by] and [play_by] follow the source lines for a username that is
    not a string ([None], a number: absent from every dict) and for an
    unhashable one (on which [.get] raises [TypeError]).  [finish_game]
    and [initialize_game] index [room["room_id"]], which raises
    [TypeError] when [get_room_info] returned [None]. *)

From S2P Require Import Prelude PyDict RoomRegistry Cards Ledger PokerBattle Hub.
Import Registry PokerBattle.

Module GameWS.

(** The messages [game_websocket] sends. *)
Inductive GameOut :=
  | ODraw (u : JKey) (c : Card) (st : GameState)          (* {"action": "draw_card", ...} *)
  | OPlay (u : JKey) (c : option Card) (st : GameState)   (* {"action": "play_card", ...} *)
  | OFinish (results : dict string Z) (table : dict string (option Card))
                                                          (* {"action": "finish_game", "result": ...} *)
  | ORestart (st : GameState)                             (* {"action": "game_restart", ...} *)
  | OError (e : GameError)                                (* {"action": "error", "detail": ...} *)
  | OUnknownAction.                                       (* {"action": "error", "detail": "Unknown action"} *)

Record GameWorld := mkGame {
  gw_rooms : dict string Room;        (* room_manager.rooms *)
  gw_games : GameStates;              (* poker_battle.game_states *)
  gw_db : Ledger.DB;                  (* the database *)
  gw_hub : Hub;                       (* poker_battle.ws_connections *)
  gw_out : list (Conn * GameOut)      (* the messages sent, in order *)
}.

Definition with_games (g : GameStates) (w : GameWorld) : GameWorld :=
  mkGame (gw_rooms w) g (gw_db w) (gw_hub w) (gw_out w).
Definition with_ledger (gd : GameStates * Ledger.DB) (w : GameWorld) : GameWorld :=
  mkGame (gw_rooms w) gd.1 gd.2 (gw_hub w) (gw_out w).
Definition with_hub (hub : Hub) (w : GameWorld) : GameWorld :=
  mkGame (gw_rooms w) (gw_games w) (gw_db w) hub (gw_out w).
Definition with_out (out : list (Conn * GameOut)) (w : GameWorld) : GameWorld :=
  mkGame (gw_rooms w) (gw_games w) (gw_db w) (gw_hub w) out.

Definition on_games {A} (m : PyM GameStates GameError A) : PyM GameWorld GameError A :=
  zoom gw_games with_games m.
Definition on_ledger {A} (m : PyM (GameStates * Ledger.DB) GameError A) : PyM GameWorld GameError A :=
  zoom (fun w => (gw_games w, gw_db w)) with_ledger m.

(** [draw_card(room_id, username)] for the username of the message. *)
Definition draw_by (rid : string) (u : JKey) : PyM GameStates GameError (Card * GameState) :=
  match u with
  | KStr s => draw_card rid s
  | KOther =>
      st <- lookup_state rid ;;
      match pop0 (deck st) with
      | None => raise DeckEmpty
      | Some (card, rest) => store rid (with_deck rest st) ;; crash_with KeyError
      end
  | KUnhashable => lookup_state rid ;; crash_with TypeError
  end.

(** [play_card(room_id, username, card)] for the username and card of the
    message. *)
Definition play_by (rid : string) (u : JKey) (card : option Card)
    : PyM GameStates GameError GameState :=
  match u, card with
  | KStr s, Some c => play_card rid s c
  | KStr s, None =>
      st <- lookup_state rid ;;
      if action_flag played st s then raise AlreadyPlayed else raise CardNotHeld
  | KOther, _ => lookup_state rid ;; raise CardNotHeld
  | KUnhashable, _ => lookup_state rid ;; crash_with TypeError
  end.

(** [finish_game(get_room_info(room_id), CONFIG)] *)
Definition finish_by (CONFIG : Config) (room : option Room)
    : PyM (GameStates * Ledger.DB) GameError (dict string Z * dict string (option Card)) :=
  match room with
  | None => crash_with TypeError
  | Some r => finish_game CONFIG CONFIG r
  end.

(** [initialize_game(get_room_info(room_id), CONFIG)] *)
Definition init_by (randbelow : nat -> nat) (now : Z) (room : option Room)
    : PyM GameStates GameError GameState :=
  match room with
  | None => crash_with TypeError
  | Some r => initialize_game randbelow now r
  end.

(** [all(v is not None for v in current_state["table"].values())] *)
Definition table_full (st : GameState) : bool :=
  forallb (fun v => bool_decide (is_Some v)) (values (table st)).

Definition gsend (closed : Conn -> bool) (ws : Conn) (m : GameOut) : PyM GameWorld Empty_set unit :=
  zoom gw_out with_out (send closed ws m).

(** [for conn in ws_connections.get(room_id, []): await conn.send_text(...)] *)
Definition gbroadcast (closed : Conn -> bool) (rid : string) (m : GameOut)
    : PyM GameWorld Empty_set unit :=
  w <- get_st ;; zoom gw_out with_out (broadcast closed (get_default (gw_hub w) rid []) m).

(** Lines 222-234: after a [play_card], finish the round when the table
    is full, and broadcast the result or the error. *)
Definition auto_finish (CONFIG : Config) (closed : Conn -> bool) (rid : string)
    : PyM GameWorld Empty_set unit :=
  w <- get_st ;;
  match get (gw_games w) rid with
  | Some st =>
      if table_full st then
        r <- try_ (on_ledger (finish_by CONFIG (get_room_info (gw_rooms w) rid))) ;;
        match r with
        | inl e => gbroadcast closed rid (OError e)
        | inr (res, tbl) => gbroadcast closed rid (OFinish res tbl)
        end
      else ret tt
  | None => ret tt
  end.

(** One iteration of the [while True] loop of [game_websocket]; the
    module's [CONFIG] is both the weight table and the scoring table. *)
Definition game_handle (CONFIG : Config) (randbelow : nat -> nat) (now : Z)
    (closed : Conn -> bool) (rid : string) (ws : Conn) (m : Inbound)
    : PyM GameWorld Empty_set unit :=
  match m with
  | Unparsable => ret tt
  | NonObject => crash_with AttributeError
  | Object action u card =>
      if decide (action = Some "draw_card") then
        r <- try_ (on_games (draw_by rid u)) ;;
        match r with
        | inl e => gsend closed ws (OError e)
        | inr (c, st) => gbroadcast closed rid (ODraw u c st)
        end
      else if decide (action = Some "play_card") then
        r <- try_ (on_games (play_by rid u card)) ;;
        gbroadcast closed rid (match r with inl e => OError e | inr st => OPlay u card st end) ;;
        auto_finish CONFIG closed rid
      else if decide (action = Some "restart_game") then
        w <- get_st ;;
        r <- try_ (on_games (init_by randbelow now (get_room_info (gw_rooms w) rid))) ;;
        match r with
        | inl e => gsend closed ws (OError e)
        | inr st => gbroadcast closed rid (ORestart st)
        end
      else if decide (action = Some "finish_game") then
        w <- get_st ;;
        r <- try_ (on_ledger (finish_by CONFIG (get_room_info (gw_rooms w) rid))) ;;
        match r with
        | inl e => gsend closed ws (OError e)
        | inr (res, tbl) => gbroadcast closed rid (OFinish res tbl)
        end
      else gsend closed ws OUnknownAction
  end.

(** What the environment decides when a message is handled: which
    clients have gone, the draws of [random.shuffle] and the time. *)
Record GameEnv := mkEnv {
  closed_of : Conn -> bool;
  draws_of : nat -> nat;
  now_of : Z
}.

(** The game server: handlers of [game_websocket] connecting, handling
    messages and disconnecting. *)
Definition game_step (CONFIG : Config) :=
  server_step gw_hub with_hub
    (fun env => game_handle CONFIG (draws_of env) (now_of env) (closed_of env)).

(** ** Lemmas *)

Lemma game_handle_hub CONFIG randbelow now closed rid ws m :
  preserves gw_hub (game_handle CONFIG randbelow now closed rid ws m).
Proof. unfold game_handle, auto_finish, gsend, gbroadcast, on_games, on_ledger. solve_preserves. Qed.

Lemma game_handle_hub_eq CONFIG randbelow now closed rid ws m w w' o :
  game_handle CONFIG randbelow now closed rid ws m w = (w', o) -> gw_hub w' = gw_hub w.
Proof. apply game_handle_hub. Qed.

Lemma gw_hub_with_hub h w : gw_hub (with_hub h w) = h.
Proof. done. Qed.

Lemma game_reachable_inv CONFIG w0 s :
  hub_wf (gw_hub w0) -> rtc (game_step CONFIG) (w0, []) s -> server_inv gw_hub s.
Proof.
  intros Hwf Hr. eapply server_reachable_inv; [exact gw_hub_with_hub| |idtac|exact Hr].
  - intros env. apply game_handle_hub_eq.
  - split; [done|]. split; [constructor|]. by intros ? ? ?%elem_of_nil.
Qed.

Lemma gbroadcast_open closed rid m w :
  (forall c, c ∈ get_default (gw_hub w) rid [] -> closed c = false) ->
  gbroadcast closed rid m w =
  (with_out (gw_out w ++ map (fun c => (c, m)) (get_default (gw_hub w) rid [])) w, Ok tt).
Proof.
  intros Hop. unfold gbroadcast. rewrite bind_get_st.
  by rewrite (zoom_run _ _ _ _ _ _ (broadcast_open _ _ _ _ Hop)).
Qed.

Lemma gsend_open closed ws m w :
  closed ws = false -> gsend closed ws m w = (with_out (gw_out w ++ [(ws, m)]) w, Ok tt).
Proof. intros Hop. unfold gsend, zoom, send. by rewrite Hop. Qed.

Lemma table_full_played_cards st : table_full st = true <-> is_Some (played_cards (table st)).
Proof.
  unfold table_full, values. induction (table st) as [|[k [c|]] t IH];
    cbn [map forallb played_cards snd].
  - split; [by eexists|done].
  - rewrite bool_decide_eq_true_2 by (by eexists). rewrite andb_true_l, IH. symmetry. apply fmap_is_Some.
  - rewrite bool_decide_eq_false_2 by (by intros [? ?]). split; [done|]. by intros [? ?].
Qed.

Lemma played_cards_length t l : played_cards t = Some l -> length l = length (keys t).
Proof.
  revert l. induction t as [|[k [c|]] t IH]; intros l; simpl; [by intros [= <-]| |done].
  destruct (played_cards t) as [l'|] eqn:E; [|done]. intros [= <-]. simpl. by rewrite (IH l').
Qed.

Lemma played_cards_all (t : dict string (option Card)) :
  dict_wf t -> (forall k, k ∈ keys t -> exists c, get t k = Some (Some c)) -> is_Some (played_cards t).
Proof.
  induction t as [|[k v] t IH]; simpl; [by eexists|]. intros Hwf Hall.
  apply NoDup_cons in Hwf as [Hk Hwf].
  destruct (Hall k ltac:(simpl; left)) as [c Hc]. rewrite decide_True in Hc by done.
  injection Hc as ->. apply fmap_is_Some, IH; [done|]. intros k' Hk'.
  destruct (Hall k' ltac:(simpl; by right)) as [c' Hc'].
  rewrite decide_False in Hc' by (intros ->; contradiction). eauto.
Qed.

(** A round in which every player has played has every slot filled. *)
Lemma all_played_full st :
  engine_inv st -> (forall k, k ∈ keys (hands st) -> action_flag played st k = true) ->
  exists l, played_cards (table st) = Some l /\ length l = length (keys (hands st)).
Proof.
  intros Hinv Hall. destruct Hinv as [Hwf _].
  assert (Hful : is_Some (played_cards (table st))).
  { pose proof Hwf as (Hnd & Hkt & Hka & _). apply played_cards_all.
    - unfold dict_wf. by rewrite Hkt.
    - intros k Hk. rewrite Hkt in Hk.
      destruct (player_entries st k Hwf Hk) as (h & a & Hh & Ha & _ & Hfp).
      pose proof (Hall k Hk) as Hp. rewrite Hfp in Hp.
      destruct (player_phase _ _ _ _ Hwf Hh Ha) as (t & Ht & [(_ & ? & _)|[(_ & ? & _)|(_ & _ & _ & [c ->])]]);
        [congruence|congruence|]. eauto. }
  destruct Hful as [l Hl]. exists l. split; [done|].
  rewrite (played_cards_length _ _ Hl). by destruct Hwf as (_ & -> & _).
Qed.

(** In a finished round every player has played. *)
Lemma finished_all_played st u :
  engine_inv st -> finished st = true -> u ∈ keys (hands st) -> action_flag played st u = true.
Proof.
  intros [Hwf _] Hfin Hu. destruct (player_entries st u Hwf Hu) as (h & a & Hh & Ha & _ & ->).
  destruct (player_phase _ _ _ _ Hwf Hh Ha) as (t & Ht & [(_ & _ & _ & ->)|[(_ & _ & _ & ->)|(_ & ? & _)]]);
    [| |done]; destruct Hwf as (_ & _ & _ & _ & Hf); destruct (Hf Hfin) as [l Hl];
    by apply played_cards_no_empty_slot with (u := u) in Hl.
Qed.

(** The play that fills the last empty slot: it succeeds, keeps the
    invariant, leaves the round unfinished and fills the table. *)
Lemma last_play_run g rid u c st h :
  get g rid = Some st -> engine_inv st -> get (hands st) u = Some h -> c ∈ h ->
  action_flag played st u = false ->
  (forall u', u' ∈ keys (hands st) -> u' <> u -> action_flag played st u' = true) ->
  exists st1 l, play_card rid u c g = (setitem g rid st1, Ok st1) /\ engine_inv st1 /\
    finished st1 = false /\ get (table st1) u = Some (Some c) /\
    played_cards (table st1) = Some l /\ length l = length (keys (hands st)) /\
    keys (table st1) = keys (table st).
Proof.
  intros Hg Hinv Hh Hc Hpl Hothers.
  assert (Hu : u ∈ keys (hands st)) by (by eapply get_Some_keys).
  destruct (player_entries st u (proj1 Hinv) Hu) as (h' & a & Hh' & Ha & _ & Hfp).
  rewrite Hh in Hh'. injection Hh' as <-. rewrite Hfp in Hpl.
  rewrite (play_card_eq _ _ _ _ _ Hg), Hfp, Hpl, Hh, decide_True, Ha by done.
  pose proof (play_preserves st u c h a Hinv Hh Hc Ha Hpl) as Hinv1.
  set (st1 := with_actions _ _) in *.
  assert (Hfin : finished st = false).
  { destruct (finished st) eqn:Hf; [|done].
    rewrite <- (finished_all_played st u Hinv Hf Hu), Hfp. by rewrite Hpl. }
  assert (Hk1 : keys (hands st1) = keys (hands st)) by (simpl; by apply keys_setitem_present).
  destruct (all_played_full st1 Hinv1) as (l & Hl & Hlen).
  { intros k Hk. rewrite Hk1 in Hk. unfold action_flag. simpl. destruct (decide (u = k)) as [<-|Hne].
    - by rewrite get_setitem_eq.
    - rewrite get_setitem_ne by done. apply (Hothers k Hk). congruence. }
  exists st1, l. split; [done|]. split; [done|]. split; [done|].
  split; [simpl; apply get_setitem_eq|]. split; [done|]. split; [by rewrite Hlen, Hk1|].
  simpl. apply keys_setitem_present. destruct Hinv as [(_ & -> & _) _]. done.
Qed.

(** The ledger accepts a first session of a room of two or three. *)
Lemma finish_game_last CONFIG r g db st1 l :
  get g (room_id r) = Some st1 -> finished st1 = false -> played_cards (table st1) = Some l ->
  (length l = 2 \/ length l = 3) ->
  exists results,
    score_results CONFIG (rank_played CONFIG l) = Some results /\
    finish_game CONFIG CONFIG r (g, db) =
    match Ledger.record_round db (room_id r) (game_time st1) (keys (table st1)) results with
    | None => ((g, db), Crash IntegrityError)
    | Some db' => ((setitem g (room_id r) (with_finished true st1), db'), Ok (results, table st1))
    end.
Proof.
  intros Hg Hfin Hl Hlen. destruct (score_results CONFIG (rank_played CONFIG l)) as [results|] eqn:Hs.
  - exists results. split; [done|]. unfold finish_game. by rewrite Hg, Hfin, Hl, Hs.
  - apply score_results_None in Hs. rewrite length_rank_played in Hs. lia.
Qed.

Abbreviation conns w rid := (get_default (gw_hub w) rid []).

(** A ["play_card"] message whose [play_card] returns or raises: the
    response is broadcast, then [auto_finish] runs. *)
Lemma play_message_eq CONFIG randbelow now closed rid ws u card w g1 (r : GameError + GameState) :
  play_by rid u card (gw_games w) = (g1, match r with inl e => Raise e | inr st => Ok st end) ->
  (forall c', c' ∈ conns w rid -> closed c' = false) ->
  game_handle CONFIG randbelow now closed rid ws (Object (Some "play_card") u card) w =
  auto_finish CONFIG closed rid
    (with_out (gw_out w ++ map (fun c' => (c', match r with inl e => OError e | inr st => OPlay u card st end))
                                (conns w rid)) (with_games g1 w)).
Proof.
  intros Hp Hop. unfold game_handle. rewrite decide_False by done. rewrite decide_True by done.
  destruct r as [e|st];
    [erewrite bind_ok by (apply try_raise, zoom_run, Hp)|erewrite bind_ok by (apply try_ok, zoom_run, Hp)];
    by erewrite bind_ok by (apply gbroadcast_open; intros; apply Hop; done).
Qed.

(** [auto_finish] on a full table of a known room: [finish_game]'s
    result or error is broadcast; its crash ends the handler. *)
Lemma auto_finish_full CONFIG closed rid w st r :
  get (gw_games w) rid = Some st -> table_full st = true -> get (gw_rooms w) rid = Some r ->
  (forall c', c' ∈ conns w rid -> closed c' = false) ->
  auto_finish CONFIG closed rid w =
  match finish_game CONFIG CONFIG r (gw_games w, gw_db w) with
  | (gd, Ok (res, tbl)) =>
      (with_out (gw_out w ++ map (fun c' => (c', OFinish res tbl)) (conns w rid)) (with_ledger gd w), Ok tt)
  | (gd, Raise e) =>
      (with_out (gw_out w ++ map (fun c' => (c', OError e)) (conns w rid)) (with_ledger gd w), Ok tt)
  | (gd, Crash c) => (with_ledger gd w, Crash c)
  end.
Proof.
  intros Hg Hfull Hr Hop. unfold auto_finish. rewrite bind_get_st, Hg, Hfull.
  unfold get_room_info. rewrite Hr. unfold bind at 1, try_, on_ledger, zoom, finish_by.
  destruct (finish_game CONFIG CONFIG r (gw_games w, gw_db w)) as [gd [[res tbl]|e|c]]; [| |done];
    by rewrite gbroadcast_open by (intros; apply Hop; done).
Qed.

Lemma record_round_fresh db rid t ps results :
  rid ∉ map Ledger.session_room_id (Ledger.sessions_table db) ->
  exists db', Ledger.record_round db rid t ps results = Some db' /\
              rid ∈ map Ledger.session_room_id (Ledger.sessions_table db').
Proof.
  intros Hn. destruct (Ledger.record_round db rid t ps results) as [db'|] eqn:Hrec.
  - exists db'. split; [done|]. by eapply Ledger.record_round_session.
  - unfold Ledger.record_round in Hrec. by rewrite decide_False in Hrec.
Qed.

Lemma record_round_taken db rid t ps results :
  rid ∈ map Ledger.session_room_id (Ledger.sessions_table db) ->
  Ledger.record_round db rid t ps results = None.
Proof. intros Hin. unfold Ledger.record_round. by rewrite decide_True. Qed.

(** ** Theorems *)

(** C28. Where an engine error goes: an [HTTPException] of [draw_card]
    and of a ["finish_game"] message is sent to the sender only, but one
    of [play_card] is broadcast to every websocket of the room; the spec
    sends draw and play errors to the sender only and broadcasts
    restart and finish errors. *)
Theorem game_error_routing CONFIG randbelow now closed rid ws u card w :
  (forall c, c ∈ ws :: get_default (gw_hub w) rid [] -> closed c = false) ->
  (forall g' e, draw_by rid u (gw_games w) = (g', Raise e) ->
     game_handle CONFIG randbelow now closed rid ws (Object (Some "draw_card") u card) w =
     (with_out (gw_out w ++ [(ws, OError e)]) (with_games g' w), Ok tt)) /\
  (forall g' e, play_by rid u card (gw_games w) = (g', Raise e) ->
     match get g' rid with Some st => table_full st = false | None => True end ->
     game_handle CONFIG randbelow now closed rid ws (Object (Some "play_card") u card) w =
     (with_out (gw_out w ++ map (fun c => (c, OError e)) (get_default (gw_hub w) rid []))
               (with_games g' w), Ok tt)) /\
  (forall gd e, finish_by CONFIG (get_room_info (gw_rooms w) rid) (gw_games w, gw_db w) = (gd, Raise e) ->
     game_handle CONFIG randbelow now closed rid ws (Object (Some "finish_game") u card) w =
     (with_out (gw_out w ++ [(ws, OError e)]) (with_ledger gd w), Ok tt)).
Proof.
  intros Hop. split; [|split].
  - intros g' e Hd. unfold game_handle. rewrite decide_True by done.
    erewrite bind_ok by (apply try_raise, zoom_run, Hd). cbv beta iota.
    by rewrite gsend_open by (apply Hop; left).
  - intros g' e Hp Hfull. unfold game_handle.
    rewrite decide_False by done. rewrite decide_True by done.
    erewrite bind_ok by (apply try_raise, zoom_run, Hp).
    erewrite bind_ok by (apply gbroadcast_open; intros; apply Hop; by right).
    unfold auto_finish. rewrite bind_get_st. cbn [gw_games with_out with_games].
    destruct (get g' rid) as [st|]; [|done]. by rewrite Hfull.
  - intros gd e Hf. unfold game_handle.
    rewrite decide_False by done. rewrite decide_False by done. rewrite decide_False by done.
    rewrite decide_True by done. rewrite bind_get_st.
    erewrite bind_ok by (apply try_raise, zoom_run, Hf). cbv beta iota.
    by rewrite gsend_open by (apply Hop; left).
Qed.

(** C33. A ["restart_game"] or ["finish_game"] message for a room id that
    the registry does not know makes [initialize_game] or [finish_game]
    index [None], a [TypeError] that nothing catches: the handler ends
    without any reply, where the spec answers every failed action with an
    error message and keeps the connection. *)
Theorem game_unknown_room_crashes CONFIG randbelow now closed rid ws u card w :
  get (gw_rooms w) rid = None ->
  game_handle CONFIG randbelow now closed rid ws (Object (Some "restart_game") u card) w
    = (w, Crash TypeError) /\
  game_handle CONFIG randbelow now closed rid ws (Object (Some "finish_game") u card) w
    = (w, Crash TypeError).
Proof.
  intros Hg. unfold game_handle, get_room_info. split.
  - rewrite decide_False by done. rewrite decide_False by done. rewrite decide_True by done.
    rewrite bind_get_st, Hg. unfold bind, try_, on_games, zoom, init_by, crash_with.
    by destruct w.
  - rewrite decide_False by done. rewrite decide_False by done. rewrite decide_False by done.
    rewrite decide_True by done. rewrite bind_get_st, Hg.
    unfold bind, try_, on_ledger, zoom, finish_by, crash_with. by destruct w.
Qed.

(** C29. The round finishes itself: when the last player who has not
    played plays a card they hold, in a room of two or three players
    that has no session yet, the handler broadcasts the play, then runs
    [finish_game], records the session, marks the round finished with the
    invariant kept, and broadcasts the result to every websocket of the
    room, without anyone sending ["finish_game"]. *)
Theorem last_play_finishes CONFIG randbelow now closed rid ws u c w st r h :
  get (gw_games w) rid = Some st -> engine_inv st ->
  get (gw_rooms w) rid = Some r -> room_id r = rid ->
  get (hands st) u = Some h -> c ∈ h -> action_flag played st u = false ->
  (forall u', u' ∈ keys (hands st) -> u' <> u -> action_flag played st u' = true) ->
  (length (keys (hands st)) = 2 \/ length (keys (hands st)) = 3) ->
  rid ∉ map Ledger.session_room_id (Ledger.sessions_table (gw_db w)) ->
  (forall c', c' ∈ conns w rid -> closed c' = false) ->
  exists st1 results db',
    game_handle CONFIG randbelow now closed rid ws (Object (Some "play_card") (KStr u) (Some c)) w =
    (mkGame (gw_rooms w) (setitem (gw_games w) rid (with_finished true st1)) db' (gw_hub w)
       (gw_out w ++ map (fun c' => (c', OPlay (KStr u) (Some c) st1)) (conns w rid)
                 ++ map (fun c' => (c', OFinish results (table st1))) (conns w rid)), Ok tt) /\
    get (table st1) u = Some (Some c) /\ engine_inv (with_finished true st1) /\
    rid ∈ map Ledger.session_room_id (Ledger.sessions_table db').
Proof.
  intros Hg Hinv Hr Hrid Hh Hc Hpl Hoth Hlen Hnew Hop.
  destruct (last_play_run _ _ _ _ _ _ Hg Hinv Hh Hc Hpl Hoth)
    as (st1 & l & Hplay & Hinv1 & Hfin1 & Hu1 & Hl & Hll & _).
  subst rid.
  destruct (finish_game_last CONFIG r (setitem (gw_games w) (room_id r) st1) (gw_db w) st1 l
              (get_setitem_eq _ _ _) Hfin1 Hl ltac:(lia)) as (results & _ & Hfg).
  destruct (record_round_fresh (gw_db w) (room_id r) (game_time st1) (keys (table st1)) results Hnew)
    as (db' & Hrec & Hses).
  rewrite Hrec, setitem_setitem in Hfg.
  exists st1, results, db'. split; [|split; [done|split; [by eapply finish_preserves|done]]].
  rewrite (play_message_eq CONFIG randbelow now closed (room_id r) ws (KStr u) (Some c) w _ (inr st1) Hplay Hop).
  rewrite (auto_finish_full _ _ _ _ st1 r); [|apply get_setitem_eq|by apply table_full_played_cards; eexists
    |done|intros; by apply Hop].
  cbn [gw_games gw_db with_out with_games]. rewrite Hfg. cbn. by rewrite app_assoc.
Qed.

(** C30. The second round of a room cannot finish: when its last play
    comes after a first round of the room was recorded, the handler
    broadcasts the play, then [finish_game]'s session insert violates the
    UNIQUE [room_id] and the [IntegrityError] ends the handler; the round
    stays unfinished with every slot filled, and no result is sent. *)
Theorem second_round_last_play_crashes CONFIG randbelow now closed rid ws u c w st r h :
  get (gw_games w) rid = Some st -> engine_inv st ->
  get (gw_rooms w) rid = Some r -> room_id r = rid ->
  get (hands st) u = Some h -> c ∈ h -> action_flag played st u = false ->
  (forall u', u' ∈ keys (hands st) -> u' <> u -> action_flag played st u' = true) ->
  (length (keys (hands st)) = 2 \/ length (keys (hands st)) = 3) ->
  rid ∈ map Ledger.session_room_id (Ledger.sessions_table (gw_db w)) ->
  (forall c', c' ∈ conns w rid -> closed c' = false) ->
  exists st1,
    game_handle CONFIG randbelow now closed rid ws (Object (Some "play_card") (KStr u) (Some c)) w =
    (mkGame (gw_rooms w) (setitem (gw_games w) rid st1) (gw_db w) (gw_hub w)
       (gw_out w ++ map (fun c' => (c', OPlay (KStr u) (Some c) st1)) (conns w rid)),
     Crash IntegrityError) /\
    finished st1 = false /\ table_full st1 = true.
Proof.
  intros Hg Hinv Hr Hrid Hh Hc Hpl Hoth Hlen Hold Hop.
  destruct (last_play_run _ _ _ _ _ _ Hg Hinv Hh Hc Hpl Hoth)
    as (st1 & l & Hplay & Hinv1 & Hfin1 & Hu1 & Hl & Hll & _).
  subst rid.
  destruct (finish_game_last CONFIG r (setitem (gw_games w) (room_id r) st1) (gw_db w) st1 l
              (get_setitem_eq _ _ _) Hfin1 Hl ltac:(lia)) as (results & _ & Hfg).
  rewrite record_round_taken in Hfg by done.
  assert (Hfull : table_full st1 = true) by (apply table_full_played_cards; by eexists).
  exists st1. split; [|done].
  rewrite (play_message_eq CONFIG randbelow now closed (room_id r) ws (KStr u) (Some c) w _ (inr st1) Hplay Hop).
  rewrite (auto_finish_full _ _ _ _ st1 r); [|apply get_setitem_eq|done|done|intros; by apply Hop].
  cbn [gw_games gw_db with_out with_games]. by rewrite Hfg.
Qed.

(** In a finished round, a ["play_card"] message from a player, with
    any card, makes every websocket of the room receive two errors: the
    [AlreadyPlayed] of [play_card], then, since the table is full, the
    [AlreadyFinished] of the [finish_game] the handler runs again;
    nothing else changes. *)
Theorem finished_round_play_errors CONFIG randbelow now closed rid ws u card w st r :
  get (gw_games w) rid = Some st -> engine_inv st -> finished st = true ->
  u ∈ keys (hands st) -> get (gw_rooms w) rid = Some r -> room_id r = rid ->
  (forall c', c' ∈ conns w rid -> closed c' = false) ->
  game_handle CONFIG randbelow now closed rid ws (Object (Some "play_card") (KStr u) card) w =
  (with_out (gw_out w ++ map (fun c' => (c', OError AlreadyPlayed)) (conns w rid)
                      ++ map (fun c' => (c', OError AlreadyFinished)) (conns w rid)) w, Ok tt).
Proof.
  intros Hg Hinv Hfin Hu Hr Hrid Hop.
  pose proof (finished_all_played st u Hinv Hfin Hu) as Hpl.
  assert (Hp : play_by rid (KStr u) card (gw_games w) = (gw_games w, Raise AlreadyPlayed)).
  { destruct card as [c|]; simpl.
    - by rewrite (play_card_eq _ _ _ _ _ Hg), Hpl.
    - unfold bind, lookup_state. by rewrite Hg, Hpl. }
  rewrite (play_message_eq _ _ _ _ _ _ _ _ w _ (inl AlreadyPlayed) Hp Hop).
  assert (Hfull : table_full st = true).
  { apply table_full_played_cards. destruct Hinv as [(_ & _ & _ & _ & Hf) _]. by apply Hf. }
  rewrite (auto_finish_full _ _ _ _ st r); [|done|done|done|intros; by apply Hop].
  cbn [gw_games gw_db with_out with_games]. unfold finish_game. subst rid. rewrite Hg, Hfin.
  cbn. rewrite app_assoc. by destruct w.
Qed.

(** A ["draw_card"] message naming a user who is not a player of
    the round pops the front card of the deck, then [hands[username]]
    raises a [KeyError] that nothing catches: the card is gone from the
    round, no reply is sent, the handler ends, and its websocket stays in
    [ws_connections] for the rest of the server's life, owned by no
    handler. *)
Theorem nonplayer_draw_stale CONFIG w0 w live ws rid env u card st c rest :
  hub_wf (gw_hub w0) -> rtc (game_step CONFIG) (w0, []) (w, live) -> (ws, rid) ∈ live ->
  get (gw_games w) rid = Some st -> u ∉ keys (hands st) -> u ∉ keys (playerActions st) ->
  deck st = c :: rest ->
  exists w',
    game_handle CONFIG (draws_of env) (now_of env) (closed_of env) rid ws
      (Object (Some "draw_card") (KStr u) card) w = (w', Crash KeyError) /\
    (exists st', get (gw_games w') rid = Some st' /\ deck st' = rest /\
                 hands st' = hands st /\ table st' = table st) /\
    game_step CONFIG (w, live) (w', remove_first (ws, rid) live) /\
    forall s', rtc (game_step CONFIG) (w', remove_first (ws, rid) live) s' ->
      ws ∈ get_default (gw_hub s'.1) rid [] /\ ws ∉ map fst s'.2.
Proof.
  intros Hwf Hr Hl Hg Hu Hua Hd. pose proof (game_reachable_inv _ _ _ Hwf Hr) as Hinv.
  assert (Hdraw : draw_card rid u (gw_games w)
                  = (setitem (gw_games w) rid (with_deck rest st), Crash KeyError)).
  { rewrite (draw_card_eq _ _ _ _ Hg). unfold action_flag.
    by rewrite (proj2 (get_None_keys _ _) Hua), Hd, (proj2 (get_None_keys _ _) Hu). }
  set (w' := with_games (setitem (gw_games w) rid (with_deck rest st)) w).
  assert (Hh : game_handle CONFIG (draws_of env) (now_of env) (closed_of env) rid ws
                 (Object (Some "draw_card") (KStr u) card) w = (w', Crash KeyError)).
  { unfold game_handle. rewrite decide_True by done.
    by erewrite bind_crashes by (apply try_crash, zoom_run, Hdraw). }
  assert (Hs : game_step CONFIG (w, live) (w', remove_first (ws, rid) live))
    by (eapply (ss_crash _ _ _ _ _ _ _ env); [exact Hl|exact Hh]).
  exists w'. split; [done|]. split.
  { eexists. split; [apply get_setitem_eq|done]. }
  split; [done|]. intros s' Hr'.
  assert (Hhub : forall env' rid' ws' m w1 w2 o,
            game_handle CONFIG (draws_of env') (now_of env') (closed_of env') rid' ws' m w1 = (w2, o) ->
            gw_hub w2 = gw_hub w1) by (intros; by eapply game_handle_hub_eq).
  apply (stale_reachable gw_hub with_hub _ gw_hub_with_hub Hhub ws rid (w', remove_first (ws, rid) live));
    [|exact (crash_makes_stale gw_hub _ Hhub _ _ _ _ env _ _ _ Hinv Hl Hh)|done].
  by eapply server_step_inv; [exact gw_hub_with_hub|exact Hhub|exact Hinv|].
Qed.

(** ** A concrete two-player room

    [alice] and [bob] both drew, [alice] played the two of clubs, [bob]
    holds the three of clubs; every weight is 0, a win is worth 10. *)

Definition ex_room : Room := mkRoom "R1" [("alice", true); ("bob", true)].
Definition ex_cfg : Config := mkConfig [] [] 10 (-10) 10 0 (-10).
Definition ex_gs1 : GameStates := exec (initialize_game (fun _ => 0) 0 ex_room) [].
Definition ex_gs2 : GameStates := exec (draw_card "R1" "alice") ex_gs1.
Definition ex_gs3 : GameStates := exec (draw_card "R1" "bob") ex_gs2.
Definition ex_gs4 : GameStates := exec (play_card "R1" "alice" (mkCard "clubs" "2")) ex_gs3.
Definition ex_state (g : GameStates) : GameState :=
  match get g "R1" with Some st => st | None => mkState [] [] [] [] 0 false end.
Definition ex_world (g : GameStates) (db : Ledger.DB) : GameWorld :=
  mkGame [("R1", ex_room)] g db [("R1", [1; 2])] [].
Definition ex_db_scored : Ledger.DB := Ledger.mkDB [] [Ledger.mkSession 1 "R1" 0 "alice,bob"] [].

Lemma ex_gs4_reachable : rtc engine_step [] ex_gs4.
Proof.
  apply rtc_l with ex_gs1; [init_step_by_eval|].
  apply rtc_l with ex_gs2; [step_by_eval es_draw|].
  apply rtc_l with ex_gs3; [step_by_eval es_draw|].
  apply rtc_l with ex_gs4; [step_by_eval es_play|apply rtc_refl].
Qed.

Lemma ex_gs4_state : get ex_gs4 "R1" = Some (ex_state ex_gs4).
Proof. vm_compute. reflexivity. Qed.

Lemma ex_gs4_inv : engine_inv (ex_state ex_gs4).
Proof. exact (reachable_states_inv _ ex_gs4_reachable "R1" _ ex_gs4_state). Qed.

Lemma ex_gs4_keys : keys (hands (ex_state ex_gs4)) = ["alice"; "bob"].
Proof. vm_compute. reflexivity. Qed.

Lemma ex_gs4_others u' :
  u' ∈ keys (hands (ex_state ex_gs4)) -> u' <> "bob" -> action_flag played (ex_state ex_gs4) u' = true.
Proof.
  rewrite ex_gs4_keys. intros [->|[->|]%elem_of_cons]%elem_of_cons Hne;
    [vm_compute; reflexivity|done|by apply elem_of_nil in H].
Qed.

Lemma last_play_finishes_witness :
  let w := ex_world ex_gs4 (Ledger.mkDB [] [] []) in
  exists st1 results db',
    game_handle ex_cfg (fun _ => 0) 0 (fun _ => false) "R1" 2
      (Object (Some "play_card") (KStr "bob") (Some (mkCard "clubs" "3"))) w =
    (mkGame (gw_rooms w) (setitem (gw_games w) "R1" (with_finished true st1)) db' (gw_hub w)
       (gw_out w ++ map (fun c' => (c', OPlay (KStr "bob") (Some (mkCard "clubs" "3")) st1)) (conns w "R1")
                 ++ map (fun c' => (c', OFinish results (table st1))) (conns w "R1")), Ok tt) /\
    get (table st1) "bob" = Some (Some (mkCard "clubs" "3")) /\ engine_inv (with_finished true st1) /\
    "R1" ∈ map Ledger.session_room_id (Ledger.sessions_table db').
Proof.
  intros w.
  apply (last_play_finishes ex_cfg (fun _ => 0) 0 (fun _ => false) "R1" 2 "bob" (mkCard "clubs" "3")
           w (ex_state ex_gs4) ex_room [mkCard "clubs" "3"]).
  - exact ex_gs4_state.
  - exact ex_gs4_inv.
  - reflexivity.
  - reflexivity.
  - vm_compute. reflexivity.
  - left.
  - vm_compute. reflexivity.
  - exact ex_gs4_others.
  - left. vm_compute. reflexivity.
  - decide_by_eval.
  - intros; reflexivity.
Defined.

Lemma second_round_last_play_crashes_witness :
  let w := ex_world ex_gs4 ex_db_scored in
  exists st1,
    game_handle ex_cfg (fun _ => 0) 0 (fun _ => false) "R1" 2
      (Object (Some "play_card") (KStr "bob") (Some (mkCard "clubs" "3"))) w =
    (mkGame (gw_rooms w) (setitem (gw_games w) "R1" st1) (gw_db w) (gw_hub w)
       (gw_out w ++ map (fun c' => (c', OPlay (KStr "bob") (Some (mkCard "clubs" "3")) st1)) (conns w "R1")),
     Crash IntegrityError) /\
    finished st1 = false /\ table_full st1 = true.
Proof.
  intros w.
  apply (second_round_last_play_crashes ex_cfg (fun _ => 0) 0 (fun _ => false) "R1" 2 "bob"
           (mkCard "clubs" "3") w (ex_state ex_gs4) ex_room [mkCard "clubs" "3"]).
  - exact ex_gs4_state.
  - exact ex_gs4_inv.
  - reflexivity.
  - reflexivity.
  - vm_compute. reflexivity.
  - left.
  - vm_compute. reflexivity.
  - exact ex_gs4_others.
  - left. vm_compute. reflexivity.
  - decide_by_eval.
  - intros; reflexivity.
Defined.

Definition ex_gs5 : GameStates := exec (play_card "R1" "bob" (mkCard "clubs" "3")) ex_gs4.
Definition ex_gs6 : GameStates :=
  fst (fst (finish_game ex_cfg ex_cfg ex_room (ex_gs5, Ledger.mkDB [] [] []))).

Lemma ex_gs6_reachable : rtc engine_step [] ex_gs6.
Proof.
  apply rtc_r with ex_gs5; [apply rtc_r with ex_gs4; [exact ex_gs4_reachable|step_by_eval es_play]|].
  eapply (es_finish ex_cfg ex_cfg ex_room (Ledger.mkDB [] [] []) ex_gs5
            (snd (fst (finish_game ex_cfg ex_cfg ex_room (ex_gs5, Ledger.mkDB [] [] []))))
            ex_gs6 (snd (finish_game ex_cfg ex_cfg ex_room (ex_gs5, Ledger.mkDB [] [] []))));
    [vm_compute; reflexivity|intros ?; vm_compute; discriminate].
Qed.

Lemma ex_gs6_state : get ex_gs6 "R1" = Some (ex_state ex_gs6).
Proof. vm_compute. reflexivity. Qed.

Lemma ex_gs6_inv : engine_inv (ex_state ex_gs6).
Proof. exact (reachable_states_inv _ ex_gs6_reachable "R1" _ ex_gs6_state). Qed.

Lemma game_error_routing_witness :
  let w := ex_world ex_gs4 (Ledger.mkDB [] [] []) in
  draw_by "R1" (KStr "alice") (gw_games w) = (gw_games w, Raise AlreadyDrawn) /\
  game_handle ex_cfg (fun _ => 0) 0 (fun _ => false) "R1" 1
    (Object (Some "draw_card") (KStr "alice") None) w =
  (with_out (gw_out w ++ [(1, OError AlreadyDrawn)]) (with_games (gw_games w) w), Ok tt).
Proof.
  intros w. assert (Hd : draw_by "R1" (KStr "alice") (gw_games w) = (gw_games w, Raise AlreadyDrawn))
    by (vm_compute; reflexivity).
  split; [exact Hd|].
  exact (proj1 (game_error_routing ex_cfg (fun _ => 0) 0 (fun _ => false) "R1" 1 (KStr "alice") None w
                  (fun _ _ => eq_refl)) _ _ Hd).
Defined.

Lemma game_unknown_room_crashes_witness :
  let w := ex_world ex_gs4 (Ledger.mkDB [] [] []) in
  game_handle ex_cfg (fun _ => 0) 0 (fun _ => false) "R9" 1 (Object (Some "restart_game") KOther None) w
    = (w, Crash TypeError) /\
  game_handle ex_cfg (fun _ => 0) 0 (fun _ => false) "R9" 1 (Object (Some "finish_game") KOther None) w
    = (w, Crash TypeError).
Proof.
  intros w. exact (game_unknown_room_crashes ex_cfg (fun _ => 0) 0 (fun _ => false) "R9" 1 KOther None w
                     eq_refl).
Defined.

Lemma finished_round_play_errors_witness :
  let w := ex_world ex_gs6 (Ledger.mkDB [] [] []) in
  game_handle ex_cfg (fun _ => 0) 0 (fun _ => false) "R1" 1
    (Object (Some "play_card") (KStr "alice") (Some (mkCard "clubs" "2"))) w =
  (with_out (gw_out w ++ map (fun c' => (c', OError AlreadyPlayed)) (conns w "R1")
                      ++ map (fun c' => (c', OError AlreadyFinished)) (conns w "R1")) w, Ok tt).
Proof.
  intros w.
  apply (finished_round_play_errors ex_cfg (fun _ => 0) 0 (fun _ => false) "R1" 1 "alice"
           (Some (mkCard "clubs" "2")) w (ex_state ex_gs6) ex_room).
  - exact ex_gs6_state.
  - exact ex_gs6_inv.
  - vm_compute. reflexivity.
  - decide_by_eval.
  - reflexivity.
  - reflexivity.
  - intros; reflexivity.
Defined.

Definition ex_w0 : GameWorld := mkGame [("R1", ex_room)] ex_gs4 (Ledger.mkDB [] [] []) [] [].
Definition ex_w1 : GameWorld := with_hub (attach [] "R1" 1) ex_w0.
Definition ex_env : GameEnv := mkEnv (fun _ => false) (fun _ => 0) 0.

Lemma nonplayer_draw_stale_witness :
  let st := ex_state ex_gs4 in
  exists w',
    game_handle ex_cfg (draws_of ex_env) (now_of ex_env) (closed_of ex_env) "R1" 1
      (Object (Some "draw_card") (KStr "carol") None) ex_w1 = (w', Crash KeyError) /\
    (exists st', get (gw_games w') "R1" = Some st' /\ deck st' = tail (deck st) /\
                 hands st' = hands st /\ table st' = table st) /\
    game_step ex_cfg (ex_w1, [(1, "R1")]) (w', remove_first (1, "R1") [(1, "R1")]) /\
    forall s', rtc (game_step ex_cfg) (w', remove_first (1, "R1") [(1, "R1")]) s' ->
      1 ∈ get_default (gw_hub s'.1) "R1" [] /\ 1 ∉ map fst s'.2.
Proof.
  intros st.
  assert (Hr : rtc (game_step ex_cfg) (ex_w0, []) (ex_w1, [(1, "R1")])).
  { apply rtc_once. eapply (ss_connect gw_hub with_hub); decide_by_eval. }
  apply (nonplayer_draw_stale ex_cfg ex_w0 ex_w1 [(1, "R1")] 1 "R1" ex_env "carol" None st
           (default (mkCard "" "") (head (deck st))) (tail (deck st))).
  - split; constructor.
  - exact Hr.
  - left.
  - exact ex_gs4_state.
  - decide_by_eval.
  - decide_by_eval.
  - vm_compute. reflexivity.
Defined.

End GameWS.
