(* ===== verification/Api.v ===== *)
(** * The HTTP endpoints: [main.py] and [game_manager.start_game]

    Each endpoint of [main.py] reads fields of the JSON payload with
    [payload.get], rejects a missing or empty field ([if not username])
    with an [HTTPException], and delegates to the registry, the user
    manager or the game manager, turning a [(False, msg)] answer into a
    400.  The endpoints share the registry's [rooms], the engine's
    [game_states] and the database, the three parts of [ApiWorld].

    A payload field read with [payload.get(k)] is [None] when it is
    missing or [null], and a string otherwise; the [mode] of
    [/game/start], read with a default, keeps the three cases apart
    ([Field]); fields of other JSON types are not modelled.  A query
    parameter ([room_id] of [/room/info], [username] of [/user/records])
    is a string, as FastAPI requires.  [POST /room/create] runs the
    [while room_id in rooms] loop of [create_room], so it returns only when
    the draws give a fresh id: [room_create] is [None] when the fuel runs
    out first.

    [GameManager.start_game] looks the mode up in the loaded
    configurations, imports [app.game_modes.<mode>] and calls its
    [start_game]; every exception, an [HTTPException] included, becomes a
    500.  [poker_battle] is the only mode module of the repository, so
    importing any other configured mode fails.  The dict [modes] is the
    [modes_config] that [ModeConfig.GameManager_init] loads from the
    configuration directory; [start_game] only tests its keys, so its
    values are of any type here. *)

From S2P Require Import Prelude PyDict RoomRegistry Cards Ledger PokerBattle.
Import Registry PokerBattle.

Module Api.

(** The [detail] of the [HTTPException]s of the endpoints. *)
Inductive ApiDetail :=
  | MissingCredentials               (* "请输入账号和密码" *)
  | FromUser (m : Ledger.UserMsg)    (* the message of register_user / login_user *)
  | MissingUsername                  (* "缺少用户名" *)
  | CreateFailed                     (* "创建房间失败" *)
  | MissingRoomOrUser                (* "缺少房间ID或用户名" *)
  | FromRoom (m : RoomMsg)           (* the message of join_room / leave_room *)
  | RoomMissing                      (* "房间不存在", 404 *)
  | MissingRoomId                    (* "缺少房间ID" *)
  | ModeNotFound (mode : string)     (* f"游戏模式 {mode_name} 不存在" *)
  | ModeLoadFailed (mode : string)   (* f"加载游戏模式 {mode_name} 失败: ..." *)
  | UserMissing.                     (* "用户不存在", 404 *)

(** An [HTTPException]: its status code and its detail. *)
Abbreviation HttpErr := (Z * ApiDetail)%type.

Record ApiWorld := mkApi {
  aw_rooms : dict string Room;    (* room_manager.rooms *)
  aw_games : GameStates;          (* poker_battle.game_states *)
  aw_db : Ledger.DB               (* the database *)
}.

Definition with_rooms (r : dict string Room) (w : ApiWorld) : ApiWorld := mkApi r (aw_games w) (aw_db w).
Definition with_games (g : GameStates) (w : ApiWorld) : ApiWorld := mkApi (aw_rooms w) g (aw_db w).
Definition with_db (d : Ledger.DB) (w : ApiWorld) : ApiWorld := mkApi (aw_rooms w) (aw_games w) d.

(** A field that passes [if not field]: present and not empty. *)
Definition nonempty (o : option string) : option string :=
  match o with
  | Some s => if decide (s = "") then None else Some s
  | None => None
  end.

(** [POST /register] *)
Definition register (username password : option string) : PyM ApiWorld HttpErr Ledger.UserMsg :=
  match nonempty username, nonempty password with
  | Some u, Some p =>
      res <- zoom aw_db with_db (lift_st (fun db => Ledger.register_user db u p)) ;;
      if res.1 then ret res.2 else raise (400%Z, FromUser res.2)
  | _, _ => raise (400%Z, MissingCredentials)
  end.

(** [POST /login] *)
Definition login (username password : option string) : PyM ApiWorld HttpErr Ledger.UserMsg :=
  match nonempty username, nonempty password with
  | Some u, Some p =>
      w <- get_st ;;
      let res := Ledger.login_user (aw_db w) u p in
      if res.1 then ret res.2 else raise (400%Z, FromUser res.2)
  | _, _ => raise (400%Z, MissingCredentials)
  end.

(** [POST /room/create]: [None] when the id loop has not ended within
    [fuel] draws. *)
Definition room_create (draws : nat -> nat -> nat) (fuel : nat) (username : option string)
    (w : ApiWorld) : option (ApiWorld * outcome HttpErr string) :=
  match nonempty username with
  | None => Some (w, Raise (400%Z, MissingUsername))
  | Some u =>
      match create_room (aw_rooms w) draws fuel u with
      | None => None
      | Some (rooms', (ok, rid)) =>
          Some (with_rooms rooms' w, if ok then Ok rid else Raise (400%Z, CreateFailed))
      end
  end.

(** [POST /room/join] and [POST /room/leave]: the checks and the
    delegation they share. *)
Definition room_update (op : dict string Room -> string -> string -> dict string Room * (bool * RoomMsg))
    (room_id username : option string) : PyM ApiWorld HttpErr (RoomMsg * string) :=
  match nonempty room_id, nonempty username with
  | Some r, Some u =>
      res <- zoom aw_rooms with_rooms (lift_st (fun rooms => op rooms r u)) ;;
      if res.1 then ret (res.2, r) else raise (400%Z, FromRoom res.2)
  | _, _ => raise (400%Z, MissingRoomOrUser)
  end.

Definition room_join := room_update join_room.
Definition room_leave := room_update leave_room.

(** [GET /room/info]: the room id and, for each member in the order of
    the room's dict, its name, its points (0 when it has no account) and
    its ready flag. *)
Definition room_info (rid : string) : PyM ApiWorld HttpErr (string * list (string * Z * bool)) :=
  w <- get_st ;;
  match get_room_info (aw_rooms w) rid with
  | None => raise (404%Z, RoomMissing)
  | Some room =>
      ret (room_id room,
           map (fun '(uname, ready) =>
                  (uname, match Ledger.find_user (aw_db w) uname with
                          | Some u => Ledger.points u
                          | None => 0%Z
                          end, ready)) (users room))
  end.

(** A payload field as [payload.get] sees it: absent, [null], or a
    string. *)
Inductive Field :=
  | FMissing
  | FNull
  | FStr (s : string).

(** [payload.get(k, default)]: the default only for an absent key; an
    explicit [null] is [None]. *)
Definition payload_get_default (f : Field) (default : string) : option string :=
  match f with
  | FMissing => Some default
  | FNull => None
  | FStr s => Some s
  end.

(** [f"{mode_name}"] *)
Definition py_str_opt (o : option string) : string := default "None" o.

(** [GameManager.start_game(mode_name, room)]: [mode_name not in
    self.modes_config] is true for [None], whose keys are strings. *)
Definition gm_start_game {V} (modes : dict string V) (randbelow : nat -> nat) (now : Z)
    (mode : option string) (room : Room) : PyM ApiWorld HttpErr (GameState * string) :=
  match mode with
  | None => raise (400%Z, ModeNotFound (py_str_opt mode))
  | Some m =>
      if negb (mem modes m) then raise (400%Z, ModeNotFound m) else
      if decide (m = "poker_battle") then
        fun w => match zoom aw_games with_games (start_game randbelow now room) w with
                 | (w', Ok res) => (w', Ok res)
                 | (w', _) => (w', Raise (500%Z, ModeLoadFailed m))
                 end
      else raise (500%Z, ModeLoadFailed m)
  end.

(** [POST /game/start]: [mode = payload.get("mode", "poker_battle")]. *)
Definition game_start {V} (modes : dict string V) (randbelow : nat -> nat) (now : Z)
    (room_id : option string) (mode : Field) : PyM ApiWorld HttpErr (GameState * string) :=
  match nonempty room_id with
  | None => raise (400%Z, MissingRoomId)
  | Some r =>
      w <- get_st ;;
      match get_room_info (aw_rooms w) r with
      | None => raise (404%Z, RoomMissing)
      | Some room => gm_start_game modes randbelow now (payload_get_default mode "poker_battle") room
      end
  end.

(** The rows [database.fetch_all] returns for a query with
    [ORDER BY key DESC]: the selected rows, in an order in which the key
    does not increase.  SQLite leaves the order of rows with equal keys
    unspecified. *)
Definition order_by_desc {A} (key : A -> Z) (rows out : list A) : Prop :=
  out ≡ₚ rows /\ sorted_desc key out.

(** [GET /user/records]: the user's id, name and points, and the user's
    records as the database returns them for
    [ORDER BY game_time DESC]; [fetch] is the order the database
    picks. *)
Definition get_user_records (fetch : list Ledger.GameRecord -> list Ledger.GameRecord) (username : string)
    : PyM ApiWorld HttpErr (Z * string * Z * list Ledger.GameRecord) :=
  w <- get_st ;;
  match Ledger.find_user (aw_db w) username with
  | None => raise (404%Z, UserMissing)
  | Some u =>
      ret (Ledger.user_id u, Ledger.username u, Ledger.points u,
           fetch (filter (fun r => Ledger.record_user_id r = Ledger.user_id u) (Ledger.records_table (aw_db w))))
  end.

(** ** Theorems *)

(** C34. [POST /game/start] on every branch: a missing or empty room id
    is a 400, an unknown room a 404; then the mode is the payload's
    [mode], ["poker_battle"] only when the key is absent: an explicit
    [null] is [None], which no configuration has, so a 400 naming
    ["None"]; a mode without configuration is a 400, a configured mode
    other than [poker_battle] a 500 (its module cannot be imported), each
    changing nothing; for [poker_battle] the room's round is initialized
    and returned with the mode's name, satisfying the round invariant
    with the room's members as players. *)
Theorem game_start_outcomes {V} (modes : dict string V) randbelow now rid mode w :
  match nonempty rid with
  | None => game_start modes randbelow now rid mode w = (w, Raise (400%Z, MissingRoomId))
  | Some r =>
      match get (aw_rooms w) r with
      | None => game_start modes randbelow now rid mode w = (w, Raise (404%Z, RoomMissing))
      | Some room =>
          match payload_get_default mode "poker_battle" with
          | None => game_start modes randbelow now rid mode w = (w, Raise (400%Z, ModeNotFound "None"))
          | Some m =>
              (mem modes m = false ->
                 game_start modes randbelow now rid mode w = (w, Raise (400%Z, ModeNotFound m))) /\
              (mem modes m = true -> m <> "poker_battle" ->
                 game_start modes randbelow now rid mode w = (w, Raise (500%Z, ModeLoadFailed m))) /\
              (mem modes m = true -> m = "poker_battle" -> dict_wf (users room) ->
                 exists st, game_start modes randbelow now rid mode w =
                              (with_games (setitem (aw_games w) (room_id room) st) w, Ok (st, "poker_battle")) /\
                            engine_inv st /\ keys (table st) = keys (users room))
          end
      end
  end.
Proof.
  unfold game_start. destruct (nonempty rid) as [r|]; [|done].
  rewrite bind_get_st. unfold get_room_info. destruct (get (aw_rooms w) r) as [room|]; [|done].
  unfold gm_start_game. destruct (payload_get_default mode "poker_battle") as [m|]; [|done].
  split; [|split].
  - intros Hm. by rewrite Hm.
  - intros Hm Hne. rewrite Hm. cbn [negb]. by destruct (decide (m = "poker_battle")).
  - intros Hm -> Hwf. rewrite Hm. cbn [negb]. rewrite decide_True by done.
    destruct (initialize_game_run randbelow now room (aw_games w) Hwf) as (st & Hi & Hinv & Hk).
    exists st. split; [|done]. unfold zoom, start_game, bind. by rewrite Hi.
Qed.

Lemma game_start_outcomes_witness :
  let w := mkApi [("R1", mkRoom "R1" [("alice", true); ("bob", true)])] [] (Ledger.mkDB [] [] []) in
  let modes := [("poker_battle", mkConfig [] [] 10 (-10) 10 0 (-10))] in
  game_start modes (fun _ => 0) 0 (Some "R1") FNull w = (w, Raise (400%Z, ModeNotFound "None")) /\
  exists st, game_start modes (fun _ => 0) 0 (Some "R1") FMissing w =
               (with_games (setitem (aw_games w) "R1" st) w, Ok (st, "poker_battle")) /\
             engine_inv st /\ keys (table st) = ["alice"; "bob"].
Proof.
  intros w modes. split; [exact (game_start_outcomes modes (fun _ => 0) 0 (Some "R1") FNull w)|].
  exact (proj2 (proj2 (game_start_outcomes modes (fun _ => 0) 0 (Some "R1") FMissing w)) eq_refl eq_refl
           ltac:(decide_by_eval)).
Defined.

(** [GET /room/info] on a known room lists its members once each,
    in the order they joined, each with its ready flag and with the
    points of its account, or 0 when it has none; an unknown room is a
    404.  Nothing changes. *)
Theorem room_info_spec rid w :
  match get (aw_rooms w) rid with
  | None => room_info rid w = (w, Raise (404%Z, RoomMissing))
  | Some room =>
      dict_wf (users room) ->
      exists l, room_info rid w = (w, Ok (room_id room, l)) /\
        map (fun x => x.1.1) l = keys (users room) /\
        forall u p b, (u, p, b) ∈ l ->
          get (users room) u = Some b /\
          p = match Ledger.find_user (aw_db w) u with Some a => Ledger.points a | None => 0%Z end
  end.
Proof.
  unfold room_info. rewrite bind_get_st. unfold get_room_info.
  destruct (get (aw_rooms w) rid) as [room|]; [|done]. intros Hwf.
  eexists. split; [reflexivity|]. split.
  - unfold keys. rewrite map_map. apply map_ext. by intros [? ?].
  - intros u p b ([u' b'] & Heq & Hin)%list_elem_of_fmap. simpl in Heq. injection Heq as -> -> ->.
    split; [by apply elem_of_get|done].
Qed.

Lemma room_info_spec_witness :
  let w := mkApi [("R1", mkRoom "R1" [("alice", true); ("bob", false)])] []
                 (Ledger.mkDB [Ledger.mkUser 1 "alice" "pw" 30] [] []) in
  room_info "R1" w = (w, Ok ("R1", [("alice", 30%Z, true); ("bob", 0%Z, false)])) /\
  exists l, room_info "R1" w = (w, Ok ("R1", l)) /\
    map (fun x => x.1.1) l = ["alice"; "bob"] /\
    forall u p b, (u, p, b) ∈ l ->
      get [("alice", true); ("bob", false)] u = Some b /\
      p = match Ledger.find_user (aw_db w) u with Some a => Ledger.points a | None => 0%Z end.
Proof.
  intros w. split; [reflexivity|].
  exact (room_info_spec "R1" w ltac:(decide_by_eval)).
Defined.

(** [GET /user/records] of a user returns the user's id, name and
    points and exactly the user's records (a permutation of them),
    latest [game_time] first, whatever order the database gives records
    of the same time; an unknown user is a 404.  The stable sort by
    decreasing time is one order the database may pick. *)
Lemma user_records_spec fetch name w :
  (forall rows, order_by_desc Ledger.record_game_time rows (fetch rows)) ->
  match Ledger.find_user (aw_db w) name with
  | None => get_user_records fetch name w = (w, Raise (404%Z, UserMissing))
  | Some u =>
      exists recs,
        get_user_records fetch name w = (w, Ok (Ledger.user_id u, Ledger.username u, Ledger.points u, recs)) /\
        recs ≡ₚ filter (fun r => Ledger.record_user_id r = Ledger.user_id u) (Ledger.records_table (aw_db w)) /\
        sorted_desc Ledger.record_game_time recs
  end.
Proof.
  intros Hf. unfold get_user_records. rewrite bind_get_st.
  destruct (Ledger.find_user (aw_db w) name) as [u|]; [|done].
  eexists. split; [reflexivity|]. apply Hf.
Qed.

Lemma sort_desc_order_by {A} (key : A -> Z) rows : order_by_desc key rows (sort_desc key rows).
Proof. split; [apply sort_desc_perm|apply sort_desc_sorted]. Qed.

Lemma finish_game_ok_inv CONFIG config room gs db gs' db' res :
  finish_game CONFIG config room (gs, db) = ((gs', db'), Ok res) ->
  exists st, get gs (room_id room) = Some st /\
    Ledger.record_round db (room_id room) (game_time st) (keys (table st)) res.1 = Some db' /\
    res.2 = table st.
Proof. unfold finish_game. intros H. repeat case_match; simplify_eq/=; eauto. Qed.

Lemma record_round_find_user db rid t players results db' p u :
  NoDup (map Ledger.user_id (Ledger.users_table db)) -> NoDup players -> p ∈ players ->
  Ledger.find_user db p = Some u -> Ledger.record_round db rid t players results = Some db' ->
  Ledger.find_user db' p = Some (Ledger.add_points (get_default results p 0%Z) u).
Proof.
  intros Hi Hnd Hp Hu. unfold Ledger.record_round. case_decide; [done|]. intros [= <-].
  rewrite Ledger.record_player_fold by done.
  unfold Ledger.find_user at 1. cbn [Ledger.users_table]. fold (Ledger.find_user db p). rewrite Hu.
  simpl. case_decide; [done|contradiction].
Qed.

(** C35. Scores are visible where the client reads them: after a
    successful [finish_game], [GET /user/records] of any player of the
    round who has an account returns the account's id and name, its
    points increased by the player's score change, and its records:
    those it had, plus exactly one new record, of this room, with the
    player's score change and its label, latest [game_time] first in
    whatever order the database returns records of equal time. *)
Theorem finish_then_records CONFIG config room gs db gs' db' res fetch rooms p u :
  Ledger.ledger_ok db -> dict_wf res.2 ->
  (forall rows, order_by_desc Ledger.record_game_time rows (fetch rows)) ->
  finish_game CONFIG config room (gs, db) = ((gs', db'), Ok res) ->
  p ∈ keys res.2 -> Ledger.find_user db p = Some u ->
  exists recs row,
    get_user_records fetch p (mkApi rooms gs' db') =
      (mkApi rooms gs' db', Ok (Ledger.user_id u, p, (Ledger.points u + get_default res.1 p 0)%Z, recs)) /\
    recs ≡ₚ Ledger.records_of db (Ledger.user_id u) ++ [row] /\
    sorted_desc Ledger.record_game_time recs /\
    Ledger.record_room_id row = room_id room /\
    Ledger.record_score_change row = get_default res.1 p 0%Z /\
    Ledger.record_result row = Ledger.result_label (get_default res.1 p 0%Z).
Proof.
  intros Hok Hwf Hf Hfin Hp Hu.
  destruct (finish_game_ok_inv _ _ _ _ _ _ _ _ Hfin) as (st & _ & Hr & Ht).
  rewrite Ht in Hwf, Hp.
  pose proof (record_round_find_user _ _ _ _ _ _ _ _ (proj1 (proj2 Hok)) Hwf Hp Hu Hr) as Hu'.
  destruct (Ledger.record_round_records _ _ _ _ _ _ _ _ Hok Hwf Hp Hu Hr) as (row & Erec & (_ & _ & _ & Hroom & Hsc & Hres)).
  destruct (Hf (Ledger.records_of db' (Ledger.user_id u))) as [Hperm Hsort].
  exists (fetch (Ledger.records_of db' (Ledger.user_id u))), row.
  split; [|split; [by rewrite Hperm, Erec|done]].
  unfold get_user_records. rewrite bind_get_st. cbn [aw_db]. rewrite Hu'.
  apply Ledger.find_user_elem_of in Hu as [_ Hname]. unfold Ledger.add_points. simpl. by rewrite Hname.
Qed.

(** A two-player round in [R1] that bob wins with the 3 of clubs. *)
Definition ex_room : Room := mkRoom "R1" [("alice", true); ("bob", true)].
Definition ex_cfg : Config := mkConfig [("2", 2%Z); ("3", 3%Z)] [] 10 (-10) 10 0 (-10).
Definition ex_state : GameState :=
  mkState [] [] [("alice", Some (mkCard "clubs" "2")); ("bob", Some (mkCard "clubs" "3"))] [] 5 false.
Definition ex_db : Ledger.DB :=
  Ledger.mkDB [Ledger.mkUser 1 "alice" "pw" 0; Ledger.mkUser 2 "bob" "pw" 0] [] [].
Definition ex_finish := finish_game ex_cfg ex_cfg ex_room ([("R1", ex_state)], ex_db).
Definition ex_res : dict string Z * dict string (option Card) :=
  match ex_finish.2 with Ok r => r | _ => ([], []) end.

Lemma finish_then_records_witness :
  (Ledger.ledger_ok ex_db /\ dict_wf ex_res.2 /\
   (forall rows, order_by_desc Ledger.record_game_time rows (sort_desc Ledger.record_game_time rows)) /\
   finish_game ex_cfg ex_cfg ex_room ([("R1", ex_state)], ex_db) = ((ex_finish.1.1, ex_finish.1.2), Ok ex_res) /\
   "bob" ∈ keys ex_res.2 /\ Ledger.find_user ex_db "bob" = Some (Ledger.mkUser 2 "bob" "pw" 0)) /\
  exists recs row,
    get_user_records (sort_desc Ledger.record_game_time) "bob" (mkApi [] ex_finish.1.1 ex_finish.1.2) =
      (mkApi [] ex_finish.1.1 ex_finish.1.2,
       Ok (Ledger.user_id (Ledger.mkUser 2 "bob" "pw" 0), "bob",
           (Ledger.points (Ledger.mkUser 2 "bob" "pw" 0) + get_default ex_res.1 "bob" 0)%Z, recs)) /\
    recs ≡ₚ Ledger.records_of ex_db (Ledger.user_id (Ledger.mkUser 2 "bob" "pw" 0)) ++ [row] /\
    sorted_desc Ledger.record_game_time recs /\
    Ledger.record_room_id row = room_id ex_room /\
    Ledger.record_score_change row = get_default ex_res.1 "bob" 0%Z /\
    Ledger.record_result row = Ledger.result_label (get_default ex_res.1 "bob" 0%Z).
Proof.
  assert (Hok : Ledger.ledger_ok ex_db) by (cbn; repeat split; repeat constructor; cbn; set_solver).
  assert (Hwf : dict_wf ex_res.2) by decide_by_eval.
  assert (Hf : forall rows, order_by_desc Ledger.record_game_time rows (sort_desc Ledger.record_game_time rows))
    by (intros rows; apply sort_desc_order_by).
  assert (Hfin : finish_game ex_cfg ex_cfg ex_room ([("R1", ex_state)], ex_db) =
                 ((ex_finish.1.1, ex_finish.1.2), Ok ex_res)) by (vm_compute; reflexivity).
  assert (Hp : "bob" ∈ keys ex_res.2) by decide_by_eval.
  assert (Hu : Ledger.find_user ex_db "bob" = Some (Ledger.mkUser 2 "bob" "pw" 0)) by reflexivity.
  split; [exact (conj Hok (conj Hwf (conj Hf (conj Hfin (conj Hp Hu)))))|].
  exact (finish_then_records ex_cfg ex_cfg ex_room [("R1", ex_state)] ex_db ex_finish.1.1 ex_finish.1.2 ex_res
           (sort_desc Ledger.record_game_time) [] "bob" (Ledger.mkUser 2 "bob" "pw" 0) Hok Hwf Hf Hfin Hp Hu).
Defined.

(** The endpoints check their fields before anything else: a
    missing or empty username or password makes [/register] and [/login]
    a 400, a missing or empty room id or username makes [/room/join] and
    [/room/leave] a 400, all without any change; and [/room/create] never
    answers "创建房间失败", since [create_room] always reports success. *)
Theorem http_field_checks w :
  (forall u p, nonempty u = None \/ nonempty p = None ->
     register u p w = (w, Raise (400%Z, MissingCredentials)) /\
     login u p w = (w, Raise (400%Z, MissingCredentials))) /\
  (forall r u, nonempty r = None \/ nonempty u = None ->
     room_join r u w = (w, Raise (400%Z, MissingRoomOrUser)) /\
     room_leave r u w = (w, Raise (400%Z, MissingRoomOrUser))) /\
  (forall draws fuel u w' o, room_create draws fuel u w = Some (w', o) -> o <> Raise (400%Z, CreateFailed)).
Proof.
  split; [|split].
  - intros u p Hn. unfold register, login.
    destruct Hn as [Hn | Hn]; rewrite Hn; [done|]. by destruct (nonempty u).
  - intros r u Hn. unfold room_join, room_leave, room_update.
    destruct Hn as [Hn | Hn]; rewrite Hn; [done|]. by destruct (nonempty r).
  - intros draws fuel u w' o. unfold room_create. destruct (nonempty u) as [u'|]; [|by intros [= _ <-]].
    unfold create_room. destruct (fresh_room_id (aw_rooms w) draws fuel 0); [|done].
    by intros [= _ <-].
Qed.

End Api.
