(* ===== verification/App.v ===== *)
(** * The server process: its lifecycle and the requests it serves

    Importing [main.py] builds the module-level state of the process:
    [rooms = {}] (room_manager.py, line 6), [game_states = {}] and
    [ws_connections = {}] (poker_battle.py, lines 28-30),
    [room_connections = {}] (room_ws.py, line 9), [game_manager] and
    [CONFIG] ([ModeConfig.startup]).  The [startup] hook connects to the
    database and runs [metadata.create_all(engine)], which creates the
    tables that do not exist yet and keeps the others with their rows
    (main.py, lines 24-27); the [shutdown] hook disconnects (lines
    29-31).  The database is the file [test.db] ([database.py]): it
    outlives the process, while the module-level dicts die with it.

    [Server] is the file and, while a process runs, its state [Proc].
    [app_step] is the life of the server: a process starts (the imports
    succeed), its startup hook runs, it serves requests (the endpoints of
    [Api], the lobby's [set_ready], and the game messages that call the
    engine), websockets connect and disconnect, and the process ends
    (its shutdown hook, or a kill: either way the dicts are gone).

    A process is launched only with a configuration of the type
    [config_ty], for which [decode_config] gives exactly what the code's
    reads of [CONFIG] give (claim C9); what an ill-typed configuration
    does is claim C16.

    The theorems: across requests and restarts a consistent file stays
    consistent ([Ledger.ledger_ok]) and only grows: a session row, hence
    a scored room, and an account are never lost; but
    a restarted process has forgotten every room, so [create_room] can
    hand out again the id of a room scored in an earlier run, and every
    round finished in the new room then raises [IntegrityError]. *)

From S2P Require Import Prelude PyDict RoomRegistry Cards Ledger PokerBattle ModeConfig Hub Api GameWS.
Import Registry PokerBattle ModeConfig Api.

Module App.

(** ** The process and the file *)

(** [rooms = {}] *)
Definition rooms_init : dict string Room := [].
(** [game_states = {}] *)
Definition game_states_init : GameStates := [].
(** [ws_connections = {}] *)
Definition ws_connections_init : Hub := [].
(** [room_connections = {}] *)
Definition room_connections_init : Hub := [].

(** The module-level state of a running process, and whether its
    [startup] hook has connected it to the database. *)
Record Proc := mkProc {
  p_rooms : dict string Room;
  p_games : GameStates;
  p_room_connections : Hub;
  p_ws_connections : Hub;
  p_gm : GameManager;
  p_config : Config;
  p_connected : bool
}.

(** The state of the modules right after their import, with
    [CONFIG = load_config()] of [poker_battle.py] read as the engine's
    [Config] record; [app_launch] requires the configuration to have the
    type [config_ty], under which this reading is exact. *)
Definition proc_init (gm : GameManager) (CONFIG : Json) : Proc :=
  mkProc rooms_init game_states_init room_connections_init ws_connections_init gm
    (decode_config CONFIG) false.

(** The database file ([None] before any table exists) and the process. *)
Record Server := mkServer {
  sv_file : option Ledger.DB;
  sv_proc : option Proc
}.

(** [metadata.create_all(engine)]: the tables that are missing are
    created empty, the existing ones are kept. *)
Definition empty_db : Ledger.DB := Ledger.mkDB [] [] [].
Definition create_all (file : option Ledger.DB) : Ledger.DB := default empty_db file.

Definition with_world (w : ApiWorld) (p : Proc) : Proc :=
  mkProc (aw_rooms w) (aw_games w) (p_room_connections p) (p_ws_connections p) (p_gm p) (p_config p) (p_connected p).

(** ** Requests *)

Inductive Request :=
  | RqRegister (username password : option string)       (* POST /register *)
  | RqLogin (username password : option string)          (* POST /login *)
  | RqCreate (draws : nat -> nat -> nat) (fuel : nat) (username : option string)
                                                          (* POST /room/create *)
  | RqJoin (room_id username : option string)            (* POST /room/join *)
  | RqLeave (room_id username : option string)           (* POST /room/leave *)
  | RqStart (randbelow : nat -> nat) (now : Z) (room_id : option string) (mode : Field)
                                                          (* POST /game/start *)
  | RqReady (room_id username : string)                  (* lobby: "ready" *)
  | RqDraw (room_id username : string)                   (* game: "draw_card" *)
  | RqPlay (room_id username : string) (card : Card)     (* game: "play_card" *)
  | RqRestart (randbelow : nat -> nat) (now : Z) (room_id : string)
                                                          (* game: "restart_game" *)
  | RqFinish (room_id : string).                         (* game: "finish_game" *)

Section Requests.

(** The state after a request, [None] when it does not return (the
    room-id loop of [create_room] out of fuel).  A game message for a
    room the registry does not know raises [TypeError] in
    [get_room_info] before any change. *)
Definition run_request (CONFIG : Config) (gm : GameManager) (r : Request) (w : ApiWorld) : option ApiWorld :=
  match r with
  | RqRegister u pw => Some (exec (register u pw) w)
  | RqLogin u pw => Some (exec (login u pw) w)
  | RqCreate draws fuel u => fst <$> room_create draws fuel u w
  | RqJoin rid u => Some (exec (room_join rid u) w)
  | RqLeave rid u => Some (exec (room_leave rid u) w)
  | RqStart randbelow now rid mode => Some (exec (game_start (modes_config gm) randbelow now rid mode) w)
  | RqReady rid u => Some (with_rooms (set_ready (aw_rooms w) rid u).1 w)
  | RqDraw rid u => Some (with_games (exec (draw_card rid u) (aw_games w)) w)
  | RqPlay rid u c => Some (with_games (exec (play_card rid u c) (aw_games w)) w)
  | RqRestart randbelow now rid =>
      match get_room_info (aw_rooms w) rid with
      | None => Some w
      | Some room => Some (with_games (exec (initialize_game randbelow now room) (aw_games w)) w)
      end
  | RqFinish rid =>
      match get_room_info (aw_rooms w) rid with
      | None => Some w
      | Some room =>
          let '(gs', db') := exec (finish_game CONFIG CONFIG room) (aw_games w, aw_db w) in
          Some (mkApi (aw_rooms w) gs' db')
      end
  end.

(** The life of the server, with the configuration directory and the
    game mode's file read at each import. *)
Variable dir : ConfigDir.
Variable poker_battle_json : JFile.

Inductive app_step : Server -> Server -> Prop :=
  | app_launch file gm CONFIGv :
      startup dir poker_battle_json = Ok (gm, CONFIGv) ->
      typecheck CONFIGv config_ty = true ->
      app_step (mkServer file None) (mkServer file (Some (proc_init gm CONFIGv)))
  | app_startup file p :
      p_connected p = false ->
      app_step (mkServer file (Some p))
               (mkServer (Some (create_all file))
                  (Some (mkProc (p_rooms p) (p_games p) (p_room_connections p) (p_ws_connections p)
                           (p_gm p) (p_config p) true)))
  | app_request db p r w' :
      p_connected p = true ->
      run_request (p_config p) (p_gm p) r (mkApi (p_rooms p) (p_games p) db) = Some w' ->
      app_step (mkServer (Some db) (Some p)) (mkServer (Some (aw_db w')) (Some (with_world w' p)))
  | app_lobby_connect file p rid ws :
      app_step (mkServer file (Some p))
               (mkServer file (Some (mkProc (p_rooms p) (p_games p) (attach (p_room_connections p) rid ws)
                                       (p_ws_connections p) (p_gm p) (p_config p) (p_connected p))))
  | app_game_connect file p rid ws :
      app_step (mkServer file (Some p))
               (mkServer file (Some (mkProc (p_rooms p) (p_games p) (p_room_connections p)
                                       (attach (p_ws_connections p) rid ws) (p_gm p) (p_config p) (p_connected p))))
  | app_lobby_disconnect file p rid ws hub' :
      detach (E := Empty_set) rid ws (p_room_connections p) = (hub', Ok tt) ->
      app_step (mkServer file (Some p))
               (mkServer file (Some (mkProc (p_rooms p) (p_games p) hub' (p_ws_connections p)
                                       (p_gm p) (p_config p) (p_connected p))))
  | app_game_disconnect file p rid ws hub' :
      detach (E := Empty_set) rid ws (p_ws_connections p) = (hub', Ok tt) ->
      app_step (mkServer file (Some p))
               (mkServer file (Some (mkProc (p_rooms p) (p_games p) (p_room_connections p) hub'
                                       (p_gm p) (p_config p) (p_connected p))))
  | app_exit file p :
      app_step (mkServer file (Some p)) (mkServer file None).

End Requests.

(** The file extends another: its session rows and its accounts are
    still there, in order. *)
Definition ledger_le (db db' : Ledger.DB) : Prop :=
  Ledger.sessions_table db `prefix_of` Ledger.sessions_table db' /\
  map Ledger.username (Ledger.users_table db) `prefix_of` map Ledger.username (Ledger.users_table db').

Definition file_le (f f' : option Ledger.DB) : Prop :=
  match f, f' with
  | None, _ => True
  | Some db, Some db' => ledger_le db db'
  | Some _, None => False
  end.

(** ** Lemmas *)

#[export] Instance ledger_le_preorder : PreOrder ledger_le.
Proof. split; [intros db; by split|intros ??? [??] [??]; split; by etrans]. Qed.

Lemma file_le_trans f1 f2 f3 : file_le f1 f2 -> file_le f2 f3 -> file_le f1 f3.
Proof. destruct f1, f2, f3; simpl; try done. apply transitivity. Qed.

Lemma record_player_le room_id t session players results db p :
  ledger_le db (Ledger.record_player room_id t session players results db p).
Proof.
  unfold Ledger.record_player. destruct (Ledger.find_user db p); [|done].
  split; simpl; [done|]. by rewrite Ledger.set_points_usernames.
Qed.

Lemma fold_left_le {A} (g : Ledger.DB -> A -> Ledger.DB) l db db1 :
  (forall d a, ledger_le d (g d a)) -> ledger_le db db1 -> ledger_le db (fold_left g l db1).
Proof.
  intros Hg. revert db1. induction l as [|a l IH]; intros db1 H1; simpl; [done|].
  apply IH. by etrans; [|apply Hg].
Qed.

Lemma record_round_le db rid t players results db' :
  Ledger.record_round db rid t players results = Some db' -> ledger_le db db'.
Proof.
  unfold Ledger.record_round. case_decide; [done|]. intros [= <-].
  eapply fold_left_le; [intros; apply record_player_le|].
  split; [by apply prefix_app_r|done].
Qed.

Lemma register_user_le db u pw : ledger_le db (Ledger.register_user db u pw).1.
Proof.
  unfold Ledger.register_user. destruct (Ledger.find_user db u); simpl; [done|].
  split; simpl; [done|]. rewrite map_app. by apply prefix_app_r.
Qed.

(** The writes a request can make to the file: none, the insert of
    [register_user], or the writes of [finish_game]'s database block. *)
Definition db_write (db db' : Ledger.DB) : Prop :=
  db' = db \/
  (exists u pw, db' = (Ledger.register_user db u pw).1) \/
  (exists rid t ps results, Ledger.record_round db rid t ps results = Some db').

Lemma preserves_write {E A} (m : PyM ApiWorld E A) w :
  preserves aw_db m -> db_write (aw_db w) (aw_db (exec m w)).
Proof. intros Hm. left. unfold exec. destruct (m w) eqn:E1. simpl. by rewrite (Hm _ _ _ E1). Qed.

Lemma register_write u pw w : db_write (aw_db w) (aw_db (exec (register u pw) w)).
Proof.
  unfold register, exec. destruct (nonempty u) as [u'|], (nonempty pw) as [p'|]; try by left.
  unfold bind, zoom, lift_st. right; left. exists u', p'. by destruct (Ledger.register_user _ _ _) as [? [[] ?]].
Qed.

Lemma game_start_db {V} (modes : dict string V) randbelow now rid mode w :
  aw_db (exec (game_start modes randbelow now rid mode) w) = aw_db w.
Proof.
  unfold game_start, gm_start_game, exec. destruct (nonempty rid); [|done].
  rewrite bind_get_st. destruct (get_room_info (aw_rooms w) _); [|done].
  repeat case_match; simplify_eq/=; try done;
    unfold zoom in *; destruct (start_game _ _ _ _); simplify_eq/=; done.
Qed.

Lemma finish_request_write CONFIG room w :
  let '(gs', db') := exec (finish_game CONFIG CONFIG room) (aw_games w, aw_db w) in db_write (aw_db w) db'.
Proof.
  unfold finish_game, exec. repeat case_match; simplify_eq/=; try by left.
  right; right. eauto.
Qed.

Lemma run_request_write CONFIG gm r w w' :
  run_request CONFIG gm r w = Some w' -> db_write (aw_db w) (aw_db w').
Proof.
  destruct r; simpl; intros Hr.
  - injection Hr as <-. apply register_write.
  - injection Hr as <-. apply preserves_write. unfold login. solve_preserves.
  - unfold room_create in Hr. left. repeat case_match; simplify_eq/=; done.
  - injection Hr as <-. apply preserves_write. unfold room_join, room_update. solve_preserves.
  - injection Hr as <-. apply preserves_write. unfold room_leave, room_update. solve_preserves.
  - injection Hr as <-. left. by rewrite game_start_db.
  - left. by injection Hr as <-.
  - left. by injection Hr as <-.
  - left. by injection Hr as <-.
  - left. case_match; by injection Hr as <-.
  - destruct (get_room_info (aw_rooms w) room_id0) as [room|]; [|left; by injection Hr as <-].
    pose proof (finish_request_write CONFIG room w) as Hle.
    destruct (exec (finish_game CONFIG CONFIG room) (aw_games w, aw_db w)) as [gs' db'].
    by injection Hr as <-.
Qed.

Lemma db_write_le db db' : db_write db db' -> ledger_le db db'.
Proof.
  intros [->|[(u & pw & ->)|(rid & t & ps & res & Hr)]];
    [reflexivity|apply register_user_le|by eapply record_round_le].
Qed.

Lemma db_write_ok db db' : db_write db db' -> Ledger.ledger_ok db -> Ledger.ledger_ok db'.
Proof.
  intros [->|[(u & pw & ->)|(rid & t & ps & res & Hr)]] Hok;
    [done|by apply Ledger.register_user_ok|by eapply Ledger.record_round_ok].
Qed.

Lemma file_le_refl f : file_le f f.
Proof. destruct f; simpl; [reflexivity|done]. Qed.

Definition file_ok (file : option Ledger.DB) : Prop :=
  match file with None => True | Some db => Ledger.ledger_ok db end.

Lemma empty_db_ok : Ledger.ledger_ok empty_db.
Proof. repeat split; constructor. Qed.

Lemma app_step_le dir f sv sv' :
  app_step dir f sv sv' -> file_le (sv_file sv) (sv_file sv').
Proof.
  destruct 1; simpl; try apply file_le_refl.
  - destruct file; simpl; [reflexivity|done].
  - apply db_write_le, (run_request_write _ _ _ _ _ H0).
Qed.

Lemma app_step_ok dir f sv sv' :
  app_step dir f sv sv' -> file_ok (sv_file sv) -> file_ok (sv_file sv').
Proof.
  destruct 1; simpl; try done.
  - destruct file; simpl; intros Hf; first [exact Hf|apply empty_db_ok].
  - apply db_write_ok, (run_request_write _ _ _ _ _ H0).
Qed.

Lemma rtc_app_step_le dir f sv sv' :
  rtc (app_step dir f) sv sv' -> file_le (sv_file sv) (sv_file sv').
Proof.
  induction 1 as [|x y z Hxy _ IH]; [apply file_le_refl|].
  eapply file_le_trans; [apply (app_step_le _ _ _ _ Hxy)|exact IH].
Qed.

Lemma rtc_app_step_ok dir f sv sv' :
  rtc (app_step dir f) sv sv' -> file_ok (sv_file sv) -> file_ok (sv_file sv').
Proof. induction 1 as [|x y z Hxy _ IH]; [done|]. intros H. by apply IH, (app_step_ok _ _ _ _ Hxy). Qed.

(** A launch followed by the [startup] hook. *)
Lemma app_boot dir f file gm v :
  startup dir f = Ok (gm, v) -> typecheck v config_ty = true ->
  rtc (app_step dir f) (mkServer file None)
      (mkServer (Some (create_all file)) (Some (mkProc [] [] [] [] gm (decode_config v) true))).
Proof.
  intros Hs Ht. eapply rtc_l; [by apply app_launch with (CONFIGv := v)|].
  apply rtc_once. by apply (app_startup dir f file (proc_init gm v)).
Qed.

Lemma session_prefix_mem db db' rid :
  ledger_le db db' ->
  rid ∈ map Ledger.session_room_id (Ledger.sessions_table db) ->
  rid ∈ map Ledger.session_room_id (Ledger.sessions_table db').
Proof. intros [[k Hk] _]. rewrite Hk, map_app, elem_of_app. by left. Qed.

(** The first room a fresh process creates gets the first id drawn. *)
Lemma create_room_empty draws fuel u :
  0 < fuel ->
  create_room [] draws fuel u =
    Some ((join_room (setitem [] (generate_random_room_id 8 (draws 0))
                         (mkRoom (generate_random_room_id 8 (draws 0)) [])) (generate_random_room_id 8 (draws 0)) u).1,
          (true, generate_random_room_id 8 (draws 0))).
Proof. intros Hf. destruct fuel; [lia|done]. Qed.

(** ** Theorems *)


(** C27. A restart forgets the rooms but not the scores: if the file
    holds a session of room [rid] (a round scored by an earlier process)
    and the new process's first [create_room] draws [rid], the room is
    created (the [while room_id in rooms] loop only looks at the empty
    [rooms] dict), and from then on, in every later state, finishing a
    round of a room with that id crashes with [IntegrityError] (the
    [room_id] of [game_sessions] is unique), leaving the state as it was. *)
Theorem restart_reuses_scored_room dir f gm v db draws fuel u rid :
  startup dir f = Ok (gm, v) -> typecheck v config_ty = true ->
  rid ∈ map Ledger.session_room_id (Ledger.sessions_table db) ->
  generate_random_room_id 8 (draws 0) = rid -> 0 < fuel -> u <> "" ->
  exists p, rtc (app_step dir f) (mkServer (Some db) None) (mkServer (Some db) (Some p)) /\
    get (p_rooms p) rid = Some (mkRoom rid [(u, false)]) /\
    forall sv', rtc (app_step dir f) (mkServer (Some db) (Some p)) sv' ->
    forall db' room gs st played results,
      sv_file sv' = Some db' -> room_id room = rid -> get gs rid = Some st -> finished st = false ->
      played_cards (table st) = Some played ->
      score_results (p_config p) (rank_played (p_config p) played) = Some results ->
      finish_game (p_config p) (p_config p) room (gs, db') = ((gs, db'), Crash IntegrityError).
Proof.
  intros Hs Ht Hin Hrid Hf Hu.
  set (p0 := mkProc [] [] [] [] gm (decode_config v) true).
  set (w := with_rooms (join_room (setitem [] rid (mkRoom rid [])) rid u).1 (mkApi [] [] db)).
  exists (with_world w p0). split; [|split].
  - eapply rtc_r; [apply (app_boot _ _ (Some db) _ _ Hs Ht)|].
    apply (app_request dir f db p0 (RqCreate draws fuel (Some u)) w); [done|].
    unfold run_request, room_create, nonempty. case_decide; [done|].
    cbn [aw_rooms p_rooms p0]. rewrite create_room_empty by done. by subst rid.
  - cbn. unfold join_room. repeat (cbn; case_decide; [|congruence]). done.
  - intros sv' Hr db' room gs st played results Hf' Hroom Hgs Hfin Hpl Hsc.
    pose proof (rtc_app_step_le _ _ _ _ Hr) as Hle. rewrite Hf' in Hle.
    unfold finish_game. rewrite Hroom, Hgs, Hfin, Hpl, Hsc.
    by rewrite GameWS.record_round_taken by (eapply session_prefix_mem; [exact Hle|exact Hin]).
Qed.

(** ** Examples *)

(** The manager and the file of a server whose earlier run scored room
    [AAAAAAAA] (the id drawn when every raw draw is 0), in which alice
    won 10 points; a later run registers bob. *)
Definition ex_gm : GameManager := mkGameManager [("poker_battle", ex_config)].
Definition ex_db : Ledger.DB :=
  Ledger.mkDB [Ledger.mkUser 1 "alice" "pw" 10] [Ledger.mkSession 1 "AAAAAAAA" 0 "alice,bob"]
    [Ledger.mkRecord 1 1 1 0 "AAAAAAAA" "bob" "win" 10].
Definition ex_world : ApiWorld :=
  exec (register (Some "bob") (Some "pw")) (mkApi [] [] (create_all (Some ex_db))).
Definition ex_server : Server :=
  mkServer (Some (aw_db ex_world))
    (Some (with_world ex_world (mkProc [] [] [] [] ex_gm (decode_config ex_config) true))).


Lemma restart_reuses_scored_room_witness :
  startup ex_dir (Parsed ex_config) = Ok (ex_gm, ex_config) /\
  typecheck ex_config config_ty = true /\
  "AAAAAAAA" ∈ map Ledger.session_room_id (Ledger.sessions_table ex_db) /\
  generate_random_room_id 8 ((fun _ _ => 0) 0) = "AAAAAAAA" /\ 0 < 1 /\ "carol" <> "" /\
  exists p, rtc (app_step ex_dir (Parsed ex_config)) (mkServer (Some ex_db) None) (mkServer (Some ex_db) (Some p)) /\
    get (p_rooms p) "AAAAAAAA" = Some (mkRoom "AAAAAAAA" [("carol", false)]) /\
    forall sv', rtc (app_step ex_dir (Parsed ex_config)) (mkServer (Some ex_db) (Some p)) sv' ->
    forall db' room gs st played results,
      sv_file sv' = Some db' -> room_id room = "AAAAAAAA" -> get gs "AAAAAAAA" = Some st -> finished st = false ->
      played_cards (table st) = Some played ->
      score_results (p_config p) (rank_played (p_config p) played) = Some results ->
      finish_game (p_config p) (p_config p) room (gs, db') = ((gs, db'), Crash IntegrityError).
Proof.
  assert (Hs : startup ex_dir (Parsed ex_config) = Ok (ex_gm, ex_config)) by (vm_compute; reflexivity).
  assert (Ht : typecheck ex_config config_ty = true) by reflexivity.
  assert (Hin : "AAAAAAAA" ∈ map Ledger.session_room_id (Ledger.sessions_table ex_db)) by (simpl; left).
  assert (Hg : generate_random_room_id 8 ((fun _ _ => 0) 0) = "AAAAAAAA") by reflexivity.
  assert (Hf : 0 < 1) by lia. assert (Hu : "carol" <> "") by discriminate.
  do 6 (split; [assumption|]).
  exact (restart_reuses_scored_room _ _ _ _ _ (fun _ _ => 0) 1 "carol" "AAAAAAAA" Hs Ht Hin Hg Hf Hu).
Defined.

End App.
