(* ===== verification/Interleave.v ===== *)
(** * Interleaving of [finish_game] calls at their [await]s

    [finish_game] is a coroutine: it runs without interruption from its
    first line to its first [await], and between two [await]s; at each
    [await] the event loop may run other handlers.  Its [await]s are the
    database calls of lines 139 (session insert), 143 (user lookup), 149
    (points update) and 168 (record insert).  [step_task] runs one such
    segment of a suspended call, given as its program point [FPC]; the
    database operation of an [await] happens in the step that reaches
    it.  [sched_step] runs one segment of any task of a list: every
    interleaving of the calls is a sequence of [sched_step]s.

    Only [finish_game] calls are scheduled here.  [draw_card],
    [play_card] and [initialize_game] have no [await] and run atomically
    between segments; on a room whose table is full the first two change
    nothing, and [initialize_game] is not interleaved in this model.  So
    the state object a call read at its check is the one [game_states]
    holds for the room until the call marks it finished, changed by
    nothing but other calls marking it finished too: [PcFinish] stores it
    back with [finished = True], as the in-place mutation of line 170
    does.

    The theorems: at most one call per room gets past the session
    insert in any interleaving; and two calls about to fetch the same
    player's row lose one score change when both fetch before either
    updates. *)

From S2P Require Import Prelude PyDict RoomRegistry Cards Ledger PokerBattle.
Import Registry PokerBattle.

Module Interleave.

(** What a suspended [finish_game] call has computed: the room id, the
    results, the players ([list(state["table"].keys())]), the game time
    and the state object it read. *)
Record FCtx := mkCtx {
  fc_rid : string;
  fc_results : dict string Z;
  fc_players : list string;
  fc_time : Z;
  fc_state : GameState
}.

(** The program point of a suspended call. *)
Inductive FPC :=
  | PcCheck                                  (* before line 108 *)
  | PcInsert (c : FCtx)                      (* at line 139 *)
  | PcFetch (c : FCtx) (session : Z) (todo : list string)
                                             (* at line 141: the players still to do *)
  | PcUpdate (c : FCtx) (session : Z) (p : string) (u : Ledger.UserRow) (todo : list string)
                                             (* at line 149, [user_data] read at 143 *)
  | PcRecord (c : FCtx) (session : Z) (p : string) (u : Ledger.UserRow) (todo : list string)
                                             (* at line 168 *)
  | PcFinish (c : FCtx)                      (* at line 170 *)
  | PcDone (o : outcome GameError (dict string Z * dict string (option Card))).

(** A call [finish_game(room, config)] with the module's [CONFIG]. *)
Record FTask := mkTask {
  t_CONFIG : Config;
  t_config : Config;
  t_room : Room;
  t_pc : FPC
}.

Definition with_pc (pc : FPC) (t : FTask) : FTask := mkTask (t_CONFIG t) (t_config t) (t_room t) pc.

Abbreviation FWorld := (GameStates * Ledger.DB)%type.

(** One segment of a call: its next program point and the state after
    it; [None] for a call that has returned or raised. *)
Definition step_task (t : FTask) (w : FWorld) : option (FPC * FWorld) :=
  let '(gs, db) := w in
  match t_pc t with
  | PcCheck =>
      let rid := room_id (t_room t) in
      Some (match get gs rid with
            | None => (PcDone (Raise NotInitialized), w)
            | Some st =>
                if finished st then (PcDone (Raise AlreadyFinished), w) else
                match played_cards (table st) with
                | None => (PcDone (Raise NotAllPlayed), w)
                | Some played =>
                    match score_results (t_CONFIG t) (rank_played (t_config t) played) with
                    | None => (PcDone (Raise UnsupportedPlayerCount), w)
                    | Some results =>
                        (PcInsert (mkCtx rid results (keys (table st)) (game_time st) st), w)
                    end
                end
            end)
  | PcInsert c =>
      Some (if decide (fc_rid c ∈ map Ledger.session_room_id (Ledger.sessions_table db))
            then (PcDone (Crash IntegrityError), w)
            else
              let session := Ledger.next_id (map Ledger.session_id (Ledger.sessions_table db)) in
              (PcFetch c session (fc_players c),
               (gs, Ledger.mkDB (Ledger.users_table db)
                      (Ledger.sessions_table db ++
                         [Ledger.mkSession session (fc_rid c) (fc_time c) (Ledger.join_comma (fc_players c))])
                      (Ledger.records_table db))))
  | PcFetch c session [] => Some (PcFinish c, w)
  | PcFetch c session (p :: ps) =>
      Some (match Ledger.find_user db p with
            | None => PcFetch c session ps
            | Some u => PcUpdate c session p u ps
            end, w)
  | PcUpdate c session p u ps =>
      let score_change := get_default (fc_results c) p 0%Z in
      Some (PcRecord c session p u ps,
            (gs, Ledger.mkDB (Ledger.set_points (Ledger.user_id u) (Ledger.points u + score_change)%Z
                                (Ledger.users_table db))
                   (Ledger.sessions_table db) (Ledger.records_table db)))
  | PcRecord c session p u ps =>
      let score_change := get_default (fc_results c) p 0%Z in
      let opponents := filter (fun q => q <> p) (fc_players c) in
      let row := Ledger.mkRecord (Ledger.next_id (map Ledger.record_id (Ledger.records_table db)))
                   (Ledger.user_id u) session (fc_time c) (fc_rid c) (Ledger.join_comma opponents)
                   (Ledger.result_label score_change) score_change in
      Some (PcFetch c session ps,
            (gs, Ledger.mkDB (Ledger.users_table db) (Ledger.sessions_table db)
                   (Ledger.records_table db ++ [row])))
  | PcFinish c =>
      let st' := with_finished true (fc_state c) in
      Some (PcDone (Ok (fc_results c, table st')), (setitem gs (fc_rid c) st', db))
  | PcDone _ => None
  end.

(** One segment of one of the calls. *)
Inductive sched_step : list FTask * FWorld -> list FTask * FWorld -> Prop :=
  | sched i ts t pc w w' :
      ts !! i = Some t -> step_task t w = Some (pc, w') ->
      sched_step (ts, w) (<[i := with_pc pc t]> ts, w').

(** A schedule given as the list of the tasks to run, one segment each. *)
Fixpoint run_schedule (sched : list nat) (x : list FTask * FWorld) : option (list FTask * FWorld) :=
  match sched with
  | [] => Some x
  | i :: sched' =>
      match x.1 !! i with
      | None => None
      | Some t =>
          match step_task t x.2 with
          | None => None
          | Some (pc, w') => run_schedule sched' (<[i := with_pc pc t]> x.1, w')
          end
      end
  end.

(** A call run with no other call interleaved, for at most [fuel]
    segments. *)
Fixpoint run_alone (fuel : nat) (t : FTask) (w : FWorld)
    : option (FWorld * outcome GameError (dict string Z * dict string (option Card))) :=
  match fuel with
  | 0 => None
  | S fuel' =>
      match t_pc t with
      | PcDone o => Some (w, o)
      | _ => match step_task t w with
             | None => None
             | Some (pc, w') => run_alone fuel' (with_pc pc t) w'
             end
      end
  end.

(** Enough segments for a call on a room of [n] players: the check, the
    insert, three per player, the end of the loop, the finish, and the
    return. *)
Definition finish_fuel (gs : GameStates) (room : Room) : nat :=
  match get gs (room_id room) with
  | Some st => 3 * length (table st) + 5
  | None => 2
  end.

(** The context a suspended call holds, once past its check. *)
Definition ctx_of (pc : FPC) : option FCtx :=
  match pc with
  | PcInsert c | PcFetch c _ _ | PcUpdate c _ _ _ _ | PcRecord c _ _ _ _ | PcFinish c => Some c
  | PcCheck | PcDone _ => None
  end.

(** A call is past the session insert of line 139: it is updating the
    players' points, or has returned its results. *)
Definition passed (pc : FPC) : bool :=
  match pc with
  | PcFetch _ _ _ | PcUpdate _ _ _ _ _ | PcRecord _ _ _ _ _ | PcFinish _ | PcDone (Ok _) => true
  | PcCheck | PcInsert _ | PcDone _ => false
  end.

Definition passed_on (rid : string) (t : FTask) : Prop :=
  room_id (t_room t) = rid /\ passed (t_pc t) = true.

#[export] Instance passed_on_dec rid t : Decision (passed_on rid t).
Proof. unfold passed_on. apply _. Defined.

(** The context of a call is the one of its own room. *)
Definition task_ok (t : FTask) : Prop :=
  forall c, ctx_of (t_pc t) = Some c -> fc_rid c = room_id (t_room t).

(** The room has a row in [game_sessions]. *)
Definition scored (rid : string) (w : FWorld) : Prop :=
  rid ∈ map Ledger.session_room_id (Ledger.sessions_table w.2).

#[export] Instance scored_dec rid w : Decision (scored rid w).
Proof. unfold scored. apply _. Defined.

(** The invariant of the interleaved calls from the world [w0]: on every
    room, the calls past the insert and a session row of [w0] together
    number at most one, and at most the session rows of the room now. *)
Definition once_inv (w0 : FWorld) (x : list FTask * FWorld) : Prop :=
  Forall task_ok x.1 /\
  forall rid, length (filter (passed_on rid) x.1) + (if decide (scored rid w0) then 1 else 0)
              <= (if decide (scored rid x.2) then 1 else 0).

(** ** Two rooms sharing a player

    [R1] seats alice and bob, [R2] carol and alice; each round has been
    dealt from the same shuffle and played, so the first to draw holds
    the 2 of clubs and the second the 3.  With the ranks ordered, bob
    wins [R1] and alice wins [R2]. *)
Definition ex_r1 : Room := mkRoom "R1" [("alice", true); ("bob", true)].
Definition ex_r2 : Room := mkRoom "R2" [("carol", true); ("alice", true)].
Definition ex_cfg : Config := mkConfig [("2", 2%Z); ("3", 3%Z)] [] 10 (-10) 10 0 (-10).
Definition ex_gs : GameStates :=
  let g := exec (initialize_game (fun _ => 0) 0 ex_r1) [] in
  let g := exec (initialize_game (fun _ => 0) 0 ex_r2) g in
  let g := exec (draw_card "R1" "alice") g in
  let g := exec (draw_card "R1" "bob") g in
  let g := exec (draw_card "R2" "carol") g in
  let g := exec (draw_card "R2" "alice") g in
  let g := exec (play_card "R1" "alice" (mkCard "clubs" "2")) g in
  let g := exec (play_card "R1" "bob" (mkCard "clubs" "3")) g in
  let g := exec (play_card "R2" "carol" (mkCard "clubs" "2")) g in
  exec (play_card "R2" "alice" (mkCard "clubs" "3")) g.
Definition ex_db : Ledger.DB :=
  Ledger.mkDB [Ledger.mkUser 1 "alice" "pw" 0; Ledger.mkUser 2 "bob" "pw" 0; Ledger.mkUser 3 "carol" "pw" 0] [] [].
Definition ex_task (room : Room) : FTask := mkTask ex_cfg ex_cfg room PcCheck.

(** The two calls, one after the other, and interleaved so that both
    read alice's row before either writes it. *)
Definition ex_sequential : list nat := repeat 0 10 ++ repeat 1 10.
Definition ex_interleaved : list nat := [0; 0; 0] ++ repeat 1 6 ++ [0; 1] ++ repeat 0 6 ++ repeat 1 3.

(** The points of a user in the database, and whether a call has
    returned its results. *)
Definition user_points (db : Ledger.DB) (name : string) : option Z := Ledger.points <$> Ledger.find_user db name.
Definition returned (t : FTask) : bool := match t_pc t with PcDone (Ok _) => true | _ => false end.

(** ** Lemmas *)

Lemma run_alone_S n t w :
  run_alone (S n) t w =
  match t_pc t with
  | PcDone o => Some (w, o)
  | _ => match step_task t w with
         | None => None
         | Some (pc, w') => run_alone n (with_pc pc t) w'
         end
  end.
Proof. reflexivity. Qed.

Lemma run_alone_done n o t w : run_alone (S n) (with_pc (PcDone o) t) w = Some (w, o).
Proof. reflexivity. Qed.

(** One segment of a call run alone, the call's program point known. *)
Ltac step_alone Hpc :=
  rewrite run_alone_S, Hpc; unfold step_task; rewrite Hpc; cbv beta iota zeta.
Ltac step_alone_next :=
  rewrite run_alone_S; cbn [t_pc with_pc]; unfold step_task; cbn [t_pc with_pc]; cbv beta iota zeta.

(** The [for player in players] loop run alone is [record_player] folded
    over the players, then the finish. *)
Lemma run_alone_loop c session ps t gs db n :
  t_pc t = PcFetch c session ps -> 3 * length ps + 3 <= n ->
  run_alone n t (gs, db) =
  Some ((setitem gs (fc_rid c) (with_finished true (fc_state c)),
         fold_left (Ledger.record_player (fc_rid c) (fc_time c) session (fc_players c) (fc_results c)) ps db),
        Ok (fc_results c, table (with_finished true (fc_state c)))).
Proof.
  revert t db n. induction ps as [|p ps IH]; intros t db n Hpc Hn.
  - destruct n as [|[|[|n]]]; [lia..|]. step_alone Hpc. step_alone_next.
    reflexivity.
  - simpl in Hn. destruct n as [|n]; [lia|]. step_alone Hpc.
    destruct (Ledger.find_user db p) as [u|] eqn:Hu.
    + destruct n as [|[|n]]; [lia..|]. step_alone_next. step_alone_next.
      rewrite (IH _ _ n); [|done|lia]. cbn [fold_left]. do 3 f_equal.
      unfold Ledger.record_player. by rewrite Hu.
    + rewrite (IH _ _ n); [|done|lia]. cbn [fold_left]. do 3 f_equal.
      unfold Ledger.record_player. by rewrite Hu.
Qed.

(** What one segment does to the invariant's ingredients: it keeps the
    call on its room, and either keeps whether it is past the insert and
    the rooms with a session row, or is the insert itself, made on a room
    with no row, which it gives one. *)
Lemma step_task_cases t w pc w' :
  step_task t w = Some (pc, w') -> task_ok t ->
  task_ok (with_pc pc t) /\
  ((passed pc = passed (t_pc t) /\ forall rid, scored rid w' <-> scored rid w) \/
   (passed (t_pc t) = false /\ passed pc = true /\ ~ scored (room_id (t_room t)) w /\
    forall rid, scored rid w' <-> rid = room_id (t_room t) \/ scored rid w)).
Proof.
  destruct w as [gs db], t as [CONFIG config room [|c|c s [|p ps]|c s p u ps|c s p u ps|c|o]];
    unfold step_task, task_ok, scored; cbn; intros Hs Hok; simplify_eq.
  - repeat case_match; simplify_eq/=; split; try left; naive_solver.
  - case_decide; simplify_eq/=; split; [done|left; done|by apply Hok|].
    right. rewrite <-(Hok c) by done. split_and!; [done..|].
    intros rid. rewrite map_app, elem_of_app. simpl. rewrite list_elem_of_singleton. naive_solver.
  - split; [apply Hok|left]; done.
  - case_match; simplify_eq/=; split; [apply Hok..|left| |left]; done.
  - split; [apply Hok|left]; done.
  - split; [apply Hok|left]; done.
  - split; [done|left]; done.
Qed.

Lemma once_inv_step w0 x y : once_inv w0 x -> sched_step x y -> once_inv w0 y.
Proof.
  intros Hinv Hst. revert Hinv. destruct Hst as [i ts t pc w w' Hi Hs]. intros [Hok Hcnt]. simpl in *.
  destruct (step_task_cases _ _ _ _ Hs (Forall_lookup_1 _ _ _ _ Hok Hi)) as [Ht' Hcase].
  split; [by apply Forall_insert|]. intros rid. cbn [fst snd].
  pose proof (length_filter_insert (passed_on rid) ts i (with_pc pc t) t Hi) as Hl.
  specialize (Hcnt rid).
  destruct Hcase as [[Hp Hsc]|(Hp0 & Hp1 & Hn & Hsc)].
  - rewrite (decide_count_iff (passed_on rid (with_pc pc t)) (passed_on rid t)) in Hl
      by (unfold passed_on; cbn; by rewrite Hp).
    rewrite (decide_count_iff (scored rid w') (scored rid w)) by apply Hsc. lia.
  - rewrite (decide_False (P := passed_on rid t)) in Hl by (unfold passed_on; rewrite Hp0; by intros []).
    destruct (decide (room_id (t_room t) = rid)) as [<-|Hne].
    + rewrite decide_True in Hl by (unfold passed_on; cbn; auto).
      rewrite (decide_False (P := scored _ w)) in Hcnt by done.
      rewrite (decide_True (P := scored _ w')) by (apply Hsc; by left). destruct (decide (scored _ w0)); lia.
    + rewrite decide_False in Hl by (unfold passed_on; cbn; by intros []).
      rewrite (decide_count_iff (scored rid w') (scored rid w)) by (rewrite Hsc; naive_solver). lia.
Qed.

Lemma once_inv_init w0 ts : Forall (fun t => t_pc t = PcCheck) ts -> once_inv w0 (ts, w0).
Proof.
  intros Hts. split; simpl.
  - eapply Forall_impl; [done|]. intros t Ht c. by rewrite Ht.
  - intros rid. rewrite filter_none; [simpl; lia|].
    intros t Ht [_ Hp]. rewrite (Forall_forall _ _) in Hts. by rewrite Hts in Hp.
Qed.

Lemma once_inv_reachable w0 x y : once_inv w0 x -> rtc sched_step x y -> once_inv w0 y.
Proof. intros Hx Hr. induction Hr; eauto using once_inv_step. Qed.

Lemma run_schedule_rtc sched x y : run_schedule sched x = Some y -> rtc sched_step x y.
Proof.
  revert x. induction sched as [|i sched IH]; intros [ts w] H; simpl in H; [by simplify_eq|].
  destruct (ts !! i) as [t|] eqn:Hi; [|done].
  destruct (step_task t w) as [[pc w']|] eqn:Hs; [|done].
  eapply rtc_l; [by econstructor|]. by apply IH.
Qed.

(** ** Theorems *)

(** Run alone, with enough segments, the call split at its
    [await]s computes exactly what [finish_game] computes: the same
    outcome, the same [game_states] and the same database, on every
    branch.  The segments are a faithful cut of the function, so an
    interleaving of them is an execution of the code. *)
Theorem run_alone_finish_game CONFIG config room gs db n :
  finish_fuel gs room <= n ->
  run_alone n (mkTask CONFIG config room PcCheck) (gs, db) = Some (finish_game CONFIG config room (gs, db)).
Proof.
  unfold finish_fuel, finish_game. intros Hn. destruct n as [|n]; [destruct (get gs _); lia|].
  rewrite run_alone_S. cbn [t_pc]. unfold step_task. cbn [t_pc t_room]. cbv beta iota zeta. cbn [t_CONFIG t_config].
  destruct (get gs (room_id room)) as [st|] eqn:Hg; [|destruct n; [lia|]; reflexivity].
  destruct n as [|n]; [lia|].
  destruct (finished st); [reflexivity|].
  destruct (played_cards (table st)) as [l|]; [|reflexivity].
  destruct (score_results CONFIG (rank_played config l)) as [results|]; [|reflexivity].
  step_alone_next. unfold Ledger.record_round. cbn [fc_rid fc_players fc_time fc_results].
  destruct n as [|n]; [lia|]. case_decide; [reflexivity|].
  rewrite (run_alone_loop (mkCtx (room_id room) results (keys (table st)) (game_time st) st)
            (Ledger.next_id (map Ledger.session_id (Ledger.sessions_table db))) (keys (table st)));
    [done|done|].
  unfold keys. rewrite length_map. lia.
Qed.

Lemma run_alone_finish_game_witness :
  finish_fuel ex_gs ex_r1 <= 11 /\
  run_alone 11 (mkTask ex_cfg ex_cfg ex_r1 PcCheck) (ex_gs, ex_db) =
  Some (finish_game ex_cfg ex_cfg ex_r1 (ex_gs, ex_db)).
Proof.
  assert (H : finish_fuel ex_gs ex_r1 <= 11) by (vm_compute; lia).
  split; [exact H|]. exact (run_alone_finish_game _ _ _ _ _ _ H).
Defined.

(** C38. Whatever the interleaving of [finish_game] calls started on
    rounds not yet finished, on every room at most one call gets past
    the session insert of line 139 (to the points updates, or to its
    return), and none if the room already had a session row: the
    [UNIQUE] constraint on [game_sessions.room_id] makes every later call
    on the room raise [IntegrityError] at the insert, so no round is
    scored twice. *)
Theorem finish_at_most_once ts w0 x :
  Forall (fun t => t_pc t = PcCheck) ts -> rtc sched_step (ts, w0) x ->
  forall rid, length (filter (passed_on rid) x.1) <= 1 /\
              (scored rid w0 -> filter (passed_on rid) x.1 = []).
Proof.
  intros Hts Hr rid. destruct (once_inv_reachable w0 _ _ (once_inv_init w0 ts Hts) Hr) as [_ Hc].
  specialize (Hc rid). split; [repeat case_decide; lia|]. intros H0.
  rewrite (decide_True (P := scored rid w0)) in Hc by done.
  apply length_zero_iff_nil. repeat case_decide; lia.
Qed.

Lemma finish_at_most_once_witness :
  Forall (fun t => t_pc t = PcCheck) [ex_task ex_r1; ex_task ex_r1] /\
  exists x, run_schedule [0; 1; 0; 1] ([ex_task ex_r1; ex_task ex_r1], (ex_gs, ex_db)) = Some x /\
    length (filter (passed_on "R1") x.1) <= 1 /\
    (scored "R1" (ex_gs, ex_db) -> filter (passed_on "R1") x.1 = []).
Proof.
  assert (Hf : Forall (fun t => t_pc t = PcCheck) [ex_task ex_r1; ex_task ex_r1]) by repeat constructor.
  split; [exact Hf|]. eexists. split; [vm_compute; reflexivity|].
  apply (finish_at_most_once _ _ _ Hf). apply run_schedule_rtc with [0; 1; 0; 1]. vm_compute. reflexivity.
Defined.

(** On the two rooms above: the points update of lines 143-149 is a read-modify-write with
    an [await] between the read and the write.  Two calls finishing
    rooms that share a player, both returning their results, leave the
    player's points at 0 when run one after the other (-10 for losing
    [R1], +10 for winning [R2]) but at 10 when both read the row before
    either writes it: the first update is lost. *)
Lemma lost_points_update_example :
  (fun x => (forallb returned x.1, user_points x.2.2 "alice")) <$>
    run_schedule ex_sequential ([ex_task ex_r1; ex_task ex_r2], (ex_gs, ex_db)) = Some (true, Some 0%Z) /\
  (fun x => (forallb returned x.1, user_points x.2.2 "alice")) <$>
    run_schedule ex_interleaved ([ex_task ex_r1; ex_task ex_r2], (ex_gs, ex_db)) = Some (true, Some 10%Z).
Proof. split; vm_compute; reflexivity. Qed.

Lemma find_user_set_points db p u np :
  Ledger.find_user db p = Some u ->
  Ledger.find_user (Ledger.mkDB (Ledger.set_points (Ledger.user_id u) np (Ledger.users_table db))
                      (Ledger.sessions_table db) (Ledger.records_table db)) p =
  Some (Ledger.mkUser (Ledger.user_id u) (Ledger.username u) (Ledger.password u) np).
Proof.
  intros Hu. unfold Ledger.find_user at 1. cbn [Ledger.users_table]. unfold Ledger.set_points.
  rewrite Ledger.find_map_username by (intros v; simpl; by case_decide).
  fold (Ledger.find_user db p). rewrite Hu. simpl. by rewrite decide_True.
Qed.

Lemma run_schedule_cons i sched ts w t pc w' :
  ts !! i = Some t -> step_task t w = Some (pc, w') ->
  run_schedule (i :: sched) (ts, w) = run_schedule sched (<[i := with_pc pc t]> ts, w').
Proof. intros Hi Hs. simpl. by rewrite Hi, Hs. Qed.

Lemma step_fetch t c session p ps gs db u :
  t_pc t = PcFetch c session (p :: ps) -> Ledger.find_user db p = Some u ->
  step_task t (gs, db) = Some (PcUpdate c session p u ps, (gs, db)).
Proof. intros Hp Hu. unfold step_task. by rewrite Hp, Hu. Qed.

Lemma step_update t c session p u ps gs db :
  step_task (with_pc (PcUpdate c session p u ps) t) (gs, db) =
    Some (PcRecord c session p u ps,
          (gs, Ledger.mkDB (Ledger.set_points (Ledger.user_id u)
                              (Ledger.points u + get_default (fc_results c) p 0)%Z (Ledger.users_table db))
                 (Ledger.sessions_table db) (Ledger.records_table db))).
Proof. done. Qed.

Lemma lookup_insert_task (ts : list FTask) i t t' :
  ts !! i = Some t -> <[i := t']> ts !! i = Some t'.
Proof.
  intros Hi. rewrite list_lookup_insert. case_decide as H; [done|].
  exfalso. apply H. split; [done|by eapply lookup_lt_Some].
Qed.

Lemma lookup_insert_other (ts : list FTask) i j t' :
  i <> j -> <[i := t']> ts !! j = ts !! j.
Proof. intros Hij. by apply list_lookup_insert_ne. Qed.

(** C39. The points update of lines 143-149 is a read-modify-write with
    an [await] between the read (line 143) and the write (line 149).
    Whenever two calls [i] and [j] are both about to fetch the row of
    the same player [p], who has an account: run one after the other
    (fetch and update of [i], then of [j]), the player's points gain both
    score changes; interleaved (both fetch, then both update), they gain
    only the change of the call that writes last, and the other is
    lost. *)
Theorem lost_points_update ts gs db i j ti tj c1 s1 ps1 c2 s2 ps2 p u :
  i <> j -> ts !! i = Some ti -> ts !! j = Some tj ->
  t_pc ti = PcFetch c1 s1 (p :: ps1) -> t_pc tj = PcFetch c2 s2 (p :: ps2) ->
  Ledger.find_user db p = Some u ->
  (exists y, run_schedule [i; i; j; j] (ts, (gs, db)) = Some y /\
     user_points y.2.2 p =
       Some (Ledger.points u + get_default (fc_results c1) p 0 + get_default (fc_results c2) p 0)%Z) /\
  (exists y, run_schedule [i; j; i; j] (ts, (gs, db)) = Some y /\
     user_points y.2.2 p = Some (Ledger.points u + get_default (fc_results c2) p 0)%Z).
Proof.
  intros Hij Hi Hj Hpi Hpj Hu.
  pose proof (lookup_insert_other ts i j (with_pc (PcUpdate c1 s1 p u ps1) ti) Hij) as Hj1.
  split; eexists; split.
  - rewrite (run_schedule_cons _ _ _ _ _ _ _ Hi (step_fetch _ _ _ _ _ gs _ _ Hpi Hu)).
    rewrite (run_schedule_cons _ _ _ _ _ _ _ (lookup_insert_task _ _ _ _ Hi) (step_update _ _ _ _ _ _ gs db)).
    rewrite (run_schedule_cons _ _ _ _ _ _ _
               (eq_trans (lookup_insert_other _ _ _ _ Hij) (eq_trans Hj1 Hj))
               (step_fetch _ _ _ _ _ gs _ _ Hpj (find_user_set_points _ _ _ _ Hu))).
    rewrite (run_schedule_cons _ _ _ _ _ _ _ (lookup_insert_task _ _ _ _ (eq_trans (lookup_insert_other _ _ _ _ Hij) (eq_trans Hj1 Hj)))
               (step_update _ _ _ _ _ _ gs _)).
    reflexivity.
  - unfold user_points. cbn [snd Ledger.points].
    rewrite (find_user_set_points _ _ _ _ (find_user_set_points _ _ _ _ Hu)). simpl. repeat f_equal; lia.
  - rewrite (run_schedule_cons _ _ _ _ _ _ _ Hi (step_fetch _ _ _ _ _ gs _ _ Hpi Hu)).
    rewrite (run_schedule_cons _ _ _ _ _ _ _ (eq_trans Hj1 Hj) (step_fetch _ _ _ _ _ gs _ _ Hpj Hu)).
    rewrite (run_schedule_cons _ _ _ _ _ _ _
               (eq_trans (lookup_insert_other _ _ _ _ (not_eq_sym Hij)) (lookup_insert_task _ _ _ _ Hi))
               (step_update _ _ _ _ _ _ gs db)).
    rewrite (run_schedule_cons _ _ _ _ _ _ _
               (eq_trans (lookup_insert_other _ _ _ _ Hij) (lookup_insert_task _ _ _ _ (eq_trans Hj1 Hj)))
               (step_update _ _ _ _ _ _ gs _)). reflexivity.
  - unfold user_points. cbn [snd].
    (* the second update writes from the row [j] read before the first *)
    rewrite (find_user_set_points _ p
               (Ledger.mkUser (Ledger.user_id u) (Ledger.username u) (Ledger.password u)
                  (Ledger.points u + get_default (fc_results c1) p 0)%Z) _
               (find_user_set_points _ _ _ _ Hu)).
    done.
Qed.

(** The two calls on [R1] and [R2] after the schedule [0; 0; 1; 1; 1; 1; 1]:
    both have inserted their session, the call on [R2] has updated
    carol, and both are about to fetch alice's row. *)
Definition ex_mid : list FTask * FWorld :=
  default ([], (ex_gs, ex_db)) (run_schedule [0; 0; 1; 1; 1; 1; 1] ([ex_task ex_r1; ex_task ex_r2], (ex_gs, ex_db))).
Definition ex_t (i : nat) : FTask := default (ex_task ex_r1) (ex_mid.1 !! i).
Definition ex_ctx0 : FCtx := mkCtx "" [] [] 0 (mkState [] [] [] [] 0 false).
Definition ex_fetch (i : nat) : FCtx * Z :=
  match t_pc (ex_t i) with PcFetch c session _ => (c, session) | _ => (ex_ctx0, 0%Z) end.

Lemma lost_points_update_witness :
  (0 <> 1 /\ ex_mid.1 !! 0 = Some (ex_t 0) /\ ex_mid.1 !! 1 = Some (ex_t 1) /\
   t_pc (ex_t 0) = PcFetch (ex_fetch 0).1 (ex_fetch 0).2 ("alice" :: ["bob"]) /\
   t_pc (ex_t 1) = PcFetch (ex_fetch 1).1 (ex_fetch 1).2 ("alice" :: []) /\
   Ledger.find_user ex_mid.2.2 "alice" = Some (Ledger.mkUser 1 "alice" "pw" 0)) /\
  (exists y, run_schedule [0; 0; 1; 1] (ex_mid.1, (ex_mid.2.1, ex_mid.2.2)) = Some y /\
     user_points y.2.2 "alice" =
       Some (Ledger.points (Ledger.mkUser 1 "alice" "pw" 0) + get_default (fc_results (ex_fetch 0).1) "alice" 0
             + get_default (fc_results (ex_fetch 1).1) "alice" 0)%Z) /\
  (exists y, run_schedule [0; 1; 0; 1] (ex_mid.1, (ex_mid.2.1, ex_mid.2.2)) = Some y /\
     user_points y.2.2 "alice" =
       Some (Ledger.points (Ledger.mkUser 1 "alice" "pw" 0) + get_default (fc_results (ex_fetch 1).1) "alice" 0)%Z).
Proof.
  assert (H : 0 <> 1 /\ ex_mid.1 !! 0 = Some (ex_t 0) /\ ex_mid.1 !! 1 = Some (ex_t 1) /\
   t_pc (ex_t 0) = PcFetch (ex_fetch 0).1 (ex_fetch 0).2 ("alice" :: ["bob"]) /\
   t_pc (ex_t 1) = PcFetch (ex_fetch 1).1 (ex_fetch 1).2 ("alice" :: []) /\
   Ledger.find_user ex_mid.2.2 "alice" = Some (Ledger.mkUser 1 "alice" "pw" 0)).
  { split; [lia|]. do 4 (split; [vm_compute; reflexivity|]). vm_compute; reflexivity. }
  split; [exact H|]. destruct H as (H01 & H0 & H1 & Hp0 & Hp1 & Hu).
  exact (lost_points_update ex_mid.1 ex_mid.2.1 ex_mid.2.2 0 1 (ex_t 0) (ex_t 1)
           (ex_fetch 0).1 (ex_fetch 0).2 ["bob"] (ex_fetch 1).1 (ex_fetch 1).2 [] "alice"
           (Ledger.mkUser 1 "alice" "pw" 0) H01 H0 H1 Hp0 Hp1 Hu).
Defined.

End Interleave.
